(* ===== verification/_CoqProject ===== *)
-Q . S2P
Prelude.v
GoStrings.v
Quote.v
Fold.v
Base64.v
Node.v
Pattern.v
NodeTheory.v
RouteTable.v
Effects.v
FastHTTP.v
Core.v
Router.v
RouterTheory.v
Registration.v
Literal.v
RouterProps.v
Balancer.v
Health.v
Net.v
Proxy.v
ProxyTheory.v
ProxyProps.v
Tcp.v
Relay.v
TcpProps.v
RelayProps.v
Middleware.v
Jwt.v
MiddlewareProps.v
Caching.v
Limiting.v
Validation.v
Aliases.v
ValidationProps.v
Uuid.v
Logging.v
Json.v
OpenApi.v
OpenApiTheory.v
OpenApiDoc.v
OpenApiProps.v
Protocol.v
Mcp.v
Mqtt.v
WebSocket.v
Keepalive.v
GraphQL.v
Grpc.v
ProtocolProps.v
App.v
AppProps.v
Docs.v
DocsProps.v
Mount.v
MountProps.v
Serve.v
ServeProps.v
