(* ===== verification/Prelude.v ===== *)
(** * Goichi: a verification development of the goichi web framework

    Goichi is a web framework in Go on top of fasthttp: a router over a radix tree,
    middleware, a reverse proxy and load balancer, and protocol servers (MCP, MQTT,
    WebSocket, GraphQL, gRPC) that share one authentication. This library models the
    framework's own logic and proves what makes it correct. It is a shallow embedding:
    Go functions are Rocq functions, shared mutable state is passed explicitly,
    panics and errors are values.

    ** How the program is put together

    An [App] ([app.go]) owns a [Router] ([router.go]), a registry of protocol servers
    ([protocol/base.go]) and the configuration. Routes are registered as entries; the
    first request compiles them into one radix tree per method ([node.go]), each
    handler wrapped in the global middleware, the authentication middleware and the
    route's own; the documentation pages are routes, made from the others by reflection on
    their models ([openapi/]). A request is looked up, run through its compiled handler, and its
    error, if any, goes to the error handler. Middleware ([middleware/]) are functions
    from handlers to handlers; the proxy ([proxy/]) is one of them, and balances over
    targets a health checker watches. Setting a JWT configuration installs the
    middleware on the router and hands the secret to every registered server. [Listen]
    checks the configuration, builds the tables, starts the protocol servers and serves;
    in multi-process mode a master supervises copies of the process ([app_unix.go]).

    ** Conventions

    - A Go string or byte slice is [bytes], a list of ASCII characters used as bytes.
    - An [int], [int64] or [uint64] is a [Z] with [wrap_i64] or [wrap_u64] written where
      the code can overflow; counters that cannot are left unwrapped.
    - An [error] is a value of [Effects.error], [nil] is [None]; a panic is [Panic v], an
      outcome of the monad [Effects.M] which threads the state. A panic on a goroutine of
      its own, where nothing recovers, ends the process: it is [Crash v], which no deferred
      function sees. [Timeout] turns every panic of the handlers behind it into one.
    - A handler is [Core.hfn St], a computation over the request context and a state
      [St] shared by the application; a nil function value is [None]. A middleware
      that owns state reaches it through the class [Middleware.Has]; the clock is the
      class [Middleware.Clock]. A context over a copy of a request ([Timeout]) keeps the
      connection's own in [c_outer], for functions that captured it
      ([App.MiddlewareAsProtocol]).
    - Shared pointers are positions in a store: route infos ([Router.infos]), targets
      ([Balancer.store]), protocol servers ([App.deref], [App.update]).
    - Go visits maps in any order: results are sorted where the code sorts them, and
      elsewhere the order is an argument or theorems do not depend on it.
    - Code outside the repository is a class of operations with a class of laws that
      state documented behaviour, and a concrete instance on which the witnesses
      compute: [FastHTTP] and [Simple], [JWTLib] and [SimpleJWT], [MQTTLib] and
      [SimpleMQTT], [PahoLib], [Upstream]. The laws of the JWT library are two classes:
      what an accepted token has passed ([JWTSound]), all that a refusal needs, and also
      what is accepted and what signing makes ([JWTLaws]). The WebSocket upgrader, gqlgen,
      the hashes and random sources are arguments; so are the tables of the Go library that
      are too large to write out ([Unicode], printable characters; [CaseFold], case folding;
      [GoFloat], the text of a floating-point number).
    - A socket, the operating system and the network answer as an argument says, step by
      step; where several goroutines share state, the order of their steps is an
      explicit sequence of events and theorems hold for each.

    ** The files

    - [Prelude]: this header, integers, loops over slices, shared lemmas and tactics.
    - [GoStrings], [Quote], [Fold], [Base64]: the functions of [strings] the code uses;
      UTF-8 and the [%q] of [fmt]; comparison under case folding; base64 ([B64Encode], the
      icon of [middleware/favicon.go]).
    - [Node]: [node.go], [insert], [match], [search] line by line. [Pattern] and
      [NodeTheory]: route patterns, the well-formedness of trees, and what insertion
      and search do to them. [RouteTable]: the abstract specification, a list of
      registrations and which of them a path selects.
    - [Effects], [FastHTTP], [Core]: panics and errors, the HTTP engine, the request
      context ([core/types.go], [response.go], [utils/conv.go]).
    - [Router], [RouterTheory], [Registration]: [router.go], [route.go], [group.go];
      compiled tables; registration calls in any order, nested groups. [Literal]: routes
      without parameters. [RouterProps]: their properties.
    - [Balancer], [Health], [Proxy], [ProxyTheory], [ProxyProps]: [proxy/balancer.go],
      [health.go], [proxy.go], [websocket.go]. [Net]: addresses and what dialling an
      upstream asks for, shared by [Proxy] and [Tcp]. [Tcp], [Relay], [TcpProps],
      [RelayProps]: [proxy/tcp.go] and the piped upgrade of [websocket.go]; a connection
      from the accept loop to its hooks, and its two directions.
    - [Middleware], [Jwt], [MiddlewareProps]: [middleware/]. [Caching], [Limiting]: requests
      that share the cache of [cache.go], and requests at several limiters that share the
      visitors of [ratelimit.go], as machines.
    - [Validation], [ValidationProps]: binding and validation in [core/types.go].
      [Aliases]: what the root package re-exports ([status.go], [context.go],
      [handler.go], [response.go]).
    - [Uuid]: [utils/uuid.go]. [Logging]: the log
      lines of [middleware/logger.go], request ids, the statistics of [metrics.go].
    - [Json]: JSON trees, their text and a parser. [OpenApi]: [openapi/generator.go],
      reflection included; [OpenApiTheory] and [OpenApiDoc]: the trees its texts stand
      for; [OpenApiProps].
    - [Protocol]: what the servers share; [Mcp], [Mqtt], [WebSocket], [GraphQL],
      [Grpc]: [protocol/*/]; [ProtocolProps]. [Keepalive]: the pings, the read deadlines
      and the time the callbacks of a WebSocket connection take.
    - [App], [AppProps]: [app.go], [protocol.go], [protocol_middleware.go],
      [validation.go] and the registry of [protocol/base.go].
    - [Docs], [DocsProps]: the documentation pages and what [Listen] does before it
      binds. [Mount], [MountProps]: an application from its configuration calls to the
      reply of [main_handler], servers mounted on its router and servers on ports of
      their own included. [Serve], [ServeProps]: [Listen], [ListenGraceful], [StartProtocols],
      shutdown and the master process.

    ** What the theorems show

    - Routing: the tree built by any sequence of registrations answers every path as the
      abstract table does, static before parameter before catch-all, the choice being
      unique; a later registration of the same shape replaces the earlier one and leaves
      the others; a route without parameters is never shadowed; a request is answered as
      the table prescribes, with the right parameters, HEAD falling back on GET, and 404,
      405 or 204 with a sorted [Allow] header otherwise; middleware runs in the documented
      order; what is registered after the first request is ignored; groups compose.
    - Proxying: a request goes to distinct healthy targets, at most [MaxRetries + 1] of
      them, without hop-by-hop headers and with the forwarding headers set; round robin is
      fair by weight, and with targets of weight one reaches every healthy one; counts of
      active requests are restored; the health checker's single counter implements two
      thresholds on streaks of answers.
    - TCP: the connection limit holds in every reachable state, listeners are not leaked.
      In every interleaving of the two directions each end has received a prefix of what
      the hooks let through from the other, all of it when the copy ends cleanly; a clean
      end closes only the half that was written to; a cancelled relay stops.
    - Middleware: in every interleaving of requests at any limiters, cleaners and the clock
      a request is refused exactly when it is beyond its limiter's limit in the window of its
      visitor; in every interleaving the cache replays what a request for the same key was
      answered within the TTL, evictions change no answer, and in front of the default
      authentication it keeps nothing; tokens round-trip and gate; a log line prints the
      hundredth of a millisecond nearest to the duration it reports. UUIDs have the version
      number and variant they claim and read back to the bits they were made of; version 7
      sorts by time.
    - Binding and validation: when [Bind] succeeds every field holds what its source converts
      to and every rule is satisfied, and when it fails the error says which step failed and
      why; the validator implements a declarative specification, one message for each broken
      rule, the e-mail check a grammar, and
      pagination never divides by zero.
    - Documentation: the text of the generator is JSON that denotes the document of the
      routes, whenever the names in it are safe to quote; the document lists exactly the
      routes it is given, with their path parameters; the example of a model conforms to
      its schema; generation ends exactly when no described type leads back to itself;
      starting an application leaves its routes as they were and makes the pages answer:
      the body of the schema's page, as a client of the application receives it, parses to
      the document of the routes registered by any sequence of calls.
    - Protocols and application: a protected server only refuses a stranger; the last JWT
      configuration reaches the router and every server whatever the order of calls;
      protected routes answer 401 whatever their handler is; no panic of a request's own
      goroutine leaves the main handler, and only crashes of other goroutines end the
      process; a WebSocket server mounted on the application's port hands to the upgrader
      exactly the handshakes that carry a token, while it has room, and a ConnectRPC server
      mounted there answers what no other route matches, its services behind a token too;
      servers on their own ports run the application's middleware in the order of the calls
      and, crashes aside, answer every request; the connections open exceed the maximum by
      fewer than the handshakes in progress at once, and a connection lives while its peer
      answers the pings and no callback takes longer than the peer has to answer; the MQTT
      subscription table implements one handler per filter; a gRPC server runs the
      interceptors of the application in the order of the calls that added them, the
      authentication included, on unary calls and on streams.
    - Process model: the table of the master is exactly the set of the processes it started
      that are not reaped yet, as many as configured less the restarts that failed, whichever
      other children the process has.

    Examples named in the property files record where the code does not do what it
    means to; each stands next to the properties of its component.

    ** Fuel and bounds

    [insert] recurses on the rest of the path: its fuel is one more than the length
    ([insert_fuel_enough]). [match] is structural. The loop of [itoa] has the 20 bytes of
    its buffer as fuel, enough for a 63-bit number ([itoa_round_trip]); [decimal] likewise.
    The walk of the documentation generator may really not end: its fuel bounds the depth, a
    result does not depend on it, and [OpenApiProps.reflectModel_terminates_iff] says for
    which types some fuel is enough. [Serve.monitor] and the relay consume a finite sequence
    of events. The proxy's draw is bounded as in the code, by the number of targets plus
    one. Theorems on subscription ids and on counts of active requests assume fewer than [2
    ^ 63] of them.

    ** What is not modelled

    Goroutine scheduling, except where the code's interleaving matters (the accept loop,
    both directions of a relay, WebSocket arrivals, requests that share a cache or the
    limiters' table, probe rounds, the environment of a proxied request between two
    attempts): what [Listen] starts in the background is sequenced before the event that
    ends the server. Tickers and timers (their bodies are modelled, the moment they fire is
    an argument). Delivery of operating system signals, an argument too. The parsing of
    multipart forms and of floating-point numbers, and [http.ServeMux], arguments as well:
    they are the engine's and the Go library's. The text of log lines other than those of
    the loggers. *)

From stdpp Require Export base gmap strings list sorting.
From Stdlib Require Export Ascii ZArith Lia.

(** ** Go data *)

(** A Go [string] (or [[]byte]) is a sequence of bytes. *)
Abbreviation byte := ascii.
Abbreviation bytes := (list ascii).

Declare Scope go_scope.
Delimit Scope go_scope with go.

#[global] Arguments Ascii.eqb : simpl never.

(** String literals of the source. *)
Definition B (s : String.string) : bytes := String.list_ascii_of_string s.

#[global] Arguments B : simpl never.

(** The same with every ['] standing for a double quote. *)
Definition Q (s : String.string) : bytes :=
  (λ c, if Ascii.eqb c "'" then ascii_of_nat 34 else c) <$> B s.
#[global] Arguments Q : simpl never.

(** Machine integers are [Z] with the wrap-around written out. *)
Definition wrap_u64 (z : Z) : Z := (z mod 2 ^ 64)%Z.
Definition wrap_i64 (z : Z) : Z := ((z + 2 ^ 63) mod 2 ^ 64 - 2 ^ 63)%Z.

(** [time.Second] *)
Definition Second : Z := 1000000000.

(** ** Loops over slices

    [for _, x := range l { if v := f(x); v is a result { return v } }]. *)
Section first_some.
Context {A R : Type} (f : A → option R).

Fixpoint first_some (l : list A) : option R :=
  match l with
  | [] => None
  | x :: l' => match f x with Some y => Some y | None => first_some l' end
  end.
End first_some.

(** [for _, x := range l { if p(x) { x.mutate(); return } }]: the first element
    satisfying [p] is updated in place; [None] when the loop falls through. *)
Section update_first.
Context {A : Type} (p : A → bool) (f : A → A).

Fixpoint update_first (l : list A) : option (list A) :=
  match l with
  | [] => None
  | x :: l' =>
      if p x then Some (f x :: l')
      else match update_first l' with
           | Some r => Some (x :: r)
           | None => None
           end
  end.
End update_first.

(** ** Tactics *)

(** Case analysis on the scrutinee of the first match found. *)
Ltac case_on :=
  match goal with
  | |- context [match ?x with _ => _ end] => destruct x eqn:?
  | H : context [match ?x with _ => _ end] |- _ => destruct x eqn:?
  end.

Ltac solve_z := unfold wrap_u64, wrap_i64 in *; Z.to_euclidean_division_equations; lia.

Lemma wrap_i64_le z : (0 ≤ z)%Z → (wrap_i64 z ≤ z)%Z.
Proof. intros Hz. solve_z. Qed.
Lemma wrap_i64_small z : (- 2 ^ 63 ≤ z < 2 ^ 63)%Z → wrap_i64 z = z.
Proof. solve_z. Qed.

Create HintDb goichi.
Create Rewrite HintDb goichi.

(** ** Lemmas on the loops *)

Section first_some_lemmas.
Context {A R : Type} (f : A → option R).

Lemma first_some_None l : first_some f l = None ↔ ∀ x, x ∈ l → f x = None.
Proof.
  induction l as [|x l IH]; simpl; [by split; [set_solver|]|].
  destruct (f x) eqn:E; split; try done.
  - intros Hall. rewrite Hall in E; set_solver.
  - rewrite IH. intros Hl y [->|Hy]%elem_of_cons; eauto.
  - rewrite IH. set_solver.
Qed.

Lemma first_some_Some l y :
  first_some f l = Some y →
  ∃ l1 x l2, l = l1 ++ x :: l2 ∧ f x = Some y ∧ ∀ z, z ∈ l1 → f z = None.
Proof.
  induction l as [|x l IH]; simpl; [done|].
  destruct (f x) eqn:E; intros ?; simplify_eq.
  - exists [], x, l. set_solver.
  - destruct IH as (l1 & z & l2 & -> & Hz & Hl1); [done|].
    exists (x :: l1), z, l2. split_and!; [done..|].
    intros w [->|Hw]%elem_of_cons; eauto.
Qed.

Lemma first_some_ext (g : A → option R) l :
  (∀ x, x ∈ l → f x = g x) → first_some f l = first_some g l.
Proof.
  induction l as [|x l IH]; simpl; [done|]. intros Hfg.
  rewrite (Hfg x), IH; set_solver.
Qed.
End first_some_lemmas.

Section update_first_lemmas.
Context {A : Type} (p : A → bool) (f : A → A).

Lemma update_first_None l :
  update_first p f l = None ↔ ∀ x, x ∈ l → p x = false.
Proof.
  induction l as [|x l IH]; simpl; [by split; [set_solver|]|].
  destruct (p x) eqn:E.
  - split; [done|]. intros Hall. rewrite Hall in E; set_solver.
  - destruct (update_first p f l); split; try done.
    + intros Hall. destruct IH as [_ IH]. discriminate IH. set_solver.
    + intros _ y [->|Hy]%elem_of_cons; [done|]. by apply IH.
Qed.

Lemma update_first_Some l l' :
  update_first p f l = Some l' →
  ∃ l1 x l2, l = l1 ++ x :: l2 ∧ l' = l1 ++ f x :: l2 ∧ p x = true ∧
             ∀ y, y ∈ l1 → p y = false.
Proof.
  revert l'. induction l as [|x l IH]; simpl; intros l'; [done|].
  destruct (p x) eqn:E; intros ?; simplify_eq.
  - exists [], x, l. set_solver.
  - destruct (update_first p f l) as [r|]; simplify_eq.
    destruct (IH r) as (l1 & z & l2 & -> & -> & Hz & Hl1); [done|].
    exists (x :: l1), z, l2. split_and!; [done..|].
    intros y [->|Hy]%elem_of_cons; auto.
Qed.

Lemma update_first_ext (g : A → A) l :
  (∀ x, x ∈ l → p x = true → f x = g x) → update_first p f l = update_first p g l.
Proof.
  induction l as [|x l IH]; simpl; [done|]. intros Hfg.
  rewrite IH by set_solver. destruct (p x) eqn:E; [|done].
  rewrite Hfg; set_solver.
Qed.
End update_first_lemmas.

(** ** Lemmas on lists *)

Lemma NoDup_fmap_inj {A K} (f : A → K) (l : list A) x y :
  NoDup (f <$> l) → x ∈ l → y ∈ l → f x = f y → x = y.
Proof.
  induction l as [|z l IH]; simpl; [by intros _ Hx%not_elem_of_nil|].
  intros [Hz Hl]%NoDup_cons [->|Hx]%elem_of_cons [->|Hy]%elem_of_cons Hf; auto.
  - destruct Hz. rewrite Hf. by apply list_elem_of_fmap_2.
  - destruct Hz. rewrite <- Hf. by apply list_elem_of_fmap_2.
Qed.

Lemma take_length_id {A} (l : list A) : take (length l) l = l.
Proof. by rewrite firstn_all. Qed.
#[export] Hint Rewrite @take_length_id : goichi.

Lemma or_iff_compat_both (A B C D : Prop) : (A ↔ C) → (B ↔ D) → (A ∨ B ↔ C ∨ D).
Proof. tauto. Qed.

Lemma and_iff_compat_both (A B C D : Prop) : (A ↔ C) → (B ↔ D) → (A ∧ B ↔ C ∧ D).
Proof. tauto. Qed.

Lemma app_nil_iff {A} (l k : list A) : l ++ k = [] ↔ l = [] ∧ k = [].
Proof. destruct l; naive_solver. Qed.

Lemma forallb_elem {A} (f : A → bool) l x : forallb f l = true → x ∈ l → f x = true.
Proof. rewrite forallb_forall. intros Hall Hx. by apply Hall, list_elem_of_In. Qed.

(** What each step of a loop preserves, the loop preserves. *)
Lemma fold_left_inv {A X} (P : A → Prop) (f : A → X → A) l a :
  (∀ a x, P a → P (f a x)) → P a → P (fold_left f l a).
Proof. intros Hf. revert a. induction l; simpl; auto. Qed.

(** What each step of a loop leaves alone, the loop leaves alone. *)
Lemma fold_left_same {A X C} (g : A → C) (f : A → X → A) l a :
  (∀ a x, g (f a x) = g a) → g (fold_left f l a) = g a.
Proof. intros Hf. revert a. induction l as [|x l IH]; intros a; simpl; [done|]. by rewrite IH. Qed.
