(* ===== verification/GoStrings.v ===== *)
(** * The functions of Go's [strings] and [slices] packages the source calls

    Byte-level definitions of the standard library functions, with the lemmas
    the components share. Indices are [nat]; [-1] is [None]. *)

From S2P Require Import Prelude.

Definition beqb (a b : bytes) : bool := bool_decide (a = b).

(** [strings.HasPrefix], [strings.HasSuffix] *)
Fixpoint HasPrefix (s pre : bytes) {struct pre} : bool :=
  match pre, s with
  | [], _ => true
  | p :: pre', c :: s' => Ascii.eqb c p && HasPrefix s' pre'
  | _ :: _, [] => false
  end.

Definition HasSuffix (s suf : bytes) : bool := HasPrefix (rev s) (rev suf).

(** [strings.TrimPrefix], [strings.TrimSuffix] *)
Definition TrimPrefix (s pre : bytes) : bytes :=
  if HasPrefix s pre then drop (length pre) s else s.
Definition TrimSuffix (s suf : bytes) : bytes :=
  if HasSuffix s suf then take (length s - length suf) s else s.

Fixpoint drop_while (p : byte → bool) (s : bytes) : bytes :=
  match s with
  | [] => []
  | c :: s' => if p c then drop_while p s' else s
  end.

(** [strings.TrimRight(s, cutset)] *)
Definition TrimRight (s cutset : bytes) : bytes :=
  rev (drop_while (λ c, existsb (Ascii.eqb c) cutset) (rev s)).

(** [strings.IndexByte], and [strings.IndexAny] for an ASCII character set *)
Fixpoint index_where (p : byte → bool) (s : bytes) : option nat :=
  match s with
  | [] => None
  | c :: s' => if p c then Some 0 else S <$> index_where p s'
  end.
Definition IndexByte (s : bytes) (c : byte) : option nat := index_where (Ascii.eqb c) s.
Definition IndexAny (s chars : bytes) : option nat :=
  index_where (λ c, existsb (Ascii.eqb c) chars) s.

(** [strings.Join] *)
Fixpoint Join (l : list bytes) (sep : bytes) : bytes :=
  match l with
  | [] => []
  | [x] => x
  | x :: l' => x ++ sep ++ Join l' sep
  end.

(** [strings.Split(s, sep)] for a one-byte separator *)
Fixpoint Split (s : bytes) (sep : byte) : list bytes :=
  match s with
  | [] => [[]]
  | c :: s' =>
      if Ascii.eqb c sep then [] :: Split s' sep
      else match Split s' sep with
           | x :: l => (c :: x) :: l
           | [] => [[c]]
           end
  end.

(** [strings.TrimSpace]: the UTF-8 encodings of the white space of Unicode are cut off at
    both ends. The last bytes of a string decode to such a character exactly when they are
    its encoding, so the loop from the right works on the reversed string. *)
Definition white_space : list bytes :=
  map ascii_of_nat <$>
    [[9]; [10]; [11]; [12]; [13]; [32]; [194; 133]; [194; 160]; [225; 154; 128]; [226; 128; 128];
     [226; 128; 129]; [226; 128; 130]; [226; 128; 131]; [226; 128; 132]; [226; 128; 133];
     [226; 128; 134]; [226; 128; 135]; [226; 128; 136]; [226; 128; 137]; [226; 128; 138];
     [226; 128; 168]; [226; 128; 169]; [226; 128; 175]; [226; 129; 159]; [227; 128; 128]].
Fixpoint trim_left (fuel : nat) (encodings : list bytes) (s : bytes) : bytes :=
  match fuel with
  | 0 => s
  | S fuel =>
      match first_some (λ e, if HasPrefix s e then Some (drop (length e) s) else None) encodings with
      | Some s' => trim_left fuel encodings s'
      | None => s
      end
  end.
Definition TrimSpace (s : bytes) : bytes :=
  let s := trim_left (length s) white_space s in
  rev (trim_left (length s) ((λ e, rev e) <$> white_space) (rev s)).

(** [strings.Index(s, sub)], [strings.Contains(s, sub)] *)
Fixpoint Index (s sub : bytes) : option nat :=
  if HasPrefix s sub then Some 0
  else match s with [] => None | _ :: s' => S <$> Index s' sub end.
Definition Contains (s sub : bytes) : bool :=
  match Index s sub with Some _ => true | None => false end.

(** ASCII lower case, and comparison without regard to it, as HTTP compares names. *)
Definition to_lower (c : byte) : byte :=
  let n := nat_of_ascii c in
  if (65 <=? n) && (n <=? 90) then ascii_of_nat (n + 32) else c.
Definition same_fold (a b : bytes) : bool := beqb (to_lower <$> a) (to_lower <$> b).

(** [strings.ToLower], [strings.ToUpper] on ASCII text *)
Definition ToLower (s : bytes) : bytes := to_lower <$> s.
Definition to_upper (c : byte) : byte :=
  let n := nat_of_ascii c in
  if (97 <=? n) && (n <=? 122) then ascii_of_nat (n - 32) else c.
Definition ToUpper (s : bytes) : bytes := to_upper <$> s.

(** [strings.Replace(s, old, new, 1)] *)
Definition Replace1 (s old new : bytes) : bytes :=
  match Index s old with
  | Some i => take i s ++ new ++ drop (i + length old) s
  | None => s
  end.

(** The verb [%d] on an [int64]: 20 digits are enough. *)
Fixpoint decimal (fuel : nat) (n : nat) : bytes :=
  match fuel with
  | 0 => []
  | S fuel =>
      (if n <? 10 then [] else decimal fuel (n / 10)) ++ [ascii_of_nat (48 + n mod 10)]
  end.
Definition format_int (z : Z) : bytes :=
  if (z <? 0)%Z then B "-" ++ decimal 20 (Z.to_nat (- z)) else decimal 20 (Z.to_nat z).

(** ** Lemmas *)

Lemma same_fold_refl a : same_fold a a = true.
Proof. unfold same_fold, beqb. by rewrite bool_decide_eq_true. Qed.
Lemma same_fold_spec a b : same_fold a b = true ↔ to_lower <$> a = to_lower <$> b.
Proof. unfold same_fold, beqb. by rewrite bool_decide_eq_true. Qed.
Lemma same_fold_sym a b : same_fold a b = same_fold b a.
Proof. apply eq_true_iff_eq. rewrite !same_fold_spec. by split. Qed.
Lemma same_fold_congr a b c : same_fold a b = true → same_fold a c = same_fold b c.
Proof. rewrite same_fold_spec. intros Hab. unfold same_fold. by rewrite Hab. Qed.

Lemma beqb_eq a b : beqb a b = true ↔ a = b.
Proof. unfold beqb. by rewrite bool_decide_eq_true. Qed.
Lemma beqb_neq a b : beqb a b = false ↔ a ≠ b.
Proof. unfold beqb. by rewrite bool_decide_eq_false. Qed.
Lemma beqb_refl a : beqb a a = true.
Proof. by apply beqb_eq. Qed.
#[export] Hint Rewrite beqb_refl : goichi.

Lemma HasPrefix_spec s pre : HasPrefix s pre = true ↔ ∃ r, s = pre ++ r.
Proof.
  revert s. induction pre as [|p pre IH]; intros s; simpl; [by split; [exists s|]|].
  destruct s as [|c s]; [by split; [|intros [r Hr]]|].
  rewrite andb_true_iff, IH, Ascii.eqb_eq. split.
  - intros [-> [r ->]]. by exists r.
  - intros [r Hr]. simplify_eq. eauto.
Qed.

Lemma HasPrefix_app pre r : HasPrefix (pre ++ r) pre = true.
Proof. apply HasPrefix_spec. eauto. Qed.

Lemma TrimPrefix_app pre r : TrimPrefix (pre ++ r) pre = r.
Proof. unfold TrimPrefix. by rewrite HasPrefix_app, drop_app_length. Qed.

Lemma index_where_Some p s i :
  index_where p s = Some i →
  i < length s ∧ (∀ c, s !! i = Some c → p c = true) ∧
  (∀ c, c ∈ take i s → p c = false).
Proof.
  revert i. induction s as [|c s IH]; intros i; simpl; [done|].
  destruct (p c) eqn:E; intros H; simplify_eq/=.
  - split_and!; [lia|naive_solver|set_solver].
  - destruct (index_where p s) as [j|]; simplify_eq/=.
    destruct (IH j) as (? & ? & ?); [done|]. split_and!; [lia|done|].
    intros d [->|Hd]%elem_of_cons; auto.
Qed.

Lemma index_where_None p s : index_where p s = None ↔ ∀ c, c ∈ s → p c = false.
Proof.
  induction s as [|c s IH]; simpl; [by split; [set_solver|]|].
  destruct (p c) eqn:E.
  - split; [done|]. intros Hall. rewrite Hall in E; set_solver.
  - rewrite fmap_None, IH. set_solver.
Qed.

(** [Split] and [Join] on a one-byte separator are inverse to each other. *)
Lemma Split_nonempty s sep : Split s sep ≠ [].
Proof. induction s as [|c s IH]; simpl; [done|]. case_match; [done|]. by destruct (Split s sep). Qed.

Lemma Join_Split s sep : Join (Split s sep) [sep] = s.
Proof.
  induction s as [|c s IH]; [done|]. simpl.
  pose proof (Split_nonempty s sep) as Hne.
  destruct (Ascii.eqb_spec c sep) as [->|Hc]; destruct (Split s sep) as [|x l]; try done.
  - simpl in *. by rewrite IH.
  - destruct l; simpl in *; by rewrite IH.
Qed.

Lemma Split_no_sep s sep : (∀ c, c ∈ s → c ≠ sep) → Split s sep = [s].
Proof.
  induction s as [|c s IH]; intros Hs; [done|]. simpl.
  rewrite IH by (intros d Hd; apply Hs; by right).
  destruct (Ascii.eqb_spec c sep) as [->|]; [|done]. by destruct (Hs sep); [left|].
Qed.

Lemma Split_app_sep s r sep :
  (∀ c, c ∈ s → c ≠ sep) → Split (s ++ sep :: r) sep = s :: Split r sep.
Proof.
  induction s as [|c s IH]; intros Hs; simpl; [by rewrite Ascii.eqb_refl|].
  rewrite IH by (intros d Hd; apply Hs; by right).
  destruct (Ascii.eqb_spec c sep) as [->|]; [|done]. by destruct (Hs sep); [left|].
Qed.

Lemma Split_Join l sep :
  l ≠ [] → Forall (λ s, ∀ c, c ∈ s → c ≠ sep) l → Split (Join l [sep]) sep = l.
Proof.
  induction l as [|x l IH]; [done|]. intros _ [Hx Hl]%Forall_cons.
  destruct l as [|y l]; [by apply Split_no_sep|].
  change (Join (x :: y :: l) [sep]) with (x ++ sep :: Join (y :: l) [sep]).
  rewrite Split_app_sep by done. f_equal. by apply IH.
Qed.
