(* ===== verification/Quote.v ===== *)
(** * UTF-8 and [strconv.Quote]

    The verb [%q] of [fmt] on a string, which the documentation generator uses to
    write JSON strings, with the reading of a JSON string literal (RFC 8259) it is
    compared against: [unquote_Quote] says on which strings the two agree. Which
    characters outside ASCII are printable is a table of Go's [unicode] package: an
    argument of the definitions, the class [Unicode]. *)

From S2P Require Import Prelude GoStrings.

Class Unicode := { uni_IsPrint : Z → bool }.

Definition code (c : byte) : Z := Z.of_nat (nat_of_ascii c).
Definition byte_of (z : Z) : byte := ascii_of_nat (Z.to_nat z).

Definition between (lo hi z : Z) : bool := (lo <=? z)%Z && (z <=? hi)%Z.

(** ** [unicode/utf8] *)

Definition RuneError : Z := 65533.
(** [utf8.ValidRune] *)
Definition ValidRune (r : Z) : bool := between 0 55295 r || between 57344 1114111 r.

(** A continuation byte. *)
Definition tail_byte (z : Z) : bool := between 128 191 z.

(** The range of the second byte, by the first one ([acceptRanges]). *)
Definition accept (b0 : Z) : Z * Z :=
  if (b0 =? 224)%Z then (160, 191)%Z
  else if (b0 =? 237)%Z then (128, 159)%Z
  else if (b0 =? 240)%Z then (144, 191)%Z
  else if (b0 =? 244)%Z then (128, 143)%Z
  else (128, 191)%Z.

(** [utf8.DecodeRuneInString(s)]: the rune and the number of bytes it takes. *)
Definition DecodeRune (s : bytes) : Z * nat :=
  match code <$> take 4 s with
  | [] => (RuneError, 0)
  | b0 :: r =>
      if (b0 <? 128)%Z then (b0, 1)
      else
        let '(lo, hi) := accept b0 in
        match r with
        | b1 :: r =>
            if negb (between lo hi b1) then (RuneError, 1)
            else if between 194 223 b0 then (((b0 - 192) * 64 + (b1 - 128))%Z, 2)
            else
              match r with
              | b2 :: r =>
                  if negb (tail_byte b2) then (RuneError, 1)
                  else if between 224 239 b0 then
                    (((b0 - 224) * 4096 + (b1 - 128) * 64 + (b2 - 128))%Z, 3)
                  else
                    match r with
                    | b3 :: _ =>
                        if negb (tail_byte b3) then (RuneError, 1)
                        else if between 240 244 b0 then
                          (((b0 - 240) * 262144 + (b1 - 128) * 4096 + (b2 - 128) * 64
                             + (b3 - 128))%Z, 4)
                        else (RuneError, 1)
                    | [] => (RuneError, 1)
                    end
              | [] => (RuneError, 1)
              end
        | [] => (RuneError, 1)
        end
  end.

(** [utf8.AppendRune] on a valid rune. *)
Definition EncodeRune (r : Z) : bytes :=
  byte_of <$>
    (if (r <? 128)%Z then [r]
     else if (r <? 2048)%Z then [192 + r / 64; 128 + r mod 64]%Z
     else if (r <? 65536)%Z then [224 + r / 4096; 128 + (r / 64) mod 64; 128 + r mod 64]%Z
     else [240 + r / 262144; 128 + (r / 4096) mod 64; 128 + (r / 64) mod 64;
           128 + r mod 64]%Z).

(** [for len(s) > 0 { r, width := decode(s); ..; s = s[width:] }]: the runes of a
    string, each with its bytes. *)
Fixpoint runes_fuel (n : nat) (s : bytes) : list (Z * bytes) :=
  match n, s with
  | S n, _ :: _ =>
      let '(r, w) := DecodeRune s in (r, take w s) :: runes_fuel n (drop w s)
  | _, _ => []
  end.
Definition runes (s : bytes) : list (Z * bytes) := runes_fuel (length s) s.

(** ** [strconv.Quote] *)

Definition hexdigit (z : Z) : byte := nth (Z.to_nat z) (B "0123456789abcdef") "0"%char.
(** The [n] low hexadecimal digits of [z], the most significant first. *)
Fixpoint hexdigits (n : nat) (z : Z) : bytes :=
  match n with
  | 0 => []
  | S n => hexdigits n (z / 16)%Z ++ [hexdigit (z mod 16)%Z]
  end.

Definition dquote : byte := ascii_of_nat 34.
Definition bslash : byte := ascii_of_nat 92.

Section quote.
Context `{U : Unicode}.

Definition IsPrint (r : Z) : bool :=
  if (r <? 128)%Z then between 32 126 r else uni_IsPrint r.

Definition short_escape (r : Z) : option byte :=
  if (r =? 7)%Z then Some "a"%char else if (r =? 8)%Z then Some "b"%char
  else if (r =? 12)%Z then Some "f"%char else if (r =? 10)%Z then Some "n"%char
  else if (r =? 13)%Z then Some "r"%char else if (r =? 9)%Z then Some "t"%char
  else if (r =? 11)%Z then Some "v"%char else None.

Definition appendEscapedRune (r : Z) : bytes :=
  if (r =? 34)%Z || (r =? 92)%Z then [bslash; byte_of r]
  else if IsPrint r then EncodeRune r
  else match short_escape r with
       | Some c => [bslash; c]
       | None =>
           if (r <? 32)%Z || (r =? 127)%Z then bslash :: "x"%char :: hexdigits 2 r
           else if negb (ValidRune r) then bslash :: "u"%char :: hexdigits 4 RuneError
           else if (r <? 65536)%Z then bslash :: "u"%char :: hexdigits 4 r
           else bslash :: "U"%char :: hexdigits 8 r
       end.

Definition escape (x : Z * bytes) : bytes :=
  let '(r, raw) := x in
  match raw with
  | [c] => if (r =? RuneError)%Z then bslash :: "x"%char :: hexdigits 2 (code c)
           else appendEscapedRune r
  | _ => appendEscapedRune r
  end.

Definition Quote (s : bytes) : bytes := dquote :: mjoin (escape <$> runes s) ++ [dquote].

(** ** Reading a JSON string *)

Definition hexval (c : byte) : option Z :=
  let z := code c in
  if between 48 57 z then Some (z - 48)%Z
  else if between 97 102 z then Some (z - 87)%Z
  else if between 65 70 z then Some (z - 55)%Z
  else None.
Definition hex4 (a b c d : byte) : option Z :=
  match hexval a, hexval b, hexval c, hexval d with
  | Some a, Some b, Some c, Some d => Some (a * 4096 + b * 256 + c * 16 + d)%Z
  | _, _, _, _ => None
  end.

(** The character a two-character escape of JSON stands for. *)
Definition unescape (c : byte) : option byte :=
  let z := code c in
  if (z =? 34)%Z || (z =? 92)%Z || (z =? 47)%Z then Some c
  else if (z =? 98)%Z then Some (byte_of 8) else if (z =? 102)%Z then Some (byte_of 12)
  else if (z =? 110)%Z then Some (byte_of 10) else if (z =? 114)%Z then Some (byte_of 13)
  else if (z =? 116)%Z then Some (byte_of 9) else None.

(** The rest of a string literal after its opening quote: its content and what
    follows. Surrogate pairs are not read: [%q] writes none. *)
Fixpoint unquote (s : bytes) : option (bytes * bytes) :=
  match s with
  | [] => None
  | c :: s =>
      if Ascii.eqb c dquote then Some ([], s)
      else if Ascii.eqb c bslash then
        match s with
        | [] => None
        | e :: s =>
            match unescape e with
            | Some x => prod_map (cons x) id <$> unquote s
            | None =>
                if negb (Ascii.eqb e "u") then None
                else match s with
                     | a :: b :: c :: d :: s =>
                         match hex4 a b c d with
                         | Some r => if ValidRune r then prod_map (app (EncodeRune r)) id <$> unquote s
                                     else None
                         | None => None
                         end
                     | _ => None
                     end
            end
        end
      else if (code c <? 32)%Z then None
      else prod_map (cons c) id <$> unquote s
  end.

(** The runes [%q] writes the way JSON reads them: valid UTF-8, no control character
    but the five JSON has an escape for, nothing unprintable above U+FFFF. *)
Definition json_rune (x : Z * bytes) : bool :=
  let '(r, raw) := x in
  negb (match raw with [_] => (r =? RuneError)%Z | _ => false end) &&
  ((32 <=? r)%Z || match short_escape r with
                   | Some _ => negb ((r =? 7)%Z || (r =? 11)%Z)
                   | None => false
                   end) &&
  negb (r =? 127)%Z && ((r <? 65536)%Z || IsPrint r).
Definition json_safe (s : bytes) : bool := forallb json_rune (runes s).
End quote.

(** ** Lemmas *)

Lemma code_range c : (0 <= code c < 256)%Z.
Proof. unfold code. pose proof (nat_ascii_bounded c). lia. Qed.
Lemma byte_of_code c : byte_of (code c) = c.
Proof. unfold byte_of, code. by rewrite Nat2Z.id, ascii_nat_embedding. Qed.
Lemma code_byte_of z : (0 <= z < 256)%Z → code (byte_of z) = z.
Proof. intros Hz. unfold byte_of, code. rewrite nat_ascii_embedding; lia. Qed.
Lemma code_inj a b : code a = code b → a = b.
Proof. intros H. by rewrite <- (byte_of_code a), H, byte_of_code. Qed.

Lemma between_spec lo hi z : between lo hi z = true ↔ (lo <= z <= hi)%Z.
Proof. unfold between. rewrite andb_true_iff, !Z.leb_le. done. Qed.

(** The encodings of two, three and four bytes, as [DecodeRune] accepts them. *)
Ltac split_between :=
  repeat match goal with
         | H : between _ _ _ = true |- _ => apply between_spec in H
         | H : tail_byte _ = true |- _ => apply between_spec in H
         | H : (_ && _) = true |- _ => apply andb_true_iff in H as [? ?]
         end.

Lemma encode2 b0 b1 r :
  (194 <= b0 <= 223)%Z → (128 <= b1 <= 191)%Z → r = ((b0 - 192) * 64 + (b1 - 128))%Z →
  EncodeRune r = [byte_of b0; byte_of b1] ∧ ValidRune r = true ∧ (128 <= r)%Z.
Proof.
  intros H0 H1 ->. unfold EncodeRune.
  destruct (Z.ltb_spec ((b0 - 192) * 64 + (b1 - 128)) 128); [lia|].
  destruct (Z.ltb_spec ((b0 - 192) * 64 + (b1 - 128)) 2048); [|lia].
  split_and!; [|apply orb_true_intro; left; apply between_spec; lia|lia].
  unfold fmap, list_fmap. f_equal; [|f_equal]; f_equal; solve_z.
Qed.

Lemma encode3 b0 b1 b2 r :
  (224 <= b0 <= 239)%Z → ((accept b0).1 <= b1 <= (accept b0).2)%Z → (128 <= b2 <= 191)%Z →
  r = ((b0 - 224) * 4096 + (b1 - 128) * 64 + (b2 - 128))%Z →
  EncodeRune r = byte_of <$> [b0; b1; b2] ∧ ValidRune r = true ∧ (128 <= r)%Z.
Proof.
  intros H0 H1 H2 Hr.
  assert (128 <= b1 <= 191 ∧ 2048 <= r < 65536 ∧ (r <= 55295 ∨ 57344 <= r))%Z as (H1' & Hr' & Hs).
  { revert H1. unfold accept.
    destruct (Z.eqb_spec b0 224), (Z.eqb_spec b0 237), (Z.eqb_spec b0 240), (Z.eqb_spec b0 244);
      simpl; lia. }
  unfold EncodeRune.
  destruct (Z.ltb_spec r 128); [lia|]. destruct (Z.ltb_spec r 2048); [lia|].
  destruct (Z.ltb_spec r 65536); [|lia].
  split_and!; [|apply orb_true_iff; rewrite !between_spec; lia|lia].
  unfold fmap, list_fmap. f_equal; [|f_equal; [|f_equal]]; f_equal; subst r; solve_z.
Qed.

Lemma encode4 b0 b1 b2 b3 r :
  (240 <= b0 <= 244)%Z → ((accept b0).1 <= b1 <= (accept b0).2)%Z → (128 <= b2 <= 191)%Z →
  (128 <= b3 <= 191)%Z →
  r = ((b0 - 240) * 262144 + (b1 - 128) * 4096 + (b2 - 128) * 64 + (b3 - 128))%Z →
  EncodeRune r = byte_of <$> [b0; b1; b2; b3] ∧ ValidRune r = true ∧ (128 <= r)%Z.
Proof.
  intros H0 H1 H2 H3 Hr.
  assert (128 <= b1 <= 191 ∧ 65536 <= r <= 1114111)%Z as (H1' & Hr').
  { revert H1. unfold accept.
    destruct (Z.eqb_spec b0 224), (Z.eqb_spec b0 237), (Z.eqb_spec b0 240), (Z.eqb_spec b0 244);
      simpl; lia. }
  unfold EncodeRune.
  destruct (Z.ltb_spec r 128); [lia|]. destruct (Z.ltb_spec r 2048); [lia|].
  destruct (Z.ltb_spec r 65536); [lia|].
  split_and!; [|apply orb_true_iff; rewrite !between_spec; lia|lia].
  unfold fmap, list_fmap. f_equal; [|f_equal; [|f_equal; [|f_equal]]]; f_equal; subst r; solve_z.
Qed.

(** What [DecodeRune] answers: an invalid byte, or a valid rune the bytes read encode. *)
Definition decoded (s : bytes) (x : Z * nat) : Prop :=
  let '(r, w) := x in
  1 ≤ w ≤ length s ∧
  ((r = RuneError ∧ w = 1 ∧ ∃ c, head s = Some c ∧ (128 <= code c)%Z) ∨
   (ValidRune r = true ∧ EncodeRune r = take w s ∧ ((r < 128)%Z ↔ w = 1) ∧ (0 <= r)%Z)).

#[local] Arguments decoded : simpl never.

Lemma decoded_bad c s : (128 <= code c)%Z → decoded (c :: s) (RuneError, 1).
Proof. intros Hc. split; [simpl; lia|]. left. split_and!; eauto. Qed.

Lemma DecodeRune_spec c s : decoded (c :: s) (DecodeRune (c :: s)).
Proof.
  unfold DecodeRune. simpl fmap. cbv beta iota.
  destruct (Z.ltb_spec (code c) 128) as [Hc|Hc].
  { pose proof (code_range c). split; [simpl; lia|]. right. split_and!; try lia.
    - apply orb_true_intro. left. apply between_spec. lia.
    - unfold EncodeRune. destruct (Z.ltb_spec (code c) 128); [|lia]. simpl.
      by rewrite byte_of_code, take_0. }
  destruct (accept (code c)) as [lo hi] eqn:Ha.
  destruct s as [|c1 s]; simpl; [by apply decoded_bad|].
  destruct (between lo hi (code c1)) eqn:H1; simpl; [|by apply decoded_bad].
  destruct (between 194 223 (code c)) eqn:H0.
  { split_between.
    assert (128 <= code c1 <= 191)%Z as H1'.
    { revert Ha. unfold accept. destruct (code c =? 224)%Z eqn:?, (code c =? 237)%Z eqn:?,
        (code c =? 240)%Z eqn:?, (code c =? 244)%Z eqn:?; intros; simplify_eq; lia. }
    destruct (encode2 (code c) (code c1) _ H0 H1' eq_refl) as (He & Hv & Hr).
    split; [simpl; lia|]. right. rewrite He, !byte_of_code. split_and!; try done; lia. }
  destruct s as [|c2 s]; simpl; [by apply decoded_bad|].
  destruct (tail_byte (code c2)) eqn:H2; simpl; [|by apply decoded_bad].
  destruct (between 224 239 (code c)) eqn:H0'.
  { split_between.
    assert ((accept (code c)).1 <= code c1 <= (accept (code c)).2)%Z as H1' by by rewrite Ha.
    destruct (encode3 (code c) (code c1) (code c2) _ H0' H1' H2 eq_refl) as (He & Hv & Hr).
    split; [simpl; lia|]. right. rewrite He. simpl. rewrite !byte_of_code. split_and!; try done; lia. }
  destruct s as [|c3 s]; simpl; [by apply decoded_bad|].
  destruct (tail_byte (code c3)) eqn:H3; simpl; [|by apply decoded_bad].
  destruct (between 240 244 (code c)) eqn:H0''; [|by apply decoded_bad].
  split_between.
  assert ((accept (code c)).1 <= code c1 <= (accept (code c)).2)%Z as H1' by by rewrite Ha.
  destruct (encode4 (code c) (code c1) (code c2) (code c3) _ H0'' H1' H2 H3 eq_refl)
    as (He & Hv & Hr).
  split; [simpl; lia|]. right. rewrite He. simpl. rewrite !byte_of_code. split_and!; try done; lia.
Qed.

Lemma mjoin_fmap_cons {A C} (f : A → list C) x l : mjoin (f <$> x :: l) = f x ++ mjoin (f <$> l).
Proof. done. Qed.

(** What a loop over the runes of a string sees. *)
Definition rune_ok (x : Z * bytes) : Prop :=
  (x.1 = RuneError ∧ ∃ c, x.2 = [c] ∧ (128 <= code c)%Z) ∨
  (ValidRune x.1 = true ∧ EncodeRune x.1 = x.2 ∧ ((x.1 < 128)%Z ↔ length x.2 = 1) ∧ (0 <= x.1)%Z).

Lemma runes_fuel_spec n s :
  length s ≤ n →
  mjoin (snd <$> runes_fuel n s) = s ∧ Forall rune_ok (runes_fuel n s).
Proof.
  revert s. induction n as [|n IH]; intros s Hn.
  { destruct s; [done|simpl in Hn; lia]. }
  destruct s as [|c s]; [done|]. cbn [runes_fuel].
  pose proof (DecodeRune_spec c s) as Hd.
  destruct (DecodeRune (c :: s)) as [r w]. destruct Hd as [[Hw Hl] Hd].
  destruct (IH (drop w (c :: s))) as [Hj Hf].
  { rewrite length_drop. simpl in *. lia. }
  split.
  - rewrite mjoin_fmap_cons, Hj. apply take_drop.
  - constructor; [|done]. destruct Hd as [(-> & -> & d & Hhd & Hd)|(Hv & He & Hlt & Hr)].
    + left. split; [done|]. exists c. simplify_eq/=. by rewrite take_0.
    + right. cbn [fst snd]. split_and!; [done|done| |done].
      rewrite Hlt, length_take. lia.
Qed.

Lemma runes_join s : mjoin (snd <$> runes s) = s.
Proof. by apply runes_fuel_spec. Qed.
Lemma runes_ok s : Forall rune_ok (runes s).
Proof. by apply runes_fuel_spec. Qed.

(** *** Hexadecimal digits *)

Lemma digit_cases (P : Z → Prop) d :
  P 0%Z → P 1%Z → P 2%Z → P 3%Z → P 4%Z → P 5%Z → P 6%Z → P 7%Z → P 8%Z → P 9%Z → P 10%Z →
  P 11%Z → P 12%Z → P 13%Z → P 14%Z → P 15%Z → (0 <= d < 16)%Z → P d.
Proof.
  intros. assert (d = 0 ∨ d = 1 ∨ d = 2 ∨ d = 3 ∨ d = 4 ∨ d = 5 ∨ d = 6 ∨ d = 7 ∨ d = 8 ∨ d = 9 ∨
    d = 10 ∨ d = 11 ∨ d = 12 ∨ d = 13 ∨ d = 14 ∨ d = 15)%Z by lia.
  repeat match goal with H : _ ∨ _ |- _ => destruct H as [->|H]; [done|] end. by subst.
Qed.

Lemma hexval_hexdigit d : (0 <= d < 16)%Z → hexval (hexdigit d) = Some d.
Proof. intros Hd. revert Hd. by apply (digit_cases (λ d, hexval (hexdigit d) = Some d)). Qed.

Lemma hexdigits_length n z : length (hexdigits n z) = n.
Proof. revert z. induction n; intros z; simpl; [done|]. rewrite length_app, IHn. simpl. lia. Qed.

Lemma hex4_hexdigits r :
  (0 <= r < 65536)%Z →
  ∃ a b c d, hexdigits 4 r = [a; b; c; d] ∧ hex4 a b c d = Some r.
Proof.
  intros Hr. unfold hexdigits. simpl app.
  eexists _, _, _, _. split; [done|].
  unfold hex4. rewrite !hexval_hexdigit by (apply Z.mod_pos_bound; lia).
  f_equal. solve_z.
Qed.

(** *** Quoting and reading back *)

Section quote_lemmas.
Context `{U : Unicode}.

Lemma unquote_plain c t :
  (32 <= code c)%Z → code c ≠ 34%Z → code c ≠ 92%Z →
  unquote (c :: t) = prod_map (cons c) id <$> unquote t.
Proof.
  intros H1 H2 H3. cbn [unquote].
  destruct (Ascii.eqb_spec c dquote) as [->|_]; [by destruct H2|].
  destruct (Ascii.eqb_spec c bslash) as [->|_]; [by destruct H3|].
  destruct (Z.ltb_spec (code c) 32); [lia|done].
Qed.

Lemma prod_map_app (l k : bytes) (x : option (bytes * bytes)) :
  prod_map (app l) id <$> (prod_map (app k) id <$> x) = prod_map (app (l ++ k)) id <$> x.
Proof. destruct x as [[a b]|]; [|done]. simpl. by rewrite <- app_assoc. Qed.

Lemma unquote_high l t :
  Forall (λ c, (128 <= code c)%Z) l →
  unquote (l ++ t) = prod_map (app l) id <$> unquote t.
Proof.
  induction 1 as [|c l Hc Hl IH]; cbn [app].
  - destruct (unquote t) as [[a b]|]; done.
  - rewrite unquote_plain, IH by lia.
    exact (prod_map_app [c] l (unquote t)).
Qed.

Lemma EncodeRune_high r :
  (128 <= r)%Z → ValidRune r = true → Forall (λ c, (128 <= code c)%Z) (EncodeRune r).
Proof.
  intros Hr Hv%orb_true_iff. rewrite !between_spec in Hv. unfold EncodeRune.
  apply Forall_fmap.
  destruct (Z.ltb_spec r 128); [lia|]. destruct (Z.ltb_spec r 2048); [|destruct (Z.ltb_spec r 65536)];
    repeat constructor; unfold compose; rewrite code_byte_of; solve_z.
Qed.

Lemma unquote_escaped_ascii r t :
  (0 <= r < 128)%Z → json_rune (r, [byte_of r]) = true →
  unquote (appendEscapedRune r ++ t) = prod_map (cons (byte_of r)) id <$> unquote t.
Proof.
  intros Hr Hj. unfold appendEscapedRune.
  destruct (Z.eqb_spec r 34) as [->|H34]; [done|]. destruct (Z.eqb_spec r 92) as [->|H92]; [done|].
  simpl orb. cbv iota. unfold IsPrint. destruct (Z.ltb_spec r 128); [|lia].
  destruct (between 32 126 r) eqn:Hp.
  - apply between_spec in Hp. unfold EncodeRune. destruct (Z.ltb_spec r 128); [|lia].
    simpl app. apply unquote_plain; rewrite code_byte_of; lia.
  - assert (r < 32 ∨ r = 127)%Z as Hc.
    { unfold between in Hp. destruct (Z.leb_spec 32 r), (Z.leb_spec r 126); naive_solver lia. }
    unfold json_rune in Hj. destruct (Z.ltb_spec r 65536); [|lia].
    destruct Hc as [Hc| ->]; [|by rewrite !andb_false_r in Hj].
    destruct (Z.leb_spec 32 r); [lia|]. unfold short_escape in *.
    repeat match goal with
           | |- context [(r =? ?k)%Z] => destruct (Z.eqb_spec r k) as [->|]; [done|]
           end.
    by rewrite !andb_false_r in Hj.
Qed.

Lemma unquote_escaped_high r t :
  (128 <= r)%Z → ValidRune r = true → ((r <? 65536)%Z || IsPrint r) = true →
  unquote (appendEscapedRune r ++ t) = prod_map (app (EncodeRune r)) id <$> unquote t.
Proof.
  intros Hr Hv Hp. unfold appendEscapedRune.
  destruct (Z.eqb_spec r 34); [lia|]. destruct (Z.eqb_spec r 92); [lia|]. simpl orb. cbv iota.
  destruct (IsPrint r) eqn:Hi; [by apply unquote_high, EncodeRune_high|].
  rewrite orb_false_r in Hp. rewrite Hp.
  assert (short_escape r = None) as ->.
  { unfold short_escape. repeat match goal with
      |- context [(r =? ?k)%Z] => destruct (Z.eqb_spec r k); [lia|] end. done. }
  destruct (Z.ltb_spec r 32); [lia|]. destruct (Z.eqb_spec r 127); [lia|].
  simpl orb. cbv iota. rewrite Hv. simpl negb. cbv iota.
  apply Z.ltb_lt in Hp.
  destruct (hex4_hexdigits r) as (a & b & c & d & -> & Hh); [lia|].
  cbn [app unquote]. change (Ascii.eqb bslash dquote) with false.
  change (Ascii.eqb bslash bslash) with true. change (unescape "u") with (@None byte).
  change (Ascii.eqb "u" "u") with true. cbv iota. simpl negb. cbv iota. by rewrite Hh, Hv.
Qed.

Lemma unquote_escape x t :
  rune_ok x → json_rune x = true →
  unquote (escape x ++ t) = prod_map (app x.2) id <$> unquote t.
Proof.
  destruct x as [r raw]. intros [[Hr (c & Hraw & Hc)]|(Hv & He & Hl & Hr)] Hj; cbn [fst snd] in *.
  { subst. done. }
  destruct (Z.ltb_spec r 128) as [Hlt|Hge].
  - assert (raw = [byte_of r]) as ->.
    { rewrite <- He. unfold EncodeRune. by destruct (Z.ltb_spec r 128); [|lia]. }
    unfold escape. destruct (Z.eqb_spec r RuneError) as [E|_]; [unfold RuneError in E; lia|].
    by rewrite unquote_escaped_ascii by (done || lia).
  - assert (escape (r, raw) = appendEscapedRune r) as ->.
    { unfold escape. destruct raw as [|? [|? ?]]; try done. simpl in Hl. lia. }
    rewrite <- He. apply unquote_escaped_high; [done..|].
    by apply andb_true_iff in Hj as [_ Hj].
Qed.

(** What [%q] writes is a JSON literal of the same string, for the safe strings. *)
Lemma unquote_Quote s t :
  json_safe s = true → unquote (mjoin (escape <$> runes s) ++ dquote :: t) = Some (s, t).
Proof.
  intros Hs. rewrite <- (runes_join s) at 2. unfold json_safe in Hs.
  pose proof (runes_ok s) as Hok. induction Hok as [|x l Hx Hl IH]; [done|].
  simpl in Hs. apply andb_true_iff in Hs as [Hj Hs].
  rewrite !mjoin_fmap_cons, <- app_assoc, unquote_escape, IH by done. done.
Qed.

Lemma Quote_cons s t : Quote s ++ t = dquote :: mjoin (escape <$> runes s) ++ dquote :: t.
Proof. unfold Quote. simpl. by rewrite <- app_assoc. Qed.

(** *** Printable ASCII text *)

Definition plain (s : bytes) : bool := forallb (λ c, between 32 126 (code c)) s.

Lemma plain_app a b : plain (a ++ b) = plain a && plain b.
Proof. apply forallb_app. Qed.
Lemma plain_In s c : plain s = true → In c s → (32 <= code c <= 126)%Z.
Proof. unfold plain. rewrite forallb_forall. intros Hs Hc. by apply between_spec, Hs. Qed.
Lemma plain_incl s s' : plain s = true → (∀ c, In c s' → In c s) → plain s' = true.
Proof. unfold plain. rewrite !forallb_forall. auto. Qed.

Lemma runes_fuel_plain n s :
  length s ≤ n → plain s = true → runes_fuel n s = (λ c, (code c, [c])) <$> s.
Proof.
  revert s. induction n as [|n IH]; intros [|c s] Hn Hs; try done; [simpl in Hn; lia|].
  pose proof (plain_In _ c Hs) as Hc. cbn [runes_fuel]. unfold DecodeRune. simpl fmap. cbv beta iota.
  assert ((code c <? 128)%Z = true) as -> by (apply Z.ltb_lt; specialize (Hc ltac:(by left)); lia).
  change ((code c, [c]) :: runes_fuel n s = (code c, [c]) :: ((λ c, (code c, [c])) <$> s)).
  rewrite IH; [done|simpl in Hn; lia|].
  unfold plain in Hs. cbn [forallb] in Hs. by apply andb_true_iff in Hs as [_ Hs].
Qed.

Lemma plain_safe s : plain s = true → json_safe s = true.
Proof.
  intros Hs. unfold json_safe, runes. rewrite runes_fuel_plain by (done || lia).
  apply forallb_forall. intros x (c & <- & Hc)%in_map_iff. apply (plain_In s) in Hc; [|done].
  unfold json_rune. destruct (Z.eqb_spec (code c) RuneError) as [E|_]; [unfold RuneError in E; lia|].
  destruct (Z.leb_spec 32 (code c)); [|lia]. destruct (Z.eqb_spec (code c) 127); [lia|].
  destruct (Z.ltb_spec (code c) 65536); [done|lia].
Qed.
End quote_lemmas.
