(* ===== verification/Fold.v ===== *)
(** * Comparison under Unicode case folding ([strings.EqualFold])

    Which runes fold to which is a table of Go's [unicode] package: an argument of the
    definitions, the class [CaseFold]. *)

From S2P Require Import Prelude GoStrings Quote.

(** [unicode.SimpleFold]: the next larger rune equivalent to the argument, the smallest
    one after the largest. *)
Class CaseFold := { uni_SimpleFold : Z → Z }.

Section fold.
Context `{C : CaseFold}.

(** [for r != sr && r < tr { r = unicode.SimpleFold(r) }]; no rune has more than three
    others equivalent to it. *)
Fixpoint fold_until (fuel : nat) (sr tr r : Z) : Z :=
  match fuel with
  | 0 => r
  | S fuel =>
      if negb (r =? sr)%Z && (r <? tr)%Z then fold_until fuel sr tr (uni_SimpleFold r) else r
  end.

Definition same_rune (a b : Z) : bool :=
  if (a =? b)%Z then true
  else
    let sr := Z.min a b in
    let tr := Z.max a b in
    if (tr <? 128)%Z then between 65 90 sr && (tr =? sr + 32)%Z
    else (fold_until 4 sr tr (uni_SimpleFold sr) =? tr)%Z.

Fixpoint same_runes (l l' : list (Z * bytes)) : bool :=
  match l, l' with
  | [], [] => true
  | (a, _) :: l, (b, _) :: l' => same_rune a b && same_runes l l'
  | _, _ => false
  end.
Definition EqualFold (s t : bytes) : bool := same_runes (runes s) (runes t).

(** The order of the arguments does not matter, and every string equals itself. *)
Lemma EqualFold_sym s t : EqualFold s t = EqualFold t s.
Proof.
  unfold EqualFold. generalize (runes s) (runes t). intros l. induction l as [|[a x] l IH]; intros [|[b y] l'];
    [done..|]. cbn [same_runes]. rewrite IH. f_equal. unfold same_rune.
  by rewrite (Z.eqb_sym a), (Z.min_comm a), (Z.max_comm a).
Qed.
Lemma EqualFold_refl s : EqualFold s s = true.
Proof.
  unfold EqualFold. induction (runes s) as [|[a x] l IH]; [done|]. cbn [same_runes].
  rewrite IH. unfold same_rune. by rewrite Z.eqb_refl.
Qed.
End fold.

(** ** A concrete table *)

Module SimpleFold.
(** Letters of ASCII, the Kelvin sign and the long s. *)
#[export] Instance ascii_fold : CaseFold := {|
  uni_SimpleFold r :=
    if (r =? 107)%Z then 8490%Z else if (r =? 8490)%Z then 75%Z
    else if (r =? 115)%Z then 383%Z else if (r =? 383)%Z then 83%Z
    else if between 65 90 r then (r + 32)%Z else if between 97 122 r then (r - 32)%Z else r
|}.
End SimpleFold.

(** The Kelvin sign is a [k], and a no-break space is trimmed. *)
Example kelvin_is_k : EqualFold (C := SimpleFold.ascii_fold) (map ascii_of_nat [226; 132; 170]) (B "k") = true.
Proof. reflexivity. Qed.
Example no_break_space_trimmed : TrimSpace (map ascii_of_nat [194; 160; 97; 226; 128; 137; 32]) = B "a".
Proof. reflexivity. Qed.
