(* ===== verification/Base64.v ===== *)
(** * Standard base64 ([encoding/base64]) and the framework's icon

    [StdEncoding.EncodeToString] and [DecodeString] of the Go library, which
    [B64Encode] ([router.go]) and [middleware/favicon.go] call: groups of three bytes
    as four digits of the alphabet, padded with [=]; line breaks are skipped when
    reading. Reading inverts writing ([DecodeString_EncodeToString]). *)

From S2P Require Import Prelude GoStrings Quote.
Local Open Scope Z_scope.

(** ** Writing *)

Definition encodeStd : bytes :=
  B "ABCDEFGHIJKLMNOPQRSTUVWXYZabcdefghijklmnopqrstuvwxyz0123456789+/".
Definition padChar : byte := "="%char.
(** [enc.encode[val>>k&0x3F]] *)
Definition digit (val k : Z) : byte :=
  default padChar (encodeStd !! Z.to_nat (Z.land (Z.shiftr val k) 63)).

Fixpoint EncodeToString (src : bytes) : bytes :=
  match src with
  | a :: b :: c :: src =>
      let val := Z.lor (Z.lor (Z.shiftl (code a) 16) (Z.shiftl (code b) 8)) (code c) in
      digit val 18 :: digit val 12 :: digit val 6 :: digit val 0 :: EncodeToString src
  | [a; b] =>
      let val := Z.lor (Z.shiftl (code a) 16) (Z.shiftl (code b) 8) in
      [digit val 18; digit val 12; digit val 6; padChar]
  | [a] =>
      let val := Z.shiftl (code a) 16 in
      [digit val 18; digit val 12; padChar; padChar]
  | [] => []
  end.

(** [B64Encode] ([router.go]) *)
Definition B64Encode (s : bytes) : bytes := EncodeToString s.

(** ** Reading *)

(** [enc.decodeMap[c]], [None] for [0xff]. *)
Definition decodeMap (c : byte) : option Z := Z.of_nat <$> index_where (Ascii.eqb c) encodeStd.
Definition is_break (c : byte) : bool := Ascii.eqb c (byte_of 10) || Ascii.eqb c (byte_of 13).

(** The first [n] of the three bytes four digits stand for; missing digits are 0. *)
Definition quantum (n : nat) (dbuf : list Z) : bytes :=
  let d i := nth i dbuf 0 in
  let val := Z.lor (Z.lor (Z.lor (Z.shiftl (d 0%nat) 18) (Z.shiftl (d 1%nat) 12))
                     (Z.shiftl (d 2%nat) 6)) (d 3%nat) in
  take n (byte_of <$> [Z.land (Z.shiftr val 16) 255; Z.land (Z.shiftr val 8) 255; Z.land val 255]).

(** Past the line breaks of [src], which starts at offset [si]. *)
Fixpoint skip_breaks (si : Z) (src : bytes) : Z * bytes :=
  match src with
  | c :: src' => if is_break c then skip_breaks (si + 1) src' else (si, src)
  | [] => (si, [])
  end.

(** The end of the input after the padding: anything that follows is an error. *)
Definition after_padding (si : Z) (src : bytes) : option Z :=
  let '(si, src) := skip_breaks si src in match src with [] => None | _ => Some si end.

(** [Decode] from offset [si], [dbuf] being the digits of the quantum so far: the bytes
    decoded and the offset of [CorruptInputError]. *)
Fixpoint decode (dbuf : list Z) (si : Z) (src : bytes) : bytes * option Z :=
  match src with
  | [] => match dbuf with [] => ([], None) | _ => ([], Some (si - Z.of_nat (length dbuf))) end
  | c :: src =>
      match decodeMap c with
      | Some d =>
          let dbuf := dbuf ++ [d] in
          if (length dbuf =? 4)%nat then
            let '(out, err) := decode [] (si + 1) src in (quantum 3 dbuf ++ out, err)
          else decode dbuf (si + 1) src
      | None =>
          if is_break c then decode dbuf (si + 1) src
          else if negb (Ascii.eqb c padChar) then ([], Some si)
          else
            match length dbuf with
            | 0%nat | 1%nat => ([], Some si)
            | 2%nat =>
                let '(si, src) := skip_breaks (si + 1) src in
                match src with
                | [] => ([], Some si)
                | c :: src =>
                    if negb (Ascii.eqb c padChar) then ([], Some (si - 1))
                    else (quantum 1 dbuf, after_padding (si + 1) src)
                end
            | _ => (quantum 2 dbuf, after_padding (si + 1) src)
            end
      end
  end.
Definition DecodeString (s : bytes) : bytes * option Z := decode [] 0 s.

(** ** [middleware/favicon.go] *)

Definition faviconSVG : bytes := Q
"<svg xmlns='http://www.w3.org/2000/svg' viewBox='0 0 32 32'>
  <rect width='32' height='32' rx='8' fill='#E24B4A'/>
  <text x='16' y='23' font-family='system-ui,sans-serif' font-size='20' font-weight='700'
        text-anchor='middle' fill='#ffffff'>G</text>
</svg>".
(** What [init] leaves in [faviconBytes]. *)
Definition faviconBytes : bytes := (DecodeString (EncodeToString faviconSVG)).1.

(** ** Lemmas *)

(** Disjoint bit fields add. *)
Lemma lor_add a b k : 0 <= k → 0 <= b < 2 ^ k → Z.lor (Z.shiftl a k) b = a * 2 ^ k + b.
Proof.
  intros Hk Hb. rewrite <- Z.shiftl_mul_pow2 by done.
  rewrite <- (Z.add_lor_land (Z.shiftl a k) b).
  assert (Z.land (Z.shiftl a k) b = 0) as ->; [|lia].
  apply Z.bits_inj'. intros n Hn. rewrite Z.land_spec, Z.bits_0.
  destruct (Z.ltb_spec n k).
  - rewrite Z.shiftl_spec_low by done. done.
  - destruct (Z.eq_dec b 0) as [->|Hb0]; [by rewrite Z.bits_0, andb_false_r|].
    rewrite (Z.bits_above_log2 b n), andb_false_r; [done|lia|].
    apply Z.log2_lt_pow2; [lia|]. apply Z.lt_le_trans with (2 ^ k); [lia|].
    apply Z.pow_le_mono_r; lia.
Qed.

Lemma field val k n : 0 <= k → 0 <= n → Z.land (Z.shiftr val k) (2 ^ n - 1) = val / 2 ^ k mod 2 ^ n.
Proof.
  intros Hk Hn. rewrite <- Z.shiftr_div_pow2 by done. rewrite <- Z.land_ones by done.
  by rewrite Z.ones_equiv, <- Z.sub_1_r.
Qed.

(** Every digit is read back, and none is a line break or the padding. *)
Lemma decodeMap_digit val k : 0 <= k → decodeMap (digit val k) = Some (val / 2 ^ k mod 64).
Proof.
  intros Hk. unfold digit. change 63 with (2 ^ 6 - 1). rewrite (field val k 6) by lia. change (2 ^ 6) with 64.
  pose proof (Z.mod_pos_bound (val / 2 ^ k) 64) as Hr.
  assert (forallb (λ i, match encodeStd !! i with
                        | Some c => bool_decide (decodeMap c = Some (Z.of_nat i))
                        | None => false
                        end) (seq 0 64) = true) as Hall by (vm_compute; reflexivity).
  rewrite forallb_forall in Hall.
  specialize (Hall (Z.to_nat (val / 2 ^ k mod 64))). destruct (encodeStd !! _) eqn:Hc.
  - rewrite bool_decide_eq_true in Hall. cbn [from_option]. unfold id. rewrite Hall by (apply in_seq; lia).
    f_equal. lia.
  - discriminate Hall. apply in_seq. lia.
Qed.

(** Four digits side by side. *)
Lemma join_digits a b c d :
  0 <= b < 64 → 0 <= c < 64 → 0 <= d < 64 →
  Z.lor (Z.lor (Z.lor (Z.shiftl a 18) (Z.shiftl b 12)) (Z.shiftl c 6)) d
  = a * 262144 + b * 4096 + c * 64 + d.
Proof.
  intros Hb Hc Hd. rewrite <- !Z.lor_assoc.
  rewrite (lor_add c d 6) by lia. rewrite (lor_add b) by lia. rewrite (lor_add a) by lia. lia.
Qed.

(** The four digits of a 24-bit value stand for its three bytes. *)
Lemma quantum_digits n val :
  0 <= val < 2 ^ 24 →
  quantum n [val / 2 ^ 18 mod 64; val / 2 ^ 12 mod 64; val / 2 ^ 6 mod 64; val / 2 ^ 0 mod 64]
  = take n (byte_of <$> [val / 2 ^ 16 mod 256; val / 2 ^ 8 mod 256; val / 2 ^ 0 mod 256]).
Proof.
  intros Hv. unfold quantum. cbn [nth]. cbv zeta.
  rewrite join_digits by (apply Z.mod_pos_bound; lia).
  change 255 with (2 ^ 8 - 1). rewrite <- (Z.shiftr_0_r (_ + _)) at 3. rewrite !field by lia.
  change (2 ^ 24) with 16777216 in Hv. change (2 ^ 18) with 262144. change (2 ^ 12) with 4096.
  change (2 ^ 6) with 64. change (2 ^ 0) with 1.
  replace (val / 262144 mod 64 * 262144 + _ + _ + _) with val; [done|].
  clear n. Z.to_euclidean_division_equations. lia.
Qed.

(** The bytes of a 24-bit value, and of the values a short group makes. *)
Lemma group_value a b c :
  Z.lor (Z.lor (Z.shiftl (code a) 16) (Z.shiftl (code b) 8)) (code c)
  = code a * 65536 + code b * 256 + code c.
Proof.
  pose proof (code_range a). pose proof (code_range b). pose proof (code_range c).
  rewrite <- Z.lor_assoc, (lor_add (code b) (code c) 8) by lia. rewrite lor_add by lia. lia.
Qed.

Lemma group_bytes a b c :
  let val := code a * 65536 + code b * 256 + code c in
  byte_of <$> [val / 2 ^ 16 mod 256; val / 2 ^ 8 mod 256; val / 2 ^ 0 mod 256] = [a; b; c].
Proof.
  intros val. pose proof (code_range a). pose proof (code_range b). pose proof (code_range c).
  assert (val / 2 ^ 16 mod 256 = code a ∧ val / 2 ^ 8 mod 256 = code b ∧ val / 2 ^ 0 mod 256 = code c)
    as (-> & -> & ->).
  { unfold val. change (2 ^ 16) with 65536. change (2 ^ 8) with 256. change (2 ^ 0) with 1.
    repeat split; Z.to_euclidean_division_equations; lia. }
  cbn [fmap list_fmap]. by rewrite !byte_of_code.
Qed.

(** Reading a digit: the fourth ends the quantum. *)
Lemma decode_digit dbuf si val k src :
  0 <= k →
  decode dbuf si (digit val k :: src) =
    let dbuf := dbuf ++ [val / 2 ^ k mod 64] in
    if Nat.eqb (length dbuf) 4 then
      let '(out, err) := decode [] (si + 1) src in (quantum 3 dbuf ++ out, err)
    else decode dbuf (si + 1) src.
Proof. intros Hk. cbn [decode]. by rewrite decodeMap_digit. Qed.

Ltac read_digits := repeat (rewrite decode_digit by lia; cbn [app length Nat.eqb]; cbv zeta).

(** A last quantum of one byte, and of two. *)
Lemma decode_one a si : decode [] si (EncodeToString [a]) = ([a], None).
Proof.
  pose proof (group_bytes a "000" "000") as Hg. cbv zeta in Hg.
  change (code "000") with 0 in Hg. rewrite !Z.mul_0_l, !Z.add_0_r in Hg.
  pose proof (code_range a). cbn [EncodeToString].
  rewrite Z.shiftl_mul_pow2 by lia. change (2 ^ 16) with 65536 in Hg |- *.
  read_digits.
  set (val := code a * 65536) in *.
  change (decode _ _ [padChar; padChar])
    with (quantum 1 [val / 2 ^ 18 mod 64; val / 2 ^ 12 mod 64; 0; 0], @None Z).
  assert (val / 2 ^ 6 mod 64 = 0 ∧ val / 2 ^ 0 mod 64 = 0) as [H6 H0].
  { unfold val. change (2 ^ 6) with 64. change (2 ^ 0) with 1.
    split; Z.to_euclidean_division_equations; lia. }
  pose proof (quantum_digits 1 val) as Hq. rewrite H6, H0 in Hq. rewrite Hq by lia.
  change (2 ^ 16) with 65536 in Hq |- *. by rewrite Hg.
Qed.

Lemma decode_two a b si : decode [] si (EncodeToString [a; b]) = ([a; b], None).
Proof.
  pose proof (group_bytes a b "000") as Hg. pose proof (group_value a b "000") as Hval. cbv zeta in Hg.
  change (code "000") with 0 in Hg, Hval. rewrite Z.lor_0_r in Hval. rewrite Z.add_0_r in Hg, Hval.
  pose proof (code_range a). pose proof (code_range b). cbn [EncodeToString].
  rewrite Hval. read_digits.
  set (val := code a * 65536 + code b * 256) in *.
  change (decode _ _ [padChar])
    with (quantum 2 [val / 2 ^ 18 mod 64; val / 2 ^ 12 mod 64; val / 2 ^ 6 mod 64; 0], @None Z).
  assert (val / 2 ^ 0 mod 64 = 0) as Hz.
  { unfold val. change (2 ^ 0) with 1. Z.to_euclidean_division_equations; lia. }
  pose proof (quantum_digits 2 val) as Hq. rewrite Hz in Hq. rewrite Hq by (unfold val; lia).
  by rewrite Hg.
Qed.

Lemma decode_three a b c src si :
  decode [] si (EncodeToString (a :: b :: c :: src)) =
    let '(out, err) := decode [] (si + 1 + 1 + 1 + 1) (EncodeToString src) in
    (a :: b :: c :: out, err).
Proof.
  pose proof (group_bytes a b c) as Hg. cbv zeta in Hg.
  pose proof (code_range a). pose proof (code_range b). pose proof (code_range c).
  cbn [EncodeToString]. rewrite group_value. read_digits.
  destruct (decode [] _ _) as [out err]. by rewrite quantum_digits, Hg by lia.
Qed.

(** Reading what was written gives it back, wherever it starts. *)
Lemma decode_EncodeToString s si : decode [] si (EncodeToString s) = (s, None).
Proof.
  revert si. induction s as [s IH] using (induction_ltof1 _ (@length byte)). intros si.
  destruct s as [|a [|b [|c s]]]; [done|apply decode_one|apply decode_two|].
  rewrite decode_three, IH; [done|]. unfold ltof. simpl. lia.
Qed.
Lemma DecodeString_EncodeToString s : DecodeString (EncodeToString s) = (s, None).
Proof. apply decode_EncodeToString. Qed.

Lemma EncodeToString_inj s s' : EncodeToString s = EncodeToString s' → s = s'.
Proof.
  intros H. pose proof (DecodeString_EncodeToString s) as E. rewrite H in E.
  rewrite DecodeString_EncodeToString in E. congruence.
Qed.

(** Four characters for every three bytes begun. *)
Lemma EncodeToString_length s :
  length (EncodeToString s) = (4 * ((length s + 2) / 3))%nat.
Proof.
  induction s as [s IH] using (induction_ltof1 _ (@length byte)).
  destruct s as [|a [|b [|c s]]]; [done..|]. cbn [EncodeToString length].
  rewrite IH by (unfold ltof; simpl; lia).
  replace (S (S (S (length s))) + 2)%nat with (1 * 3 + (length s + 2))%nat by lia.
  rewrite Nat.div_add_l by lia. lia.
Qed.

(** The icon [init] decodes is the one the application serves itself. *)
Lemma faviconBytes_svg : faviconBytes = faviconSVG.
Proof. unfold faviconBytes. by rewrite DecodeString_EncodeToString. Qed.

(** Line breaks are skipped, and a decoder that fails keeps the whole quanta before
    the error. *)
Example decode_breaks :
  DecodeString (B "aGVs" ++ [byte_of 10] ++ B "bG8=") = (B "hello", None) ∧
  DecodeString (B "aGVsbG8") = (B "hel", Some 4) ∧ DecodeString (B "aGV$bG8=") = ([], Some 3) ∧
  DecodeString (B "aGVsbG8=x") = (B "hello", Some 8).
Proof. vm_compute. repeat split. Qed.
