(* ===== verification/Node.v ===== *)
(** * The radix tree of [node.go]

    One tree holds the routes of one HTTP method. A handler is an abstract
    value ([H]); Go's [nil] handler is [None]. *)

From S2P Require Import Prelude GoStrings.

(** [type nodeType uint8] with its constants [static], [param], [catchAll]. *)
Inductive nodeType := static | param | catchAll.

#[export] Instance nodeType_eq_dec : EqDecision nodeType.
Proof. solve_decision. Defined.

(** [matchOrder] *)
Definition matchOrder : list nodeType := [static; param; catchAll].

Definition lowerASCII (b : byte) : byte :=
  let n := nat_of_ascii b in
  if (65 <=? n) && (n <=? 90) then ascii_of_nat (n + (97 - 65)) else b.

(** [commonPrefix(a, b, ci)]: the length of the shared leading run. *)
Fixpoint commonPrefix (a b : bytes) (ci : bool) : nat :=
  match a, b with
  | x :: a', y :: b' =>
      let x' := if ci then lowerASCII x else x in
      let y' := if ci then lowerASCII y else y in
      if Ascii.eqb x' y' then S (commonPrefix a' b' ci) else 0
  | _, _ => 0
  end.

Fixpoint fold_eq (s prefix : bytes) {struct prefix} : bool :=
  match prefix, s with
  | [], _ => true
  | p :: prefix', c :: s' =>
      if Ascii.eqb (lowerASCII c) (lowerASCII p) then fold_eq s' prefix' else false
  | _ :: _, [] => false
  end.

Definition hasPrefix (s prefix : bytes) (ci : bool) : bool :=
  if length s <? length prefix then false
  else if negb ci then beqb (take (length prefix) s) prefix
  else fold_eq s prefix.

(** [type capture struct] *)
Record capture := Capture { cap_key : bytes; cap_value : bytes }.

Section node.
Context {H : Type}.

(** [type node struct] *)
Inductive node := Node {
  n_path : bytes;
  n_type : nodeType;
  n_children : list node;
  n_handler : option H;
  n_paramKey : bytes;
}.

Definition set_children (n : node) (cs : list node) : node :=
  Node (n_path n) (n_type n) cs (n_handler n) (n_paramKey n).
Definition set_handler (n : node) (h : option H) : node :=
  Node (n_path n) (n_type n) (n_children n) h (n_paramKey n).

Definition is_type (t : nodeType) (n : node) : bool := bool_decide (n_type n = t).

(** [end := strings.IndexByte(path[1:], '/')] and the two slices taken from it:
    [key] without the leading [':'], and [rest]. *)
Definition split_param (path : bytes) : bytes * bytes :=
  match IndexByte (drop 1 path) "/" with
  | None => (drop 1 path, [])
  | Some e => (take e (drop 1 path), drop (e + 1) path)
  end.

(** [staticPart, rest := path, ""; if i := strings.IndexAny(path, ":*"); i > 0 ...] *)
Definition split_static (path : bytes) : bytes * bytes :=
  match IndexAny path (B ":*") with
  | Some (S i) => (take (S i) path, drop (S i) path)
  | _ => (path, [])
  end.

(** [(n *node).insert]; the recursive calls are on strictly shorter paths, so
    [length path] is enough fuel (see [insert_fuel_enough] in NodeTheory). *)
Fixpoint insert_fuel (fuel : nat) (ci : bool) (h : option H) (path : bytes) (n : node) : node :=
  match fuel with
  | 0 => n
  | S fuel =>
      match path with
      | [] => set_handler n h
      | c0 :: key0 =>
          if Ascii.eqb c0 ":" then
            let '(key, rest) := split_param path in
            match update_first (is_type param) (insert_fuel fuel ci h rest) (n_children n) with
            | Some cs => set_children n cs
            | None =>
                set_children n
                  (n_children n ++ [insert_fuel fuel ci h rest (Node [] param [] None key)])
            end
          else if Ascii.eqb c0 "*" then
            match update_first (is_type catchAll)
                    (λ c, Node (n_path c) (n_type c) (n_children c) h key0) (n_children n) with
            | Some cs => set_children n cs
            | None => set_children n (n_children n ++ [Node [] catchAll [] h key0])
            end
          else
            let '(staticPart, rest) := split_static path in
            let lcp c := commonPrefix (n_path c) staticPart ci in
            let enter c :=
              let k := lcp c in
              if k =? length (n_path c) then
                insert_fuel fuel ci h (drop k staticPart ++ rest) c
              else
                let split := Node (drop k (n_path c)) static (n_children c) (n_handler c) [] in
                let c' := Node (take k (n_path c)) (n_type c) [split] None (n_paramKey c) in
                insert_fuel fuel ci h (drop k staticPart ++ rest) c' in
            match update_first (λ c, is_type static c && negb (lcp c =? 0)) enter (n_children n) with
            | Some cs => set_children n cs
            | None =>
                let child := Node staticPart static [] None [] in
                let child' := match rest with
                              | [] => set_handler child h
                              | _ => insert_fuel fuel ci h rest child
                              end in
                set_children n (n_children n ++ [child'])
            end
      end
  end.

Definition insert (n : node) (path : bytes) (h : option H) (ci : bool) : node :=
  insert_fuel (S (length path)) ci h path n.

(** Lines 192-204: the children are tried in [matchOrder]; a failed branch is
    undone by truncating [caps] back to [mark]. [rec] is [match] itself. *)
Definition match_children (rec : node → bytes → list capture → option H * list capture)
    (n : node) (path : bytes) (caps : list capture) : option H * list capture :=
  let mark := length caps in
  match first_some (λ want,
          first_some (λ child,
            if is_type want child then
              match rec child path (take mark caps) with
              | (Some h, c) => Some (h, c)
              | (None, _) => None
              end
            else None) (n_children n)) matchOrder with
  | Some (h, c) => (Some h, c)
  | None => (None, caps)
  end.

(** Lines 179-190: the node itself matched all of [path]. *)
Definition match_end (n : node) (caps : list capture) : option H * list capture :=
  match n_handler n with
  | Some h => (Some h, caps)
  | None =>
      match first_some (λ child,
              match is_type catchAll child, n_handler child with
              | true, Some h => Some (h, caps ++ [Capture (n_paramKey child) []])
              | _, _ => None
              end) (n_children n) with
      | Some (h, c) => (Some h, c)
      | None => (None, caps)
      end
  end.

Definition match_rest (rec : node → bytes → list capture → option H * list capture)
    (n : node) (path : bytes) (caps : list capture) : option H * list capture :=
  match path with
  | [] => match_end n caps
  | _ => match_children rec n path caps
  end.

(** [end := strings.IndexByte(path, '/')]: the segment and what follows it *)
Definition split_segment (path : bytes) : bytes * bytes :=
  match IndexByte path "/" with
  | None => (path, [])
  | Some e => (take e path, drop e path)
  end.

(** [(n *node).match] *)
Fixpoint match_ (ci : bool) (n : node) (path : bytes) (caps : list capture) {struct n}
  : option H * list capture :=
  match n_type n with
  | static =>
      if negb (hasPrefix path (n_path n) ci) then (None, caps)
      else match_rest (match_ ci) n (drop (length (n_path n)) path) caps
  | param =>
      let '(value, path') := split_segment path in
      match value with
      | [] => (None, caps)
      | _ => match_rest (match_ ci) n path' (caps ++ [Capture (n_paramKey n) value])
      end
  | catchAll => (n_handler n, caps ++ [Capture (n_paramKey n) path])
  end.

(** [(n *node).search]: the handler and the bound parameters; the map is [nil]
    for a route without parameters. A later binding of a key overwrites an
    earlier one. *)
Definition search (n : node) (path : bytes) (ci : bool)
  : option H * option (gmap bytes bytes) :=
  let '(handler, caps) := match_ ci n path [] in
  match handler, caps with
  | None, _ => (None, None)
  | _, [] => (handler, None)
  | _, _ =>
      (handler,
       Some (fold_left (λ m c, <[cap_key c := cap_value c]> m) caps ∅))
  end.
End node.
Arguments node : clear implicits.
