(* ===== verification/Pattern.v ===== *)
(** * Route patterns: the specification of the radix tree

    A registered path is read as a sequence of tokens, a request path is matched
    against it token by token, and two patterns that match the same request are
    compared by the priority the router documents (literal, then parameter, then
    catch-all). Nothing here mentions a tree. *)

From S2P Require Import Prelude GoStrings Node.

Inductive tok := TLit (c : byte) | TParam (key : bytes) | TCatch (key : bytes).

(** Tokens up to what the tree distinguishes: literals up to case folding,
    parameters and catch-alls up to their key. *)
Inductive ntok := NLit (c : byte) | NParam | NCatch.

#[export] Instance tok_eq_dec : EqDecision tok.
Proof. solve_decision. Defined.
#[export] Instance ntok_eq_dec : EqDecision ntok.
Proof. solve_decision. Defined.

Definition foldc (ci : bool) (c : byte) : byte := if ci then lowerASCII c else c.

Definition norm1 (ci : bool) (t : tok) : ntok :=
  match t with
  | TLit c => NLit (foldc ci c)
  | TParam _ => NParam
  | TCatch _ => NCatch
  end.
Definition norm (ci : bool) : list tok → list ntok := fmap (norm1 ci).

(** The run up to the next ['/'], and what follows it. *)
Fixpoint take_seg (s : bytes) : bytes :=
  match s with
  | [] => []
  | c :: s' => if Ascii.eqb c "/" then [] else c :: take_seg s'
  end.
Fixpoint drop_seg (s : bytes) : bytes :=
  match s with
  | [] => []
  | c :: s' => if Ascii.eqb c "/" then s else drop_seg s'
  end.

(** The tokens of a registered path; [skip] is on inside a parameter's name. *)
Fixpoint parse (skip : bool) (path : bytes) : list tok :=
  match path with
  | [] => []
  | c :: p =>
      if skip && negb (Ascii.eqb c "/") then parse true p
      else if Ascii.eqb c ":" then TParam (take_seg p) :: parse true p
      else if Ascii.eqb c "*" then [TCatch p]
      else TLit c :: parse false p
  end.
Abbreviation pattern := (parse false).

(** Matching a request path; the bindings in the order they are made. *)
Fixpoint tmatch (ci : bool) (ts : list tok) (path : bytes) : option (list capture) :=
  match ts with
  | [] => match path with [] => Some [] | _ => None end
  | TLit c :: ts' =>
      match path with
      | x :: p => if Ascii.eqb (foldc ci x) (foldc ci c) then tmatch ci ts' p else None
      | [] => None
      end
  | TParam k :: ts' =>
      match take_seg path with
      | [] => None
      | v => cons (Capture k v) <$> tmatch ci ts' (drop_seg path)
      end
  | TCatch k :: _ => Some [Capture k path]
  end.

(** Priority: a literal beats a parameter, a parameter beats a catch-all, and a
    pattern that is complete beats one that still expects a catch-all. *)
Definition rank (t : tok) : nat :=
  match t with TLit _ => 0 | TParam _ => 1 | TCatch _ => 2 end.

Fixpoint prefers (a b : list tok) : Prop :=
  match a, b with
  | [], _ => True
  | _ :: _, [] => False
  | x :: a', y :: b' => rank x < rank y ∨ (rank x = rank y ∧ prefers a' b')
  end.

(** ** Lemmas *)

Lemma take_drop_seg s : take_seg s ++ drop_seg s = s.
Proof. induction s as [|c s IH]; simpl; [done|]. case_match; simpl; congruence. Qed.

Lemma index_seg s :
  match IndexByte s "/" with
  | Some e => take e s = take_seg s ∧ drop e s = drop_seg s
  | None => s = take_seg s ∧ drop_seg s = []
  end.
Proof.
  unfold IndexByte. induction s as [|c s IH]; simpl; [done|].
  rewrite (Ascii.eqb_sym "/" c).
  destruct (Ascii.eqb c "/"); simpl; [done|].
  destruct (index_where _ s); simpl; destruct IH; split; congruence.
Qed.

Lemma split_segment_seg s : split_segment s = (take_seg s, drop_seg s).
Proof.
  unfold split_segment. pose proof (index_seg s) as Hs.
  destruct (IndexByte s "/"); destruct Hs as [H1 H2]; congruence.
Qed.

Lemma split_param_seg p : split_param (":"%char :: p) = (take_seg p, drop_seg p).
Proof.
  unfold split_param. simpl. rewrite drop_0. pose proof (index_seg p) as Hs.
  destruct (IndexByte p "/") as [e|]; destruct Hs as [H1 H2]; [|congruence].
  rewrite Nat.add_1_r. simpl. congruence.
Qed.

Lemma drop_seg_length s : length (drop_seg s) ≤ length s.
Proof. induction s as [|c s IH]; simpl; [lia|]. case_match; simpl; lia. Qed.

Lemma parse_skip p : parse true p = pattern (drop_seg p).
Proof.
  induction p as [|c p IH]; simpl; [done|].
  destruct (Ascii.eqb_spec c "/") as [->|Hc]; simpl; [done|]. by rewrite IH.
Qed.

Lemma pattern_param p : pattern (":"%char :: p) = TParam (take_seg p) :: pattern (drop_seg p).
Proof. simpl. by rewrite parse_skip. Qed.

(** [lit s]: [s] has no [':'] and no ['*']. *)
Definition lit (s : bytes) : Prop := ∀ c, c ∈ s → c ≠ ":"%char ∧ c ≠ "*"%char.

Lemma lit_nil : lit [].
Proof. intros c Hc. by apply not_elem_of_nil in Hc. Qed.
Lemma lit_cons c s : lit (c :: s) ↔ (c ≠ ":"%char ∧ c ≠ "*"%char) ∧ lit s.
Proof.
  unfold lit. split; [intros Hl; split; [|intros d Hd]; apply Hl; by constructor|].
  by intros [Hc Hs] d [->|Hd]%elem_of_cons; auto.
Qed.
Lemma lit_app s1 s2 : lit (s1 ++ s2) ↔ lit s1 ∧ lit s2.
Proof. unfold lit. setoid_rewrite elem_of_app. firstorder. Qed.
Lemma lit_take k s : lit s → lit (take k s).
Proof. rewrite <- (take_drop k s) at 1. rewrite lit_app. tauto. Qed.
Lemma lit_drop k s : lit s → lit (drop k s).
Proof. rewrite <- (take_drop k s) at 1. rewrite lit_app. tauto. Qed.
#[export] Hint Resolve lit_nil lit_take lit_drop : goichi.

Lemma pattern_lit s r : lit s → pattern (s ++ r) = (TLit <$> s) ++ pattern r.
Proof.
  induction s as [|c s IH]; simpl; [done|]. rewrite lit_cons. intros [[H1 H2] Hs].
  apply Ascii.eqb_neq in H1, H2. rewrite H1, H2. by rewrite IH.
Qed.

Lemma norm_app ci a b : norm ci (a ++ b) = norm ci a ++ norm ci b.
Proof. apply fmap_app. Qed.

Lemma norm_lits ci s : norm ci (TLit <$> s) = (NLit ∘ foldc ci) <$> s.
Proof. unfold norm. by rewrite <- list_fmap_compose. Qed.

(** Normalisation keeps exactly what matching and priority depend on. *)
Lemma norm_tmatch ci a b path :
  norm ci a = norm ci b →
  fmap (M:=option) (fmap (M:=list) cap_value) (tmatch ci a path) =
  fmap (M:=option) (fmap (M:=list) cap_value) (tmatch ci b path).
Proof.
  revert b path. induction a as [|x a IH]; intros [|y b] path Hab; try done.
  injection Hab as Hxy Hab. specialize (IH b).
  destruct x, y; simplify_eq/=; [..|done].
  - destruct path as [|z p]; [done|]. rewrite Hxy.
    destruct (Ascii.eqb (foldc ci z) (foldc ci c0)); [|done]. by apply IH.
  - destruct (take_seg path); [done|]. specialize (IH (drop_seg path) Hab).
    destruct (tmatch ci a _), (tmatch ci b _); simplify_eq/=; congruence.
Qed.

Lemma norm_tmatch_None ci a b path :
  norm ci a = norm ci b → tmatch ci a path = None → tmatch ci b path = None.
Proof.
  intros Hn Ha. pose proof (norm_tmatch ci a b path Hn) as Hv. rewrite Ha in Hv.
  by destruct (tmatch ci b path).
Qed.

Lemma norm_prefers ci a a' b b' :
  norm ci a = norm ci a' → norm ci b = norm ci b' → prefers a b → prefers a' b'.
Proof.
  revert a' b b'. induction a as [|x a IH]; intros [|x' a'] [|y b] [|y' b'] Ha Hb; try done.
  injection Ha as Hx Ha. injection Hb as Hy Hb. simpl.
  assert (rank x = rank x') as -> by (destruct x, x'; naive_solver).
  assert (rank y = rank y') as -> by (destruct y, y'; naive_solver).
  intros [?|[? ?]]; [by left|right]. eauto.
Qed.

Lemma prefers_refl a : prefers a a.
Proof. induction a; simpl; auto. Qed.

Lemma tmatch_app_lits ci s ts path :
  tmatch ci ((TLit <$> s) ++ ts) path =
  if hasPrefix path s ci then tmatch ci ts (drop (length s) path) else None.
Proof.
  revert path. induction s as [|c s IH]; intros path; simpl.
  - rewrite drop_0. unfold hasPrefix. simpl. rewrite take_0. by destruct ci.
  - destruct path as [|x path]; [done|]. rewrite IH. simpl.
    unfold hasPrefix. simpl. change (S (length path) <? S (length s)) with (length path <? length s).
    destruct (length path <? length s); [by destruct (Ascii.eqb _ _)|].
    destruct ci; simpl.
    + by destruct (Ascii.eqb _ _).
    + unfold beqb. destruct (Ascii.eqb_spec x c) as [->|Hc].
      * by rewrite (bool_decide_ext (c :: _ = c :: s) (take (length s) path = s))
          by (split; congruence).
      * by rewrite bool_decide_eq_false_2 by congruence.
Qed.

(** ** Uniqueness of the preferred match *)

(** A catch-all ends its pattern. *)
Fixpoint catch_last (ts : list tok) : Prop :=
  match ts with
  | [] => True
  | TCatch _ :: ts' => ts' = []
  | _ :: ts' => catch_last ts'
  end.

Lemma parse_catch_last skip p : catch_last (parse skip p).
Proof.
  revert skip. induction p as [|c p IH]; intros skip; simpl; [done|].
  repeat case_match; simpl; auto.
Qed.
#[export] Hint Resolve parse_catch_last : goichi.

Lemma norm_catch_last ci a b : norm ci a = norm ci b → catch_last a → catch_last b.
Proof.
  revert b. induction a as [|x a IH]; intros [|y b] Hn Ha; try done.
  injection Hn as Hx Hn. destruct x, y; simplify_eq/=; eauto. by destruct b.
Qed.

Lemma prefers_antisym ci a b path :
  catch_last a → catch_last b →
  tmatch ci a path ≠ None → tmatch ci b path ≠ None →
  prefers a b → prefers b a → norm ci a = norm ci b.
Proof.
  revert b path. induction a as [|x a IH]; intros [|y b] path Ha Hb Hma Hmb Hab Hba; try done.
  simpl in Hab, Hba.
  destruct Hab as [Hlt|[Hr Hab']], Hba as [Hlt'|[Hr' Hba']]; try lia.
  destruct x, y; simplify_eq/=; try done.
  - destruct path as [|z p]; [done|].
    destruct (Ascii.eqb_spec (foldc ci z) (foldc ci c)) as [Hc|]; [|done].
    destruct (Ascii.eqb_spec (foldc ci z) (foldc ci c0)) as [Hc0|]; [|done].
    f_equal; [congruence|]. by eapply (IH b p).
  - destruct (take_seg path); [done|]. f_equal.
    apply (IH b (drop_seg path)); try done; intros Hn; rewrite Hn in *; done.
Qed.

(** ** Matching without regard to case *)

Lemma lowerASCII_slash c : Ascii.eqb (lowerASCII c) "/" = Ascii.eqb c "/".
Proof. destruct c as [[] [] [] [] [] [] [] []]; reflexivity. Qed.

(** Equal up to ASCII case. *)
Definition same_fold (p p' : bytes) : Prop := lowerASCII <$> p = lowerASCII <$> p'.

Lemma same_fold_seg p p' :
  same_fold p p' → same_fold (take_seg p) (take_seg p') ∧ same_fold (drop_seg p) (drop_seg p').
Proof.
  unfold same_fold. revert p'. induction p as [|c p IH]; intros [|c' p'] Hf; try done.
  injection Hf as Hc Hf. destruct (IH p' Hf) as [H1 H2]. simpl.
  rewrite <- (lowerASCII_slash c), <- (lowerASCII_slash c'), Hc.
  destruct (Ascii.eqb (lowerASCII c') "/"); simpl; split; try done.
  - by f_equal.
  - by f_equal.
Qed.

Lemma tmatch_fold ts p p' vals :
  same_fold p p' → tmatch true ts p = Some vals →
  ∃ vals', tmatch true ts p' = Some vals' ∧ cap_key <$> vals' = cap_key <$> vals ∧
    Forall2 (λ v v', same_fold (cap_value v) (cap_value v')) vals vals'.
Proof.
  revert p p' vals. induction ts as [|t ts IH]; intros p p' vals Hf Hm.
  - destruct p, p'; try done. simplify_eq/=. exists []. by split_and!.
  - destruct t; simpl in *.
    + destruct p as [|x p], p' as [|x' p']; try done. injection Hf as Hx Hf.
      rewrite <- Hx. destruct (Ascii.eqb _ _); [|done]. by eapply IH.
    + destruct (same_fold_seg p p' Hf) as [Ht Hd].
      destruct (take_seg p) as [|v0 v] eqn:Hv; [done|].
      destruct (take_seg p') as [|v0' v'] eqn:Hv'; [done|].
      destruct (tmatch true ts (drop_seg p)) as [vs|] eqn:Hm'; simplify_eq/=.
      destruct (IH _ _ _ Hd Hm') as (vs' & -> & Hk & Hvs). simpl.
      eexists. split_and!; [done|simpl; by f_equal|by constructor].
    + simplify_eq. eexists. split_and!; [done..|]. by repeat constructor.
Qed.
