(* ===== verification/NodeTheory.v ===== *)
(** * Correctness of the radix tree

    A tree denotes the list of its routes ([routes]); a tree built by [insert]
    is well formed ([wf]). [match_] returns the preferred route that matches,
    and [insert] is the update of the route map at the inserted pattern. *)

From S2P Require Import Prelude GoStrings Node Pattern.

Section node_theory.
Context {H : Type}.
Implicit Types (n c : node H) (h : H) (o : option H) (ts : list tok) (path : bytes).

Fixpoint node_ind' (P : node H → Prop)
    (HP : ∀ n, Forall P (n_children n) → P n) (n : node H) : P n :=
  HP n (list_ind (Forall P) (Forall_nil_2 P)
          (λ c _ IH, Forall_cons_2 P c _ (node_ind' P HP c) IH) (n_children n)).

(** ** The routes of a tree *)

Definition ntoks n : list tok :=
  match n_type n with
  | static => TLit <$> n_path n
  | param => [TParam (n_paramKey n)]
  | catchAll => [TCatch (n_paramKey n)]
  end.

Definition own n : list (list tok * H) :=
  match n_handler n with Some h => [([], h)] | None => [] end.

Fixpoint routes n : list (list tok * H) :=
  prod_map (app (ntoks n)) id <$>
    (own n ++ match n_type n with catchAll => [] | _ => n_children n ≫= routes end).

(** The routes below [n], relative to it. *)
Definition below n : list (list tok * H) :=
  own n ++ match n_type n with catchAll => [] | _ => n_children n ≫= routes end.

Lemma elem_routes n ts h :
  (ts, h) ∈ routes n ↔ ∃ ts', ts = ntoks n ++ ts' ∧ (ts', h) ∈ below n.
Proof.
  assert (routes n = prod_map (app (ntoks n)) id <$> below n) as -> by (by destruct n).
  rewrite list_elem_of_fmap. split.
  - intros ([ts' h'] & Heq & Hin). simplify_eq/=. eauto.
  - intros (ts' & -> & Hin). by exists (ts', h).
Qed.

Lemma elem_below n ts h :
  (ts, h) ∈ below n ↔
    (ts = [] ∧ n_handler n = Some h) ∨
    (n_type n ≠ catchAll ∧ ∃ c, c ∈ n_children n ∧ (ts, h) ∈ routes c).
Proof.
  unfold below, own. rewrite elem_of_app. apply or_iff_compat_both.
  - destruct (n_handler n) as [h'|]; rewrite ?list_elem_of_singleton.
    + naive_solver.
    + split; [by intros ?%not_elem_of_nil|by intros [_ ?]].
  - destruct (n_type n); rewrite ?list_elem_of_bind.
    1,2: split; [intros (c & ? & ?); eauto|intros [_ (c & ? & ?)]; eauto].
    split; [by intros ?%not_elem_of_nil|by intros [? _]].
Qed.

(** ** Well-formed trees *)

(** What distinguishes a child among its siblings. *)
Definition slot (ci : bool) n : option ntok := head (norm ci (ntoks n)).

Definition nonroot n : Prop := n_type n = static → n_path n ≠ [].

Inductive wf (ci : bool) : node H → Prop :=
  wf_intro n :
    (n_type n = static → lit (n_path n)) →
    (n_type n = catchAll → n_children n = []) →
    NoDup (slot ci <$> n_children n) →
    Forall (λ c, nonroot c ∧ wf ci c) (n_children n) →
    wf ci n.

Definition trank (t : nodeType) : nat :=
  match t with static => 0 | param => 1 | catchAll => 2 end.

Lemma matchOrder_earlier w1 want w2 t :
  matchOrder = w1 ++ want :: w2 → trank t < trank want → t ∈ w1.
Proof.
  unfold matchOrder. intros Heq Hlt.
  destruct w1 as [|a [|b [|d w1]]]; simpl in Heq; injection Heq; intros; subst;
    destruct t; simpl in *; try lia; try (by repeat constructor).
Qed.

Lemma ntoks_head ci n :
  nonroot n →
  ∃ t ts, ntoks n = t :: ts ∧ rank t = trank (n_type n) ∧ slot ci n = Some (norm1 ci t).
Proof.
  unfold nonroot, slot, ntoks. destruct (n_type n); [|eauto..].
  intros Hp. destruct (n_path n) as [|x p]; [by destruct Hp|simpl; eauto].
Qed.

Lemma routes_head ci n ts h :
  nonroot n → (ts, h) ∈ routes n →
  ∃ t ts', ts = t :: ts' ∧ rank t = trank (n_type n) ∧ slot ci n = Some (norm1 ci t).
Proof.
  intros Hn (ts' & -> & _)%elem_routes.
  destruct (ntoks_head ci n Hn) as (t & ts & -> & ? & ?). simpl. eauto.
Qed.

(** Two tokens of one rank that match the same non-empty path are the same. *)
Lemma tmatch_head ci t ts t' ts' path :
  tmatch ci (t :: ts) path ≠ None → tmatch ci (t' :: ts') path ≠ None →
  rank t = rank t' → norm1 ci t = norm1 ci t'.
Proof.
  destruct t, t'; simpl; try done.
  destruct path as [|x p]; [done|].
  destruct (Ascii.eqb_spec (foldc ci x) (foldc ci c)) as [<-|]; [|done].
  by destruct (Ascii.eqb_spec (foldc ci x) (foldc ci c0)) as [<-|].
Qed.

(** ** Matching *)

(** [match_] on routes [R]: no route matches, or the preferred match is returned. *)
Definition match_spec ci (R : list (list tok * H)) path caps
    (r : option H * list capture) : Prop :=
  match r with
  | (None, _) => ∀ ts h, (ts, h) ∈ R → tmatch ci ts path = None
  | (Some h, caps') =>
      ∃ ts vals, (ts, h) ∈ R ∧ tmatch ci ts path = Some vals ∧ caps' = caps ++ vals ∧
        ∀ ts' h', (ts', h') ∈ R → tmatch ci ts' path ≠ None → prefers ts ts'
  end.

Lemma match_end_spec ci n caps :
  wf ci n → n_type n ≠ catchAll → match_spec ci (below n) [] caps (match_end n caps).
Proof.
  intros Hwf Hty. inversion_clear Hwf as [? _ _ _ Hcs]. rewrite Forall_forall in Hcs.
  assert (∀ c ts h, c ∈ n_children n → (ts, h) ∈ routes c → tmatch ci ts [] ≠ None →
    n_type c = catchAll ∧ ts = [TCatch (n_paramKey c)] ∧ n_handler c = Some h) as Hch.
  { intros c ts h Hc Hts Hm. destruct (Hcs c Hc) as [Hnr _].
    apply elem_routes in Hts as (ts' & -> & Hb). apply elem_below in Hb.
    unfold nonroot, ntoks in *. destruct (n_type c) eqn:Ec; simpl in *; [|done|].
    - destruct (n_path c); [by destruct Hnr|done].
    - destruct Hb as [[-> ?]|[? _]]; done. }
  unfold match_end. destruct (n_handler n) as [h|] eqn:Hh; simpl.
  { exists [], []. rewrite app_nil_r. split_and!; try done.
    apply elem_below. by left. }
  destruct (first_some _ _) as [[h c]|] eqn:Hf; simpl.
  - apply first_some_Some in Hf as (l1 & ch & l2 & Hl & Hc & _).
    destruct (is_type catchAll ch) eqn:Ht; [|done].
    unfold is_type in Ht. apply bool_decide_eq_true in Ht.
    destruct (n_handler ch) as [h'|] eqn:Eh; simplify_eq.
    assert (ch ∈ n_children n) by (rewrite Hl, elem_of_app; right; constructor).
    exists [TCatch (n_paramKey ch)], [Capture (n_paramKey ch) []]. split_and!; [|done..|].
    + apply elem_below. right. split; [done|]. exists ch. split; [done|].
      apply elem_routes. exists []. unfold ntoks. rewrite Ht. split; [done|].
      apply elem_below. by left.
    + intros ts' h' [[-> ?]|[_ (c & Hc & Hts)]]%elem_below Hm; [congruence|].
      destruct (Hch _ _ _ Hc Hts Hm) as (_ & -> & _). simpl. auto.
  - rewrite first_some_None in Hf.
    intros ts h [[-> ?]|[_ (c & Hc & Hts)]]%elem_below; [congruence|].
    apply dec_stable. intros Hm. destruct (Hch _ _ _ Hc Hts Hm) as (Ht & _ & Eh).
    specialize (Hf c Hc). unfold is_type in Hf. by rewrite Ht, Eh in Hf.
Qed.

Lemma match_children_spec ci n path caps :
  wf ci n → n_type n ≠ catchAll → path ≠ [] →
  Forall (λ c, ∀ path caps, wf ci c →
            match_spec ci (routes c) path caps (match_ ci c path caps)) (n_children n) →
  match_spec ci (below n) path caps (match_children (match_ ci) n path caps).
Proof.
  intros Hwf Hty Hpath IH. inversion_clear Hwf as [? _ _ Hnd Hcs].
  rewrite Forall_forall in Hcs, IH. unfold match_children. rewrite firstn_all.
  assert (∀ ts h, (ts, h) ∈ below n → tmatch ci ts path ≠ None →
    ∃ c, c ∈ n_children n ∧ (ts, h) ∈ routes c) as Hbelow.
  { intros ts h [[-> _]|[_ ?]]%elem_below Hm; [by destruct path|done]. }
  destruct (first_some _ matchOrder) as [[h c]|] eqn:Hf; simpl.
  - apply first_some_Some in Hf as (w1 & want & w2 & Hord & Hf & Hearlier).
    apply first_some_Some in Hf as (l1 & ch & l2 & Hl & Hc & _).
    unfold is_type in Hc. case_bool_decide as Hct; [|done].
    assert (ch ∈ n_children n) as Hin by (rewrite Hl, elem_of_app; right; constructor).
    destruct (Hcs ch Hin) as [Hnr Hwf].
    pose proof (IH ch Hin path caps Hwf) as Hm.
    destruct (match_ ci ch path caps) as [[h0|] c0]; simplify_eq.
    destruct Hm as (ts & vals & Hts & Hm & -> & Hbest).
    exists ts, vals. split_and!; [|done..|].
    { apply elem_below. right. eauto. }
    intros ts' h' Hb Hm'. destruct (Hbelow _ _ Hb Hm') as (c' & Hc' & Hts').
    destruct (Hcs c' Hc') as [Hnr' Hwf'].
    destruct (routes_head ci ch ts h Hnr Hts) as (t & tl & -> & Hr & Hs).
    destruct (routes_head ci c' ts' h' Hnr' Hts') as (t' & tl' & -> & Hr' & Hs').
    destruct (decide (rank t < rank t')); [by left|].
    destruct (decide (rank t = rank t')) as [Hrr|].
    + assert (ch = c') as <-; [|by eapply Hbest].
      eapply (NoDup_fmap_inj (slot ci)); [done..|]. rewrite Hs, Hs'. f_equal.
      eapply tmatch_head; [by rewrite Hm|exact Hm'|done].
    + destruct Hm'.
      assert (n_type c' ∈ w1) as Hw1.
      { eapply matchOrder_earlier; [done|]. lia. }
      pose proof (Hearlier _ Hw1) as Hnone. rewrite first_some_None in Hnone.
      specialize (Hnone c' Hc'). unfold is_type in Hnone.
      rewrite bool_decide_eq_true_2 in Hnone by done.
      pose proof (IH c' Hc' path caps Hwf') as Hm'.
      destruct (match_ ci c' path caps) as [[?|] ?]; [done|]. by eapply Hm'.
  - intros ts h Hb. apply dec_stable. intros Hm'.
    destruct (Hbelow _ _ Hb Hm') as (c & Hc & Hts). destruct (Hcs c Hc) as [_ Hwf].
    rewrite first_some_None in Hf.
    assert (n_type c ∈ matchOrder) as Hin by (destruct (n_type c); repeat constructor).
    specialize (Hf _ Hin). rewrite first_some_None in Hf.
    pose proof (Hf c Hc) as Hn. unfold is_type in Hn.
    rewrite bool_decide_eq_true_2 in Hn by done.
    pose proof (IH c Hc path caps Hwf) as Hm.
    destruct (match_ ci c path caps) as [[?|] ?]; [done|]. destruct Hm'. by eapply Hm.
Qed.

Lemma prefers_app p a b : prefers a b → prefers (p ++ a) (p ++ b).
Proof. induction p; simpl; auto. Qed.

(** A node's own tokens consume [path] down to [path'] and bind [pre]. *)
Lemma match_spec_lift ci n path path' pre caps r :
  (∀ ts, tmatch ci (ntoks n ++ ts) path = app pre <$> tmatch ci ts path') →
  match_spec ci (below n) path' (caps ++ pre) r →
  match_spec ci (routes n) path caps r.
Proof.
  intros Ht. destruct r as [[h|] caps']; simpl.
  - intros (ts & vals & Hin & Hm & -> & Hbest).
    exists (ntoks n ++ ts), (pre ++ vals). rewrite Ht, Hm, app_assoc. split_and!; [|done..|].
    + apply elem_routes. eauto.
    + intros ts' h' (ts'' & -> & Hin')%elem_routes Hm'. apply prefers_app.
      eapply Hbest; [done|]. intros Hnone. by rewrite Ht, Hnone in Hm'.
  - intros Hnone ts h (ts' & -> & Hin)%elem_routes. by rewrite Ht, (Hnone ts' h).
Qed.

Lemma match_rest_spec ci n path caps :
  wf ci n → n_type n ≠ catchAll →
  Forall (λ c, ∀ path caps, wf ci c →
            match_spec ci (routes c) path caps (match_ ci c path caps)) (n_children n) →
  match_spec ci (below n) path caps (match_rest (match_ ci) n path caps).
Proof.
  intros. destruct path; [by apply match_end_spec|by apply match_children_spec].
Qed.

Theorem match_correct ci n path caps :
  wf ci n → match_spec ci (routes n) path caps (match_ ci n path caps).
Proof.
  revert path caps. induction n as [n IH] using node_ind'. intros path caps Hwf.
  destruct n as [p ty cs hd k] eqn:En. rewrite <- En in *.
  assert (match_ ci n path caps = match n_type n with
    | static => if negb (hasPrefix path (n_path n) ci) then (None, caps)
                else match_rest (match_ ci) n (drop (length (n_path n)) path) caps
    | param => match take_seg path with
               | [] => (None, caps)
               | v => match_rest (match_ ci) n (drop_seg path)
                        (caps ++ [Capture (n_paramKey n) v])
               end
    | catchAll => (n_handler n, caps ++ [Capture (n_paramKey n) path])
    end) as ->.
  { rewrite En. destruct ty; [done| |done]. simpl. rewrite split_segment_seg.
    by destruct (take_seg path). }
  destruct (n_type n) eqn:Hty.
  - destruct (hasPrefix path (n_path n) ci) eqn:Hp; simpl.
    + eapply (match_spec_lift _ _ _ _ []); [|rewrite app_nil_r; apply match_rest_spec; congruence].
      intros ts. unfold ntoks. rewrite Hty, tmatch_app_lits, Hp. by destruct (tmatch _ _ _).
    + intros ts h (ts' & -> & _)%elem_routes. unfold ntoks.
      by rewrite Hty, tmatch_app_lits, Hp.
  - destruct (take_seg path) as [|x v] eqn:Hv.
    + intros ts h (ts' & -> & _)%elem_routes. unfold ntoks. rewrite Hty. simpl. by rewrite Hv.
    + eapply match_spec_lift; [|apply match_rest_spec; congruence].
      intros ts. unfold ntoks. rewrite Hty. simpl. rewrite Hv. done.
  - assert (∀ ts h, (ts, h) ∈ routes n ↔ ts = [TCatch (n_paramKey n)] ∧ n_handler n = Some h) as Hr.
    { intros ts h. rewrite elem_routes. setoid_rewrite elem_below.
      unfold ntoks. rewrite Hty. simpl. split.
      - intros (ts' & -> & [[-> ?]|[? _]]); [by split|congruence].
      - intros [-> ?]. exists []. eauto. }
    destruct (n_handler n) as [h|]; simpl.
    + exists [TCatch (n_paramKey n)], [Capture (n_paramKey n) path].
      split_and!; [by apply Hr|done..|]. intros ts' h' [-> _]%Hr _. apply prefers_refl.
    + by intros ts h [_ ?]%Hr.
Qed.

(** ** The route map denoted by a tree *)

(** [binds ci n t h]: below [n], pattern [t] leads to [h]. *)
Definition binds ci n (t : list ntok) h : Prop :=
  ∃ ts, norm ci ts = t ∧ (ts, h) ∈ below n.
Definition cbinds ci c (t : list ntok) h : Prop :=
  ∃ ts, norm ci ts = t ∧ (ts, h) ∈ routes c.

(** Updating a route map at one pattern. *)
Definition upd (P : list ntok → H → Prop) (T : list ntok) (h : option H) t h' : Prop :=
  (t = T ∧ h = Some h') ∨ (t ≠ T ∧ P t h').

Lemma cbinds_iff ci c t h :
  cbinds ci c t h ↔ ∃ t', t = norm ci (ntoks c) ++ t' ∧ binds ci c t' h.
Proof.
  unfold cbinds, binds. setoid_rewrite elem_routes. split.
  - intros (ts & <- & ts' & -> & Hb). exists (norm ci ts'). rewrite norm_app. eauto.
  - intros (t' & -> & ts & <- & Hb). exists (ntoks c ++ ts). rewrite norm_app. eauto.
Qed.

Lemma binds_iff ci n t h :
  n_type n ≠ catchAll →
  binds ci n t h ↔
    (t = [] ∧ n_handler n = Some h) ∨ ∃ c, c ∈ n_children n ∧ cbinds ci c t h.
Proof.
  intros Hty. unfold binds, cbinds. setoid_rewrite elem_below. split.
  - intros (ts & <- & [[-> ?]|[_ (c & ? & ?)]]); [by left|right]. exists c. eauto.
  - intros [[-> ?]|(c & ? & ts & <- & ?)]; [exists []; eauto|].
    exists ts. split; [done|]. right. eauto.
Qed.

Lemma cbinds_catch ci c t h :
  n_type c = catchAll → cbinds ci c t h ↔ t = [NCatch] ∧ n_handler c = Some h.
Proof.
  intros Hty. rewrite cbinds_iff. unfold binds, ntoks. setoid_rewrite elem_below.
  rewrite Hty. simpl. split.
  - intros (t' & -> & ts & <- & [[-> ?]|[? _]]); [done|congruence].
  - intros [-> ?]. exists []. split; [done|]. exists []. eauto.
Qed.

Lemma cbinds_head ci c t h :
  nonroot c → cbinds ci c t h → ∃ a t', t = a :: t' ∧ slot ci c = Some a.
Proof.
  intros Hn (ts & <- & Hts).
  destruct (routes_head ci c ts h Hn Hts) as (a & ts' & -> & _ & Hs). simpl. eauto.
Qed.

Lemma binds_fresh ci p ty k t h : ¬ binds ci (Node p ty [] None k) t h.
Proof.
  unfold binds. setoid_rewrite elem_below. simpl.
  intros (ts & _ & [[_ ?]|[_ (c & Hc & _)]]); [done|]. by apply not_elem_of_nil in Hc.
Qed.

Lemma wf_fresh ci p ty (o : option H) k : (ty = static → lit p) → wf ci (Node p ty [] o k).
Proof. intros Hl. constructor; simpl; auto; by constructor. Qed.

Lemma slot_eq ci n n' : ntoks n = ntoks n' → slot ci n = slot ci n'.
Proof. unfold slot. by intros ->. Qed.

(** What one insertion below [n] does. *)
Record updated ci n n' (T : list ntok) (h : option H) : Prop := {
  up_path : n_path n' = n_path n;
  up_type : n_type n' = n_type n;
  up_key : n_paramKey n' = n_paramKey n;
  up_wf : wf ci n';
  up_binds : ∀ t h', binds ci n' t h' ↔ upd (binds ci n) T h t h';
}.

Lemma updated_ntoks ci n n' T o : updated ci n n' T o → ntoks n' = ntoks n.
Proof. intros [Hp Ht Hk _ _]. unfold ntoks. by rewrite Hp, Ht, Hk. Qed.

Lemma updated_cbinds ci c c' T o t h' :
  updated ci c c' T o →
  cbinds ci c' t h' ↔ upd (cbinds ci c) (norm ci (ntoks c) ++ T) o t h'.
Proof.
  intros Hup. unfold upd. rewrite !cbinds_iff, (updated_ntoks _ _ _ _ _ Hup).
  setoid_rewrite (up_binds _ _ _ _ _ Hup). unfold upd. split.
  - intros (t' & -> & [[-> ->]|[Hne Hb]]); [by left|right].
    split; [by intros ?%app_inv_head|eauto].
  - intros [[-> ->]|[Hne (t' & -> & Hb)]]; [eauto|].
    exists t'. split; [done|]. right. split; [|done]. congruence.
Qed.

(** Replacing the one child the pattern goes through. *)
Lemma replace_child ci n l1 c l2 c' a T o :
  n_type n ≠ catchAll → wf ci n → n_children n = l1 ++ c :: l2 →
  slot ci c = Some a → slot ci c' = Some a → nonroot c' → wf ci c' →
  (∀ t h', cbinds ci c' t h' ↔ upd (cbinds ci c) (a :: T) o t h') →
  updated ci n (set_children n (l1 ++ c' :: l2)) (a :: T) o.
Proof.
  intros Hty Hwf Hch Hs Hs' Hnr Hwf' Hc'. inversion_clear Hwf as [? Hl Hk Hnd Hcs].
  rewrite Hch, fmap_app, fmap_cons in Hnd. rewrite Hch, Forall_app, Forall_cons in Hcs.
  destruct Hcs as (Hcs1 & [Hnc _] & Hcs2).
  assert (∀ d, d ∈ l1 ++ l2 → slot ci d ≠ Some a ∧ nonroot d) as Hd.
  { intros d Hd. apply NoDup_app in Hnd as (_ & Hx & [Hy _]%NoDup_cons).
    rewrite Forall_forall in Hcs1, Hcs2. apply elem_of_app in Hd as [Hd|Hd].
    - split; [|by apply Hcs1]. intros Hsd. apply (Hx (slot ci d)).
      + by apply list_elem_of_fmap_2.
      + rewrite Hsd, Hs. constructor.
    - split; [|by apply Hcs2]. intros Hsd. apply Hy. rewrite Hs, <- Hsd.
      by apply list_elem_of_fmap_2. }
  split; try done.
  { constructor; simpl; [done|by intros|..].
    - by rewrite fmap_app, fmap_cons, Hs', <- Hs.
    - by rewrite Forall_app, Forall_cons. }
  intros t h'. rewrite binds_iff by done. unfold upd. rewrite binds_iff by done. simpl.
  rewrite Hch. repeat setoid_rewrite elem_of_app. repeat setoid_rewrite elem_of_cons. split.
  - intros [[-> ?]|(d & Hin & Hb)]; [right; split; [done|auto]|].
    assert (d = c' ∨ d ∈ l1 ++ l2) as [->|Hin'] by (rewrite elem_of_app; tauto).
    + apply Hc' in Hb as [?|[? ?]]; [auto|right]. split; [done|]. right. eauto.
    + destruct (Hd d Hin') as [Hne Hnr'].
      destruct (cbinds_head ci d t h' Hnr' Hb) as (b & t' & -> & Hsb).
      right. split; [congruence|]. right. exists d. split; [|done].
      apply elem_of_app in Hin'. tauto.
  - intros [[-> ->]|[Hne [?|(d & Hin & Hb)]]]; [|by left|].
    + right. exists c'. split; [auto|]. apply Hc'. by left.
    + right. destruct Hin as [Hin|[->|Hin]]; [eauto| |eauto].
      exists c'. split; [auto|]. apply Hc'. by right.
Qed.

(** Appending a child in a slot no sibling has. *)
Lemma append_child ci n c' a T o :
  n_type n ≠ catchAll → wf ci n →
  slot ci c' = Some a → nonroot c' → wf ci c' →
  (∀ d, d ∈ n_children n → slot ci d ≠ Some a) →
  (∀ t h', cbinds ci c' t h' ↔ t = a :: T ∧ o = Some h') →
  updated ci n (set_children n (n_children n ++ [c'])) (a :: T) o.
Proof.
  intros Hty Hwf Hs' Hnr Hwf' Hd Hc'. inversion_clear Hwf as [? Hl Hk Hnd Hcs].
  split; try done.
  { constructor; simpl; [done|by intros|..].
    - rewrite fmap_app. simpl. rewrite Hs'. apply NoDup_app. split_and!; [done| |].
      + intros x (d & -> & Hin)%list_elem_of_fmap. rewrite list_elem_of_singleton.
        by apply Hd.
      + apply NoDup_singleton.
    - rewrite Forall_app, Forall_singleton. auto. }
  intros t h'. rewrite binds_iff by done. unfold upd. rewrite binds_iff by done. simpl.
  setoid_rewrite elem_of_app. setoid_rewrite list_elem_of_singleton. rewrite Forall_forall in Hcs. split.
  - intros [[-> ?]|(d & [Hin| ->] & Hb)]; [right; split; [done|auto]| |].
    + destruct (cbinds_head ci d t h') as (b & t' & -> & Hsb); [by apply Hcs|done|].
      right. split; [|by eauto 10]. intros ?; simplify_eq. by eapply Hd.
    + apply Hc' in Hb as [-> ->]. by left.
  - intros [[-> ->]|[Hne [?|(d & Hin & Hb)]]]; [|by left|by eauto 10].
    right. exists c'. split; [auto|]. by apply Hc'.
Qed.

(** ** Insertion *)

Lemma split_static_spec x p sp rest :
  x ≠ ":"%char → x ≠ "*"%char → split_static (x :: p) = (sp, rest) →
  x :: p = sp ++ rest ∧ lit sp ∧ head sp = Some x ∧ length rest ≤ length p.
Proof.
  intros Hx1 Hx2. unfold split_static, IndexAny.
  set (any := λ c : byte, existsb (Ascii.eqb c) (B ":*")).
  assert (∀ c : byte, any c = false → c ≠ ":"%char ∧ c ≠ "*"%char) as Hany.
  { intros c. unfold any, B. simpl. rewrite !orb_false_iff, !Ascii.eqb_neq. tauto. }
  assert (any x = false) as Hx.
  { unfold any, B. simpl. by apply Ascii.eqb_neq in Hx1 as ->, Hx2 as ->. }
  simpl. rewrite Hx.
  destruct (index_where any p) as [i|] eqn:Hi; simpl; intros; simplify_eq.
  - destruct (index_where_Some any p i Hi) as (Hlt & _ & Hb). split_and!; simpl.
    + by rewrite take_drop.
    + rewrite lit_cons. split; [auto|]. intros d Hd. auto.
    + done.
    + rewrite length_drop. lia.
  - rewrite index_where_None in Hi. split_and!; simpl; [by rewrite app_nil_r| |done|lia].
    rewrite lit_cons. split; [auto|]. intros d Hd. auto.
Qed.

Lemma commonPrefix_spec a b ci :
  commonPrefix a b ci ≤ length a ∧ commonPrefix a b ci ≤ length b ∧
  foldc ci <$> take (commonPrefix a b ci) a = foldc ci <$> take (commonPrefix a b ci) b.
Proof.
  revert b. induction a as [|x a IH]; intros [|y b]; simpl; try (split_and!; lia || done).
  change (if ci then lowerASCII x else x) with (foldc ci x).
  change (if ci then lowerASCII y else y) with (foldc ci y).
  destruct (Ascii.eqb_spec (foldc ci x) (foldc ci y)) as [Hxy|]; simpl;
    [|split_and!; lia || done].
  destruct (IH b) as (? & ? & Heq). split_and!; [lia..|]. by f_equal.
Qed.

Lemma commonPrefix_0 x a y b ci :
  commonPrefix (x :: a) (y :: b) ci = 0 ↔ foldc ci x ≠ foldc ci y.
Proof.
  simpl. change (if ci then lowerASCII x else x) with (foldc ci x).
  change (if ci then lowerASCII y else y) with (foldc ci y).
  by destruct (Ascii.eqb_spec (foldc ci x) (foldc ci y)).
Qed.

Lemma updated_set_handler ci n o :
  n_type n ≠ catchAll → wf ci n → updated ci n (set_handler n o) [] o.
Proof.
  intros Hty Hwf. inversion_clear Hwf as [? Hl Hk Hnd Hcs]. split; try done.
  intros t h'. rewrite binds_iff by done. unfold upd. rewrite binds_iff by done. simpl. split.
  - intros [?|(d & Hin & Hb)]; [by left|right].
    rewrite Forall_forall in Hcs. destruct (Hcs d Hin) as [Hnr _].
    destruct (cbinds_head ci d t h' Hnr Hb) as (a & t' & -> & _). split; [done|]. eauto.
  - intros [?|[Hne [[? _]|?]]]; [by left|done|by right].
Qed.

(** Splitting a static node keeps its routes. *)
Lemma split_cbinds ci c k :
  n_type c = static →
  let split := Node (drop k (n_path c)) static (n_children c) (n_handler c) [] in
  let c' := Node (take k (n_path c)) (n_type c) [split] None (n_paramKey c) in
  ∀ t h, cbinds ci c' t h ↔ cbinds ci c t h.
Proof.
  intros Hty split c' t h. rewrite (cbinds_iff _ c'), (cbinds_iff _ c).
  assert (ntoks c = ntoks c' ++ ntoks split) as Hn.
  { unfold ntoks, c', split. simpl. rewrite Hty. by rewrite <- fmap_app, take_drop. }
  rewrite Hn, norm_app.
  assert (∀ t, binds ci c' t h ↔ ∃ t', t = norm ci (ntoks split) ++ t' ∧ binds ci c t' h) as Hb.
  { intros t0. rewrite binds_iff by (unfold c'; simpl; congruence). simpl. split.
    - intros [[_ ?]|(d & Hin & Hb)]; [done|]. apply list_elem_of_singleton in Hin as ->.
      apply cbinds_iff in Hb as (t' & -> & Hb). exists t'. split; [done|].
      rewrite binds_iff in Hb |- * by (simpl; congruence). done.
    - intros (t' & -> & Hb). right. exists split. split; [constructor|].
      apply cbinds_iff. exists t'. split; [done|].
      rewrite binds_iff in Hb |- * by (unfold split; simpl; congruence). done. }
  setoid_rewrite Hb. setoid_rewrite <- (assoc_L (++)). naive_solver.
Qed.

(** Inserting through an existing child [c], possibly split into [c1] first. *)
Lemma via_child ci n l1 c l2 c1 c' a T T' o :
  n_type n ≠ catchAll → wf ci n → n_children n = l1 ++ c :: l2 →
  slot ci c = Some a → slot ci c1 = Some a → nonroot c1 →
  (∀ t h, cbinds ci c1 t h ↔ cbinds ci c t h) →
  updated ci c1 c' T' o → norm ci (ntoks c1) ++ T' = a :: T →
  updated ci n (set_children n (l1 ++ c' :: l2)) (a :: T) o.
Proof.
  intros Hty Hwf Hch Hs Hs1 Hnr Heq Hup HT.
  pose proof (updated_ntoks _ _ _ _ _ Hup) as Hn.
  eapply replace_child; [done..| | | |].
  - by rewrite (slot_eq _ _ _ Hn).
  - unfold nonroot. by rewrite (up_type _ _ _ _ _ Hup), (up_path _ _ _ _ _ Hup).
  - by destruct Hup.
  - intros t h'. rewrite (updated_cbinds _ _ _ _ _ _ _ Hup), HT. unfold upd.
    by rewrite Heq.
Qed.

(** Inserting through a fresh child [c0]. *)
Lemma via_new ci n c0 c' a T T' o :
  n_type n ≠ catchAll → wf ci n →
  slot ci c0 = Some a → nonroot c0 → (∀ t h, ¬ binds ci c0 t h) →
  (∀ d, d ∈ n_children n → slot ci d ≠ Some a) →
  updated ci c0 c' T' o → norm ci (ntoks c0) ++ T' = a :: T →
  updated ci n (set_children n (n_children n ++ [c'])) (a :: T) o.
Proof.
  intros Hty Hwf Hs Hnr Hemp Hd Hup HT.
  pose proof (updated_ntoks _ _ _ _ _ Hup) as Hn.
  eapply append_child; [done..| | | |done|].
  - by rewrite (slot_eq _ _ _ Hn).
  - unfold nonroot. by rewrite (up_type _ _ _ _ _ Hup), (up_path _ _ _ _ _ Hup).
  - by destruct Hup.
  - intros t h'. rewrite (updated_cbinds _ _ _ _ _ _ _ Hup), HT. unfold upd.
    split; [|auto]. intros [?|[_ (t' & _ & Hb)%cbinds_iff]]; [done|by destruct (Hemp t' h')].
Qed.

Lemma slot_of_type ci c ty a :
  n_type c = ty → ty ≠ static → a = (match ty with catchAll => NCatch | _ => NParam end) →
  slot ci c = Some a.
Proof. intros Hc Hty ->. unfold slot, ntoks. rewrite Hc. by destruct ty. Qed.

Lemma slot_type ci c a :
  nonroot c → slot ci c = Some a →
  match a with NLit _ => n_type c = static | NParam => n_type c = param
             | NCatch => n_type c = catchAll end.
Proof.
  unfold nonroot, slot, ntoks. intros Hnr. destruct (n_type c); simpl.
  - destruct (n_path c); [by destruct Hnr|]. simpl. by intros [= <-].
  - by intros [= <-].
  - by intros [= <-].
Qed.

Lemma pattern_split ci q sp k rest :
  lit sp → k ≤ length sp → foldc ci <$> q = foldc ci <$> take k sp →
  norm ci (pattern (sp ++ rest)) = norm ci (TLit <$> q) ++ norm ci (pattern (drop k sp ++ rest)).
Proof.
  intros Hlit Hk Hq. rewrite <- (take_drop k sp) at 1. rewrite <- app_assoc.
  rewrite (pattern_lit (take k sp)) by auto with goichi.
  rewrite norm_app, !norm_lits, !list_fmap_compose. by rewrite Hq.
Qed.

(** The induction hypothesis of [insert_fuel_updated]. *)
Definition inserts ci o (rec : bytes → node H → node H) (len : nat) : Prop :=
  ∀ path n, length path < len → wf ci n → n_type n ≠ catchAll →
    updated ci n (rec path n) (norm ci (pattern path)) o.

Lemma wf_child ci n c : wf ci n → c ∈ n_children n → nonroot c ∧ wf ci c.
Proof. inversion_clear 1 as [? _ _ _ Hcs]. rewrite Forall_forall in Hcs. auto. Qed.

Lemma is_type_true ty n : is_type ty n = true ↔ n_type n = ty.
Proof. unfold is_type. apply bool_decide_eq_true. Qed.

Lemma no_slot ci n ty a :
  wf ci n → (∀ c, c ∈ n_children n → is_type ty c = false) →
  a = match ty with catchAll => NCatch | _ => NParam end → ty ≠ static →
  ∀ c, c ∈ n_children n → slot ci c ≠ Some a.
Proof.
  intros Hwf Hno -> Hty c Hc Hs. destruct (wf_child _ _ _ Hwf Hc) as [Hnr _].
  apply slot_type in Hs; [|done].
  assert (is_type ty c = true) as Hyes by (apply is_type_true; by destruct ty).
  by rewrite Hno in Hyes.
Qed.

Lemma insert_param ci o rec key rest n :
  inserts ci o rec (S (length rest)) → wf ci n → n_type n ≠ catchAll →
  updated ci n
    match update_first (is_type param) (rec rest) (n_children n) with
    | Some cs => set_children n cs
    | None => set_children n (n_children n ++ [rec rest (Node [] param [] None key)])
    end (NParam :: norm ci (pattern rest)) o.
Proof.
  intros IH Hwf Hty. destruct (update_first _ _ _) as [cs|] eqn:Hu.
  - apply update_first_Some in Hu as (l1 & c & l2 & Hl & -> & Hc & _).
    apply is_type_true in Hc.
    destruct (wf_child ci n c Hwf) as [Hnr Hwfc]; [rewrite Hl, elem_of_app; right; constructor|].
    assert (slot ci c = Some NParam) as Hs by by eapply slot_of_type.
    eapply (via_child _ _ _ _ _ c); [done..|apply IH; [lia|done|congruence]|].
    unfold ntoks. by rewrite Hc.
  - rewrite update_first_None in Hu.
    eapply (via_new _ _ (Node [] param [] None key)); [done|done|done|done|apply binds_fresh|..].
    + by eapply no_slot.
    + apply IH; [lia|by apply wf_fresh|done].
    + done.
Qed.

Lemma insert_catchAll ci o key n :
  wf ci n → n_type n ≠ catchAll →
  updated ci n
    match update_first (is_type catchAll)
            (λ c, Node (n_path c) (n_type c) (n_children c) o key) (n_children n) with
    | Some cs => set_children n cs
    | None => set_children n (n_children n ++ [Node [] catchAll [] o key])
    end [NCatch] o.
Proof.
  intros Hwf Hty. destruct (update_first _ _ _) as [cs|] eqn:Hu.
  - apply update_first_Some in Hu as (l1 & c & l2 & Hl & -> & Hc & _).
    apply is_type_true in Hc.
    destruct (wf_child ci n c Hwf) as [Hnr Hwfc]; [rewrite Hl, elem_of_app; right; constructor|].
    eapply replace_child; [done..| | | | |].
    + by eapply slot_of_type.
    + by eapply slot_of_type.
    + unfold nonroot. simpl. congruence.
    + inversion_clear Hwfc as [? _ Hk _ _]. rewrite Hk by done. apply wf_fresh. congruence.
    + intros t h'. unfold upd. rewrite !cbinds_catch by done. simpl.
      split; [intros [-> ->]; by left|intros [[-> ->]|[? [? _]]]; done].
  - rewrite update_first_None in Hu.
    eapply append_child; [done|done|done|done|by apply wf_fresh| |].
    + by eapply no_slot.
    + intros t h'. by rewrite cbinds_catch.
Qed.

(** The child chosen by [insert] for a literal run: [enter] of the source. *)
Definition enter_child ci (rec : bytes → node H → node H) (sp rest : bytes) c : node H :=
  let k := commonPrefix (n_path c) sp ci in
  if k =? length (n_path c) then rec (drop k sp ++ rest) c
  else rec (drop k sp ++ rest)
         (Node (take k (n_path c)) (n_type c)
            [Node (drop k (n_path c)) static (n_children c) (n_handler c) []]
            None (n_paramKey c)).

Lemma wf_split ci c k :
  wf ci c → n_type c = static → k < length (n_path c) →
  wf ci (Node (take k (n_path c)) (n_type c)
           [Node (drop k (n_path c)) static (n_children c) (n_handler c) []]
           None (n_paramKey c)).
Proof.
  intros Hwf Hty Hk. inversion_clear Hwf as [? Hl _ Hnd Hcs]. constructor; simpl.
  - intros _. auto with goichi.
  - congruence.
  - apply NoDup_singleton.
  - rewrite Forall_singleton. split.
    + intros _ Hnil. apply (f_equal length) in Hnil. simpl in Hnil.
      rewrite length_drop in Hnil. lia.
    + constructor; simpl; [|done..]. auto with goichi.
Qed.

Lemma insert_static_child ci o rec n l1 c l2 x sp rest :
  inserts ci o rec (length (x :: sp) + length rest) → wf ci n → n_type n ≠ catchAll →
  n_children n = l1 ++ c :: l2 → n_type c = static → lit (x :: sp) →
  commonPrefix (n_path c) (x :: sp) ci ≠ 0 →
  updated ci n (set_children n (l1 ++ enter_child ci rec (x :: sp) rest c :: l2))
    (NLit (foldc ci x) :: norm ci ((TLit <$> sp) ++ pattern rest)) o.
Proof.
  intros IH Hwf Hty Hl Hc Hlit Hlcp.
  destruct (wf_child ci n c Hwf) as [Hnr Hwfc]; [rewrite Hl, elem_of_app; right; constructor|].
  destruct (commonPrefix_spec (n_path c) (x :: sp) ci) as (Hk1 & Hk2 & Heq).
  destruct (n_path c) as [|y q] eqn:Hp; [by destruct Hnr|].
  assert (foldc ci y = foldc ci x) as Hyx.
  { apply dec_stable. intros Hne. by apply Hlcp, commonPrefix_0. }
  unfold enter_child. rewrite Hp.
  set (k := commonPrefix (y :: q) (x :: sp) ci) in *.
  assert (slot ci c = Some (NLit (foldc ci x))) as Hs.
  { unfold slot, ntoks. rewrite Hc, Hp. simpl. by rewrite Hyx. }
  assert (length (drop k (x :: sp) ++ rest) < length (x :: sp) + length rest) as Hlen.
  { rewrite length_app, length_drop. simpl in *. lia. }
  pose proof (pattern_split ci (take k (y :: q)) (x :: sp) k rest Hlit Hk2 Heq) as Hpat.
  rewrite (pattern_lit (x :: sp)) in Hpat by done.
  destruct (Nat.eqb_spec k (length (y :: q))) as [Hkl|Hkl].
  - rewrite (take_ge (y :: q)) in Hpat by lia.
    eapply (via_child _ _ _ _ _ c); [done..|apply IH; [done|done|congruence]|].
    unfold ntoks. by rewrite Hc, Hp, <- Hpat.
  - eapply via_child; [done|done|done|done| | |..].
    4: apply IH; [done| |simpl; congruence].
    4: pose proof (wf_split ci c k Hwfc Hc) as Hws; rewrite Hp in Hws; apply Hws; lia.
    + unfold slot, ntoks. simpl. rewrite Hc. destruct k; [done|]. simpl. by rewrite Hyx.
    + unfold nonroot. simpl. by destruct k.
    + intros t h. rewrite <- Hp. by apply split_cbinds.
    + symmetry. etransitivity; [exact Hpat|]. unfold ntoks. cbn [n_type n_path]. by rewrite Hc.
Qed.

Lemma insert_static_new ci o rec n x sp rest :
  inserts ci o rec (length (x :: sp) + length rest) → wf ci n → n_type n ≠ catchAll →
  lit (x :: sp) →
  (∀ c, c ∈ n_children n →
     is_type static c && negb (commonPrefix (n_path c) (x :: sp) ci =? 0) = false) →
  updated ci n
    (set_children n (n_children n ++
       [match rest with
        | [] => set_handler (Node (x :: sp) static [] None []) o
        | _ => rec rest (Node (x :: sp) static [] None [])
        end]))
    (NLit (foldc ci x) :: norm ci ((TLit <$> sp) ++ pattern rest)) o.
Proof.
  intros IH Hwf Hty Hlit Hno.
  eapply (via_new _ _ (Node (x :: sp) static [] None [])
            _ _ _ (norm ci (pattern rest))); [done|done|done|done|apply binds_fresh|..].
  - intros c Hc Hs. destruct (wf_child _ _ _ Hwf Hc) as [Hnr _].
    pose proof (slot_type _ _ _ Hnr Hs) as Hct. specialize (Hno c Hc).
    apply is_type_true in Hct as Ht. rewrite Ht in Hno. simpl in Hno.
    apply negb_false_iff, Nat.eqb_eq in Hno.
    destruct (n_path c) as [|y q] eqn:Hp; [by destruct (Hnr Hct)|].
    apply commonPrefix_0 in Hno. unfold slot, ntoks in Hs. rewrite Hct, Hp in Hs.
    by simplify_eq/=.
  - destruct rest as [|z rest].
    + apply updated_set_handler; [done|by apply wf_fresh].
    + apply IH; [simpl; lia|by apply wf_fresh|done].
  - unfold ntoks. simpl. by rewrite norm_app.
Qed.

Lemma insert_fuel_updated fuel ci o : inserts ci o (insert_fuel fuel ci o) fuel.
Proof.
  induction fuel as [|fuel IH]; intros path n Hlen Hwf Hty; [lia|].
  assert (∀ len, len ≤ fuel → inserts ci o (insert_fuel fuel ci o) len) as IH'.
  { intros len Hle p m Hp. apply IH. lia. }
  destruct path as [|x p]; [by apply updated_set_handler|]. simpl in Hlen. cbn [insert_fuel].
  destruct (Ascii.eqb_spec x ":") as [->|Hx1].
  { rewrite split_param_seg, pattern_param. apply insert_param; [|done..].
    apply IH'. pose proof (drop_seg_length p). lia. }
  destruct (Ascii.eqb_spec x "*") as [->|Hx2].
  { by apply insert_catchAll. }
  destruct (split_static (x :: p)) as [sp rest] eqn:Hsp.
  destruct (split_static_spec x p sp rest Hx1 Hx2 Hsp) as (Hpath & Hlit & Hhd & Hrest).
  assert (norm ci (pattern (x :: p)) = norm ci ((TLit <$> sp) ++ pattern rest)) as ->.
  { by rewrite Hpath, pattern_lit. }
  assert (inserts ci o (insert_fuel fuel ci o) (length sp + length rest)) as Hrec.
  { apply IH'. rewrite <- length_app, <- Hpath. simpl. lia. }
  destruct sp as [|x' sp]; [done|]. injection Hhd as ->.
  destruct (update_first _ _ _) as [cs|] eqn:Hu.
  - apply update_first_Some in Hu as (l1 & c & l2 & Hl & -> & Hc & _).
    apply andb_true_iff in Hc as [Hc Hk]. apply is_type_true in Hc.
    apply negb_true_iff, Nat.eqb_neq in Hk. by apply insert_static_child.
  - rewrite update_first_None in Hu. by apply insert_static_new.
Qed.

Theorem insert_updated ci n path o :
  wf ci n → n_type n ≠ catchAll → updated ci n (insert n path o ci) (norm ci (pattern path)) o.
Proof. intros. apply insert_fuel_updated; [lia|done..]. Qed.

(** Inserting a route terminates: the recursion consumes the path, so that one
    unit of fuel more than its length is never used up, and any larger amount
    builds the same tree. *)
Theorem insert_fuel_enough fuel ci o path n :
  length path < fuel → insert_fuel fuel ci o path n = insert n path o ci.
Proof.
  unfold insert.
  assert (∀ f1 f2 path n, length path < f1 → length path < f2 →
    insert_fuel f1 ci o path n = insert_fuel f2 ci o path n) as Hf; [|intros; apply Hf; lia].
  clear. intros f1. induction f1 as [|f1 IH]; intros [|f2] path n H1 H2; try lia.
  destruct path as [|x p]; [done|]. cbn [insert_fuel]. simpl in H1, H2.
  destruct (Ascii.eqb_spec x ":") as [->|Hx1].
  { rewrite split_param_seg. pose proof (drop_seg_length p).
    rewrite (update_first_ext _ _ (insert_fuel f2 ci o (drop_seg p)))
      by (intros; apply IH; lia).
    rewrite (IH f2 (drop_seg p)) by lia. done. }
  destruct (Ascii.eqb_spec x "*") as [->|Hx2]; [done|].
  destruct (split_static (x :: p)) as [sp rest] eqn:Hsp.
  destruct (split_static_spec x p sp rest Hx1 Hx2 Hsp) as (Hpath & Hlit & Hhd & Hrest).
  assert (length sp + length rest = S (length p)) as Hlen.
  { by rewrite <- length_app, <- Hpath. }
  rewrite (update_first_ext _ _ (enter_child ci (λ p, insert_fuel f2 ci o p) sp rest)).
  - unfold enter_child. destruct (update_first _ _ _); [done|].
    do 3 f_equal. destruct rest; [done|]. apply IH; simpl in *; lia.
  - intros c _ [_ Hk]%andb_true_iff. apply negb_true_iff, Nat.eqb_neq in Hk.
    unfold enter_child. case_match; apply IH; rewrite length_app, length_drop; lia.
Qed.
End node_theory.
