(* ===== verification/RouteTable.v ===== *)
(** * The route table: what a tree built by registrations answers

    [reg_lookup] is the abstract route map (the last registration of a pattern
    wins); [search] on the tree built by the same registrations refines it. *)

From S2P Require Import Prelude GoStrings Node Pattern NodeTheory.

Section route_table.
Context {H : Type} (ci : bool).
Implicit Types (regs : list (bytes * option H)) (n : node H) (path : bytes).

Definition empty_root : node H := Node [] static [] None [].

(** Registering the routes of one method, in order. *)
Definition insert_all regs : node H :=
  fold_left (λ n r, insert n r.1 r.2 ci) regs empty_root.

(** The abstract route map: the last registration of a pattern wins. *)
Definition reg_lookup regs (t : list ntok) : option H :=
  fold_left (λ acc r, if decide (norm ci (pattern r.1) = t) then r.2 else acc) regs None.

(** The map [search] builds from the bindings; [nil] when there are none. *)
Definition params_of (vals : list capture) : option (gmap bytes bytes) :=
  match vals with
  | [] => None
  | _ => Some (fold_left (λ m c, <[cap_key c := cap_value c]> m) vals ∅)
  end.

Lemma search_match n path :
  search n path ci =
  match match_ ci n path [] with
  | (None, _) => (None, None)
  | (Some h, caps) => (Some h, params_of caps)
  end.
Proof. unfold search. by destruct (match_ ci n path []) as [[h|] [|c caps]]. Qed.

Lemma wf_empty_root : wf ci empty_root.
Proof. apply wf_fresh. intros _. apply lit_nil. Qed.

Lemma insert_all_snoc regs r :
  insert_all (regs ++ [r]) = insert (insert_all regs) r.1 r.2 ci.
Proof. unfold insert_all. by rewrite fold_left_app. Qed.

Lemma reg_lookup_snoc regs r t :
  reg_lookup (regs ++ [r]) t =
  if decide (norm ci (pattern r.1) = t) then r.2 else reg_lookup regs t.
Proof. unfold reg_lookup. by rewrite fold_left_app. Qed.

Lemma reg_lookup_registered regs t h :
  reg_lookup regs t = Some h → ∃ p, p ∈ regs.*1 ∧ norm ci (pattern p) = t.
Proof.
  induction regs as [|r regs IH] using rev_ind; [done|].
  rewrite reg_lookup_snoc, fmap_app. intros Hl. case_decide as Ht.
  - exists r.1. split; [|done]. apply elem_of_app. right. constructor.
  - destruct (IH Hl) as (p & ? & ?). exists p. split; [|done]. apply elem_of_app. by left.
Qed.

Theorem insert_all_refines regs :
  wf ci (insert_all regs) ∧ n_type (insert_all regs) = static ∧
  n_path (insert_all regs) = [] ∧
  ∀ t h, binds ci (insert_all regs) t h ↔ reg_lookup regs t = Some h.
Proof.
  induction regs as [|r regs IH] using rev_ind.
  - split_and!; [apply wf_empty_root|done|done|]. intros t h. split; [|done].
    intros Hb. by apply binds_fresh in Hb.
  - destruct IH as (Hwf & Hty & Hp & Hb). rewrite insert_all_snoc.
    destruct (insert_updated ci (insert_all regs) r.1 r.2) as [Hp' Ht' _ Hwf' Hb'];
      [done|congruence|].
    split_and!; [done|congruence|congruence|].
    intros t h. rewrite Hb', reg_lookup_snoc. unfold upd.
    case_decide as Ht; subst; [|rewrite Hb]; naive_solver.
Qed.

(** What [search] answers for [path] when [regs] were registered. *)
Definition search_spec regs path (r : option H * option (gmap bytes bytes)) : Prop :=
  match r with
  | (None, params) =>
      params = None ∧
      ∀ p h, reg_lookup regs (norm ci (pattern p)) = Some h →
        tmatch ci (pattern p) path = None
  | (Some h, params) =>
      ∃ p ts vals,
        p ∈ regs.*1 ∧ reg_lookup regs (norm ci (pattern p)) = Some h ∧
        norm ci ts = norm ci (pattern p) ∧ tmatch ci ts path = Some vals ∧
        params = params_of vals ∧
        ∀ q h', reg_lookup regs (norm ci (pattern q)) = Some h' →
          tmatch ci (pattern q) path ≠ None → prefers (pattern p) (pattern q)
  end.

Lemma routes_root regs ts h :
  (ts, h) ∈ routes (insert_all regs) → reg_lookup regs (norm ci ts) = Some h.
Proof.
  destruct (insert_all_refines regs) as (_ & Hty & Hp & Hb).
  intros (ts' & -> & Hts)%elem_routes. apply Hb. exists ts'. split; [|done].
  unfold ntoks. by rewrite Hty, Hp.
Qed.

Lemma root_routes regs t h :
  reg_lookup regs t = Some h → ∃ ts, norm ci ts = t ∧ (ts, h) ∈ routes (insert_all regs).
Proof.
  destruct (insert_all_refines regs) as (_ & Hty & Hp & Hb).
  intros (ts & Hn & Hts)%Hb. exists ts. split; [done|]. apply elem_routes.
  exists ts. split; [|done]. unfold ntoks. by rewrite Hty, Hp.
Qed.

Lemma search_refines regs path :
  search_spec regs path (search (insert_all regs) path ci).
Proof.
  rewrite search_match.
  destruct (insert_all_refines regs) as (Hwf & _).
  pose proof (match_correct ci (insert_all regs) path [] Hwf) as Hm.
  destruct (match_ ci _ path []) as [[h|] caps]; simpl in *.
  - destruct Hm as (ts & vals & Hts & Hm & -> & Hbest).
    pose proof (routes_root _ _ _ Hts) as Hl.
    destruct (reg_lookup_registered _ _ _ Hl) as (p & Hp & Hn).
    exists p, ts, vals. rewrite Hn. split_and!; try done.
    intros q h' Hq Hmq. destruct (root_routes _ _ _ Hq) as (ts' & Hn' & Hts').
    apply (norm_prefers ci ts _ ts' _); [done|done|].
    eapply Hbest; [done|]. intros Hnone. apply Hmq. by eapply norm_tmatch_None.
  - split; [done|]. intros p h Hl.
    destruct (root_routes _ _ _ Hl) as (ts & Hn & Hts).
    eapply norm_tmatch_None; [done|]. by eapply Hm.
Qed.
End route_table.
