(* ===== verification/Effects.v ===== *)
(** * Effects: panics, errors and threaded state

    Go code runs in a state monad whose outcome is a value, a panic, which a deferred
    [recover] can stop, or a crash, which nothing can. [error] values are ordinary
    values; [nil] is [None]. *)

From S2P Require Import Prelude GoStrings.

(** Dynamically typed values ([any]) the source stores or serialises. A Go map
    literal is the list of its pairs. *)
Inductive any :=
  | VNil
  | VString (s : bytes)
  | VInt (z : Z)
  | VBool (b : bool)
  | VList (l : list any)
  | VMap (m : list (bytes * any))
  | VOpaque (id : nat).

#[export] Instance any_eq_dec : EqDecision any.
Proof.
  unfold EqDecision, RelDecision. fix go 1. intros x y.
  pose (dl := @list_eq_dec any go).
  pose (dm := @list_eq_dec (bytes * any) (@prod_eq_dec _ _ _ go)).
  destruct x as [|a|a|a|l|l|a], y as [|b|b|b|k|k|b]; try (right; discriminate).
  - left. reflexivity.
  - destruct (decide (a = b)); [left|right]; (clear go dl dm; congruence).
  - destruct (decide (a = b)); [left|right]; (clear go dl dm; congruence).
  - destruct (decide (a = b)); [left|right]; (clear go dl dm; congruence).
  - destruct (dl l k); [left|right]; (clear go dl dm; congruence).
  - destruct (dm l k); [left|right]; (clear go dl dm; congruence).
  - destruct (decide (a = b)); [left|right]; (clear go dl dm; congruence).
Defined.

(** The [error] interface: [*core.ValidationError] is the one type the source
    tells apart. *)
Inductive error :=
  | ValidationErr (Fields : list bytes)
  | Err (msg : bytes).

(** [ValidationError.Error()] and [errors.New(..).Error()] *)
Definition err_Error (e : error) : bytes :=
  match e with
  | ValidationErr fields => B "validation failed: " ++ Join fields (B "; ")
  | Err msg => msg
  end.

(** [Crash]: a panic on a goroutine of its own that nothing recovers there. It ends the
    process, whatever the goroutine that started it defers. *)
Inductive outcome (A : Type) :=
  | Ret (a : A)
  | Panic (v : any)
  | Crash (v : any).
Arguments Ret {A} a.
Arguments Panic {A} v.
Arguments Crash {A} v.

Definition M (S A : Type) : Type := S → outcome A * S.

#[export] Instance M_ret S : MRet (M S) := λ A a s, (Ret a, s).
#[export] Instance M_bind S : MBind (M S) := λ A B k m s,
  match m s with
  | (Ret a, s') => k a s'
  | (Panic v, s') => (Panic v, s')
  | (Crash v, s') => (Crash v, s')
  end.

Section effects.
Context {S : Type}.

Definition modify (f : S → S) : M S unit := λ s, (Ret tt, f s).
Definition get : M S S := λ s, (Ret s, s).
Definition gets {A} (f : S → A) : M S A := λ s, (Ret (f s), s).
Definition throw {A} (v : any) : M S A := λ s, (Panic v, s).

(** [defer func() { if r := recover(); r != nil { err = k(r) } }()] around [m]:
    the state changes made before the panic stay. *)
Definition recovering {A} (m : M S A) (k : any → M S A) : M S A := λ s,
  match m s with
  | (Panic v, s') => k v s'
  | r => r
  end.

(** [defer f()]: runs on return and on panic. *)
Definition deferring {A} (m : M S A) (f : S → S) : M S A := λ s,
  match m s with
  | (Crash v, s') => (Crash v, s')
  | (o, s') => (o, f s')
  end.
End effects.

(** The panic of calling a [nil] function value. *)
Definition nil_call : any := VString (B "invalid memory address or nil pointer dereference").
