(* ===== verification/FastHTTP.v ===== *)
(** * The HTTP engine as a parameter

    [github.com/valyala/fasthttp] and [github.com/goccy/go-json] are not part of
    the repository. [FastHTTP] lists the operations the source calls,
    [FastHTTPLaws] the documented behaviour the theorems rely on, and [Simple] is
    a concrete engine the witnesses run on. *)

From S2P Require Import Prelude GoStrings Effects.

Class FastHTTP := {
  Request : Type;
  Response : Type;
  (** [ctx.Method()], [ctx.Path()], [ctx.Host()], [ctx.URI().QueryString()] *)
  req_Method : Request → bytes;
  req_Path : Request → bytes;
  req_Host : Request → bytes;
  req_QueryString : Request → bytes;
  (** [Request.Header.Peek/Set/Del/Cookie], [QueryArgs().Peek/QueryString],
      [Request.Body()] *)
  req_Peek : Request → bytes → bytes;
  req_Set : bytes → bytes → Request → Request;
  req_Del : bytes → Request → Request;
  req_Cookie : Request → bytes → bytes;
  query_Peek : Request → bytes → bytes;
  query_String : Request → bytes;
  req_Body : Request → bytes;
  (** [Response.StatusCode/SetStatusCode], [Response.Header.*], [Response.*Body] *)
  res_StatusCode : Response → Z;
  res_SetStatusCode : Z → Response → Response;
  res_Peek : Response → bytes → bytes;
  res_Set : bytes → bytes → Response → Response;
  res_Add : bytes → bytes → Response → Response;
  res_Del : bytes → Response → Response;
  res_ContentType : Response → bytes;
  res_SetContentType : bytes → Response → Response;
  res_Body : Response → bytes;
  res_SetBody : bytes → Response → Response;
  res_AppendBody : bytes → Response → Response;
  res_ResetBody : Response → Response;
  (** [ctx.Error(msg, statusCode)], what it does to the response *)
  res_Error : bytes → Z → Response → Response;
  (** [json.Marshal(v)], and the bytes [json.NewEncoder(w).Encode(v)] writes *)
  json_Marshal : any → option bytes;
  json_Encode : any → option bytes;
}.

(** [fasthttp.RequestCtx]: the public [Request] and [Response] fields and the
    peer. *)
Record RequestCtx `{FastHTTP} := mkRequestCtx {
  ctx_Request : Request;
  ctx_Response : Response;
  ctx_RemoteIP : bytes;
  ctx_IsTLS : bool;
}.

Section ctx.
Context `{FastHTTP}.

Definition on_response (f : Response → Response) (c : RequestCtx) : RequestCtx :=
  mkRequestCtx _ (ctx_Request c) (f (ctx_Response c)) (ctx_RemoteIP c) (ctx_IsTLS c).
Definition on_request (f : Request → Request) (c : RequestCtx) : RequestCtx :=
  mkRequestCtx _ (f (ctx_Request c)) (ctx_Response c) (ctx_RemoteIP c) (ctx_IsTLS c).

Definition ctx_Method (c : RequestCtx) : bytes := req_Method (ctx_Request c).
Definition ctx_Path (c : RequestCtx) : bytes := req_Path (ctx_Request c).
End ctx.

(** Header names compare without regard to ASCII case. *)
Definition same_header (a b : bytes) : bool := same_fold a b.

(** Headers [Response.Header.Set] stores like any other. *)
Definition plain_header (k : bytes) : bool :=
  negb (existsb (same_header k)
    [B "Content-Type"; B "Content-Length"; B "Content-Encoding"; B "Connection";
     B "Server"; B "Set-Cookie"; B "Transfer-Encoding"; B "Trailer"; B "Date";
     B "Host"; B "User-Agent"; B "Cookie"]).

(** Headers of a response that have no default value once deleted. *)
Definition resettable_header (k : bytes) : bool :=
  negb (existsb (same_header k)
    [B "Content-Type"; B "Content-Length"; B "Content-Encoding"; B "Server"; B "Set-Cookie";
     B "Date"]).

Class FastHTTPLaws (F : FastHTTP) := {
  status_set n r : (0 < n)%Z → res_StatusCode (res_SetStatusCode n r) = n;
  status_Set k v r : plain_header k = true → res_StatusCode (res_Set k v r) = res_StatusCode r;
  status_SetContentType v r : res_StatusCode (res_SetContentType v r) = res_StatusCode r;
  status_SetBody b r : res_StatusCode (res_SetBody b r) = res_StatusCode r;
  status_AppendBody b r : res_StatusCode (res_AppendBody b r) = res_StatusCode r;
  body_SetContentType v r : res_Body (res_SetContentType v r) = res_Body r;
  body_SetStatusCode n r : res_Body (res_SetStatusCode n r) = res_Body r;
  status_Error m n r : (0 < n)%Z → res_StatusCode (res_Error m n r) = n;
  body_Error m n r : res_Body (res_Error m n r) = m;
  ctype_set v r : v ≠ [] → res_ContentType (res_SetContentType v r) = v;
  ctype_Set k v r :
    plain_header k = true → res_ContentType (res_Set k v r) = res_ContentType r;
  ctype_SetBody b r : res_ContentType (res_SetBody b r) = res_ContentType r;
  ctype_nonempty r : res_ContentType r ≠ [];
  peek_Add_ne k k' v r :
    plain_header k = true → same_header k k' = false →
    res_Peek (res_Add k v r) k' = res_Peek r k';
  body_set b r : res_Body (res_SetBody b r) = b;
  body_reset r : res_Body (res_ResetBody r) = [];
  body_append b r : res_Body (res_AppendBody b r) = res_Body r ++ b;
  peek_set k v r : plain_header k = true → res_Peek (res_Set k v r) k = v;
  peek_set_ne k k' v r :
    plain_header k = true → same_header k k' = false →
    res_Peek (res_Set k v r) k' = res_Peek r k';
  peek_SetStatusCode k n r : res_Peek (res_SetStatusCode n r) k = res_Peek r k;
  peek_SetContentType k v r :
    plain_header k = true → res_Peek (res_SetContentType v r) k = res_Peek r k;
  peek_SetBody k b r : plain_header k = true → res_Peek (res_SetBody b r) k = res_Peek r k;
  (** encoding a map of strings cannot fail *)
  json_error_body msg : ∃ b, json_Marshal (VMap [(B "error", VString msg)]) = Some b;
  (** request headers without a field of their own *)
  req_peek_set k v r : plain_header k = true → req_Peek (req_Set k v r) k = v;
  req_peek_set_ne k k' v r :
    plain_header k = true → same_header k k' = false →
    req_Peek (req_Set k v r) k' = req_Peek r k';
  (** response headers that [Del] removes for good *)
  res_del_peek k r : resettable_header k = true → res_Peek (res_Del k r) k = [];
  res_del_peek_ne k k' r :
    same_header k k' = false → res_Peek (res_Del k r) k' = res_Peek r k';
  res_peek_same k k' r : same_header k k' = true → res_Peek r k = res_Peek r k';
  status_Del k r : res_StatusCode (res_Del k r) = res_StatusCode r;
  body_Del k r : res_Body (res_Del k r) = res_Body r;
  req_del_peek k r : req_Peek (req_Del k r) k = [];
  req_del_peek_ne k k' r :
    same_header k k' = false → req_Peek (req_Del k r) k' = req_Peek r k';
  req_peek_same k k' r : same_header k k' = true → req_Peek r k = req_Peek r k';
}.

(** ** A concrete engine *)

Module Simple.
(** Headers as an association list; the first entry is the one [Peek] sees. *)
Definition headers := list (bytes * bytes).

Fixpoint peek (h : headers) (k : bytes) : bytes :=
  match h with
  | [] => []
  | (k', v) :: h' => if same_header k' k then v else peek h' k
  end.
Definition del (k : bytes) (h : headers) : headers :=
  List.filter (λ kv, negb (same_header kv.1 k)) h.
Definition set (k v : bytes) (h : headers) : headers := (k, v) :: del k h.

Record request := mkRequest {
  rq_method : bytes; rq_path : bytes; rq_host : bytes; rq_query : bytes;
  rq_headers : headers; rq_body : bytes }.
Record response := mkResponse {
  rs_status : Z; rs_ctype : bytes; rs_headers : headers; rs_body : bytes }.

(** A printer for the values the witnesses serialise; integers are left out. *)
Fixpoint render (v : any) : bytes :=
  match v with
  | VString s => B "'" ++ s ++ B "'"
  | VMap m => B "{" ++ mjoin ((λ kv, kv.1 ++ B ":" ++ render kv.2) <$> m) ++ B "}"
  | VList l => B "[" ++ mjoin (render <$> l) ++ B "]"
  | VBool true => B "true"
  | VBool false => B "false"
  | _ => B "null"
  end.

Definition default_ctype : bytes := B "text/plain; charset=utf-8".

#[export] Instance simple_http : FastHTTP := {
  Request := request;
  Response := response;
  req_Method := rq_method;
  req_Path := rq_path;
  req_Host := rq_host;
  req_QueryString := rq_query;
  req_Peek r k := peek (rq_headers r) k;
  req_Set k v r := mkRequest (rq_method r) (rq_path r) (rq_host r) (rq_query r)
                     (set k v (rq_headers r)) (rq_body r);
  req_Del k r := mkRequest (rq_method r) (rq_path r) (rq_host r) (rq_query r)
                   (del k (rq_headers r)) (rq_body r);
  req_Cookie r k := [];
  query_Peek r k := [];
  query_String := rq_query;
  req_Body := rq_body;
  res_StatusCode := rs_status;
  res_SetStatusCode n r := mkResponse n (rs_ctype r) (rs_headers r) (rs_body r);
  res_Peek r k := peek (rs_headers r) k;
  res_Set k v r := mkResponse (rs_status r) (rs_ctype r) (set k v (rs_headers r)) (rs_body r);
  res_Add k v r := mkResponse (rs_status r) (rs_ctype r) (rs_headers r ++ [(k, v)]) (rs_body r);
  res_Del k r := mkResponse (rs_status r) (rs_ctype r) (del k (rs_headers r)) (rs_body r);
  res_ContentType r := match rs_ctype r with [] => default_ctype | t => t end;
  res_SetContentType v r := mkResponse (rs_status r) v (rs_headers r) (rs_body r);
  res_Body := rs_body;
  res_SetBody b r := mkResponse (rs_status r) (rs_ctype r) (rs_headers r) b;
  res_AppendBody b r := mkResponse (rs_status r) (rs_ctype r) (rs_headers r) (rs_body r ++ b);
  res_ResetBody r := mkResponse (rs_status r) (rs_ctype r) (rs_headers r) [];
  res_Error m n r := mkResponse n default_ctype [] m;
  json_Marshal v := Some (render v);
  json_Encode v := Some (render v ++ [ascii_of_nat 10]);
}.

Lemma same_header_refl k : same_header k k = true.
Proof. apply same_fold_refl. Qed.

Lemma peek_del_ne k k' h : same_header k k' = false → peek (del k h) k' = peek h k'.
Proof.
  intros Hne. induction h as [|[a v] h IH]; simpl; [done|].
  destruct (same_header a k) eqn:Hak; simpl; [|by rewrite IH].
  unfold same_header in *. rewrite (same_fold_congr _ _ _ Hak), Hne. done.
Qed.

Lemma peek_del k h : peek (del k h) k = [].
Proof.
  induction h as [|[a v] h IH]; simpl; [done|].
  destruct (same_header a k) eqn:Hak; simpl; [done|]. by rewrite Hak.
Qed.

Lemma peek_same k k' h : same_header k k' = true → peek h k = peek h k'.
Proof.
  intros Heq. induction h as [|[a v] h IH]; simpl; [done|].
  unfold same_header in *. rewrite (same_fold_sym a k), (same_fold_sym a k').
  rewrite (same_fold_congr _ _ _ Heq), IH. done.
Qed.

Lemma peek_snoc_ne k k' v h : same_header k k' = false → peek (h ++ [(k, v)]) k' = peek h k'.
Proof. intros Hne. induction h as [|[a w] h IH]; simpl; [by rewrite Hne|]. by rewrite IH. Qed.

#[export] Instance simple_laws : FastHTTPLaws simple_http.
Proof.
  split; simpl; intros; try done;
    eauto using peek_del, peek_del_ne, peek_same, peek_snoc_ne; rewrite ?same_header_refl; try done;
    first [by case_match |
           by match goal with H : same_header _ _ = false |- _ => rewrite H, peek_del_ne end].
Qed.

(** A request on the wire, before any handler ran. *)
Definition request_ctx (method path : bytes) : RequestCtx :=
  mkRequestCtx simple_http (mkRequest method path (B "example.com") [] [] [])
    (mkResponse 200 [] [] []) (B "192.0.2.1") false.
End Simple.
