(* ===== verification/Core.v ===== *)
(** * The request context ([core/types.go], [response.go], [utils/conv.go])

    A [core.Context] is created per request and mutated through its pointer: its
    methods are state transformers on [Ctx * St], where [St] is whatever else the
    application's handlers share. *)

From S2P Require Import Prelude GoStrings Effects FastHTTP.

(** ** [strconv] *)

Definition digit (c : byte) : option Z :=
  let n := Z.of_nat (nat_of_ascii c) in
  if (48 <=? n)%Z && (n <=? 57)%Z then Some (n - 48)%Z else None.

Fixpoint digits (acc : Z) (s : bytes) : option Z :=
  match s with
  | [] => Some acc
  | c :: s' => match digit c with
               | Some d => digits (acc * 10 + d)%Z s'
               | None => None
               end
  end.

(** [strconv.ParseUint(s, 10, 64)], [strconv.ParseInt(s, 10, 64)] and, on a 64-bit
    platform, [strconv.Atoi(s)]: [None] is a non-nil error. *)
Definition ParseUint10 (s : bytes) : option Z :=
  match s with
  | [] => None
  | _ => match digits 0 s with
         | Some n => if (n <? 2 ^ 64)%Z then Some n else None
         | None => None
         end
  end.

Definition ParseInt10 (s : bytes) : option Z :=
  let '(neg, t) :=
    match s with
    | "+"%char :: t => (false, t)
    | "-"%char :: t => (true, t)
    | _ => (false, s)
    end in
  match ParseUint10 t with
  | None => None
  | Some n =>
      if negb neg then if (n <? 2 ^ 63)%Z then Some n else None
      else if (n <=? 2 ^ 63)%Z then Some (- n)%Z else None
  end.

(** [utils.ToInt], [utils.ToInt64] *)
Definition ToInt (s : bytes) (def : Z) : Z :=
  match ParseInt10 s with Some i => i | None => def end.
Definition ToInt64 (s : bytes) (def : Z) : Z :=
  match ParseInt10 s with Some i => i | None => def end.

(** [utils.ToFloat], over what [strconv.ParseFloat(s, 64)] answers *)
Definition ToFloat {float64 : Type} (ParseFloat : bytes → float64 + error) (s : bytes) (def : float64)
  : float64 := match ParseFloat s with inl f => f | inr _ => def end.

(** [strconv.ParseBool] and [utils.ToBool] *)
Definition ParseBool (s : bytes) : option bool :=
  if existsb (beqb s) (B <$> ["1"; "t"; "T"; "true"; "TRUE"; "True"]%string) then Some true
  else if existsb (beqb s) (B <$> ["0"; "f"; "F"; "false"; "FALSE"; "False"]%string) then Some false
  else None.
Definition ToBool (s : bytes) (def : bool) : bool :=
  match ParseBool s with Some b => b | None => def end.

(** ** Status codes *)
Definition StatusOK : Z := 200.
Definition StatusCreated : Z := 201.
Definition StatusAccepted : Z := 202.
Definition StatusNonAuthoritativeInfo : Z := 203.
Definition StatusNoContent : Z := 204.
Definition StatusResetContent : Z := 205.
Definition StatusPartialContent : Z := 206.
Definition StatusMultipleChoices : Z := 300.
Definition StatusMovedPermanently : Z := 301.
Definition StatusFound : Z := 302.
Definition StatusSeeOther : Z := 303.
Definition StatusNotModified : Z := 304.
Definition StatusTemporaryRedirect : Z := 307.
Definition StatusPermanentRedirect : Z := 308.
Definition StatusBadRequest : Z := 400.
Definition StatusUnauthorized : Z := 401.
Definition StatusPaymentRequired : Z := 402.
Definition StatusForbidden : Z := 403.
Definition StatusNotFound : Z := 404.
Definition StatusMethodNotAllowed : Z := 405.
Definition StatusNotAcceptable : Z := 406.
Definition StatusProxyAuthRequired : Z := 407.
Definition StatusRequestTimeout : Z := 408.
Definition StatusConflict : Z := 409.
Definition StatusGone : Z := 410.
Definition StatusLengthRequired : Z := 411.
Definition StatusPreconditionFailed : Z := 412.
Definition StatusRequestEntityTooLarge : Z := 413.
Definition StatusRequestURITooLong : Z := 414.
Definition StatusUnsupportedMediaType : Z := 415.
Definition StatusRequestedRangeNotSatisfiable : Z := 416.
Definition StatusExpectationFailed : Z := 417.
Definition StatusTeapot : Z := 418.
Definition StatusUnprocessableEntity : Z := 422.
Definition StatusLocked : Z := 423.
Definition StatusFailedDependency : Z := 424.
Definition StatusUpgradeRequired : Z := 426.
Definition StatusPreconditionRequired : Z := 428.
Definition StatusTooManyRequests : Z := 429.
Definition StatusHeaderFieldsTooLarge : Z := 431.
Definition StatusUnavailableForLegalReasons : Z := 451.
Definition StatusInternalServerError : Z := 500.
Definition StatusNotImplemented : Z := 501.
Definition StatusBadGateway : Z := 502.
Definition StatusServiceUnavailable : Z := 503.
Definition StatusGatewayTimeout : Z := 504.
Definition StatusHTTPVersionNotSupported : Z := 505.
Definition StatusVariantAlsoNegotiates : Z := 506.
Definition StatusInsufficientStorage : Z := 507.
Definition StatusLoopDetected : Z := 508.
Definition StatusNotExtended : Z := 510.
Definition StatusNetworkAuthenticationRequired : Z := 511.

(** ** The context *)

(** [type Context struct]; a nil Go map is [None]. [c_outer] is no field of the struct: when
    the handler got a copy of the request, as behind [Timeout], it is the context of the
    connection, which a closure in front may have kept. *)
Record Ctx `{FastHTTP} := mkCtx {
  c_RequestCtx : RequestCtx;
  Params : option (gmap bytes bytes);
  JWTClaims : option (gmap bytes any);
  Locals : option (gmap bytes any);
  c_outer : option RequestCtx;
}.

(** Computations of a handler over the shared state [St]. *)
Abbreviation act St A := (M (Ctx * St) A).
(** [type Handler func(c *Context) error]: a function value, [None] when nil. *)
Abbreviation hfn St := (act St (option error)).
Abbreviation Handler St := (option (hfn St)).
(** [type Middleware func(Handler) Handler], [type ErrorHandler] *)
Definition Middleware `{FastHTTP} (St : Type) : Type := Handler St → Handler St.
Definition ErrorHandler `{FastHTTP} (St : Type) : Type := error → hfn St.

Section core.
Context `{F : FastHTTP} {St : Type}.
Local Abbreviation hfn := (hfn St).

Definition call (h : Handler St) : hfn :=
  match h with Some f => f | None => throw nil_call end.

Definition upd_RequestCtx (f : RequestCtx → RequestCtx) (c : Ctx) : Ctx :=
  mkCtx _ (f (c_RequestCtx c)) (Params c) (JWTClaims c) (Locals c) (c_outer c).
Definition mod_RequestCtx (f : RequestCtx → RequestCtx) : act St unit :=
  modify (λ s, (upd_RequestCtx f s.1, s.2)).
Definition mod_response (f : Response → Response) : act St unit :=
  mod_RequestCtx (on_response f).
Definition gets_ctx {A} (f : Ctx → A) : act St A := gets (λ s, f s.1).

(** [c.Set(key, val)], [c.Get(key)] *)
Definition Set_ (key : bytes) (val : any) (c : Ctx) : Ctx :=
  let locals := match Locals c with Some m => m | None => ∅ end in
  mkCtx _ (c_RequestCtx c) (Params c) (JWTClaims c) (Some (<[key := val]> locals)) (c_outer c).
Definition Get_ (c : Ctx) (key : bytes) : any :=
  match Locals c with
  | None => VNil
  | Some m => default VNil (m !! key)
  end.

Definition SetJWT (claims : option (gmap bytes any)) (c : Ctx) : Ctx :=
  mkCtx _ (c_RequestCtx c) (Params c) claims (Locals c) (c_outer c).
Definition JWT_ (c : Ctx) : option (gmap bytes any) := JWTClaims c.

Definition Status (code : Z) : act St unit := mod_response (res_SetStatusCode code).

(** [c.JSON(v)] *)
Definition JSON (v : any) : hfn :=
  mod_response (res_SetContentType (B "application/json"));;
  match json_Encode v with
  | Some b => mod_response (res_AppendBody b);; mret None
  | None => mret (Some (Err (B "json: unsupported value")))
  end.

(** [WriteJSONError(ctx, msg)] *)
Definition WriteJSONError (msg : bytes) : hfn :=
  mod_response (res_SetContentType (B "application/json"));;
  match json_Marshal (VMap [(B "error", VString msg)]) with
  | None =>
      mod_response (res_SetBody (Q "{'error':'internal server error'}"));;
      mret (Some (Err (B "json: unsupported value")))
  | Some b => mod_response (res_SetBody b);; mret None
  end.

Definition Param (c : Ctx) (key : bytes) : bytes :=
  match Params c with None => [] | Some m => default [] (m !! key) end.
Definition Query (c : Ctx) (key : bytes) : bytes :=
  query_Peek (ctx_Request (c_RequestCtx c)) key.
Definition QueryDefault (c : Ctx) (key fallback : bytes) : bytes :=
  match Query c key with [] => fallback | v => v end.
Definition QueryInt (c : Ctx) (key : bytes) (def : Z) : Z := ToInt (Query c key) def.
Definition ParamInt (c : Ctx) (key : bytes) (def : Z) : Z := ToInt (Param c key) def.
Definition Header (c : Ctx) (key : bytes) : bytes :=
  req_Peek (ctx_Request (c_RequestCtx c)) key.

(** [FormFile], [SaveFile] and [Context]: the engine's parser of multipart forms and its
    writing of a file are arguments; the context is the engine's own. *)
Definition FormFile {FileHeader : Type} (ctx_FormFile : RequestCtx → bytes → FileHeader + error)
    (c : Ctx) (key : bytes) : FileHeader + error := ctx_FormFile (c_RequestCtx c) key.
Definition SaveFile {FileHeader : Type} (SaveMultipartFile : FileHeader → bytes → act St (option error))
    (file : FileHeader) (path : bytes) : hfn := SaveMultipartFile file path.
Definition Context_ (c : Ctx) : RequestCtx := c_RequestCtx c.

Definition error_body (msg : bytes) : any := VMap [(B "error", VString msg)].

Definition Ok (data : any) : hfn := Status StatusOK;; JSON data.
Definition Created (data : any) : hfn := Status StatusCreated;; JSON data.
Definition NoContent : hfn := Status StatusNoContent;; mret None.
Definition BadRequest (msg : bytes) : hfn := Status StatusBadRequest;; JSON (error_body msg).
Definition Unauthorized (msg : bytes) : hfn :=
  Status StatusUnauthorized;; JSON (error_body msg).
Definition Forbidden (msg : bytes) : hfn := Status StatusForbidden;; JSON (error_body msg).
Definition NotFound (msg : bytes) : hfn := Status StatusNotFound;; JSON (error_body msg).
Definition UnprocessableEntity (msg : bytes) : hfn :=
  Status StatusUnprocessableEntity;; JSON (error_body msg).
Definition TooManyRequests (msg : bytes) : hfn :=
  Status StatusTooManyRequests;; JSON (error_body msg).
Definition InternalError (msg : bytes) : hfn :=
  Status StatusInternalServerError;; JSON (error_body msg).

(** [response.go] *)
Definition Send (data : any) : hfn := Ok data.
Definition SendCreated (data : any) : hfn := Created data.

(** [total_page]: [(total + perPage - 1) / perPage] on 64-bit [int]s, with Go's
    truncated division; dividing by zero panics. *)
Definition total_page (perPage total : Z) : option Z :=
  if (perPage =? 0)%Z then None
  else Some (wrap_i64 (Z.quot (wrap_i64 (wrap_i64 (total + perPage) - 1)) perPage)).

Definition SendPage (items : any) (page perPage total : Z) : hfn :=
  match total_page perPage total with
  | None => throw (VString (B "runtime error: integer divide by zero"))
  | Some tp =>
      Ok (VMap [(B "items", items);
                (B "pagination", VMap [(B "page", VInt page); (B "per_page", VInt perPage);
                                       (B "total", VInt total); (B "total_page", VInt tp)])])
  end.

Definition ErrBadRequest (msg : bytes) : hfn := BadRequest msg.
Definition ErrUnauthorized : hfn := Unauthorized (B "unauthorized").
Definition ErrForbidden : hfn := Forbidden (B "forbidden").
Definition ErrNotFound (entity : bytes) : hfn := NotFound (entity ++ B " not found").
Definition ErrInternal : hfn := InternalError (B "internal server error").
Definition ErrValidation (fields : list bytes) : hfn :=
  Status StatusBadRequest;;
  JSON (VMap [(B "error", VString (B "validation failed"));
              (B "fields", VList (VString <$> fields))]).
End core.
