(* ===== verification/Router.v ===== *)
(** * The router ([router.go], [route.go], [group.go])

    Handlers and middleware are the functions of [Core]; the tables hold compiled
    handlers. [RouteInfo]s are shared by pointer between [Router.Routes], the
    route entries and the [Route] handles the caller keeps: [infos] is their
    store, a pointer is a position in it. *)

From S2P Require Import Prelude GoStrings Node Effects FastHTTP Core.

(** [type RouteInfo struct] *)
Record RouteInfo := mkRouteInfo {
  Method : bytes;
  Path : bytes;
  Summary : bytes;
  Tags : list bytes;
  ResponseModel : any;
  RequestModel : any;
  NoAuth : bool;
  HideDoc : bool;
  ContentType : bytes;
}.

(** [options.go]: functions that change a [RouteInfo]. *)
Definition WithResponse (model : any) (i : RouteInfo) : RouteInfo :=
  mkRouteInfo (Method i) (Path i) (Summary i) (Tags i) model (RequestModel i) (NoAuth i)
    (HideDoc i) (ContentType i).
Definition WithRequest (model : any) (i : RouteInfo) : RouteInfo :=
  mkRouteInfo (Method i) (Path i) (Summary i) (Tags i) (ResponseModel i) model (NoAuth i)
    (HideDoc i) (ContentType i).
Definition WithTags (tags : list bytes) (i : RouteInfo) : RouteInfo :=
  mkRouteInfo (Method i) (Path i) (Summary i) tags (ResponseModel i) (RequestModel i) (NoAuth i)
    (HideDoc i) (ContentType i).
Definition WithSummary (s : bytes) (i : RouteInfo) : RouteInfo :=
  mkRouteInfo (Method i) (Path i) s (Tags i) (ResponseModel i) (RequestModel i) (NoAuth i)
    (HideDoc i) (ContentType i).

Definition info_ptr := nat.

(** [slices.Sort] on strings: byte-wise lexicographic order. *)
Fixpoint bytes_leb (a b : bytes) : bool :=
  match a, b with
  | [], _ => true
  | _ :: _, [] => false
  | x :: a', y :: b' =>
      let i := nat_of_ascii x in let j := nat_of_ascii y in
      if i <? j then true else if j <? i then false else bytes_leb a' b'
  end.
Definition bytes_le (a b : bytes) : Prop := bytes_leb a b = true.
#[export] Instance bytes_le_dec a b : Decision (bytes_le a b) := decide (bytes_leb a b = true).

Definition appendIfMissing (list : list bytes) (s : bytes) : Datatypes.list bytes :=
  if existsb (beqb s) list then list else list ++ [s].

Definition allowLocalsKey : bytes := B "goichi.allow".
Definition anyMethods : list bytes :=
  B <$> ["GET"; "POST"; "PUT"; "PATCH"; "DELETE"; "OPTIONS"; "HEAD"]%string.

Section router.
Context `{F : FastHTTP} {St : Type}.

(** [type routeEntry struct] *)
Record routeEntry := mkEntry {
  e_method : bytes;
  e_path : bytes;
  e_handler : Handler St;
  e_mws : list (Middleware St);
  e_info : info_ptr;
}.

(** [type fallbackHandlers struct] *)
Record fallbackHandlers := mkFallback {
  fb_notFound : Handler St;
  fb_notAllowed : Handler St;
  fb_options : Handler St;
}.

(** [type Router struct]; [built] is the state of [buildOnce], [infos] the store
    of the [RouteInfo]s. *)
Record Router := mkRouter {
  trees : gmap bytes (node (hfn St));
  middlewares : list (Middleware St);
  authMiddleware : option (Middleware St);
  entries : list routeEntry;
  Routes : list info_ptr;
  ErrHandler : option (ErrorHandler St);
  StrictSlash : bool;
  CaseSensitive : bool;
  built : bool;
  fallback : option fallbackHandlers;
  infos : list RouteInfo;
}.

Definition NewRouter (strictSlash caseSensitive : bool) : Router :=
  mkRouter ∅ [] None [] [] None strictSlash caseSensitive false None [].

(** [(r *Router).Use(m...)] *)
Definition Use (m : list (Middleware St)) (r : Router) : Router :=
  mkRouter (trees r) (middlewares r ++ m) (authMiddleware r) (entries r) (Routes r)
    (ErrHandler r) (StrictSlash r) (CaseSensitive r) (built r) (fallback r) (infos r).

Definition setAuthMiddleware (m : Middleware St) (r : Router) : Router :=
  mkRouter (trees r) (middlewares r) (Some m) (entries r) (Routes r)
    (ErrHandler r) (StrictSlash r) (CaseSensitive r) (built r) (fallback r) (infos r).

Definition set_infos (f : list RouteInfo → list RouteInfo) (r : Router) : Router :=
  mkRouter (trees r) (middlewares r) (authMiddleware r) (entries r) (Routes r)
    (ErrHandler r) (StrictSlash r) (CaseSensitive r) (built r) (fallback r) (f (infos r)).

(** [(r *Router).addRoute]; the returned [*Route] is the pointer to its info. *)
Definition addRoute (method path : bytes) (h : Handler St) (m : list (Middleware St))
    (r : Router) : Router * info_ptr :=
  let path := match path with [] => B "/" | _ => path end in
  let path := match path with
              | c :: _ => if Ascii.eqb c "/" then path else "/"%char :: path
              | [] => path
              end in
  let info := mkRouteInfo method path [] [] VNil VNil false false [] in
  let ptr := length (infos r) in
  (mkRouter (trees r) (middlewares r) (authMiddleware r)
     (entries r ++ [mkEntry method path h m ptr]) (Routes r ++ [ptr])
     (ErrHandler r) (StrictSlash r) (CaseSensitive r) (built r) (fallback r)
     (infos r ++ [info]),
   ptr).

Definition GET (path : bytes) (h : Handler St) (m : list (Middleware St)) (r : Router) :=
  addRoute (B "GET") path h m r.
Definition POST (path : bytes) (h : Handler St) (m : list (Middleware St)) (r : Router) :=
  addRoute (B "POST") path h m r.
Definition PUT (path : bytes) (h : Handler St) (m : list (Middleware St)) (r : Router) :=
  addRoute (B "PUT") path h m r.
Definition PATCH (path : bytes) (h : Handler St) (m : list (Middleware St)) (r : Router) :=
  addRoute (B "PATCH") path h m r.
Definition DELETE (path : bytes) (h : Handler St) (m : list (Middleware St)) (r : Router) :=
  addRoute (B "DELETE") path h m r.

(** The loop of [ANY]: one route per method, in order. *)
Fixpoint add_methods (methods : list bytes) (path : bytes) (h : Handler St)
    (m : list (Middleware St)) (r : Router) : Router * list info_ptr :=
  match methods with
  | [] => (r, [])
  | method :: ms =>
      let '(r1, p) := addRoute method path h m r in
      let '(r2, ps) := add_methods ms path h m r1 in
      (r2, p :: ps)
  end.
Definition ANY (path : bytes) (h : Handler St) (m : list (Middleware St)) (r : Router) :=
  add_methods anyMethods path h m r.

Definition foldCase (r : Router) : bool := negb (CaseSensitive r).

Definition matchPath (r : Router) (path : bytes) : bytes :=
  if negb (StrictSlash r) && (1 <? length path) &&
     match last path with Some c => Ascii.eqb c "/" | None => false end
  then match TrimRight path (B "/") with
       | [] => B "/"
       | path' => path'
       end
  else path.

(** [for i := len(chain) - 1; i >= 0; i-- { handler = chain[i](handler) }] *)
Definition apply_chain (chain : list (Middleware St)) (h : Handler St) : Handler St :=
  fold_right (λ mw next, mw next) h chain.

Definition info_NoAuth (r : Router) (p : info_ptr) : bool :=
  match infos r !! p with Some i => NoAuth i | None => false end.

(** The chain of one entry: global middleware, then authentication unless the
    route is marked [NoAuth], then the route's own. *)
Definition entry_chain (r : Router) (e : routeEntry) : list (Middleware St) :=
  let chain := middlewares r in
  let chain := match authMiddleware r with
               | Some am => if negb (info_NoAuth r (e_info e)) then chain ++ [am] else chain
               | None => chain
               end in
  chain ++ e_mws e.

(** One iteration of the loop of [build]. *)
Definition build_entry (r : Router) (ts : gmap bytes (node (hfn St))) (e : routeEntry)
  : gmap bytes (node (hfn St)) :=
  let handler := apply_chain (entry_chain r e) (e_handler e) in
  let root := default (Node [] static [] None []) (ts !! e_method e) in
  let path := matchPath r (e_path e) in
  let root' := if beqb path (B "/") then set_handler root handler
               else insert root (drop 1 path) handler (foldCase r) in
  <[e_method e := root']> ts.

Definition setAllowHeader : act St unit :=
  c ← gets_ctx id;
  match Get_ c allowLocalsKey with
  | VString allow =>
      match allow with
      | [] => mret tt
      | _ => mod_response (res_Set (B "Allow") allow)
      end
  | _ => mret tt
  end.

(** The three responders, before the global middleware wraps them. *)
Definition respond_notFound : hfn St :=
  mod_response (res_SetStatusCode StatusNotFound);;
  WriteJSONError (B "not found").
Definition respond_notAllowed : hfn St :=
  setAllowHeader;;
  mod_response (res_SetStatusCode StatusMethodNotAllowed);;
  WriteJSONError (B "method not allowed").
Definition respond_options : hfn St :=
  setAllowHeader;;
  mod_response (res_SetStatusCode StatusNoContent);;
  mret None.

Definition buildFallbacks (r : Router) : fallbackHandlers :=
  let wrap h := apply_chain (middlewares r) (Some h) in
  mkFallback (wrap respond_notFound) (wrap respond_notAllowed) (wrap respond_options).

Definition build (r : Router) : Router :=
  mkRouter (fold_left (build_entry r) (entries r) ∅)
    (middlewares r) (authMiddleware r) (entries r) (Routes r) (ErrHandler r)
    (StrictSlash r) (CaseSensitive r) true (Some (buildFallbacks r)) (infos r).

(** [r.buildOnce.Do(r.build)] *)
Definition Build (r : Router) : Router := if built r then r else build r.

(** [root.handler] for the path ["/"], [root.search(path[1:])] otherwise. *)
Definition lookup_root (r : Router) (root : node (hfn St)) (path : bytes)
  : Handler St * option (gmap bytes bytes) :=
  if beqb path (B "/") then (n_handler root, None)
  else search root (drop 1 path) (foldCase r).

(** [allowedMethods]: Go iterates over the map in any order, then sorts. *)
Definition allowed_from (r : Router) (path : bytes)
    (table : list (bytes * node (hfn St))) : list bytes :=
  merge_sort bytes_le
    (omap (λ mt, match (lookup_root r mt.2 path).1 with
                 | Some _ => Some mt.1
                 | None => None
                 end) table).
Definition allowedMethods (r : Router) (path : bytes) : list bytes :=
  allowed_from r path (map_to_list (trees r)).

Definition handleError (r : Router) (err : error) : act St unit :=
  match ErrHandler r with
  | Some eh => eh err;; mret tt
  | None =>
      match err with
      | ValidationErr _ =>
          mod_response (res_SetStatusCode StatusUnprocessableEntity);;
          WriteJSONError (err_Error err);; mret tt
      | Err _ =>
          mod_response (res_SetStatusCode StatusInternalServerError);;
          WriteJSONError (B "internal server error");; mret tt
      end
  end.

(** [(r *Router).run]: a fresh context over the request; what is left of it in
    the end is the fasthttp context and the shared state. *)
Definition run (r : Router) (handler : Handler St) (params : option (gmap bytes bytes))
    (allowed : list bytes) : M (RequestCtx * St) unit := λ s,
  let c := mkCtx _ s.1 params None None None in
  let c := match allowed with
           | [] => c
           | _ => Set_ allowLocalsKey (VString (Join allowed (B ", "))) c
           end in
  let m : act St unit :=
    err ← call handler;
    match err with Some e => handleError r e | None => mret tt end in
  match m (c, s.2) with (o, (c', st')) => (o, (c_RequestCtx c', st')) end.

Definition fb (f : fallbackHandlers → Handler St) (r : Router) : Handler St :=
  match fallback r with Some x => f x | None => None end.

(** [HandleRequest] on the built table. *)
Definition dispatch (r : Router) : M (RequestCtx * St) unit := λ s,
  let method := ctx_Method s.1 in
  let path := match matchPath r (ctx_Path s.1) with [] => B "/" | p => p end in
  match match trees r !! method with
        | Some root => lookup_root r root path
        | None => (None, None)
        end with
  | (Some handler, params) => run r (Some handler) params [] s
  | (None, _) =>
      match allowedMethods r path with
      | [] => run r (fb fb_notFound r) None [] s
      | allowed =>
          if beqb method (B "OPTIONS") then
            run r (fb fb_options r) None (appendIfMissing allowed (B "OPTIONS")) s
          else
            match
              if beqb method (B "HEAD") && existsb (beqb (B "GET")) allowed then
                match trees r !! B "GET" with
                | Some root => lookup_root r root path
                | None => (None, None)
                end
              else (None, None)
            with
            | (Some handler, params) =>
                (run r (Some handler) params [];;
                 modify (λ s, (on_response res_ResetBody s.1, s.2))) s
            | (None, _) =>
                run r (fb fb_notAllowed r) None (appendIfMissing allowed (B "OPTIONS")) s
            end
      end
  end.

(** [(r *Router).HandleRequest(ctx)]; the router it leaves is the built one. *)
Definition HandleRequest (r : Router) (s : RequestCtx * St)
  : Router * (outcome unit * (RequestCtx * St)) :=
  let r' := Build r in (r', dispatch r' s).

(** ** Route handles ([route.go]) *)

Definition upd_info (f : RouteInfo → RouteInfo) (p : info_ptr) (r : Router) : Router :=
  set_infos (alter f p) r.

Definition Route_NoAuth (p : info_ptr) : Router → Router :=
  upd_info (λ i, mkRouteInfo (Method i) (Path i) (Summary i) (Tags i) (ResponseModel i)
                   (RequestModel i) true (HideDoc i) (ContentType i)) p.
Definition Route_HideDoc (p : info_ptr) : Router → Router :=
  upd_info (λ i, mkRouteInfo (Method i) (Path i) (Summary i) (Tags i) (ResponseModel i)
                   (RequestModel i) (NoAuth i) true (ContentType i)) p.
Definition Route_Summary (s : bytes) (p : info_ptr) : Router → Router := upd_info (WithSummary s) p.
Definition Route_Tags (tags : list bytes) (p : info_ptr) : Router → Router := upd_info (WithTags tags) p.
Definition Route_ResponseModel (model : any) (p : info_ptr) : Router → Router := upd_info (WithResponse model) p.
Definition Route_RequestModel (model : any) (p : info_ptr) : Router → Router := upd_info (WithRequest model) p.
Definition Route_ContentType (ct : bytes) (p : info_ptr) : Router → Router :=
  upd_info (λ i, mkRouteInfo (Method i) (Path i) (Summary i) (Tags i) (ResponseModel i)
                   (RequestModel i) (NoAuth i) (HideDoc i) ct) p.

(** The [Routes] variants: the same update on every handle. *)
Definition Routes_each (f : info_ptr → Router → Router) (ps : list info_ptr) (r : Router) :=
  fold_left (λ r p, f p r) ps r.
Definition Routes_NoAuth : list info_ptr → Router → Router := Routes_each Route_NoAuth.
Definition Routes_HideDoc : list info_ptr → Router → Router := Routes_each Route_HideDoc.
Definition Routes_Summary (s : bytes) : list info_ptr → Router → Router :=
  Routes_each (Route_Summary s).
Definition Routes_Tags (tags : list bytes) : list info_ptr → Router → Router :=
  Routes_each (Route_Tags tags).
Definition Routes_ResponseModel (model : any) : list info_ptr → Router → Router :=
  Routes_each (Route_ResponseModel model).
Definition Routes_RequestModel (model : any) : list info_ptr → Router → Router :=
  Routes_each (Route_RequestModel model).
Definition Routes_ContentType (ct : bytes) : list info_ptr → Router → Router :=
  Routes_each (Route_ContentType ct).

(** ** Static pages and files *)

(** [EnableDocs(path, htmlContent)] *)
Definition EnableDocs (path htmlContent : bytes) (r : Router) : Router :=
  let page : hfn St :=
    mod_response (res_SetContentType (B "text/html"));;
    mod_response (res_SetBody htmlContent);;
    mret None in
  (GET path (Some page) [] r).1.

(** [Static(prefix, root)]: [fs root n] is the handler fasthttp's [FS] builds for
    the directory, stripping [n] bytes of the path. *)
Definition Static (fs : bytes → nat → RequestCtx → RequestCtx) (prefix root : bytes)
    (r : Router) : Router :=
  let prefix := match prefix with [] => B "/" | _ => prefix end in
  let prefix := match prefix with
                | c :: _ => if Ascii.eqb c "/" then prefix else "/"%char :: prefix
                | [] => prefix
                end in
  let slash p := match last p with Some c => Ascii.eqb c "/" | None => false end in
  let stripPrefix := if slash prefix then prefix else prefix ++ B "/" in
  let routePath := if slash prefix then prefix ++ B "*filepath" else prefix ++ B "/*filepath" in
  let serve : hfn St :=
    mod_RequestCtx (fs root (length stripPrefix - 1));; mret None in
  let '(r', p) := GET routePath (Some serve) [] r in
  Route_HideDoc p r'.

(** ** Groups ([group.go]) *)

(** [type Group struct]; its router is passed to each operation. *)
Record Group := mkGroup { prefix : bytes; g_middlewares : list (Middleware St) }.

Definition merge (g : Group) (m : list (Middleware St)) : list (Middleware St) :=
  g_middlewares g ++ m.

Definition fullPath (g : Group) (path : bytes) : bytes :=
  let prefix := TrimSuffix (prefix g) (B "/") in
  if beqb path [] || beqb path (B "/") then
    match prefix with [] => B "/" | _ => prefix end
  else prefix ++ B "/" ++ TrimPrefix path (B "/").

(** [(g *Group).Group(prefix, m...)] *)
Definition Group_Group (pfx : bytes) (m : list (Middleware St)) (g : Group) : Group :=
  let parent := TrimSuffix (prefix g) (B "/") in
  let child := B "/" ++ TrimPrefix pfx (B "/") in
  mkGroup (parent ++ child) (merge g m).

Definition Group_route (method : bytes) (g : Group) (path : bytes) (h : Handler St)
    (m : list (Middleware St)) (r : Router) : Router * info_ptr :=
  addRoute method (fullPath g path) h (merge g m) r.
Definition Group_GET := Group_route (B "GET").
Definition Group_POST := Group_route (B "POST").
Definition Group_PUT := Group_route (B "PUT").
Definition Group_PATCH := Group_route (B "PATCH").
Definition Group_DELETE := Group_route (B "DELETE").
Definition Group_ANY (g : Group) (path : bytes) (h : Handler St) (m : list (Middleware St))
    (r : Router) := add_methods anyMethods (fullPath g path) h (merge g m) r.

Definition Group_Static (fs : bytes → nat → RequestCtx → RequestCtx) (g : Group)
    (pfx root : bytes) (r : Router) : Router := Static fs (prefix g ++ pfx) root r.
End router.
Arguments routeEntry {F} St.
Arguments Router {F} St.
Arguments Group {F} St.
