(* ===== verification/RouterTheory.v ===== *)
(** * What the router answers: refinement of a route table

    [HandleRequest] on the compiled trees is shown to answer every request as the
    abstract table of registered routes prescribes ([answers]). *)

From S2P Require Import Prelude GoStrings Node Pattern NodeTheory RouteTable Effects FastHTTP Core Router.

(** ** The order [slices.Sort] uses *)

Lemma bytes_leb_refl a : bytes_leb a a = true.
Proof. induction a as [|x a IH]; simpl; [done|]. by rewrite Nat.ltb_irrefl. Qed.

#[export] Instance bytes_le_trans : Transitive bytes_le.
Proof.
  unfold bytes_le. intros a. induction a as [|x a IH]; intros [|y b] [|z c]; simpl; try done.
  destruct (Nat.ltb_spec (nat_of_ascii x) (nat_of_ascii y));
    destruct (Nat.ltb_spec (nat_of_ascii y) (nat_of_ascii x));
    destruct (Nat.ltb_spec (nat_of_ascii y) (nat_of_ascii z));
    destruct (Nat.ltb_spec (nat_of_ascii z) (nat_of_ascii y));
    destruct (Nat.ltb_spec (nat_of_ascii x) (nat_of_ascii z));
    destruct (Nat.ltb_spec (nat_of_ascii z) (nat_of_ascii x)); try lia; try done.
  apply IH.
Qed.

#[export] Instance bytes_le_total : Total bytes_le.
Proof.
  unfold bytes_le. intros a. induction a as [|x a IH]; intros [|y b]; simpl; auto.
  destruct (Nat.ltb_spec (nat_of_ascii x) (nat_of_ascii y));
    destruct (Nat.ltb_spec (nat_of_ascii y) (nat_of_ascii x)); try lia; auto.
Qed.

Section spec.
Context `{F : FastHTTP} {St : Type}.
Implicit Types (r : Router St) (m p : bytes) (e : routeEntry St).

(** ** The abstract route table *)

(** The compiled handler of an entry. *)
Definition compiled r e : Handler St := apply_chain (entry_chain r e) (e_handler e).

(** The registrations of method [m], in order: the path below the root and the
    compiled handler. *)
Definition regs r m : list (bytes * Handler St) :=
  (λ e, (drop 1 (matchPath r (e_path e)), compiled r e)) <$>
    filter (λ e, e_method e = m) (entries r).

(** The route map of method [m]. *)
Definition table r m (t : list ntok) : Handler St := reg_lookup (foldCase r) (regs r m) t.

(** Matching the normalised request path [p]; ["/"] is the root route alone. *)
Definition path_match r (ts : list tok) p : option (list capture) :=
  if beqb p (B "/") then match ts with [] => Some [] | _ => None end
  else tmatch (foldCase r) ts (drop 1 p).

(** [h], with the parameters [ps], is the preferred route for [p]. *)
Definition best_route r m p (h : hfn St) (ps : option (gmap bytes bytes)) : Prop :=
  ∃ q ts vals,
    q ∈ (regs r m).*1 ∧ table r m (norm (foldCase r) (pattern q)) = Some h ∧
    norm (foldCase r) ts = norm (foldCase r) (pattern q) ∧
    path_match r ts p = Some vals ∧ ps = params_of vals ∧
    ∀ q' h', table r m (norm (foldCase r) (pattern q')) = Some h' →
      path_match r (pattern q') p ≠ None → prefers (pattern q) (pattern q').

Definition no_route r m p : Prop :=
  ∀ q h, table r m (norm (foldCase r) (pattern q)) = Some h →
    path_match r (pattern q) p = None.

(** The methods answered for [p]. *)
Definition allowed_spec r p (l : list bytes) : Prop :=
  StronglySorted bytes_le l ∧ NoDup l ∧
  ∀ m, m ∈ l ↔ ∃ h ps, best_route r m p h ps.

(** The request path as the router matches it. *)
Definition request_path r (s : RequestCtx * St) : bytes :=
  match matchPath r (ctx_Path s.1) with [] => B "/" | p => p end.

(** The five ways a request is answered. *)
Inductive answers r (s : RequestCtx * St) : outcome unit * (RequestCtx * St) → Prop :=
  | answer_route h ps :
      best_route r (ctx_Method s.1) (request_path r s) h ps →
      answers r s (run r (Some h) ps [] s)
  | answer_head h ps :
      ctx_Method s.1 = B "HEAD" → no_route r (B "HEAD") (request_path r s) →
      best_route r (B "GET") (request_path r s) h ps →
      answers r s ((run r (Some h) ps [];;
                    modify (λ s, (on_response res_ResetBody s.1, s.2))) s)
  | answer_options allowed :
      ctx_Method s.1 = B "OPTIONS" → no_route r (B "OPTIONS") (request_path r s) →
      allowed ≠ [] → allowed_spec r (request_path r s) allowed →
      answers r s (run r (apply_chain (middlewares r) (Some respond_options)) None
                     (appendIfMissing allowed (B "OPTIONS")) s)
  | answer_notAllowed allowed :
      ctx_Method s.1 ≠ B "OPTIONS" → no_route r (ctx_Method s.1) (request_path r s) →
      (ctx_Method s.1 = B "HEAD" → no_route r (B "GET") (request_path r s)) →
      allowed ≠ [] → allowed_spec r (request_path r s) allowed →
      answers r s (run r (apply_chain (middlewares r) (Some respond_notAllowed)) None
                     (appendIfMissing allowed (B "OPTIONS")) s)
  | answer_notFound :
      (∀ m, no_route r m (request_path r s)) →
      answers r s (run r (apply_chain (middlewares r) (Some respond_notFound)) None [] s).

(** ** The compiled trees *)

Lemma insert_root n (h : Handler St) ci : insert n [] h ci = set_handler n h.
Proof. done. Qed.

Lemma build_entry_insert r ts e :
  build_entry r ts e =
  <[e_method e := insert (default empty_root (ts !! e_method e))
                    (drop 1 (matchPath r (e_path e))) (compiled r e) (foldCase r)]> ts.
Proof.
  unfold build_entry. f_equal. destruct (beqb _ (B "/")) eqn:Hp; [|done].
  apply beqb_eq in Hp. by rewrite Hp.
Qed.

Lemma default_regs ci (rs : list (bytes * Handler St)) :
  default empty_root match rs with [] => None | y :: l => Some (insert_all ci (y :: l)) end
  = insert_all ci rs.
Proof. by destruct rs. Qed.

Lemma build_trees_from r es m :
  fold_left (build_entry r) es ∅ !! m =
  match (λ e, (drop 1 (matchPath r (e_path e)), compiled r e)) <$>
          filter (λ e, e_method e = m) es with
  | [] => None
  | rs => Some (insert_all (foldCase r) rs)
  end.
Proof.
  induction es as [|e es IH] using rev_ind; [simpl; apply lookup_empty|].
  rewrite fold_left_app, filter_app. simpl. rewrite build_entry_insert, lookup_insert.
  case_decide as Hm.
  - subst m. rewrite IH, filter_cons_True, fmap_app by done.
    rewrite (default_regs (foldCase r)).
    set (rs := _ <$> filter _ es).
    transitivity (Some (insert_all (foldCase r)
      (rs ++ [(drop 1 (matchPath r (e_path e)), compiled r e)]))).
    + by rewrite insert_all_snoc.
    + by destruct rs.
  - rewrite IH, filter_cons_False, app_nil_r by done. done.
Qed.

Lemma build_trees r m :
  trees (build r) !! m =
  match regs r m with [] => None | rs => Some (insert_all (foldCase r) rs) end.
Proof. apply build_trees_from. Qed.

(** The lookup the dispatcher performs for one method. *)
Definition lookup_method r m p : Handler St * option (gmap bytes bytes) :=
  match trees r !! m with
  | Some root => lookup_root r root p
  | None => (None, None)
  end.

Lemma regs_registered r m t h :
  table r m t = Some h →
  ∃ q, q ∈ (regs r m).*1 ∧ norm (foldCase r) (pattern q) = t.
Proof. apply reg_lookup_registered. Qed.

Lemma table_nil r m t : regs r m = [] → table r m t = None.
Proof. unfold table. by intros ->. Qed.

Lemma lookup_root_spec r m p :
  match lookup_root (build r) (insert_all (foldCase r) (regs r m)) p with
  | (Some h, ps) => best_route r m p h ps
  | (None, ps) => ps = None ∧ no_route r m p
  end.
Proof.
  unfold lookup_root, best_route, no_route, path_match.
  destruct (beqb p (B "/")) eqn:Hp.
  - destruct (insert_all_refines (foldCase r) (regs r m)) as (Hwf & Hty & Hpath & Hb).
    assert (n_handler (insert_all (foldCase r) (regs r m)) = table r m []) as Hroot.
    { apply option_eq. intros h. unfold table. rewrite <- Hb. rewrite binds_iff by congruence.
      split; [by left|]. intros [[_ ?]|(c & Hc & Ht)]; [done|].
      destruct (wf_child _ _ _ Hwf Hc) as [Hnr _].
      apply cbinds_head in Ht as (a & t' & ? & _); done. }
    rewrite Hroot. destruct (table r m []) as [h|] eqn:Ht.
    + destruct (regs_registered r m [] h Ht) as (q & Hq & Hn).
      exists q, [], []. rewrite Hn. split_and!; try done.
      intros q' h' _. by destruct (pattern q), (pattern q').
    + split; [done|]. intros q h Hq. destruct (pattern q) eqn:Hpq; [|done].
      simpl in Hq. congruence.
  - pose proof (search_refines (foldCase r) (regs r m) (drop 1 p)) as Hs.
    change (foldCase (build r)) with (foldCase r).
    destruct (search _ _ _) as [[h|] ps]; exact Hs.
Qed.

Lemma lookup_method_spec r m p :
  match lookup_method (build r) m p with
  | (Some h, ps) => best_route r m p h ps
  | (None, ps) => ps = None ∧ no_route r m p
  end.
Proof.
  unfold lookup_method. rewrite build_trees.
  pose proof (lookup_root_spec r m p) as Hl.
  destruct (regs r m) as [|x rs] eqn:Hr; [|exact Hl].
  split; [done|]. intros q h Hq. by rewrite (table_nil _ _ _ Hr) in Hq.
Qed.

Lemma best_route_no_route r m p h ps : best_route r m p h ps → no_route r m p → False.
Proof.
  intros (q & ts & vals & _ & Ht & Hn & Hm & _) Hno.
  specialize (Hno _ _ Ht). unfold path_match in *. case_match.
  - destruct ts; [|done]. by destruct (pattern q).
  - assert (tmatch (foldCase r) ts (drop 1 p) = None); [|congruence].
    by eapply norm_tmatch_None.
Qed.

Lemma lookup_method_Some r m p h ps :
  lookup_method (build r) m p = (Some h, ps) → best_route r m p h ps.
Proof. intros Hl. pose proof (lookup_method_spec r m p) as H. by rewrite Hl in H. Qed.

Lemma lookup_method_None r m p ps :
  lookup_method (build r) m p = (None, ps) → ps = None ∧ no_route r m p.
Proof. intros Hl. pose proof (lookup_method_spec r m p) as H. by rewrite Hl in H. Qed.

Lemma best_route_lookup r m p h ps :
  best_route r m p h ps → ∃ h' ps', lookup_method (build r) m p = (Some h', ps').
Proof.
  intros Hb. pose proof (lookup_method_spec r m p) as Hl.
  destruct (lookup_method _ _ _) as [[h'|] ps']; [eauto|].
  destruct Hl as [_ Hl]. by destruct (best_route_no_route _ _ _ _ _ Hb Hl).
Qed.

(** ** The allowed methods *)

Lemma elem_allowed r p m :
  m ∈ allowedMethods r p ↔ ∃ h, (lookup_method r m p).1 = Some h.
Proof.
  unfold allowedMethods, allowed_from, lookup_method.
  rewrite (merge_sort_Permutation bytes_le), list_elem_of_omap. split.
  - intros ([m' root] & Hin & Hl). apply elem_of_map_to_list in Hin. simpl in *.
    destruct (lookup_root r root p).1 as [h|] eqn:Hh; simplify_eq.
    exists h. by rewrite Hin.
  - intros [h Hh]. destruct (trees r !! m) as [root|] eqn:Ht; [|done].
    exists (m, root). split; [by apply elem_of_map_to_list|]. simpl. by rewrite Hh.
Qed.

Lemma NoDup_omap_fst {A B} (f : A * B → option A) (l : list (A * B)) :
  (∀ x y, f x = Some y → y = x.1) → NoDup l.*1 → NoDup (omap f l).
Proof.
  intros Hf. induction l as [|x l IH]; simpl; [constructor|].
  intros [Hx Hl]%NoDup_cons. destruct (f x) as [y|] eqn:Hfx; [|by apply IH].
  apply NoDup_cons. split; [|by apply IH].
  intros (z & Hz & Hfz)%list_elem_of_omap. apply Hx.
  rewrite <- (Hf _ _ Hfx), (Hf _ _ Hfz). by apply list_elem_of_fmap_2.
Qed.

Lemma allowedMethods_spec r p : allowed_spec r p (allowedMethods (build r) p).
Proof.
  split_and!.
  - apply (StronglySorted_merge_sort bytes_le).
  - unfold allowedMethods, allowed_from. rewrite (merge_sort_Permutation bytes_le).
    apply NoDup_omap_fst; [|apply NoDup_fst_map_to_list].
    intros [m root] y. simpl. by destruct (lookup_root _ _ _).1; intros; simplify_eq.
  - intros m. rewrite elem_allowed. split.
    + intros [h Hh]. destruct (lookup_method (build r) m p) as [h' ps] eqn:Hl.
      simpl in Hh. subst h'. exists h, ps. by apply lookup_method_Some.
    + intros (h & ps & Hb). apply best_route_lookup in Hb as (h' & ps' & ->). eauto.
Qed.

Lemma allowed_nil_no_route r p m : allowedMethods (build r) p = [] → no_route r m p.
Proof.
  intros Hn. destruct (lookup_method (build r) m p) as [[h|] ps] eqn:Hl.
  - assert (m ∈ allowedMethods (build r) p) as Hm by (apply elem_allowed; rewrite Hl; eauto).
    rewrite Hn in Hm. by apply not_elem_of_nil in Hm.
  - by apply lookup_method_None in Hl as [_ ?].
Qed.

(** ** Dispatch *)

(** [run] only reads the error handler of the router. *)
Lemma run_build r h ps allowed : run (build r) h ps allowed = run r h ps allowed.
Proof. done. Qed.

Lemma dispatch_answers r s : answers r s (dispatch (build r) s).
Proof.
  unfold dispatch. fold (lookup_method (build r) (ctx_Method s.1)
    match matchPath (build r) (ctx_Path s.1) with [] => B "/" | p => p end).
  change (match matchPath (build r) (ctx_Path s.1) with [] => B "/" | p => p end)
    with (request_path r s).
  change (run (build r)) with (run r).
  destruct (lookup_method _ _ _) as [[h|] ps] eqn:Hl.
  { apply answer_route. by apply lookup_method_Some. }
  apply lookup_method_None in Hl as [_ Hno].
  destruct (allowedMethods (build r) (request_path r s)) as [|a al] eqn:Ha.
  { apply answer_notFound. intros m. by apply allowed_nil_no_route. }
  pose proof (allowedMethods_spec r (request_path r s)) as Hspec. rewrite Ha in Hspec.
  destruct (beqb _ (B "OPTIONS")) eqn:Hopt.
  { apply beqb_eq in Hopt. rewrite Hopt in Hno. by apply answer_options. }
  apply beqb_neq in Hopt.
  destruct (beqb _ (B "HEAD")) eqn:Hhead; cbn [andb].
  2: { apply beqb_neq in Hhead. by apply answer_notAllowed. }
  apply beqb_eq in Hhead. rewrite Hhead in Hno.
  destruct (existsb _ _) eqn:Hget.
  - fold (lookup_method (build r) (B "GET") (request_path r s)).
    destruct (lookup_method (build r) (B "GET") (request_path r s)) as [[h|] ps'] eqn:Hl.
    + apply answer_head; [done..|]. by apply lookup_method_Some.
    + apply lookup_method_None in Hl as [_ Hl]. apply answer_notAllowed; first [done|by rewrite Hhead].
  - apply answer_notAllowed; [done|by rewrite Hhead| |done|done]. intros _.
    destruct (lookup_method (build r) (B "GET") (request_path r s)) as [[h|] ps'] eqn:Hl.
    + assert (B "GET" ∈ a :: al) as Hin by (rewrite <- Ha; apply elem_allowed; rewrite Hl; eauto).
      assert (existsb (beqb (B "GET")) (a :: al) = true); [|simpl in *; congruence].
      apply existsb_exists. exists (B "GET"). rewrite <- list_elem_of_In, beqb_refl. done.
    + by apply lookup_method_None in Hl as [_ ?].
Qed.
End spec.

#[export] Instance bytes_le_antisym : AntiSymm (=) bytes_le.
Proof.
  unfold bytes_le. intros a. induction a as [|x a IH]; intros [|y b]; simpl; try done.
  destruct (Nat.ltb_spec (nat_of_ascii x) (nat_of_ascii y));
    destruct (Nat.ltb_spec (nat_of_ascii y) (nat_of_ascii x)); try lia; try done.
  intros Hab Hba. rewrite (IH b Hab Hba). f_equal.
  rewrite <- (ascii_nat_embedding x), <- (ascii_nat_embedding y). f_equal. lia.
Qed.

Section more.
Context `{F : FastHTTP} {St : Type}.
Implicit Types (r : Router St) (m p : bytes).

Lemma table_root r m t h :
  table r m t = Some h → ∃ q, q ∈ (regs r m).*1 ∧ norm (foldCase r) (pattern q) = t.
Proof. apply reg_lookup_registered. Qed.

(** Matching transported along equality up to [norm]. *)
Lemma path_match_norm r ts ts' p :
  norm (foldCase r) ts = norm (foldCase r) ts' →
  path_match r ts p ≠ None → path_match r ts' p ≠ None.
Proof.
  unfold path_match. intros Hn. case_match.
  - by destruct ts, ts'.
  - intros Hm Hm'. apply Hm. by eapply norm_tmatch_None.
Qed.

Lemma path_match_antisym r q q' p :
  path_match r (pattern q) p ≠ None → path_match r (pattern q') p ≠ None →
  prefers (pattern q) (pattern q') → prefers (pattern q') (pattern q) →
  norm (foldCase r) (pattern q) = norm (foldCase r) (pattern q').
Proof.
  unfold path_match. case_match; intros Hm Hm' Hp Hp'.
  - by destruct (pattern q), (pattern q').
  - eapply (prefers_antisym (foldCase r)); eauto with goichi.
Qed.

(** ** The responders, run without global middleware *)

Definition error_json (msg : bytes) : option bytes :=
  json_Marshal (VMap [(B "error", VString msg)]).

Lemma setAllowHeader_set allow (c : Ctx) (st : St) :
  allow ≠ [] → Get_ c allowLocalsKey = VString allow →
  setAllowHeader (c, st) =
  (Ret tt, (upd_RequestCtx (on_response (res_Set (B "Allow") allow)) c, st)).
Proof.
  intros Hne Hg. unfold setAllowHeader, gets_ctx, gets, mbind, M_bind. simpl.
  rewrite Hg. by destruct allow.
Qed.

Lemma WriteJSONError_eq msg b (c : Ctx) (st : St) :
  error_json msg = Some b →
  WriteJSONError msg (c, st) =
  (Ret None, (upd_RequestCtx (on_response (res_SetBody b))
               (upd_RequestCtx (on_response (res_SetContentType (B "application/json"))) c), st)).
Proof. unfold WriteJSONError, error_json, mbind, M_bind. simpl. by intros ->. Qed.
End more.
