(* ===== verification/Registration.v ===== *)
(** * Sequences of registrations

    What an application does to a router before and after the first request: the
    calls of [Use], [setAuthMiddleware], [addRoute] and [Route.NoAuth] as data,
    with the lemmas that say which of them commute. *)

From S2P Require Import Prelude GoStrings Node Effects FastHTTP Core Router.

Section registration.
Context `{F : FastHTTP} {St : Type}.
Implicit Types (r : Router St) (m p : bytes).

Inductive reg_op :=
  | OpUse (mws : list (Middleware St))
  | OpAuth (am : Middleware St)
  | OpRoute (method path : bytes) (h : Handler St) (mws : list (Middleware St))
  | OpNoAuth (ptr : info_ptr).

Definition apply_op (op : reg_op) r : Router St :=
  match op with
  | OpUse mws => Use mws r
  | OpAuth am => setAuthMiddleware am r
  | OpRoute method path h mws => (addRoute method path h mws r).1
  | OpNoAuth ptr => Route_NoAuth ptr r
  end.
Definition apply_ops (ops : list reg_op) r : Router St :=
  fold_left (λ r op, apply_op op r) ops r.

(** The three things an operation can concern. *)
Definition concern (op : reg_op) : nat :=
  match op with OpUse _ => 0 | OpAuth _ => 1 | OpRoute _ _ _ _ | OpNoAuth _ => 2 end.
Definition concerning (k : nat) (ops : list reg_op) : list reg_op :=
  filter (λ op, concern op = k) ops.

Lemma apply_op_commute a b r :
  concern a ≠ concern b → apply_op a (apply_op b r) = apply_op b (apply_op a r).
Proof. by destruct a, b. Qed.

Lemma apply_ops_app l1 l2 r : apply_ops (l1 ++ l2) r = apply_ops l2 (apply_ops l1 r).
Proof. apply fold_left_app. Qed.

Lemma apply_ops_commute_one a l r :
  (∀ b, b ∈ l → concern a ≠ concern b) →
  apply_ops l (apply_op a r) = apply_op a (apply_ops l r).
Proof.
  revert r. induction l as [|b l IH]; intros r Hl; [done|]. simpl.
  rewrite (apply_op_commute b a) by (symmetry; apply Hl; constructor).
  apply IH. intros c Hc. apply Hl. by constructor.
Qed.

Lemma apply_ops_cons a l r : apply_ops (a :: l) r = apply_ops l (apply_op a r).
Proof. done. Qed.

Lemma concern_concerning k ops b : b ∈ concerning k ops → concern b = k.
Proof. by intros [? _]%list_elem_of_filter. Qed.

Lemma concerning_cons k a ops :
  concerning k (a :: ops) =
  if decide (concern a = k) then a :: concerning k ops else concerning k ops.
Proof. reflexivity. Qed.

(** Sorting the operations by concern changes nothing. *)
Lemma apply_ops_sorted ops r :
  apply_ops ops r =
  apply_ops (concerning 0 ops ++ concerning 1 ops ++ concerning 2 ops) r.
Proof.
  revert r. induction ops as [|a ops IH]; intros r; [done|].
  rewrite apply_ops_cons, IH, !concerning_cons.
  assert (concern a = 0 ∨ concern a = 1 ∨ concern a = 2) as Ha by (destruct a; simpl; auto).
  assert (∀ k r, concern a ≠ k →
    apply_ops (concerning k ops) (apply_op a r) = apply_op a (apply_ops (concerning k ops) r))
    as Hc by (intros k r' Hk; apply apply_ops_commute_one; intros b ->%concern_concerning; done).
  repeat case_decide; try lia; rewrite !apply_ops_app, ?apply_ops_cons; try done.
  - by rewrite (Hc 0) by lia.
  - by rewrite (Hc 0), (Hc 1) by lia.
Qed.

(** The middleware registered with [Use], in order, and the last
    authentication middleware. *)
Definition used (ops : list reg_op) : list (Middleware St) :=
  mjoin ((λ op, match op with OpUse mws => mws | _ => [] end) <$> ops).
Definition last_auth (am : option (Middleware St)) (ops : list reg_op)
  : option (Middleware St) :=
  fold_left (λ acc op, match op with OpAuth am => Some am | _ => acc end) ops am.

Lemma apply_ops_middlewares ops r :
  middlewares (apply_ops ops r) = middlewares r ++ used ops.
Proof.
  revert r. induction ops as [|op ops IH]; intros r; [by rewrite app_nil_r|].
  simpl. rewrite IH. destruct op; simpl; [by rewrite <- app_assoc|done..].
Qed.

Lemma apply_ops_authMiddleware ops r :
  authMiddleware (apply_ops ops r) = last_auth (authMiddleware r) ops.
Proof.
  revert r. induction ops as [|op ops IH]; intros r; [done|].
  simpl. rewrite IH. by destruct op.
Qed.

(** What dispatching reads of a built router survives every registration. *)
Lemma apply_ops_compiled ops r :
  trees (apply_ops ops r) = trees r ∧ fallback (apply_ops ops r) = fallback r ∧
  built (apply_ops ops r) = built r ∧ ErrHandler (apply_ops ops r) = ErrHandler r ∧
  StrictSlash (apply_ops ops r) = StrictSlash r ∧
  CaseSensitive (apply_ops ops r) = CaseSensitive r.
Proof.
  revert r. induction ops as [|op ops IH]; intros r; [done|].
  simpl. destruct (IH (apply_op op r)) as (-> & -> & -> & -> & -> & ->). by destruct op.
Qed.

Lemma dispatch_ext r r' :
  trees r' = trees r → fallback r' = fallback r → ErrHandler r' = ErrHandler r →
  StrictSlash r' = StrictSlash r → CaseSensitive r' = CaseSensitive r →
  dispatch r' = dispatch r.
Proof. destruct r, r'. simpl. intros. by subst. Qed.

(** ** Groups *)

(** A group reached by nested [Group] calls from the application. *)
Definition nested (specs : list (bytes * list (Middleware St))) : Group St :=
  fold_left (λ g s, Group_Group s.1 s.2 g) specs (mkGroup [] []).

(** A path segment as documented: not empty, no slash at either end. *)
Definition clean (s : bytes) : Prop :=
  s ≠ [] ∧ HasPrefix s (B "/") = false ∧ HasSuffix s (B "/") = false.

Lemma TrimSuffix_clean a s : clean s → TrimSuffix (a ++ s) (B "/") = a ++ s.
Proof.
  intros (Hne & _ & Hs). unfold TrimSuffix.
  assert (HasSuffix (a ++ s) (B "/") = false) as ->; [|done].
  unfold HasSuffix in *. rewrite rev_app_distr.
  destruct (rev s) as [|c s'] eqn:Hr.
  - destruct Hne. rewrite <- (rev_involutive s), Hr. done.
  - exact Hs.
Qed.

Lemma TrimPrefix_clean s : clean s → TrimPrefix s (B "/") = s.
Proof. intros (_ & Hp & _). unfold TrimPrefix. by rewrite Hp. Qed.

Definition seg_path (segs : list bytes) : bytes := mjoin ((λ s, B "/" ++ s) <$> segs).

Lemma nested_snoc specs s : nested (specs ++ [s]) = Group_Group s.1 s.2 (nested specs).
Proof. unfold nested. by rewrite fold_left_app. Qed.

Lemma seg_path_snoc segs s : seg_path (segs ++ [s]) = seg_path segs ++ B "/" ++ s.
Proof. unfold seg_path. rewrite fmap_app, join_app. simpl. by rewrite app_nil_r. Qed.

Lemma TrimSuffix_seg_path segs :
  Forall clean segs → TrimSuffix (seg_path segs) (B "/") = seg_path segs.
Proof.
  destruct segs as [|s segs _] using rev_ind; [done|].
  intros [_ [Hs _]%Forall_cons]%Forall_app. rewrite seg_path_snoc, app_assoc.
  by apply TrimSuffix_clean.
Qed.

Lemma nested_spec specs :
  Forall clean specs.*1 →
  prefix (nested specs) = seg_path specs.*1 ∧
  g_middlewares (nested specs) = mjoin specs.*2.
Proof.
  induction specs as [|s specs IH] using rev_ind; [done|].
  rewrite !fmap_app, join_app, nested_snoc. intros [Hs [Hc _]%Forall_cons]%Forall_app.
  destruct (IH Hs) as [Hp Hm]. unfold Group_Group, merge. cbn [prefix g_middlewares].
  rewrite Hp, Hm, TrimSuffix_seg_path, TrimPrefix_clean by done. simpl.
  by rewrite seg_path_snoc, app_nil_r.
Qed.
End registration.
Arguments reg_op {F} St.
