(* ===== verification/Literal.v ===== *)
(** * Routes without parameters

    What the router does with a path that has no parameter and no catch-all: its route
    is the preferred one whatever else is registered. The application mounts protocol
    servers, documentation pages and health checks on such paths. *)

From S2P Require Import Prelude GoStrings Node Pattern NodeTheory RouteTable Effects FastHTTP Core Router RouterTheory.

(** ** Literal patterns *)

Lemma pattern_lits s : lit s → pattern s = TLit <$> s.
Proof. intros Hs. rewrite <- (app_nil_r s) at 1. by rewrite pattern_lit, app_nil_r. Qed.

Lemma norm_pattern_lits ci s : lit s → norm ci (pattern s) = NLit <$> (foldc ci <$> s).
Proof. intros Hs. by rewrite pattern_lits, norm_lits, list_fmap_compose. Qed.

(** A pattern that reads as literals is the text itself. *)
Lemma norm_pattern_inv ci s k : norm ci (pattern s) = NLit <$> k → foldc ci <$> s = k.
Proof.
  revert k. induction s as [|c s IH]; intros [|d k]; simpl; try done.
  { intros Hn. exfalso. revert Hn. repeat case_match; discriminate. }
  destruct (Ascii.eqb c ":"); [intros; discriminate|]. destruct (Ascii.eqb c "*"); [intros; discriminate|].
  intros [= -> Hs]. f_equal. by apply IH.
Qed.

Lemma tmatch_lits ci s p : foldc ci <$> p = foldc ci <$> s → tmatch ci (TLit <$> s) p = Some [].
Proof.
  revert p. induction s as [|c s IH]; intros [|x p]; simpl; try done.
  intros [= -> Hp]. rewrite Ascii.eqb_refl. by apply IH.
Qed.

(** A literal pattern is preferred to every other that matches the same path. *)
Lemma prefers_lits ci s ts p :
  tmatch ci (TLit <$> s) p ≠ None → tmatch ci ts p ≠ None → prefers (TLit <$> s) ts.
Proof.
  revert ts p. induction s as [|c s IH]; intros ts p Hs Ht; [done|].
  destruct p as [|x p]; [done|]. cbn [fmap list_fmap tmatch] in Hs.
  destruct (Ascii.eqb (foldc ci x) (foldc ci c)); [|done].
  destruct ts as [|t ts]; [done|]. cbn [fmap list_fmap prefers]. destruct t; simpl; [|left; lia..].
  right. split; [done|]. simpl in Ht.
  destruct (Ascii.eqb (foldc ci x) (foldc ci c0)); [|done]. by apply (IH ts p).
Qed.

(** The last registration of a pattern is the one in the table. *)
Lemma reg_lookup_last {H} ci (l1 l2 : list (bytes * option H)) p h :
  (∀ x, x ∈ l2 → norm ci (pattern x.1) ≠ norm ci (pattern p)) →
  reg_lookup ci (l1 ++ (p, h) :: l2) (norm ci (pattern p)) = h.
Proof.
  induction l2 as [|x l2 IH] using rev_ind; intros Hl.
  - rewrite reg_lookup_snoc. by rewrite decide_True.
  - rewrite app_comm_cons, app_assoc, reg_lookup_snoc, decide_False.
    + apply IH. intros y Hy. apply Hl. apply elem_of_app. by left.
    + apply Hl. apply elem_of_app. right. constructor.
Qed.

(** [lit], as a test. *)
Definition litb (s : bytes) : bool := forallb (λ c, negb (Ascii.eqb c ":") && negb (Ascii.eqb c "*")) s.
Lemma litb_lit s : litb s = true → lit s.
Proof.
  unfold litb. intros Hall c Hc. rewrite forallb_forall in Hall.
  apply list_elem_of_In, Hall, andb_true_iff in Hc. by rewrite !negb_true_iff, !Ascii.eqb_neq in Hc.
Qed.

Lemma lit_subset s t : (∀ c, c ∈ s → c ∈ t) → lit t → lit s.
Proof. intros Hs Ht c Hc. by apply Ht, Hs. Qed.

Section literal.
Context `{F : FastHTTP} {St : Type}.
Implicit Types (r : Router St) (e : routeEntry St).

(** What the router compares of two paths: without the leading slash, the trailing
    slash dropped and case folded as the router is configured to. *)
Definition route_key r (path : bytes) : bytes := foldc (foldCase r) <$> drop 1 (matchPath r path).

Lemma matchPath_lit r path : lit path → lit (matchPath r path).
Proof.
  intros Hl. unfold matchPath. case_match; [|done].
  destruct (TrimRight path (B "/")) as [|c p] eqn:E.
  - intros c ->%list_elem_of_singleton. done.
  - rewrite <- E. eapply lit_subset; [|exact Hl]. intros d. unfold TrimRight.
    rewrite !list_elem_of_In, <- in_rev. intros Hd. apply in_rev.
    induction (rev path) as [|y l IH]; [done|]. simpl in *. case_match; [right; auto|done].
Qed.

Lemma request_path_key r (s : RequestCtx * St) :
  foldc (foldCase r) <$> drop 1 (request_path r s) = route_key r (ctx_Path s.1).
Proof. unfold request_path, route_key. by destruct (matchPath r (ctx_Path s.1)). Qed.

Lemma path_match_key r k p :
  foldc (foldCase r) <$> drop 1 p = foldc (foldCase r) <$> k →
  path_match r (TLit <$> k) p = Some [].
Proof.
  intros Hk. unfold path_match. destruct (beqb p (B "/")) eqn:E; [|by apply tmatch_lits].
  apply beqb_eq in E as ->. by destruct k.
Qed.

Lemma path_match_prefers r k ts p :
  path_match r (TLit <$> k) p ≠ None → path_match r ts p ≠ None → prefers (TLit <$> k) ts.
Proof.
  unfold path_match. destruct (beqb p (B "/")); [|apply prefers_lits]. by destruct k.
Qed.

(** The pattern of a route, and the route the table holds for it: the last one. *)
Definition route_pattern r e : list tok := pattern (drop 1 (matchPath r (e_path e))).

Lemma table_last r es1 e es2 h :
  entries r = es1 ++ e :: es2 →
  (∀ e', e' ∈ es2 → e_method e' = e_method e →
     norm (foldCase r) (route_pattern r e') ≠ norm (foldCase r) (route_pattern r e)) →
  compiled r e = Some h →
  drop 1 (matchPath r (e_path e)) ∈ (regs r (e_method e)).*1 ∧
  table r (e_method e) (norm (foldCase r) (route_pattern r e)) = Some h.
Proof.
  intros He Hlast Hc. set (k := drop 1 (matchPath r (e_path e))).
  assert (∃ l1 l2, regs r (e_method e) = l1 ++ (k, Some h) :: l2 ∧
    ∀ x, x ∈ l2 → norm (foldCase r) (pattern x.1) ≠ norm (foldCase r) (pattern k)) as (l1 & l2 & Hr & Hl2).
  { unfold regs. rewrite He, filter_app, filter_cons_True, fmap_app, fmap_cons, Hc by done.
    eexists _, _. split; [reflexivity|].
    intros x (e' & -> & [Hme Hin]%list_elem_of_filter)%list_elem_of_fmap. simpl. by apply Hlast. }
  split.
  - rewrite Hr, fmap_app. apply elem_of_app. right. constructor.
  - unfold table. rewrite Hr. by apply reg_lookup_last.
Qed.

(** The table holds the literal route registered last for a path. *)
Lemma table_literal r es1 e es2 h :
  entries r = es1 ++ e :: es2 → lit (e_path e) →
  (∀ e', e' ∈ es2 → e_method e' = e_method e → route_key r (e_path e') ≠ route_key r (e_path e)) →
  compiled r e = Some h →
  let k := drop 1 (matchPath r (e_path e)) in
  lit k ∧ k ∈ (regs r (e_method e)).*1 ∧
  table r (e_method e) (norm (foldCase r) (pattern k)) = Some h.
Proof.
  intros He Hlit Hlast Hc k. assert (lit k) as Hk by (by apply lit_drop, matchPath_lit).
  split; [done|]. apply (table_last r es1 e es2 h); [done| |done].
  intros e' Hin Hme. unfold route_pattern. fold k. rewrite (norm_pattern_lits _ k) by done.
  intros Hn%norm_pattern_inv. by apply (Hlast e' Hin Hme).
Qed.

Lemma best_route_literal r m k p h :
  lit k → k ∈ (regs r m).*1 → table r m (norm (foldCase r) (pattern k)) = Some h →
  foldc (foldCase r) <$> drop 1 p = foldc (foldCase r) <$> k → best_route r m p h None.
Proof.
  intros Hk Hin Ht Hp. assert (path_match r (pattern k) p = Some []) as Hm
    by (rewrite pattern_lits by done; by apply path_match_key).
  exists k, (pattern k), []. split_and!; try done.
  intros q' h' _ Hq'. rewrite pattern_lits in Hm |- * by done.
  apply (path_match_prefers r k _ p); [|done]. by rewrite Hm.
Qed.

(** It is the only best route, and it binds no parameter. *)
Lemma best_route_literal_unique r m k p h h' ps :
  lit k → table r m (norm (foldCase r) (pattern k)) = Some h →
  foldc (foldCase r) <$> drop 1 p = foldc (foldCase r) <$> k →
  best_route r m p h' ps → h' = h ∧ ps = None.
Proof.
  intros Hk Ht Hp (q & ts & vals & _ & Hq & Hn & Hm & -> & Hbest).
  assert (path_match r (pattern k) p = Some []) as Hmk
    by (rewrite pattern_lits by done; by apply path_match_key).
  assert (path_match r (pattern q) p ≠ None) as Hmq
    by (eapply path_match_norm; [exact Hn|congruence]).
  assert (norm (foldCase r) (pattern q) = norm (foldCase r) (pattern k)) as Heq.
  { apply (path_match_antisym r q k p); [done|congruence| |].
    - apply (Hbest k h); [done|congruence].
    - rewrite (pattern_lits k) in * by done. apply (path_match_prefers r k _ p); congruence. }
  split; [congruence|]. assert (vals = []) as ->; [|done].
  unfold path_match in Hm, Hmk. rewrite Heq in Hn. destruct (beqb p (B "/")).
  - by destruct ts; simplify_eq.
  - pose proof (norm_tmatch (foldCase r) ts (pattern k) (drop 1 p) Hn) as Hv.
    rewrite Hm, Hmk in Hv. simpl in Hv. by destruct vals.
Qed.

Lemma literal_lookup r es1 e es2 h p :
  entries r = es1 ++ e :: es2 → lit (e_path e) →
  (∀ e', e' ∈ es2 → e_method e' = e_method e → route_key r (e_path e') ≠ route_key r (e_path e)) →
  compiled r e = Some h →
  foldc (foldCase r) <$> drop 1 p = route_key r (e_path e) →
  lookup_method (build r) (e_method e) p = (Some h, None).
Proof.
  intros He Hlit Hlast Hc Hp.
  destruct (table_literal r es1 e es2 h He Hlit Hlast Hc) as (Hk & Hin & Ht).
  destruct (best_route_lookup r (e_method e) p h None) as (h' & ps' & Hl).
  { by eapply best_route_literal. }
  rewrite Hl. apply lookup_method_Some in Hl.
  by destruct (best_route_literal_unique r (e_method e) _ p h h' ps' Hk Ht Hp Hl) as [-> ->].
Qed.

Lemma literal_dispatch r es1 e es2 (s : RequestCtx * St) h :
  entries r = es1 ++ e :: es2 → lit (e_path e) →
  (∀ e', e' ∈ es2 → e_method e' = e_method e → route_key r (e_path e') ≠ route_key r (e_path e)) →
  ctx_Method s.1 = e_method e → route_key r (ctx_Path s.1) = route_key r (e_path e) →
  compiled r e = Some h →
  dispatch (build r) s = run r (Some h) None [] s.
Proof.
  intros He Hlit Hlast Hm Hp Hc. unfold dispatch.
  fold (lookup_method (build r) (ctx_Method s.1)
    match matchPath (build r) (ctx_Path s.1) with [] => B "/" | p => p end).
  change (match matchPath (build r) (ctx_Path s.1) with [] => B "/" | p => p end)
    with (request_path r s).
  rewrite Hm, (literal_lookup r es1 e es2 h) by (by rewrite ?request_path_key). by rewrite run_build.
Qed.

(** ** A route no other competes with *)

(** The route of [e] answers a path it matches when whatever else matches is registered for
    the same pattern, before it. *)
Lemma sole_lookup r es1 e es2 h p :
  entries r = es1 ++ e :: es2 → compiled r e = Some h →
  path_match r (route_pattern r e) p ≠ None →
  (∀ e', e' ∈ es2 → e_method e' = e_method e →
     norm (foldCase r) (route_pattern r e') ≠ norm (foldCase r) (route_pattern r e)) →
  (∀ e', e' ∈ entries r → e_method e' = e_method e → path_match r (route_pattern r e') p ≠ None →
     norm (foldCase r) (route_pattern r e') = norm (foldCase r) (route_pattern r e)) →
  ∃ ps, lookup_method (build r) (e_method e) p = (Some h, ps).
Proof.
  intros He Hc Hm Hlast Hsole. destruct (table_last r es1 e es2 h He Hlast Hc) as [Hin Ht].
  assert (∀ q' h', table r (e_method e) (norm (foldCase r) (pattern q')) = Some h' →
    path_match r (pattern q') p ≠ None →
    norm (foldCase r) (pattern q') = norm (foldCase r) (route_pattern r e)) as Honly.
  { intros q' h' Hq' Hmq. destruct (regs_registered r (e_method e) _ h' Hq') as (k & Hk & Hn).
    unfold regs in Hk. rewrite <- list_fmap_compose in Hk.
    apply list_elem_of_fmap in Hk as (e' & -> & [Hme He']%list_elem_of_filter). simpl in Hn.
    rewrite <- Hn. apply Hsole; [done..|]. by eapply path_match_norm; [symmetry; exact Hn|]. }
  assert (∃ vals, path_match r (route_pattern r e) p = Some vals) as [vals Hvals]
    by (destruct (path_match r (route_pattern r e) p); [by eexists|done]).
  destruct (best_route_lookup r (e_method e) p h (params_of vals)) as (h' & ps & Hl).
  { exists (drop 1 (matchPath r (e_path e))), (route_pattern r e), vals. split_and!; try done.
    intros q' h' Hq' Hmq. apply (norm_prefers (foldCase r) (route_pattern r e) _ (route_pattern r e)).
    - done.
    - symmetry. by eapply Honly.
    - apply prefers_refl. }
  exists ps. rewrite Hl. f_equal. apply lookup_method_Some in Hl as (q & ts & vs & _ & Hq & Hn & Hmq & _).
  rewrite (Honly q h') in Hq; [congruence|done|]. eapply path_match_norm; [exact Hn|congruence].
Qed.

Lemma sole_dispatch r es1 e es2 h (s : RequestCtx * St) :
  entries r = es1 ++ e :: es2 → compiled r e = Some h → ctx_Method s.1 = e_method e →
  path_match r (route_pattern r e) (request_path r s) ≠ None →
  (∀ e', e' ∈ es2 → e_method e' = e_method e →
     norm (foldCase r) (route_pattern r e') ≠ norm (foldCase r) (route_pattern r e)) →
  (∀ e', e' ∈ entries r → e_method e' = e_method e →
     path_match r (route_pattern r e') (request_path r s) ≠ None →
     norm (foldCase r) (route_pattern r e') = norm (foldCase r) (route_pattern r e)) →
  ∃ ps, dispatch (build r) s = run r (Some h) ps [] s.
Proof.
  intros He Hc Hme Hm Hlast Hsole.
  destruct (sole_lookup r es1 e es2 h (request_path r s) He Hc Hm Hlast Hsole) as [ps Hl].
  exists ps. unfold dispatch.
  fold (lookup_method (build r) (ctx_Method s.1)
    match matchPath (build r) (ctx_Path s.1) with [] => B "/" | p => p end).
  change (match matchPath (build r) (ctx_Path s.1) with [] => B "/" | p => p end)
    with (request_path r s).
  by rewrite Hme, Hl, run_build.
Qed.
End literal.
