(* ===== verification/RouterProps.v ===== *)
(** * Properties of the router

    The statements about [node.go], [router.go] and [group.go] a reader should
    rely on; the lemmas that carry them are in NodeTheory, RouteTable and
    RouterTheory. *)

From S2P Require Import Prelude GoStrings Node Pattern NodeTheory RouteTable Effects FastHTTP Core Router RouterTheory Registration Literal.

(** ** The normalised path *)

Lemma TrimRight_snoc_slash p : TrimRight (p ++ B "/") (B "/") = TrimRight p (B "/").
Proof. unfold TrimRight. rewrite rev_app_distr. reflexivity. Qed.

Lemma TrimRight_no_slash p c : Ascii.eqb c "/" = false → TrimRight (p ++ [c]) (B "/") = p ++ [c].
Proof.
  intros Hc. unfold TrimRight. rewrite rev_app_distr. simpl. rewrite Hc. simpl.
  by rewrite rev_involutive.
Qed.

Section props.
Context `{F : FastHTTP} {St : Type}.
Implicit Types (r : Router St) (m p : bytes) (h : hfn St).

Lemma matchPath_slash r p :
  StrictSlash r = false → p ≠ [] → matchPath r (p ++ B "/") = matchPath r p.
Proof.
  intros Hs Hp. unfold matchPath. rewrite Hs. cbn [negb andb].
  change (B "/") with ["/"%char] at 1 2.
  rewrite last_snoc, TrimRight_snoc_slash, length_app. simpl length.
  destruct p as [|c p _] using rev_ind; [done|].
  rewrite last_snoc, length_app. simpl length.
  replace (1 <? length p + 1 + 1) with true by (symmetry; apply Nat.ltb_lt; lia).
  change (Ascii.eqb "/" "/") with true. cbn [andb].
  destruct (Ascii.eqb_spec c "/") as [->|Hc].
  - destruct p as [|d p]; [done|]. simpl length.
    replace (1 <? S (length p) + 1) with true by (symmetry; apply Nat.ltb_lt; lia). done.
  - rewrite andb_false_r. rewrite TrimRight_no_slash by by apply Ascii.eqb_neq.
    by destruct p.
Qed.

Lemma Join_elem x l sep : x ∈ l → x ≠ [] → Join l sep ≠ [].
Proof.
  induction l as [|y l IH]; [by intros ?%not_elem_of_nil|].
  intros Hx Hne. apply elem_of_cons in Hx. simpl. destruct l as [|z l].
  - destruct Hx as [->|Hx]; [done|]. by apply not_elem_of_nil in Hx.
  - destruct Hx as [->|Hx]; [by destruct y|]. intros [_ [_ Hj]%app_nil]%app_nil.
    by destruct (IH Hx Hne).
Qed.

Lemma appendIfMissing_elem l y : y ∈ appendIfMissing l y.
Proof.
  unfold appendIfMissing. destruct (existsb (beqb y) l) eqn:He.
  - apply existsb_exists in He as (z & Hz & ->%beqb_eq). by apply list_elem_of_In.
  - apply elem_of_app. right. constructor.
Qed.

Lemma allow_nonempty l : Join (appendIfMissing l (B "OPTIONS")) (B ", ") ≠ [].
Proof. by eapply Join_elem; [apply appendIfMissing_elem|]. Qed.

Lemma Get_Set key v (c : Ctx) : Get_ (Set_ key v c) key = v.
Proof. unfold Get_, Set_. simpl. by rewrite lookup_insert_eq. Qed.

Lemma lookup_method_no_route r m p :
  no_route r m p → (lookup_method (build r) m p).1 = None.
Proof.
  intros Hno. destruct (lookup_method _ _ _) as [[h|] ps] eqn:Hl; [|done].
  destruct (best_route_no_route r m p h ps); [by apply lookup_method_Some|done].
Qed.

(** The responders over a fresh context. *)
Lemma run_notFound `{!FastHTTPLaws F} r s :
  let out := run r (Some respond_notFound) None [] s in
  out.1 = Ret tt ∧ res_StatusCode (ctx_Response out.2.1) = StatusNotFound ∧
  Some (res_Body (ctx_Response out.2.1)) = error_json (B "not found").
Proof.
  unfold run, respond_notFound, call, mbind, M_bind. cbn -[WriteJSONError].
  destruct (json_error_body (B "not found")) as [b Hb].
  rewrite (WriteJSONError_eq _ b) by done. cbn. unfold error_json. rewrite Hb.
  by rewrite body_set, status_SetBody, status_SetContentType, status_set.
Qed.

Lemma run_notAllowed `{!FastHTTPLaws F} r s allowed :
  allowed ≠ [] → Join allowed (B ", ") ≠ [] →
  let out := run r (Some respond_notAllowed) None allowed s in
  out.1 = Ret tt ∧ res_StatusCode (ctx_Response out.2.1) = StatusMethodNotAllowed ∧
  res_Peek (ctx_Response out.2.1) (B "Allow") = Join allowed (B ", ").
Proof.
  intros Hne Hj. unfold run, respond_notAllowed, call, mbind, M_bind.
  destruct allowed as [|a al]; [done|].
  rewrite (setAllowHeader_set (Join (a :: al) (B ", "))) by (try done; apply Get_Set).
  destruct (json_error_body (B "method not allowed")) as [b Hb].
  cbn -[WriteJSONError Join]. rewrite (WriteJSONError_eq _ b) by done. cbn -[Join].
  rewrite peek_SetBody, peek_SetContentType, peek_SetStatusCode, peek_set by done.
  by rewrite status_SetBody, status_SetContentType, status_set.
Qed.

Lemma run_options `{!FastHTTPLaws F} r s allowed :
  allowed ≠ [] → Join allowed (B ", ") ≠ [] →
  let out := run r (Some respond_options) None allowed s in
  out.1 = Ret tt ∧ res_StatusCode (ctx_Response out.2.1) = StatusNoContent ∧
  res_Peek (ctx_Response out.2.1) (B "Allow") = Join allowed (B ", ").
Proof.
  intros Hne Hj. unfold run, respond_options, call, mbind, M_bind.
  destruct allowed as [|a al]; [done|].
  rewrite (setAllowHeader_set (Join (a :: al) (B ", "))) by (try done; apply Get_Set).
  cbn -[Join]. by rewrite peek_SetStatusCode, peek_set, status_set.
Qed.

Lemma appendIfMissing_ne l y : appendIfMissing l y ≠ [].
Proof. intros Hn. pose proof (appendIfMissing_elem l y) as He. rewrite Hn in He. by apply not_elem_of_nil in He. Qed.

(** ** Route lookup *)

(** C1 For every sequence of registrations of one method, [search] on the tree
    they build answers as the abstract route table: the handler registered last
    for the most specific pattern that matches (a literal beats a parameter, a
    parameter beats a catch-all, at the first position where two patterns
    differ), with that pattern's values bound; and nothing exactly when no
    registered pattern matches. *)
Theorem search_refines_table (ci : bool) (rs : list (bytes * Handler St)) p :
  search_spec ci rs p (search (insert_all ci rs) p ci).
Proof. apply search_refines. Qed.

(** C2 Whatever the trees look like inside, a request that finds a router not
    yet built compiles it and gets one of the five documented answers: the best
    route's handler; for HEAD the GET route with the body dropped; for OPTIONS
    the allowed methods; 405 with the allowed methods; 404. *)
Theorem HandleRequest_refines r s :
  built r = false →
  (HandleRequest r s).1 = build r ∧ answers r s (HandleRequest r s).2.
Proof.
  intros Hb. unfold HandleRequest, Build. rewrite Hb. split; [done|]. apply dispatch_answers.
Qed.

(** The route that answers a path is determined by the table: two best
    routes for the same method and path are the same handler. *)
Theorem best_route_unique r m p h h' ps ps' :
  best_route r m p h ps → best_route r m p h' ps' → h = h'.
Proof.
  intros (q & ts & vals & Hq & Ht & Hn & Hm & _ & Hbest)
         (q' & ts' & vals' & Hq' & Ht' & Hn' & Hm' & _ & Hbest').
  assert (path_match r (pattern q) p ≠ None) as Hmq
    by (eapply path_match_norm; [exact Hn|congruence]).
  assert (path_match r (pattern q') p ≠ None) as Hmq'
    by (eapply path_match_norm; [exact Hn'|congruence]).
  rewrite (path_match_antisym r q q' p) in Ht by eauto. congruence.
Qed.

(** C3 Inserting a route into a well-formed tree keeps it well-formed and
    changes exactly one entry of the route map the tree stands for: the
    pattern's, up to case when matching folds case. *)
Theorem insert_route_map (ci : bool) (n : node (hfn St)) p (o : Handler St) :
  wf ci n → n_type n ≠ catchAll →
  wf ci (insert n p o ci) ∧
  ∀ t h, binds ci (insert n p o ci) t h ↔ upd (binds ci n) (norm ci (pattern p)) o t h.
Proof. intros Hwf Hty. destruct (insert_updated ci n p o Hwf Hty). done. Qed.

(** The list of allowed methods does not depend on the order in which Go
    iterates over the map of trees. *)
Theorem allowed_order_independent r p (l l' : list (bytes * node (hfn St))) :
  l ≡ₚ l' → allowed_from r p l = allowed_from r p l'.
Proof.
  intros Hl. unfold allowed_from.
  apply (StronglySorted_unique bytes_le); [apply (StronglySorted_merge_sort bytes_le)..|].
  etrans; [apply merge_sort_Permutation|]. etrans; [|symmetry; apply merge_sort_Permutation].
  by apply omap_Permutation.
Qed.

(** Unless strict slashes are on, a trailing slash makes no difference to the
    answer's route: the router looks up the same path. *)
Theorem trailing_slash_ignored r p :
  StrictSlash r = false → p ≠ [] →
  ∀ m, lookup_method r m (matchPath r (p ++ B "/")) = lookup_method r m (matchPath r p).
Proof. intros Hs Hp m. by rewrite matchPath_slash. Qed.

(** With case-insensitive routing, a path that differs only in case is
    matched by the same patterns, binds the same parameters, and each value is
    the one of the path actually requested, case kept. *)
Theorem case_insensitive_match (ts : list tok) p p' vals :
  same_fold p p' → tmatch true ts p = Some vals →
  ∃ vals', tmatch true ts p' = Some vals' ∧ cap_key <$> vals' = cap_key <$> vals ∧
    Forall2 (λ v v', same_fold (cap_value v) (cap_value v')) vals vals'.
Proof. apply tmatch_fold. Qed.

(** ** Registration *)

(** Global middleware, authentication and routes can be registered in any
    interleaving: two sequences that agree on each kind give the same router. *)
Theorem registration_order_irrelevant strict cs (ops ops' : list (reg_op St)) :
  (∀ k, k < 3 → concerning k ops = concerning k ops') →
  apply_ops ops (NewRouter strict cs) = apply_ops ops' (NewRouter strict cs).
Proof.
  intros Hk. rewrite (apply_ops_sorted ops), (apply_ops_sorted ops').
  by rewrite !Hk by lia.
Qed.

(** C11 Every route not marked [NoAuth] runs behind all of [Use]'s middleware and
    then the authentication middleware, wherever in the sequence those were
    registered; a route marked [NoAuth] skips authentication alone. *)
Theorem route_chain strict cs (ops : list (reg_op St)) e :
  let r := apply_ops ops (NewRouter strict cs) in
  e ∈ entries r →
  compiled r e =
  apply_chain (used ops)
    (apply_chain (match last_auth None ops with
                  | Some am => if info_NoAuth r (e_info e) then [] else [am]
                  | None => []
                  end)
      (apply_chain (e_mws e) (e_handler e))).
Proof.
  intros r He. unfold compiled, entry_chain, r.
  rewrite apply_ops_middlewares, apply_ops_authMiddleware. simpl.
  unfold apply_chain. destruct (last_auth None ops); [destruct (info_NoAuth _ _)|]; simpl;
    by rewrite ?fold_right_app.
Qed.

(** The first request freezes the table: nothing registered afterwards
    changes how any later request is answered. *)
Theorem first_request_freezes r s (ops : list (reg_op St)) s' :
  built r = false →
  (HandleRequest (apply_ops ops (HandleRequest r s).1) s').2 = (HandleRequest r s').2.
Proof.
  intros Hb. unfold HandleRequest, Build. rewrite Hb. simpl.
  destruct (apply_ops_compiled ops (build r)) as (Ht & Hf & -> & He & Hs & Hc).
  simpl built. cbn iota. by erewrite dispatch_ext.
Qed.

(** A route registered through nested groups gets the groups' prefixes as its
    path and runs behind the middleware of all of them, outermost first. *)
Theorem nested_group_route (specs : list (bytes * list (Middleware St))) method seg
    (hd : Handler St) mws r :
  Forall clean specs.*1 → clean seg →
  let r' := (Group_route method (nested specs) seg hd mws r).1 in
  ∃ e, entries r' = entries r ++ [e] ∧ e_method e = method ∧ e_handler e = hd ∧
       e_path e = seg_path (specs.*1 ++ [seg]) ∧ e_mws e = mjoin specs.*2 ++ mws.
Proof.
  intros Hs Hseg r'. destruct (nested_spec specs Hs) as [Hp Hm].
  unfold r', Group_route, addRoute, merge, fullPath. rewrite Hp, Hm, TrimSuffix_seg_path by done.
  eexists. split_and!; try reflexivity. cbn [e_path]. rewrite seg_path_snoc.
  assert (∀ u : bytes, ∃ v, seg_path specs.*1 ++ "/"%char :: u = "/"%char :: v) as Hslash.
  { intros u. destruct specs.*1 as [|a l]; [by exists u|]. eexists. reflexivity. }
  destruct Hseg as (Hne & Hpre & Hsuf).
  assert (beqb seg [] || beqb seg (B "/") = false) as ->.
  { apply orb_false_iff. split; apply beqb_neq; [done|]. intros ->. done. }
  unfold TrimPrefix. rewrite Hpre. change (B "/") with ["/"%char]. simpl.
  destruct (Hslash seg) as [v ->]. done.
Qed.

(** C4 A route without parameters is never shadowed: whatever else is registered, for
    parameters, catch-alls or other methods, before or after, a request for its path,
    up to a trailing slash and to case as the router is configured, runs the last handler
    registered for that method and path, and binds no parameter. *)
Theorem literal_route r es1 e es2 (s : RequestCtx * St) h :
  built r = false → entries r = es1 ++ e :: es2 → lit (e_path e) →
  (∀ e', e' ∈ es2 → e_method e' = e_method e → route_key r (e_path e') ≠ route_key r (e_path e)) →
  ctx_Method s.1 = e_method e → route_key r (ctx_Path s.1) = route_key r (e_path e) →
  compiled r e = Some h →
  (HandleRequest r s).2 = run r (Some h) None [] s.
Proof.
  intros Hb He Hl Hlast Hm Hk Hc. unfold HandleRequest, Build. rewrite Hb.
  by apply (literal_dispatch r es1 e es2).
Qed.

(** ** Unrouted requests and errors *)

(** A request no route answers gets 404 when no method is registered for the
    path; otherwise the [Allow] header lists the methods, sorted, with OPTIONS,
    and the status is 405, or 204 for OPTIONS. *)
Theorem unrouted_response `{!FastHTTPLaws F} r s :
  built r = false → middlewares r = [] →
  no_route r (ctx_Method s.1) (request_path r s) → ctx_Method s.1 ≠ B "HEAD" →
  let out := (HandleRequest r s).2 in
  let resp := ctx_Response out.2.1 in
  out.1 = Ret tt ∧
  match allowedMethods (build r) (request_path r s) with
  | [] => res_StatusCode resp = StatusNotFound ∧
          Some (res_Body resp) = error_json (B "not found")
  | allowed =>
      res_Peek resp (B "Allow") = Join (appendIfMissing allowed (B "OPTIONS")) (B ", ") ∧
      res_StatusCode resp =
        (if beqb (ctx_Method s.1) (B "OPTIONS") then StatusNoContent else StatusMethodNotAllowed)
  end.
Proof.
  intros Hb Hmw Hno Hhead out resp.
  assert (out = dispatch (build r) s) as Hout by (unfold out, HandleRequest, Build; by rewrite Hb).
  clearbody out. subst out. unfold resp, dispatch.
  apply lookup_method_no_route in Hno.
  change (match matchPath (build r) (ctx_Path s.1) with [] => B "/" | p => p end)
    with (request_path r s).
  fold (lookup_method (build r) (ctx_Method s.1) (request_path r s)).
  set (p := request_path r s) in *.
  destruct (lookup_method (build r) (ctx_Method s.1) p) as [hd ps].
  simpl in Hno. subst hd.
  assert (∀ h, apply_chain (middlewares r) (Some h) = Some h) as Hchain by by rewrite Hmw.
  destruct (allowedMethods (build r) p) as [|a al] eqn:Ha.
  { unfold fb. simpl fallback. cbn iota. simpl fb_notFound. rewrite Hchain.
    apply run_notFound. }
  destruct (beqb (ctx_Method s.1) (B "OPTIONS")) eqn:Ho.
  { unfold fb. simpl fallback. cbn iota. simpl fb_options. rewrite Hchain.
    destruct (run_options (build r) s _ (appendIfMissing_ne (a :: al) (B "OPTIONS"))
                (allow_nonempty (a :: al))) as (? & ? & ?). done. }
  assert (beqb (ctx_Method s.1) (B "HEAD") = false) as -> by by apply beqb_neq.
  unfold fb. simpl fallback. simpl andb. cbn iota. simpl fb_notAllowed. rewrite Hchain.
  destruct (run_notAllowed (build r) s _ (appendIfMissing_ne (a :: al) (B "OPTIONS"))
              (allow_nonempty (a :: al))) as (? & ? & ?). done.
Qed.

(** An error a handler returns never reaches the client verbatim: with the
    default error handler the answer is 500 with a fixed body whatever the error
    says, except for a validation error, which is 422 with its field messages. *)
Theorem handler_error_response `{!FastHTTPLaws F} r (hd : hfn St) ps s err c' st' :
  ErrHandler r = None →
  hd (mkCtx _ s.1 ps None None None, s.2) = (Ret (Some err), (c', st')) →
  let out := run r (Some hd) ps [] s in
  out.1 = Ret tt ∧
  res_StatusCode (ctx_Response out.2.1) =
    match err with
    | ValidationErr _ => StatusUnprocessableEntity
    | Err _ => StatusInternalServerError
    end ∧
  Some (res_Body (ctx_Response out.2.1)) =
    error_json match err with
               | ValidationErr fields => B "validation failed: " ++ Join fields (B "; ")
               | Err _ => B "internal server error"
               end.
Proof.
  intros He Hh. unfold run, call, mbind, M_bind. cbn iota. rewrite Hh.
  unfold handleError. rewrite He.
  destruct (json_error_body (B "internal server error")) as [b Hb].
  destruct (json_error_body (err_Error err)) as [b' Hb'].
  destruct err as [fields|msg]; unfold mbind, M_bind; cbn -[WriteJSONError err_Error].
  - rewrite (WriteJSONError_eq _ b') by done. cbn. unfold error_json.
    change (B "validation failed: " ++ _) with (err_Error (ValidationErr fields)).
    by rewrite Hb', body_set, status_SetBody, status_SetContentType, status_set.
  - rewrite (WriteJSONError_eq _ b) by done. cbn. unfold error_json. rewrite Hb.
    by rewrite body_set, status_SetBody, status_SetContentType, status_set.
Qed.
End props.

(** ** Witnesses *)

Section witnesses.
Import Simple.
Local Existing Instance simple_http.

Definition say (b : bytes) : hfn unit := mod_response (res_SetBody b);; mret None.
(** A middleware that records its name in the response. *)
Definition trace (b : bytes) : Middleware unit := λ next,
  Some (mod_response (res_AppendBody b);; call next).

Definition demo : Router unit :=
  apply_ops [OpRoute (B "GET") (B "/users/:id") (Some (say (B "user"))) [];
             OpRoute (B "GET") (B "/users/me") (Some (say (B "me"))) [];
             OpRoute (B "POST") (B "/users") (Some (say (B "created"))) []]
    (NewRouter false false).
Definition get (path : bytes) : RequestCtx * unit := (request_ctx (B "GET") path, tt).

Example demo_me : res_Body (ctx_Response (HandleRequest demo (get (B "/Users/ME/"))).2.2.1) = B "me".
Proof. vm_compute. reflexivity. Qed.

Lemma HandleRequest_refines_witness :
  answers demo (get (B "/users/7")) (HandleRequest demo (get (B "/users/7"))).2.
Proof. exact (proj2 (HandleRequest_refines demo (get (B "/users/7")) eq_refl)). Defined.

Lemma literal_route_witness :
  (HandleRequest demo (get (B "/Users/Me/"))).2 = run demo (Some (say (B "me"))) None [] (get (B "/Users/Me/")).
Proof.
  apply (literal_route demo (take 1 (entries demo)) (mkEntry (B "GET") (B "/users/me") (Some (say (B "me"))) [] 1)
           (drop 2 (entries demo))); try reflexivity.
  - by apply litb_lit.
  - intros e' He' Hm. apply list_elem_of_singleton in He' as ->. discriminate Hm.
Defined.

Lemma demo_best :
  best_route demo (B "GET") (B "/users/me") (say (B "me")) None.
Proof. apply lookup_method_Some. reflexivity. Qed.

Lemma best_route_unique_witness : say (B "me") = say (B "me").
Proof.
  exact (best_route_unique demo (B "GET") (B "/users/me") _ _ None None demo_best demo_best).
Defined.

Lemma insert_route_map_witness :
  wf true (insert (insert_all true [(B "users/:id", Some (say (B "user")))]) (B "users/me")
             (Some (say (B "me"))) true).
Proof.
  apply (insert_route_map true (insert_all true [(B "users/:id", Some (say (B "user")))])
           (B "users/me") (Some (say (B "me")))).
  - apply insert_all_refines.
  - discriminate.
Defined.

Lemma insert_fuel_enough_witness :
  insert_fuel 50 true (Some (say (B "me"))) (B "users/:id") empty_root =
  insert empty_root (B "users/:id") (Some (say (B "me"))) true.
Proof. apply (insert_fuel_enough 50 true). apply Nat.ltb_lt. vm_compute. reflexivity. Defined.

Lemma allowed_order_independent_witness :
  let t (m : bytes) := (m, insert_all true [(B "x", Some (say m))]) in
  allowed_from demo (B "/x") [t (B "PUT"); t (B "GET")] = [B "GET"; B "PUT"].
Proof.
  intros t.
  rewrite (allowed_order_independent demo (B "/x") [t (B "PUT"); t (B "GET")]
             [t (B "GET"); t (B "PUT")]).
  - vm_compute. reflexivity.
  - apply perm_swap.
Defined.

Lemma trailing_slash_ignored_witness :
  ∀ m, lookup_method demo m (matchPath demo (B "/users" ++ B "/")) =
       lookup_method demo m (matchPath demo (B "/users")).
Proof. apply (trailing_slash_ignored demo (B "/users")); [reflexivity|discriminate]. Defined.

Lemma case_insensitive_match_witness :
  ∃ vals', tmatch true (pattern (B "users/:id")) (B "USERS/Bob") = Some vals' ∧
    cap_key <$> vals' = [B "id"] ∧
    Forall2 (λ v v', same_fold (cap_value v) (cap_value v')) [Capture (B "id") (B "bob")] vals'.
Proof.
  apply (case_insensitive_match (pattern (B "users/:id")) (B "users/bob") (B "USERS/Bob")
           [Capture (B "id") (B "bob")]); vm_compute; reflexivity.
Defined.

Lemma registration_order_irrelevant_witness :
  let u := OpUse [trace (B "a")] in let a := OpAuth (trace (B "b")) in
  let t := OpRoute (B "GET") (B "/x") (Some (say (B "x"))) [] in
  apply_ops [t; a; u] (NewRouter false false) = apply_ops [u; t; a] (NewRouter false false).
Proof.
  apply registration_order_irrelevant. intros [|[|[|k]]] Hk; [reflexivity..|lia].
Defined.

Lemma route_chain_witness :
  let ops := [OpRoute (B "GET") (B "/x") (Some (say (B "x"))) []; OpAuth (trace (B "b"));
              OpUse [trace (B "a")]] in
  let e := mkEntry (B "GET") (B "/x") (Some (say (B "x"))) [] 0 in
  compiled (apply_ops ops (NewRouter false false)) e =
  trace (B "a") (trace (B "b") (Some (say (B "x")))).
Proof.
  apply (route_chain false false
    [OpRoute (B "GET") (B "/x") (Some (say (B "x"))) []; OpAuth (trace (B "b"));
     OpUse [trace (B "a")]] (mkEntry (B "GET") (B "/x") (Some (say (B "x"))) [] 0)).
  apply list_elem_of_singleton. reflexivity.
Defined.

Lemma first_request_freezes_witness :
  (HandleRequest (apply_ops [OpRoute (B "GET") (B "/late") (Some (say (B "late"))) []]
     (HandleRequest demo (get (B "/users/7"))).1) (get (B "/late"))).2 =
  (HandleRequest demo (get (B "/late"))).2.
Proof. apply first_request_freezes. reflexivity. Defined.

Lemma nested_group_route_witness :
  let r' := (Group_route (B "GET")
    (nested [(B "api", [trace (B "a")]); (B "v1", [trace (B "b")])]) (B "users")
    (Some (say (B "x"))) [trace (B "c")] demo).1 in
  ∃ e, entries r' = entries demo ++ [e] ∧ e_method e = B "GET" ∧
       e_handler e = Some (say (B "x")) ∧ e_path e = B "/api/v1/users" ∧
       e_mws e = [trace (B "a"); trace (B "b"); trace (B "c")].
Proof.
  apply (nested_group_route [(B "api", [trace (B "a")]); (B "v1", [trace (B "b")])]
           (B "GET") (B "users") (Some (say (B "x"))) [trace (B "c")] demo).
  - repeat constructor; discriminate.
  - repeat constructor; discriminate.
Defined.

Lemma demo_no_route : no_route demo (B "PUT") (B "/users/7").
Proof. eapply lookup_method_None. reflexivity. Qed.

Lemma unrouted_response_witness :
  let s := (request_ctx (B "PUT") (B "/users/7"), tt) in
  let out := (HandleRequest demo s).2 in
  out.1 = Ret tt ∧
  res_Peek (ctx_Response out.2.1) (B "Allow") = B "GET, OPTIONS" ∧
  res_StatusCode (ctx_Response out.2.1) = StatusMethodNotAllowed.
Proof.
  exact (unrouted_response demo (request_ctx (B "PUT") (B "/users/7"), tt)
           eq_refl eq_refl demo_no_route ltac:(discriminate)).
Defined.

Lemma handler_error_response_witness :
  let fail : hfn unit := mret (Some (Err (B "db password is hunter2"))) in
  let out := run demo (Some fail) None [] (get (B "/x")) in
  out.1 = Ret tt ∧ res_StatusCode (ctx_Response out.2.1) = StatusInternalServerError ∧
  Some (res_Body (ctx_Response out.2.1)) = error_json (B "internal server error").
Proof.
  exact (handler_error_response demo (mret (Some (Err (B "db password is hunter2")))) None
           (get (B "/x")) (Err (B "db password is hunter2")) _ tt eq_refl eq_refl).
Defined.

(** ** What the model showed *)

(** The parameter of the first registration names the segment for every route
    that shares it: the second route's [:name] is never bound. *)
Example param_name_lost :
  let ps := (search (insert_all true [(B "users/:id", Some (say (B "user")));
                                      (B "users/:name/posts", Some (say (B "posts")))])
               (B "users/bob/posts") true).2 in
  ps = Some {[B "id" := B "bob"]}.
Proof. vm_compute. reflexivity. Qed.

(** Without strict slashes the index of a static directory is not served: the
    trailing slash that reaches the catch-all is trimmed from the request. *)
Example static_index_unreachable :
  let r := Static (λ root n c, c) (B "/static") (B "./public") (NewRouter false false)
           : Router unit in
  res_StatusCode (ctx_Response (HandleRequest r (get (B "/static/"))).2.2.1) = StatusNotFound ∧
  res_StatusCode (ctx_Response (HandleRequest r (get (B "/static/x"))).2.2.1) = StatusOK.
Proof. vm_compute. done. Qed.
End witnesses.
