(* ===== verification/Balancer.v ===== *)
(** * The target pool ([proxy/balancer.go])

    [*Target]s are shared between the balancer, the health checker and the
    requests in flight: they live in a store, a pointer is a position in it. The
    atomic fields are read and written one at a time; [Pick] reads a snapshot. *)

From S2P Require Import Prelude GoStrings.

(** [type Algorithm string] with its constants. *)
Definition Algorithm : Type := bytes.
Definition RoundRobin : Algorithm := B "round_robin".
Definition Random : Algorithm := B "random".
Definition LeastConn : Algorithm := B "least_conn".
Definition IPHash : Algorithm := B "ip_hash".

(** [type Target struct] *)
Record Target := mkTarget {
  URL : bytes;
  Weight : Z;
  healthy : bool;
  active : Z;
  fails : Z;
}.
Definition target_ptr := nat.
Abbreviation store := (list Target).

Definition set_healthy (b : bool) (t : Target) : Target :=
  mkTarget (URL t) (Weight t) b (active t) (fails t).
Definition Healthy (t : Target) : bool := healthy t.
Definition Active (t : Target) : Z := active t.
(** [t.active.Add(d)]: a signed 64-bit counter. *)
Definition add_active (d : Z) (t : Target) : Target :=
  mkTarget (URL t) (Weight t) (healthy t) (wrap_i64 (active t + d)) (fails t).
Definition set_fails (n : Z) (t : Target) : Target :=
  mkTarget (URL t) (Weight t) (healthy t) (active t) n.

Definition weight (t : Target) : nat :=
  if (Weight t <=? 0)%Z then 1 else Z.to_nat (Weight t).

(** [type Balancer struct]; [counter] is a [uint64]. *)
Record Balancer := mkBalancer {
  targets : list target_ptr;
  algo : Algorithm;
  counter : Z;
}.

Definition Targets (b : Balancer) : list target_ptr := targets b.
Definition known_algo (a : Algorithm) : bool :=
  existsb (beqb a) [RoundRobin; Random; LeastConn; IPHash].

Definition NewBalancer (ts : list target_ptr) (a : Algorithm) (st : store) : Balancer * store :=
  (mkBalancer ts (if known_algo a then a else RoundRobin) 0,
   fold_left (λ st p, alter (set_healthy true) p st) ts st).

(** [fnv1a(s)] *)
Definition fnv_offset : Z := 14695981039346656037.
Definition fnv_prime : Z := 1099511628211.
Definition fnv1a (s : bytes) : Z :=
  fold_left (λ h c, wrap_u64 (Z.lxor h (Z.of_nat (nat_of_ascii c)) * fnv_prime)) s fnv_offset.

(** The pool of [Pick]: every healthy target as often as its weight. *)
Definition pool (st : store) (ts : list target_ptr) : list target_ptr :=
  ts ≫= λ p, match st !! p with
             | Some t => if healthy t then replicate (weight t) p else []
             | None => []
             end.

Definition active_of (st : store) (p : target_ptr) : Z :=
  match st !! p with Some t => active t | None => 0 end.

(** The loop of the [LeastConn] case. *)
Definition least (st : store) (best : target_ptr) (rest : list target_ptr) : target_ptr :=
  fold_left (λ best t, if (active_of st t <? active_of st best)%Z then t else best) rest best.

Section pick.
(** [rand.IntN] *)
Context (IntN : nat → nat).

(** [(b *Balancer).Pick(key)] *)
Definition Pick (st : store) (key : bytes) (b : Balancer) : option target_ptr * Balancer :=
  match pool st (targets b) with
  | [] => (None, b)
  | p0 :: rest =>
      let pl := p0 :: rest in
      if beqb (algo b) Random then (pl !! IntN (length pl), b)
      else if beqb (algo b) LeastConn then (Some (least st p0 rest), b)
      else if beqb (algo b) IPHash then
        (pl !! Z.to_nat (fnv1a key mod Z.of_nat (length pl))%Z, b)
      else
        let counter' := wrap_u64 (counter b + 1) in
        let n := wrap_u64 (counter' - 1) in
        (pl !! Z.to_nat (n mod Z.of_nat (length pl))%Z,
         mkBalancer (targets b) (algo b) counter')
  end.

(** [k] consecutive picks against one snapshot of the store. *)
Fixpoint picks (k : nat) (st : store) (key : bytes) (b : Balancer) : list (option target_ptr) :=
  match k with
  | 0 => []
  | S k => (Pick st key b).1 :: picks k st key (Pick st key b).2
  end.
End pick.

(** ** The pool *)

Lemma elem_pool st ts p :
  p ∈ pool st ts ↔ p ∈ ts ∧ ∃ t, st !! p = Some t ∧ healthy t = true.
Proof.
  unfold pool. rewrite list_elem_of_bind. split.
  - intros (q & Hp & Hq). destruct (st !! q) as [t|] eqn:Ht; [|by apply not_elem_of_nil in Hp].
    destruct (healthy t) eqn:Hh; [|by apply not_elem_of_nil in Hp].
    apply elem_of_replicate in Hp as [-> _]. eauto.
  - intros (Hp & t & Ht & Hh). exists p. rewrite Ht, Hh. split; [|done].
    apply elem_of_replicate. split; [done|]. unfold weight. case_match; lia.
Qed.

Lemma pool_nil st ts :
  pool st ts = [] ↔ ∀ p t, p ∈ ts → st !! p = Some t → healthy t = false.
Proof.
  split.
  - intros Hn p t Hp Ht. destruct (healthy t) eqn:Hh; [|done].
    assert (p ∈ pool st ts) as Hin by (apply elem_pool; eauto).
    rewrite Hn in Hin. by apply not_elem_of_nil in Hin.
  - intros Hall. destruct (pool st ts) as [|p l] eqn:Hp; [done|].
    assert (p ∈ pool st ts) as (Hpt & t & Ht & Hh)%elem_pool by (rewrite Hp; constructor).
    by rewrite (Hall p t Hpt Ht) in Hh.
Qed.

(** How often a target occurs in a list of picks. *)
Definition occurrences (p : target_ptr) (l : list target_ptr) : nat := count_occ Nat.eq_dec l p.

Lemma occurrences_perm p l l' : l ≡ₚ l' → occurrences p l = occurrences p l'.
Proof. intros Hl. by apply (proj1 (Permutation_count_occ Nat.eq_dec l l')). Qed.

Lemma occurrences_app p l l' : occurrences p (l ++ l') = occurrences p l + occurrences p l'.
Proof. apply count_occ_app. Qed.

Lemma occurrences_zero p l : p ∉ l → occurrences p l = 0.
Proof. rewrite list_elem_of_In. apply count_occ_not_In. Qed.

Lemma occurrences_replicate p q n : occurrences p (replicate n q) = if decide (q = p) then n else 0.
Proof.
  unfold occurrences. induction n as [|n IH]; simpl; [by case_decide|].
  rewrite IH. by destruct (Nat.eq_dec q p); case_decide.
Qed.

Lemma pool_cons st q ts :
  pool st (q :: ts) =
  match st !! q with
  | Some t => if healthy t then replicate (weight t) q else []
  | None => []
  end ++ pool st ts.
Proof. done. Qed.

Lemma pool_occurrences st ts p t :
  NoDup ts → p ∈ ts → st !! p = Some t → healthy t = true →
  occurrences p (pool st ts) = weight t.
Proof.
  intros Hnd Hp Ht Hh. induction ts as [|q ts IH]; [by apply not_elem_of_nil in Hp|].
  apply NoDup_cons in Hnd as [Hq Hnd]. rewrite pool_cons, occurrences_app.
  destruct (decide (q = p)) as [->|Hne].
  - rewrite Ht, Hh, occurrences_replicate, decide_True by done.
    rewrite (occurrences_zero p (pool st ts)); [lia|]. by intros [? _]%elem_pool.
  - apply elem_of_cons in Hp as [->|Hp]; [done|]. rewrite (IH Hnd Hp).
    destruct (st !! q) as [u|]; [|done]. destruct (healthy u); [|done].
    by rewrite occurrences_replicate, decide_False.
Qed.

(** ** Picking *)

Section pick_lemmas.
Context (IntN : nat → nat).

Lemma Pick_None st key b :
  (∀ n, 0 < n → IntN n < n) →
  (Pick IntN st key b).1 = None ↔ pool st (targets b) = [].
Proof.
  intros HIntN. unfold Pick. destruct (pool st (targets b)) as [|p0 rest] eqn:Hp; [done|].
  assert (∀ z : Z, (p0 :: rest) !! Z.to_nat (z mod Z.of_nat (length (p0 :: rest))) ≠ None) as Hz.
  { intros z Hn%lookup_ge_None.
    pose proof (Z.mod_pos_bound z (Z.of_nat (length (p0 :: rest)))). simpl in *. lia. }
  split; [|done]. case_match; [|case_match; [done|case_match; intros; by edestruct Hz]].
  intros Hn. apply lookup_ge_None in Hn. specialize (HIntN (length (p0 :: rest))). simpl in *. lia.
Qed.

Lemma Pick_elem st key b p :
  (Pick IntN st key b).1 = Some p → p ∈ pool st (targets b).
Proof.
  unfold Pick. destruct (pool st (targets b)) as [|p0 rest]; [done|].
  repeat case_match; simpl; intros Hp; try (by eapply list_elem_of_lookup_2). simplify_eq.
  assert (∀ rest best, least st best rest ∈ best :: rest) as Hl; [|apply Hl].
  clear. intros rest. induction rest as [|t rest IH]; intros best; [constructor|].
  change (least st best (t :: rest))
    with (least st (if (active_of st t <? active_of st best)%Z then t else best) rest).
  destruct (_ <? _)%Z; [right; apply IH|]. pose proof (IH best) as Hb.
  apply elem_of_cons in Hb as [Hb|Hb]; [rewrite Hb; left|by do 2 right].
Qed.

Lemma Pick_fixed st key b :
  targets (Pick IntN st key b).2 = targets b ∧ algo (Pick IntN st key b).2 = algo b.
Proof. unfold Pick. by repeat case_match. Qed.
End pick_lemmas.

(** ** Round robin *)

Definition round_robin (b : Balancer) : Prop :=
  beqb (algo b) Random = false ∧ beqb (algo b) LeastConn = false ∧ beqb (algo b) IPHash = false.

Lemma rotate_perm {A} c (l : list A) : rotate c l ≡ₚ l.
Proof. unfold rotate. rewrite Permutation_app_comm. by rewrite take_drop. Qed.

Lemma lookup_rotate_counter (l : list target_ptr) (c : Z) i :
  (0 ≤ c)%Z → i < length l →
  l !! Z.to_nat ((c + Z.of_nat i) mod Z.of_nat (length l)) = rotate (Z.to_nat c) l !! i.
Proof.
  intros Hc Hi. rewrite lookup_rotate_r by done. unfold rotate_nat_add.
  by rewrite Z2Nat.id.
Qed.

Lemma Pick_round_robin IntN st key b :
  round_robin b → (0 ≤ counter b)%Z → (counter b + 1 < 2 ^ 64)%Z → pool st (targets b) ≠ [] →
  Pick IntN st key b =
  (pool st (targets b) !! Z.to_nat (counter b mod Z.of_nat (length (pool st (targets b)))),
   mkBalancer (targets b) (algo b) (counter b + 1)).
Proof.
  intros (Hr & Hl & Hi) Hc Hov Hne. unfold Pick. rewrite Hr, Hl, Hi.
  destruct (pool st (targets b)) as [|p0 rest]; [done|].
  replace (wrap_u64 (counter b + 1)) with (counter b + 1)%Z by solve_z.
  replace (wrap_u64 (counter b + 1 - 1)) with (counter b) by solve_z. done.
Qed.

Lemma picks_round_robin IntN k st key b :
  round_robin b → (0 ≤ counter b)%Z → (counter b + Z.of_nat k < 2 ^ 64)%Z →
  pool st (targets b) ≠ [] →
  picks IntN k st key b =
  (λ i, pool st (targets b) !!
          Z.to_nat ((counter b + Z.of_nat i) mod Z.of_nat (length (pool st (targets b)))))
    <$> seq 0 k.
Proof.
  revert b. induction k as [|k IH]; intros b Hrr Hc Hov Hne; [done|].
  cbn [picks]. rewrite Pick_round_robin by (try done; lia). cbn [fst snd].
  rewrite IH by (try done; cbn [counter]; lia). cbn [seq fmap list_fmap targets counter].
  f_equal; [by rewrite Z.add_0_r|]. rewrite <- fmap_S_seq, <- list_fmap_compose.
  apply list_fmap_ext. intros j i _. unfold compose. do 3 f_equal. lia.
Qed.

Lemma picks_cycle IntN st key b :
  round_robin b → (0 ≤ counter b)%Z →
  (counter b + Z.of_nat (length (pool st (targets b))) < 2 ^ 64)%Z →
  picks IntN (length (pool st (targets b))) st key b =
  Some <$> rotate (Z.to_nat (counter b)) (pool st (targets b)).
Proof.
  intros Hrr Hc Hov. destruct (decide (pool st (targets b) = [])) as [->|Hne].
  { unfold rotate. by rewrite drop_nil, take_nil. }
  rewrite picks_round_robin by done. set (l := pool st (targets b)) in *.
  apply list_eq. intros i. rewrite !list_lookup_fmap.
  destruct (decide (i < length l)) as [Hi|Hi].
  - rewrite lookup_seq_lt by done. simpl. rewrite lookup_rotate_counter by done.
    destruct (lookup_lt_is_Some_2 (rotate (Z.to_nat (counter b)) l) i) as [x ->]; [|done].
    by rewrite length_rotate.
  - rewrite lookup_seq_ge by lia. rewrite lookup_ge_None_2; [done|].
    rewrite length_rotate. lia.
Qed.

(** ** Least connections *)

Lemma least_spec st best rest :
  ∃ l1 l2, best :: rest = l1 ++ least st best rest :: l2 ∧
    (∀ q, q ∈ l1 → (active_of st (least st best rest) < active_of st q)%Z) ∧
    ∀ q, q ∈ best :: rest → (active_of st (least st best rest) ≤ active_of st q)%Z.
Proof.
  induction rest as [|t rest IH] using rev_ind.
  - exists [], []. split_and!; [done|by intros q ?%not_elem_of_nil|].
    intros q ->%list_elem_of_singleton. done.
  - unfold least in *. rewrite fold_left_app. simpl.
    set (m := fold_left _ rest best) in *. destruct IH as (l1 & l2 & Heq & Hl1 & Hall).
    destruct (Z.ltb_spec (active_of st t) (active_of st m)) as [Hlt|Hge].
    + exists (best :: rest), []. split_and!; [done|..].
      * intros q Hq. specialize (Hall q Hq). lia.
      * intros q Hq. rewrite app_comm_cons in Hq.
        apply elem_of_app in Hq as [Hq| ->%list_elem_of_singleton]; [|lia].
        specialize (Hall q Hq). lia.
    + exists l1, (l2 ++ [t]). split_and!; [|done|].
      * rewrite app_comm_cons, Heq. by rewrite <- app_assoc.
      * intros q Hq. rewrite app_comm_cons in Hq.
        apply elem_of_app in Hq as [Hq| ->%list_elem_of_singleton]; [by apply Hall|done].
Qed.

(** ** The hash *)

Lemma fnv1a_bounds s : (0 ≤ fnv1a s < 2 ^ 64)%Z.
Proof.
  unfold fnv1a. assert (0 ≤ fnv_offset < 2 ^ 64)%Z as H by (unfold fnv_offset; lia).
  revert H. generalize fnv_offset. induction s as [|c s IH]; intros h Hh; [done|].
  simpl. apply IH. unfold wrap_u64. apply Z.mod_pos_bound. lia.
Qed.

(** The published test vectors of FNV-1a. *)
Example fnv1a_vectors :
  fnv1a [] = 0xcbf29ce484222325%Z ∧ fnv1a (B "a") = 0xaf63dc4c8601ec8c%Z ∧
  fnv1a (B "foobar") = 0x85944171f73967e8%Z.
Proof. vm_compute. done. Qed.
