(* ===== verification/Health.v ===== *)
(** * Health checking ([proxy/health.go])

    One probe round visits every target in its own goroutine; a goroutine only
    touches the atomic fields of its own target. *)

From S2P Require Import Prelude GoStrings Balancer.

(** [type HealthCheck struct]; durations are in nanoseconds. *)
Record HealthCheck := mkHealthCheck {
  Enable : bool;
  Interval : Z;
  Timeout : Z;
  hc_Path : bytes;
  FailThreshold : Z;
  SuccessThreshold : Z;
}.


Definition setDefaults (h : HealthCheck) : HealthCheck :=
  mkHealthCheck (Enable h)
    (if (Interval h <=? 0)%Z then 10 * Second else Interval h)%Z
    (if (Timeout h <=? 0)%Z then 2 * Second else Timeout h)%Z
    (match hc_Path h with [] => B "/" | p => p end)
    (if (FailThreshold h <=? 0)%Z then 3 else FailThreshold h)%Z
    (if (SuccessThreshold h <=? 0)%Z then 1 else SuccessThreshold h)%Z.

(** The body of one goroutine of [runOnce], for the probe's answer [ok]. *)
Definition apply_probe (cfg : HealthCheck) (ok : bool) (t : Target) : Target :=
  if ok && healthy t then set_fails 0 t
  else if ok then
    let t := set_fails (wrap_i64 (fails t + 1)) t in
    if (SuccessThreshold cfg <=? fails t)%Z then set_healthy true (set_fails 0 t) else t
  else if negb ok && negb (healthy t) then set_fails 0 t
  else
    let t := set_fails (wrap_i64 (fails t + 1)) t in
    if (FailThreshold cfg <=? fails t)%Z then set_healthy false (set_fails 0 t) else t.

(** [runOnce], its goroutines finishing in the order [order] of the targets;
    [probe] answers for a target as it is found. *)
Definition runOnce (cfg : HealthCheck) (probe : Target → bool) (order : list target_ptr)
    (st : store) : store :=
  fold_left (λ st p, alter (λ t, apply_probe cfg (probe t) t) p st) order st.

(** [httpProbe]: [DoTimeout method uri timeout] is the upstream's status, if it answered
    in time. *)
Definition httpProbe (cfg : HealthCheck) (DoTimeout : bytes → bytes → Z → option Z) (t : Target) : bool :=
  let cfg := setDefaults cfg in
  let path := hc_Path cfg in
  let path := if HasPrefix path (B "/") then path else B "/" ++ path in
  match DoTimeout (B "GET") (TrimSuffix (URL t) (B "/") ++ path) (Timeout cfg) with
  | None => false
  | Some status => (status <? 400)%Z
  end.

(** [hostPort]; [url_Host] is [url.Parse] followed by [.Host], [None] on error. *)
Definition hostPort (url_Host : bytes → option bytes) (addr : bytes) : bytes :=
  match Index addr (B "://") with
  | Some i =>
      match url_Host addr with
      | Some (c :: h) => c :: h
      | _ => drop (i + 3) addr
      end
  | None => addr
  end.

(** [tcpProbe]: [dial tls addr timeout] tells whether a connection, over TLS when there
    is a configuration for it, was established in time; it is closed again. *)
Definition tcpProbe (url_Host : bytes → option bytes) (cfg : HealthCheck) (tlsCfg : bool)
    (dial : bool → bytes → Z → bool) (t : Target) : bool :=
  let cfg := setDefaults cfg in
  dial tlsCfg (hostPort url_Host (URL t)) (Timeout cfg).

(** [type checker struct]: [running] is [c.cancel != nil], [loops] the number of
    probe goroutines alive. *)
Record checker := mkChecker { cfg : HealthCheck; running : bool; loops : nat }.

Definition newChecker (c : HealthCheck) : checker := mkChecker (setDefaults c) false 0.
Definition start (c : checker) : checker :=
  if negb (Enable (cfg c)) || running c then c else mkChecker (cfg c) true (loops c + 1).
(** [stop] cancels the loop and waits for it. *)
Definition stop (c : checker) : checker :=
  if negb (running c) then c else mkChecker (cfg c) false (loops c - 1).

(** ** The specification: streaks of equal answers *)

(** The length of the run of [b] at the end of a history. *)
Definition trailing (b : bool) (h : list bool) : Z :=
  fold_left (λ n r, if Bool.eqb r b then n + 1 else 0)%Z h 0%Z.

Definition after (cfg : HealthCheck) (t : Target) (h : list bool) : Target :=
  fold_left (λ t ok, apply_probe cfg ok t) h t.

Lemma trailing_snoc b h r :
  trailing b (h ++ [r]) = if Bool.eqb r b then (trailing b h + 1)%Z else 0%Z.
Proof. unfold trailing. by rewrite fold_left_app. Qed.

Lemma trailing_nonneg b h : (0 ≤ trailing b h)%Z.
Proof.
  destruct h as [|r h _] using rev_ind; [done|]. rewrite trailing_snoc.
  unfold trailing. assert (∀ h n, 0 ≤ n → 0 ≤ fold_left (λ n r, if Bool.eqb r b then n + 1 else 0) h n)%Z
    as Hn by (clear; intros h; induction h as [|r h IH]; simpl; intros n Hn; [lia|]; apply IH; case_match; lia).
  specialize (Hn h 0%Z). case_match; lia.
Qed.

Lemma after_snoc cfg t h r : after cfg t (h ++ [r]) = apply_probe cfg r (after cfg t h).
Proof. unfold after. by rewrite fold_left_app. Qed.

(** Thresholds as [setDefaults] leaves them. *)
Definition thresholds_ok (c : HealthCheck) : Prop :=
  (1 ≤ FailThreshold c < 2 ^ 63 ∧ 1 ≤ SuccessThreshold c < 2 ^ 63)%Z.

(** The one counter holds the streak that works against the current state. *)
Definition counts (c : HealthCheck) (t : Target) (h : list bool) : Prop :=
  if healthy t then fails t = trailing false h ∧ (fails t < FailThreshold c)%Z
  else fails t = trailing true h ∧ (fails t < SuccessThreshold c)%Z.

Lemma counts_after c t h :
  thresholds_ok c → healthy t = true → fails t = 0%Z → counts c (after c t h) h.
Proof.
  intros [HF HS] Hh Hf. unfold counts.
  induction h as [|r h IH] using rev_ind; [simpl; rewrite Hh, Hf; split; [done|lia]|].
  rewrite after_snoc, !trailing_snoc.
  pose proof (trailing_nonneg true h). pose proof (trailing_nonneg false h).
  destruct (after c t h) as [u w [] a f]; simpl in *; destruct IH as [-> Hlt];
    destruct r; unfold apply_probe; simpl; try (split; [done|lia]).
  - replace (wrap_i64 (trailing false h + 1)) with (trailing false h + 1)%Z by solve_z.
    destruct (Z.leb_spec (FailThreshold c) (trailing false h + 1)); simpl; split; try done; lia.
  - replace (wrap_i64 (trailing true h + 1)) with (trailing true h + 1)%Z by solve_z.
    destruct (Z.leb_spec (SuccessThreshold c) (trailing true h + 1)); simpl; split; try done; lia.
Qed.

Lemma healthy_step c t h r :
  thresholds_ok c → counts c t h →
  healthy (apply_probe c r t) =
  if healthy t then negb (FailThreshold c <=? trailing false (h ++ [r]))%Z
  else (SuccessThreshold c <=? trailing true (h ++ [r]))%Z.
Proof.
  intros [HF HS]. unfold counts. rewrite !trailing_snoc.
  pose proof (trailing_nonneg true h). pose proof (trailing_nonneg false h).
  destruct t as [u w [] a f]; simpl; intros [-> Hlt]; destruct r; unfold apply_probe; simpl.
  - by destruct (Z.leb_spec (FailThreshold c) 0); [lia|].
  - replace (wrap_i64 (trailing false h + 1)) with (trailing false h + 1)%Z by solve_z.
    by destruct (_ <=? _)%Z.
  - replace (wrap_i64 (trailing true h + 1)) with (trailing true h + 1)%Z by solve_z.
    by destruct (_ <=? _)%Z.
  - by destruct (Z.leb_spec (SuccessThreshold c) 0); [lia|].
Qed.

Lemma setDefaults_thresholds c :
  (FailThreshold c < 2 ^ 63)%Z → (SuccessThreshold c < 2 ^ 63)%Z → thresholds_ok (setDefaults c).
Proof.
  intros HF HS. unfold thresholds_ok, setDefaults. simpl.
  destruct (Z.leb_spec (FailThreshold c) 0), (Z.leb_spec (SuccessThreshold c) 0); lia.
Qed.

(** ** A round, whatever the order of its goroutines *)

Lemma lookup_runOnce_notin c probe order st p :
  p ∉ order → runOnce c probe order st !! p = st !! p.
Proof.
  revert st. induction order as [|q order IH]; intros st; [done|].
  intros [Hpq Hp]%not_elem_of_cons. unfold runOnce in *. simpl. rewrite IH by done.
  by rewrite list_lookup_alter_ne.
Qed.

Lemma lookup_runOnce c probe order st p :
  NoDup order → p ∈ order →
  runOnce c probe order st !! p = (λ t, apply_probe c (probe t) t) <$> st !! p.
Proof.
  revert st. induction order as [|q order IH]; intros st Hnd Hp; [by apply not_elem_of_nil in Hp|].
  apply NoDup_cons in Hnd as [Hq Hnd].
  change (runOnce c probe (q :: order) st)
    with (runOnce c probe order (alter (λ t, apply_probe c (probe t) t) q st)).
  destruct (decide (p = q)) as [->|Hne].
  - rewrite lookup_runOnce_notin by done. apply list_lookup_alter_eq.
  - apply elem_of_cons in Hp as [?|Hp]; [done|]. rewrite IH by done.
    by rewrite list_lookup_alter_ne.
Qed.

(** ** Starting and stopping *)

Inductive checker_call := CallStart | CallStop.
Definition checker_run (calls : list checker_call) (c : checker) : checker :=
  fold_left (λ c call, match call with CallStart => start c | CallStop => stop c end) calls c.

Lemma checker_one_loop calls c :
  loops c = (if running c then 1 else 0) →
  loops (checker_run calls c) = if running (checker_run calls c) then 1 else 0.
Proof.
  revert c. induction calls as [|call calls IH]; intros c Hc; [done|]. simpl. apply IH.
  destruct call; unfold start, stop; destruct (running c) eqn:Hr, (Enable (cfg c)); simpl;
    rewrite ?Hr, ?Hc; done.
Qed.
