(* ===== verification/Net.v ===== *)
(** * Addresses and upstream connections ([proxy/websocket.go] [dialUpstream], [proxy/tcp.go])

    [net.SplitHostPort], the key a TCP client is balanced by, and how an upstream is
    dialled: in the clear or over TLS, and then for which server name. *)

From S2P Require Import Prelude GoStrings.

(** [bytealg.LastIndexByteString] *)
Definition LastIndexByte (s : bytes) (c : byte) : option nat :=
  (λ i, length s - S i) <$> IndexByte (rev s) c.

Definition has (s : bytes) (c : byte) : bool :=
  match IndexByte s c with Some _ => true | None => false end.

(** [net.SplitHostPort]; [None] is one of its errors. *)
Definition SplitHostPort (hostport : bytes) : option (bytes * bytes) :=
  i ← LastIndexByte hostport ":";
  let finish host j k :=
    if has (drop j hostport) "[" || has (drop k hostport) "]" then None
    else Some (host, drop (S i) hostport) in
  match hostport with
  | "["%char :: _ =>
      match IndexByte hostport "]" with
      | None => None
      | Some end_ =>
          if S end_ =? length hostport then None
          else if S end_ =? i then finish (take (end_ - 1) (drop 1 hostport)) 1 (S end_)
          else None
      end
  | _ =>
      let host := take i hostport in
      if has host ":" then None else finish host 0 0
  end.
(** [net.JoinHostPort] *)
Definition JoinHostPort (host port : bytes) : bytes :=
  if has host ":" then B "[" ++ host ++ B "]:" ++ port else host ++ B ":" ++ port.

(** The key [handle] balances a client by, from its remote address. *)
Definition client_key (remote : bytes) : bytes :=
  match SplitHostPort remote with Some (host, _) => host | None => remote end.

(** What [dialUpstream] asks for: [Custom] is the caller's own TLS configuration. *)
Inductive tls_config := Custom | ForHost (ServerName : bytes).
Inductive dial_request := DialPlain (addr : bytes) (timeout : Z) | DialTLS (addr : bytes) (timeout : Z) (cfg : tls_config).
Definition dialUpstream (addr : bytes) (secure : bool) (tlsCfg : option tls_config) (timeout : Z)
  : dial_request :=
  if negb secure then DialPlain addr timeout
  else
    match tlsCfg with
    | Some cfg => DialTLS addr timeout cfg
    | None =>
        let host := match SplitHostPort addr with Some (host, _) => host | None => addr end in
        DialTLS addr timeout (ForHost host)
    end.

(** ** Splitting what was joined *)

Lemma has_true s c : has s c = true ↔ c ∈ s.
Proof.
  unfold has, IndexByte. destruct (index_where _ s) as [i|] eqn:Hi.
  - split; [intros _|done]. apply index_where_Some in Hi as (Hl & Hc & _).
    destruct (lookup_lt_is_Some_2 s i Hl) as [x Hx]. specialize (Hc _ Hx).
    apply Ascii.eqb_eq in Hc as ->. by eapply list_elem_of_lookup_2.
  - split; [done|]. intros Hin. rewrite index_where_None in Hi. specialize (Hi _ Hin).
    by rewrite Ascii.eqb_refl in Hi.
Qed.
Lemma has_false s c : has s c = false ↔ c ∉ s.
Proof. rewrite <- has_true. by destruct (has s c). Qed.

Lemma IndexByte_first a b c : c ∉ a → IndexByte (a ++ c :: b) c = Some (length a).
Proof.
  intros Ha. unfold IndexByte. induction a as [|x a IH]; simpl; [by rewrite Ascii.eqb_refl|].
  apply not_elem_of_cons in Ha as [Hx Ha].
  rewrite (proj2 (Ascii.eqb_neq c x)) by done. by rewrite IH.
Qed.
Lemma LastIndexByte_last a b c : c ∉ b → LastIndexByte (a ++ c :: b) c = Some (length a).
Proof.
  intros Hb. unfold LastIndexByte. rewrite rev_app_distr. simpl. rewrite <- app_assoc. simpl.
  rewrite IndexByte_first by (by rewrite <- in_rev || (rewrite list_elem_of_In, <- in_rev, <- list_elem_of_In; done)).
  simpl. f_equal. rewrite length_app, length_rev. simpl. lia.
Qed.

(** A host and a port that [JoinHostPort] put together, IPv6 addresses included, are
    found again, as long as they hold no bracket and the port no colon. *)
Lemma SplitHostPort_Join host port :
  (":"%char ∉ port) → (∀ c, c = "["%char ∨ c = "]"%char → (c ∉ host) ∧ (c ∉ port)) →
  SplitHostPort (JoinHostPort host port) = Some (host, port).
Proof.
  intros Hport Hb. destruct (Hb "["%char) as [Hh1 Hp1]; [by left|]. destruct (Hb "]"%char) as [Hh2 Hp2]; [by right|].
  unfold JoinHostPort. destruct (has host ":") eqn:Hc.
  - change (B "[" ++ host ++ B "]:" ++ port) with ("["%char :: host ++ "]"%char :: ":"%char :: port).
    assert (LastIndexByte ("["%char :: host ++ "]"%char :: ":"%char :: port) ":" = Some (S (S (length host)))) as Hl.
    { transitivity (LastIndexByte (("["%char :: host ++ ["]"%char]) ++ ":"%char :: port) ":").
      - f_equal. cbn [app]. by rewrite <- app_assoc.
      - rewrite LastIndexByte_last by done. simpl. rewrite length_app. simpl. f_equal. lia. }
    assert (IndexByte ("["%char :: host ++ "]"%char :: ":"%char :: port) "]" = Some (S (length host))) as Hi.
    { apply (IndexByte_first ("["%char :: host)). set_solver. }
    unfold SplitHostPort. rewrite Hl, Hi. cbn [mbind option_bind length].
    rewrite length_app. cbn [length]. rewrite (proj2 (Nat.eqb_neq _ _)), Nat.eqb_refl by lia.
    replace (S (length host) - 1) with (length host) by lia. cbn [drop].
    rewrite (proj2 (has_false _ "[")) by set_solver.
    rewrite !drop_app. rewrite (drop_ge host) by lia.
    replace (S (length host) - length host) with 1 by lia. cbn [drop app].
    rewrite (proj2 (has_false _ "]")) by set_solver. cbn [orb].
    rewrite (drop_ge host (S (S (length host)))) by lia.
    replace (S (S (length host)) - length host) with 2 by lia.
    cbn [drop app]. by rewrite take_app_length.
  - change (host ++ B ":" ++ port) with (host ++ ":"%char :: port).
    unfold SplitHostPort. rewrite LastIndexByte_last by done. cbn [mbind option_bind].
    rewrite take_app_length, Hc. cbn [drop].
    rewrite (proj2 (has_false _ "[")), (proj2 (has_false _ "]")) by set_solver. cbn [orb].
    replace (S (length host)) with (length host + 1) by lia. rewrite drop_app_add. cbn [drop].
    destruct host as [|c host]; [done|]. cbn [app]. destruct (ascii_dec c "[") as [->|Hne]; [set_solver|].
    by destruct c as [[] [] [] [] [] [] [] []].
Qed.

(** A balanced client keeps its key across connections: only the address counts, not
    the port it happens to use. *)
Lemma client_key_address host port port' :
  (∀ c, c = "["%char ∨ c = "]"%char → c ∉ host ∧ c ∉ port ∧ c ∉ port') →
  (":"%char ∉ port) → (":"%char ∉ port') →
  client_key (JoinHostPort host port) = client_key (JoinHostPort host port').
Proof.
  intros Hb Hp Hp'. unfold client_key. rewrite !SplitHostPort_Join; naive_solver.
Qed.

Example ipv6_host : SplitHostPort (B "[2001:db8::1]:443") = Some (B "2001:db8::1", B "443").
Proof. reflexivity. Qed.
Example bare_ipv6_is_refused : SplitHostPort (B "2001:db8::1") = None ∧ SplitHostPort (B "[::1]") = None.
Proof. split; reflexivity. Qed.
