(* ===== verification/Proxy.v ===== *)
(** * The HTTP reverse proxy ([proxy/proxy.go], [proxy/websocket.go])

    A request is forwarded by [Do]: one attempt per untried target the balancer
    offers. The upstream network is [DoTimeout], answering the n-th call the proxy
    makes; other requests and the health checker act between attempts as [env]
    says. A connection that asks for an upgrade is handed over by [doUpgrade]. *)

From S2P Require Import Prelude GoStrings Effects FastHTTP Core Balancer Health Net.

Definition StatusBadGateway : Z := 502.
Definition ErrNoTarget : error := Err (B "proxy: no healthy target available").

(** [hopByHopHeaders] *)
Definition hopByHopHeaders : list bytes :=
  B <$> ["Keep-Alive"; "Proxy-Authenticate"; "Proxy-Authorization"; "TE"; "Trailer";
         "Transfer-Encoding"; "Upgrade"]%string.

(** [connectionTokens(value)] *)
Definition connectionTokens (value : bytes) : list bytes :=
  match value with
  | [] => []
  | _ => filter (.≠ []) (TrimSpace <$> Split value ",")
  end.

Definition normalizeURL (u : bytes) : bytes :=
  let u := if negb (beqb u []) && negb (HasPrefix u (B "http://")) &&
              negb (HasPrefix u (B "https://"))
           then B "http://" ++ u else u in
  TrimSuffix u (B "/").

(** The operations on an outgoing request that [FastHTTP] does not list, and the
client: the answer, within the time given, to the n-th request sent. *)
Class Upstream `{F : FastHTTP} := {
  SetRequestURI : bytes → Request → Request;
  RequestURI : Request → bytes;
  SetHost : bytes → Request → Request;
  DoTimeout : nat → Request → Z → Response + error;
}.

Section proxy.
Context `{F : FastHTTP} `{U : !Upstream}.

(** [type Config struct]; of a TLS configuration the proxy only looks whether there is one. *)
Record Config := mkConfig {
  cfg_Target : bytes;
  cfg_Targets : list target_ptr;
  cfg_Balancer : Algorithm;
  StripPrefix : bytes;
  AddPrefix : bytes;
  Host : bytes;
  cfg_Timeout : Z;
  MaxRetries : Z;
  MaxResponseBodySize : Z;
  cfg_HealthCheck : HealthCheck;
  TLSConfig : option tls_config;
  WebSocket : bool;
  ModifyRequest : option (Ctx → Request → Request);
  ModifyResponse : option (Ctx → Response → Response);
  cfg_ErrorHandler : option (error → Ctx → Ctx);
}.

(** [(c *Config).SetDefaults()]: the configured targets are rewritten in place. *)
Definition Config_SetDefaults (c : Config) (st : store) : Config * store :=
  (mkConfig (match cfg_Target c with [] => [] | t => normalizeURL t end)
     (cfg_Targets c) (cfg_Balancer c)
     (TrimSuffix (StripPrefix c) (B "/")) (TrimSuffix (AddPrefix c) (B "/"))
     (Host c) (if (cfg_Timeout c <=? 0)%Z then 30 * Second else cfg_Timeout c)%Z
     (MaxRetries c) (MaxResponseBodySize c) (cfg_HealthCheck c) (TLSConfig c) (WebSocket c)
     (ModifyRequest c) (ModifyResponse c) (cfg_ErrorHandler c),
   fold_left (λ st p, alter (λ t, mkTarget (normalizeURL (URL t)) (Weight t) (healthy t)
                                    (active t) (fails t)) p st) (cfg_Targets c) st).

(** The options of the client [NewProxy] makes: the URI is the proxy's own. *)
Record client_options := mkClient {
  cl_ReadTimeout : Z;
  cl_WriteTimeout : Z;
  cl_MaxResponseBodySize : Z;
  cl_TLSConfig : option tls_config;
  cl_DisablePathNormalizing : bool;
}.

(** [type Proxy struct]; [p_started] is [once]. *)
Record Proxy := mkProxy {
  p_cfg : Config;
  p_client : client_options;
  p_bal : Balancer;
  p_checker : checker;
  p_started : bool;
}.

Definition NewProxy (c : Config) (st : store) : Proxy * store :=
  let '(c, st) := Config_SetDefaults c st in
  let '(ts, st) :=
    match cfg_Targets c, cfg_Target c with
    | [], _ :: _ => ([length st], st ++ [mkTarget (cfg_Target c) 0 false 0 0])
    | ts, _ => (ts, st)
    end in
  let '(b, st) := NewBalancer ts (cfg_Balancer c) st in
  let client := mkClient (cfg_Timeout c) (cfg_Timeout c) (MaxResponseBodySize c) (TLSConfig c) true in
  (mkProxy c client b (newChecker (cfg_HealthCheck c)) false, st).

Definition Start (p : Proxy) : Proxy :=
  if p_started p then p else mkProxy (p_cfg p) (p_client p) (p_bal p) (start (p_checker p)) true.
Definition Stop (p : Proxy) : Proxy :=
  mkProxy (p_cfg p) (p_client p) (p_bal p) (stop (p_checker p)) (p_started p).

Definition proxy_Targets (p : Proxy) : list target_ptr := Targets (p_bal p).

(** [stripRequestHopByHop], [stripResponseHopByHop] *)
Definition stripRequestHopByHop (h : Request) : Request :=
  let h := fold_left (λ h name, req_Del name h)
             (connectionTokens (req_Peek h (B "Connection"))) h in
  let h := req_Del (B "Connection") h in
  let h := req_Del (B "Proxy-Connection") h in
  fold_left (λ h name, req_Del name h) hopByHopHeaders h.
Definition stripResponseHopByHop (h : Response) : Response :=
  let h := fold_left (λ h name, res_Del name h)
             (connectionTokens (res_Peek h (B "Connection"))) h in
  let h := res_Del (B "Connection") h in
  let h := res_Del (B "Proxy-Connection") h in
  fold_left (λ h name, res_Del name h) hopByHopHeaders h.

Definition rewritePath (c : Config) (path : bytes) : bytes :=
  let path := match StripPrefix c with [] => path | s => TrimPrefix path s end in
  let path := match AddPrefix c with [] => path | a => a ++ path end in
  if HasPrefix path (B "/") then path else B "/" ++ path.

Definition setForwardHeaders (c : Ctx) (req : Request) : Request :=
  let ctx := c_RequestCtx c in
  let inbound := ctx_Request ctx in
  let ip := ctx_RemoteIP ctx in
  let req := match req_Peek inbound (B "X-Forwarded-For") with
             | [] => req_Set (B "X-Forwarded-For") ip req
             | prior => req_Set (B "X-Forwarded-For") (prior ++ B ", " ++ ip) req
             end in
  let req := req_Set (B "X-Forwarded-Host") (req_Host inbound) req in
  let req := req_Set (B "X-Real-IP") ip req in
  let scheme := if ctx_IsTLS ctx then B "https" else B "http" in
  let scheme := match req_Peek inbound (B "X-Forwarded-Proto") with
                | [] => scheme
                | h => h
                end in
  req_Set (B "X-Forwarded-Proto") scheme req.

(** [strings.EqualFold] against a word without [k] or [s], the only letters of ASCII that fold
    to characters outside of it. *)
Definition isUpgrade (req : Request) : bool :=
  match req_Peek req (B "Upgrade") with
  | [] => false
  | _ => existsb (λ tok, same_fold tok (B "Upgrade"))
           (connectionTokens (req_Peek req (B "Connection")))
  end.

(** The state the requests share; [w_sent] logs what was sent upstream, and
    [w_hijacked] the connections handed over, with the target and the handshake
    to replay. *)
Record world := mkWorld {
  w_store : store;
  w_bal : Balancer;
  w_sent : list (target_ptr * Request);
  w_hijacked : list (target_ptr * Request);
}.

Definition upd_store (f : store → store) (w : world) : world :=
  mkWorld (f (w_store w)) (w_bal w) (w_sent w) (w_hijacked w).
Definition set_bal (b : Balancer) (w : world) : world :=
  mkWorld (w_store w) b (w_sent w) (w_hijacked w).
Definition log_sent (p : target_ptr) (req : Request) (w : world) : world :=
  mkWorld (w_store w) (w_bal w) (w_sent w ++ [(p, req)]) (w_hijacked w).
Definition log_hijacked (p : target_ptr) (req : Request) (w : world) : world :=
  mkWorld (w_store w) (w_bal w) (w_sent w) (w_hijacked w ++ [(p, req)]).

Definition target_URL (st : store) (p : target_ptr) : bytes :=
  match st !! p with Some t => URL t | None => [] end.

Section requests.
Context (cfg : Config) (IntN : nat → nat) (env : nat → world → world).

Local Abbreviation act A := (M (Ctx * world) A).

Definition on_world (f : world → world) : act unit := modify (λ s, (s.1, f s.2)).

(** The loop of [pick]: at most [len(pool)+1] draws. *)
Fixpoint draw (k : nat) (st : store) (key : bytes) (tried : list target_ptr) (b : Balancer)
  : option target_ptr * Balancer :=
  match k with
  | 0 => (None, b)
  | S k =>
      match Pick IntN st key b with
      | (None, b') => (None, b')
      | (Some t, b') => if bool_decide (t ∈ tried) then draw k st key tried b' else (Some t, b')
      end
  end.
Definition pick (tried : list target_ptr) : act (option target_ptr) := λ s,
  let w := s.2 in
  let '(t, b) := draw (S (length (targets (w_bal w)))) (w_store w)
                   (ctx_RemoteIP (c_RequestCtx s.1)) tried (w_bal w) in
  (Ret t, (s.1, set_bal b w)).

Definition fail (err : error) : hfn world :=
  match cfg_ErrorHandler cfg with
  | Some eh => modify (λ s, (eh err s.1, s.2));; mret None
  | None =>
      mod_response (res_SetStatusCode StatusBadGateway);;
      WriteJSONError (B "proxy: " ++ err_Error err)
  end.

(** The part of an attempt between choosing the target and the answer. *)
Definition outgoing (c : Ctx) (url path query : bytes) (req : Request) : Request :=
  let uri := url ++ path in
  let uri := match query with [] => uri | _ => uri ++ B "?" ++ query end in
  let req := SetRequestURI uri req in
  let req := match Host cfg with [] => req | h => SetHost h req end in
  match ModifyRequest cfg with Some f => f c req | None => req end.

Definition send (p : target_ptr) (req : Request) : act (Response + error) :=
  on_world (upd_store (alter (add_active 1) p));;
  r ← gets (λ s, DoTimeout (length (w_sent s.2)) req (cfg_Timeout cfg));
  on_world (log_sent p req);;
  on_world (upd_store (alter (add_active (-1)) p));;
  mret r.

Definition relay_response (res : Response) : act unit :=
  let res := stripResponseHopByHop res in
  mod_response (λ _, res);;
  match ModifyResponse cfg with
  | Some f => modify (λ s, (upd_RequestCtx (on_response (f s.1)) s.1, s.2))
  | None => mret tt
  end.

(** The loop of [Do]; [i] numbers the attempts. *)
Fixpoint attempt (n i : nat) (path query : bytes) (req : Request)
    (tried : list target_ptr) (lastErr : option error) : hfn world :=
  match n with
  | 0 => fail (default ErrNoTarget lastErr)
  | S n =>
      on_world (env i);;
      target ← pick tried;
      match target with
      | None => fail (default ErrNoTarget lastErr)
      | Some p =>
          c ← gets_ctx id;
          url ← gets (λ s, target_URL (w_store s.2) p);
          let req := outgoing c url path query req in
          r ← send p req;
          match r with
          | inl res => relay_response res;; mret None
          | inr err => attempt n (S i) path query req (p :: tried) (Some err)
          end
      end
  end.

(** [p.bal.Pick(ctx.RemoteIP().String())] *)
Definition pick_once : act (option target_ptr) := λ s,
  let '(t, b) := Pick IntN (w_store s.2) (ctx_RemoteIP (c_RequestCtx s.1)) (w_bal s.2) in
  (Ret t, (s.1, set_bal b s.2)).

(** The hijacked connection: [dial] answers what [dialUpstream] asks for; the handshake
    is written and bytes are piped once the handler has returned. *)
Definition doUpgrade (dial : dial_request → option error) (url_Host : bytes → option bytes)
    : hfn world :=
  target ← pick_once;
  match target with
  | None => fail ErrNoTarget
  | Some p =>
      c ← gets_ctx id;
      let ctx := c_RequestCtx c in
      let req := setForwardHeaders c (ctx_Request ctx) in
      let req := SetRequestURI (rewritePath cfg (ctx_Path ctx)) req in
      let req := match req_QueryString (ctx_Request ctx) with
                 | [] => req
                 | q => SetRequestURI (RequestURI req ++ B "?" ++ q) req
                 end in
      let req := match Host cfg with
                 | [] => SetHost (req_Host (ctx_Request ctx)) req
                 | h => SetHost h req
                 end in
      let req := match ModifyRequest cfg with Some f => f c req | None => req end in
      url ← gets (λ s, target_URL (w_store s.2) p);
      on_world (upd_store (alter (add_active 1) p));;
      let secure := HasPrefix url (B "https://") in
      let addr := hostPort url_Host url in
      match dial (dialUpstream addr secure (TLSConfig cfg) (cfg_Timeout cfg)) with
      | Some err =>
          on_world (upd_store (alter (add_active (-1)) p));;
          fail err
      | None =>
          on_world (log_hijacked p req);;
          mret None
      end
  end.

(** The deferred [target.active.Add(-1)] when the hijacked connection ends. *)
Definition end_hijack (p : target_ptr) (w : world) : world :=
  upd_store (alter (add_active (-1)) p) w.

(** [(p *Proxy).Do(c)] *)
Definition Do (dial : dial_request → option error) (url_Host : bytes → option bytes) : hfn world :=
  c ← gets_ctx id;
  let ctx := c_RequestCtx c in
  if WebSocket cfg && isUpgrade (ctx_Request ctx) then doUpgrade dial url_Host
  else
    let req := setForwardHeaders c (stripRequestHopByHop (ctx_Request ctx)) in
    attempt (Z.to_nat (wrap_i64 (MaxRetries cfg + 1))) 0 (rewritePath cfg (ctx_Path ctx))
      (req_QueryString (ctx_Request ctx)) req [] None.
End requests.

(** [New(cfg)]: middleware that never calls [next], with the proxy it owns, whose checks
    are started; requests run in a world with [p_bal] as its balancer. *)
Definition New (c : Config) (st : store) (IntN : nat → nat) (env : nat → world → world)
    (dial : dial_request → option error) (url_Host : bytes → option bytes)
    : Middleware world * Proxy * store :=
  let '(p, st) := NewProxy c st in
  let p := Start p in
  (λ next, Some (Do (p_cfg p) IntN env dial url_Host), p, st).

(** [Balance(targets, cfg)]: a new target per URL. *)
Definition set_Targets (ts : list target_ptr) (c : Config) : Config :=
  mkConfig (cfg_Target c) ts (cfg_Balancer c) (StripPrefix c) (AddPrefix c) (Host c)
    (cfg_Timeout c) (MaxRetries c) (MaxResponseBodySize c) (cfg_HealthCheck c) (TLSConfig c)
    (WebSocket c) (ModifyRequest c) (ModifyResponse c) (cfg_ErrorHandler c).
Definition Balance (urls : list bytes) (c : Config) (st : store) (IntN : nat → nat)
    (env : nat → world → world) (dial : dial_request → option error)
    (url_Host : bytes → option bytes) : Middleware world * Proxy * store :=
  let pool := seq (length st) (length urls) in
  let st := st ++ ((λ u, mkTarget u 0 false 0 0) <$> urls) in
  New (set_Targets pool c) st IntN env dial url_Host.
End proxy.
