(* ===== verification/ProxyTheory.v ===== *)
(** * Lemmas on the reverse proxy

    What the hop-by-hop and forwarding headers of an outgoing request are, what
    the retry loop of [Do] sends and leaves behind, and when [pick] finds an
    untried target. *)

From S2P Require Import Prelude GoStrings Effects FastHTTP Core Balancer Health Proxy.

(** Documented behaviour of the request setters: only the [Host] header moves. *)
Class UpstreamLaws `(U : Upstream) := {
  peek_SetRequestURI k v r :
    same_header k (B "Host") = false → req_Peek (SetRequestURI v r) k = req_Peek r k;
  peek_SetHost k v r :
    same_header k (B "Host") = false → req_Peek (SetHost v r) k = req_Peek r k;
}.

Section headers.
Context `{F : FastHTTP} `{U : !Upstream} `{!FastHTTPLaws F} `{!UpstreamLaws U}.

Lemma req_peek_Del n k r :
  req_Peek (req_Del n r) k = if same_header n k then [] else req_Peek r k.
Proof.
  destruct (same_header n k) eqn:Hs; [|by apply req_del_peek_ne].
  rewrite <- (req_peek_same _ _ _ Hs). apply req_del_peek.
Qed.

Lemma res_peek_Del n k r :
  resettable_header n = true →
  res_Peek (res_Del n r) k = if same_header n k then [] else res_Peek r k.
Proof.
  intros Hn. destruct (same_header n k) eqn:Hs; [|by apply res_del_peek_ne].
  rewrite <- (res_peek_same _ _ _ Hs). by apply res_del_peek.
Qed.

Lemma req_peek_Dels names k r :
  req_Peek (fold_left (λ h n, req_Del n h) names r) k =
  if existsb (λ n, same_header n k) names then [] else req_Peek r k.
Proof.
  revert r. induction names as [|n names IH]; intros r; [done|]. simpl.
  rewrite IH, req_peek_Del. by destruct (existsb _ names), (same_header n k).
Qed.

Lemma res_peek_Dels names k r :
  Forall (λ n, resettable_header n = true) names →
  res_Peek (fold_left (λ h n, res_Del n h) names r) k =
  if existsb (λ n, same_header n k) names then [] else res_Peek r k.
Proof.
  revert r. induction names as [|n names IH]; intros r; [done|]. simpl.
  intros [Hn Hnames]%Forall_cons.
  rewrite IH, res_peek_Del by done. by destruct (existsb _ names), (same_header n k).
Qed.

(** The headers that stay on this side of the proxy. *)
Definition hop_by_hop (connection k : bytes) : bool :=
  existsb (λ n, same_header n k)
    (connectionTokens connection ++ [B "Connection"; B "Proxy-Connection"] ++ hopByHopHeaders).

Lemma peek_stripRequest r k :
  req_Peek (stripRequestHopByHop r) k =
  if hop_by_hop (req_Peek r (B "Connection")) k then [] else req_Peek r k.
Proof.
  unfold stripRequestHopByHop, hop_by_hop.
  rewrite req_peek_Dels, !req_peek_Del, req_peek_Dels, !existsb_app.
  cbn [existsb]. rewrite orb_false_r.
  destruct (existsb _ (connectionTokens _)), (same_header (B "Connection") k),
    (same_header (B "Proxy-Connection") k), (existsb _ hopByHopHeaders); done.
Qed.

Lemma peek_stripResponse r k :
  Forall (λ n, resettable_header n = true) (connectionTokens (res_Peek r (B "Connection"))) →
  res_Peek (stripResponseHopByHop r) k =
  if hop_by_hop (res_Peek r (B "Connection")) k then [] else res_Peek r k.
Proof.
  intros Htok. unfold stripResponseHopByHop, hop_by_hop.
  rewrite res_peek_Dels by (repeat constructor).
  rewrite !res_peek_Del by done. rewrite res_peek_Dels by done. rewrite !existsb_app.
  cbn [existsb]. rewrite orb_false_r.
  destruct (existsb _ (connectionTokens _)), (same_header (B "Connection") k),
    (same_header (B "Proxy-Connection") k), (existsb _ hopByHopHeaders); done.
Qed.

(** [setForwardHeaders] touches four headers. *)
Definition forward_headers : list bytes :=
  B <$> ["X-Forwarded-For"; "X-Forwarded-Host"; "X-Real-IP"; "X-Forwarded-Proto"]%string.

Lemma peek_forward_other c r k :
  existsb (λ n, same_header n k) forward_headers = false →
  req_Peek (setForwardHeaders c r) k = req_Peek r k.
Proof.
  unfold forward_headers. cbn [existsb fmap list_fmap].
  rewrite !orb_false_iff. intros (H1 & H2 & H3 & H4 & _). unfold setForwardHeaders.
  rewrite !req_peek_set_ne by done. case_match; by rewrite req_peek_set_ne.
Qed.

Definition forwarded_for (c : Ctx) : bytes :=
  match req_Peek (ctx_Request (c_RequestCtx c)) (B "X-Forwarded-For") with
  | [] => ctx_RemoteIP (c_RequestCtx c)
  | prior => prior ++ B ", " ++ ctx_RemoteIP (c_RequestCtx c)
  end.

Lemma peek_forward_for c r :
  req_Peek (setForwardHeaders c r) (B "X-Forwarded-For") = forwarded_for c.
Proof.
  unfold setForwardHeaders, forwarded_for. rewrite 3!req_peek_set_ne by done.
  case_match; by rewrite req_peek_set.
Qed.

Lemma peek_forward_host c r :
  req_Peek (setForwardHeaders c r) (B "X-Forwarded-Host") =
  req_Host (ctx_Request (c_RequestCtx c)).
Proof. unfold setForwardHeaders. by rewrite 2!req_peek_set_ne, req_peek_set by done. Qed.

Lemma peek_forward_ip c r :
  req_Peek (setForwardHeaders c r) (B "X-Real-IP") = ctx_RemoteIP (c_RequestCtx c).
Proof. unfold setForwardHeaders. by rewrite req_peek_set_ne, req_peek_set by done. Qed.

(** The scheme announced: what the client said it was, or whether it came over TLS. *)
Definition forwarded_proto (c : Ctx) : bytes :=
  match req_Peek (ctx_Request (c_RequestCtx c)) (B "X-Forwarded-Proto") with
  | [] => if ctx_IsTLS (c_RequestCtx c) then B "https" else B "http"
  | h => h
  end.

Lemma peek_forward_proto c r :
  req_Peek (setForwardHeaders c r) (B "X-Forwarded-Proto") = forwarded_proto c.
Proof. unfold setForwardHeaders, forwarded_proto. by rewrite req_peek_set. Qed.

(** The headers of a request the proxy sends for the client of [c], [Host] apart. *)
Definition forwarded (c : Ctx) (r : Request) : Prop :=
  let inbound := ctx_Request (c_RequestCtx c) in
  req_Peek r (B "X-Forwarded-For") = forwarded_for c ∧
  req_Peek r (B "X-Forwarded-Host") = req_Host inbound ∧
  req_Peek r (B "X-Real-IP") = ctx_RemoteIP (c_RequestCtx c) ∧
  req_Peek r (B "X-Forwarded-Proto") = forwarded_proto c ∧
  ∀ k, existsb (λ n, same_header n k) forward_headers = false → same_header k (B "Host") = false →
    req_Peek r k = if hop_by_hop (req_Peek inbound (B "Connection")) k then [] else req_Peek inbound k.

Lemma forwarded_start c :
  forwarded c (setForwardHeaders c (stripRequestHopByHop (ctx_Request (c_RequestCtx c)))).
Proof.
  split_and!; [apply peek_forward_for|apply peek_forward_host|apply peek_forward_ip|apply peek_forward_proto|].
  intros k Hk Hh. by rewrite peek_forward_other, peek_stripRequest.
Qed.

Lemma peek_outgoing cfg c url path query r k :
  ModifyRequest cfg = None → same_header k (B "Host") = false →
  req_Peek (outgoing cfg c url path query r) k = req_Peek r k.
Proof.
  intros Hm Hk. unfold outgoing. rewrite Hm.
  destruct (Host cfg); by rewrite ?peek_SetHost, peek_SetRequestURI.
Qed.

Lemma forwarded_outgoing cfg c c' url path query r :
  ModifyRequest cfg = None → forwarded c r → forwarded c (outgoing cfg c' url path query r).
Proof.
  intros Hm (H1 & H2 & H3 & H4 & H5). split_and!; [by rewrite peek_outgoing..|].
  intros k Hk Hh. rewrite peek_outgoing by done. by apply H5.
Qed.
End headers.

(** ** The retry loop *)

Section loop.
Context `{F : FastHTTP} `{U : !Upstream}.
Context (cfg : Config) (IntN : nat → nat) (env : nat → world → world).
Implicit Types (w : world) (tried : list target_ptr).

Lemma fail_world err (s : Ctx * world) : (fail cfg err s).2.2 = s.2.
Proof.
  unfold fail. destruct (cfg_ErrorHandler cfg); [done|].
  unfold WriteJSONError, mod_response, mod_RequestCtx, modify, mbind, M_bind. simpl.
  by destruct (json_Marshal _).
Qed.

Lemma fail_502 `{!FastHTTPLaws F} err (s : Ctx * world) :
  cfg_ErrorHandler cfg = None →
  (fail cfg err s).1 = Ret None ∧
  res_StatusCode (ctx_Response (c_RequestCtx (fail cfg err s).2.1)) = StatusBadGateway.
Proof.
  intros He. unfold fail. rewrite He. destruct (json_error_body (B "proxy: " ++ err_Error err)) as [b Hb].
  unfold WriteJSONError, mod_response, mod_RequestCtx, modify, mbind, M_bind.
  cbn -[err_Error]. rewrite Hb. cbn. by rewrite status_SetBody, status_SetContentType, status_set.
Qed.

Lemma relay_world res (s : Ctx * world) : (relay_response cfg res s).2.2 = s.2.
Proof. unfold relay_response. by destruct (ModifyResponse cfg). Qed.

Lemma relay_ret res (s : Ctx * world) : (relay_response cfg res s).1 = Ret tt.
Proof. unfold relay_response. by destruct (ModifyResponse cfg). Qed.

Definition drawn (w : world) (c : Ctx) tried : option target_ptr * Balancer :=
  draw IntN (S (length (targets (w_bal w)))) (w_store w)
    (ctx_RemoteIP (c_RequestCtx c)) tried (w_bal w).

(** The world after one upstream call. *)
Definition called (p : target_ptr) (req : Request) w : world :=
  upd_store (alter (add_active (-1)) p) (log_sent p req (upd_store (alter (add_active 1) p) w)).

Lemma attempt_S n i path query req tried le (s : Ctx * world) :
  attempt cfg IntN env (S n) i path query req tried le s =
  match drawn (env i s.2) s.1 tried with
  | (None, b) => fail cfg (default ErrNoTarget le) (s.1, set_bal b (env i s.2))
  | (Some p, b) =>
      let w := set_bal b (env i s.2) in
      let req' := outgoing cfg s.1 (target_URL (w_store w) p) path query req in
      match DoTimeout (length (w_sent w)) req' (cfg_Timeout cfg) with
      | inl res => (Ret None, (relay_response cfg res (s.1, called p req' w)).2)
      | inr err =>
          attempt cfg IntN env n (S i) path query req' (p :: tried) (Some err)
            (s.1, called p req' w)
      end
  end.
Proof.
  cbn [attempt]. unfold on_world at 1, modify at 1, mbind at 1, M_bind at 1. cbn [fst snd].
  unfold pick at 1, mbind at 1, M_bind at 1. cbn [fst snd].
  fold (drawn (env i s.2) s.1 tried).
  destruct (drawn (env i s.2) s.1 tried) as [[p|] b]; [|done].
  unfold gets_ctx, gets, send, on_world, modify, mbind, M_bind, mret, M_ret, gets.
  cbn [fst snd id w_sent upd_store set_bal].
  destruct (DoTimeout _ _ _) as [res|err]; [|done].
  unfold called. cbn [set_bal upd_store log_sent].
  match goal with |- context [relay_response cfg res ?x] =>
    pose proof (relay_ret res x) as Hr; destruct (relay_response cfg res x) as [o s'] end.
  simpl in Hr. by subst o.
Qed.

Lemma draw_untried k st key tried b t b' :
  draw IntN k st key tried b = (Some t, b') → t ∉ tried.
Proof.
  revert b. induction k as [|k IH]; intros b; simpl; [done|].
  destruct (Pick IntN st key b) as [[u|] b1]; [|done].
  case_bool_decide; [apply IH|]. intros; by simplify_eq.
Qed.

(** What the loop adds to the log: distinct, untried targets, one per attempt;
    every request in it satisfies what [outgoing] preserves. *)
Lemma attempt_sent (P : Request → Prop) n i path query req tried le (s : Ctx * world) :
  (∀ i w, w_sent (env i w) = w_sent w) →
  (∀ c url req, P req → P (outgoing cfg c url path query req)) → P req →
  ∃ sent, w_sent (attempt cfg IntN env n i path query req tried le s).2.2 = w_sent s.2 ++ sent ∧
    NoDup sent.*1 ∧ (∀ p, p ∈ sent.*1 → p ∉ tried) ∧ length sent ≤ n ∧
    Forall (λ x, P x.2) sent.
Proof.
  intros Henv HP. revert i req tried le s. induction n as [|n IH]; intros i req tried le s Hreq.
  { exists []. simpl attempt. rewrite fail_world, app_nil_r. simpl.
    split_and!; [done|constructor|by intros p ?%not_elem_of_nil|lia|constructor]. }
  rewrite attempt_S. destruct (drawn _ _ _) as [[p|] b] eqn:Hd.
  2: { exists []. rewrite fail_world, app_nil_r. simpl. rewrite Henv.
       split_and!; [done|constructor|by intros p ?%not_elem_of_nil|lia|constructor]. }
  apply draw_untried in Hd. cbn zeta.
  set (w := set_bal b (env i s.2)). set (req' := outgoing _ _ _ _ _ _).
  assert (P req') as Hreq' by by apply HP.
  assert (w_sent (called p req' w) = w_sent s.2 ++ [(p, req')]) as Hw by (simpl; by rewrite Henv).
  destruct (DoTimeout _ _ _) as [res|err].
  - exists [(p, req')]. cbn [snd]. rewrite relay_world. cbn [snd]. rewrite Hw. simpl.
    split_and!; [done|repeat constructor; by intros ?%not_elem_of_nil| |lia|by repeat constructor].
    by intros q ->%list_elem_of_singleton.
  - destruct (IH (S i) req' (p :: tried) (Some err) (s.1, called p req' w) Hreq')
      as (sent & -> & Hnd & Htried & Hlen & Hall).
    exists ((p, req') :: sent). cbn [snd]. rewrite Hw. simpl.
    split_and!; [by rewrite <- app_assoc| | |lia|by constructor].
    + constructor; [|done]. intros Hp. apply (Htried p Hp). left.
    + intros q [->|Hq]%elem_of_cons; [done|]. intros Hqt. apply (Htried q Hq). by right.
Qed.
End loop.

(** ** In-flight counts *)

(** The counters are signed 64-bit integers. *)
Definition in_range (st : store) : Prop :=
  Forall (λ t, (- 2 ^ 63 ≤ active t < 2 ^ 63)%Z) st.

Lemma add_active_undo t :
  (- 2 ^ 63 ≤ active t < 2 ^ 63)%Z → add_active (-1) (add_active 1 t) = t.
Proof. destruct t as [u w h a f]. unfold add_active. simpl. intros Ha. f_equal. solve_z. Qed.

Lemma alter_active_undo p st :
  in_range st → alter (add_active (-1)) p (alter (add_active 1) p st) = st.
Proof.
  intros Hr. apply list_eq. intros q. destruct (decide (p = q)) as [->|Hne].
  - rewrite !list_lookup_alter_eq. destruct (st !! q) as [t|] eqn:Ht; [|done]. simpl.
    rewrite add_active_undo; [done|]. by eapply Forall_lookup_1 in Hr.
  - by rewrite !list_lookup_alter_ne.
Qed.

Section alone.
Context `{F : FastHTTP} `{U : !Upstream} (cfg : Config) (IntN : nat → nat).
Local Abbreviation alone := (λ (_ : nat) (w : world), w).

Lemma attempt_store n i path query req tried le (s : Ctx * world) :
  in_range (w_store s.2) →
  w_store (attempt cfg IntN alone n i path query req tried le s).2.2 = w_store s.2.
Proof.
  revert i req tried le s. induction n as [|n IH]; intros i req tried le s Hr.
  { simpl attempt. by rewrite fail_world. }
  rewrite attempt_S. destruct (drawn _ _ _) as [[p|] b]; [|by rewrite fail_world].
  cbn zeta. set (w := set_bal b s.2). set (req' := outgoing _ _ _ _ _ _).
  assert (w_store (called p req' w) = w_store s.2) as Hw by by apply alter_active_undo.
  destruct (DoTimeout _ _ _) as [res|err]; cbn [snd].
  - by rewrite relay_world.
  - by rewrite IH; cbn [snd]; rewrite Hw.
Qed.
End alone.

(** ** Drawing an untried target *)

Definition sticky (b : Balancer) : Prop := algo b = LeastConn ∨ algo b = IPHash.

Lemma Pick_sticky IntN st key b : sticky b → (Pick IntN st key b).2 = b.
Proof.
  intros [Ha|Ha]; unfold Pick; rewrite Ha; by destruct (pool _ _).
Qed.

Lemma draw_sticky IntN st key b tried k p :
  sticky b → (Pick IntN st key b).1 = Some p → p ∈ tried →
  draw IntN k st key tried b = (None, b).
Proof.
  intros Hb Hp Ht. pose proof (Pick_sticky IntN st key b Hb) as Hb'.
  induction k as [|k IH]; [done|]. simpl.
  destruct (Pick IntN st key b) as [o b']. simpl in *. subst. by rewrite bool_decide_true.
Qed.

Lemma draw_sticky_first IntN st key b tried k p b' :
  sticky b → draw IntN k st key tried b = (Some p, b') →
  (Pick IntN st key b).1 = Some p ∧ b' = b.
Proof.
  intros Hb. pose proof (Pick_sticky IntN st key b Hb) as Hb'.
  induction k as [|k IH]; simpl; [done|].
  destruct (Pick IntN st key b) as [[t|] b1]; simpl in *; [|done]. subst.
  case_bool_decide; [apply IH|]. intros. by simplify_eq.
Qed.

(** Round robin finds an untried healthy target when no target is counted more
    than once. *)
Lemma draw_round_robin IntN st key b tried p k :
  round_robin b → (0 ≤ counter b)%Z →
  (counter b + Z.of_nat k < 2 ^ 64)%Z → length (pool st (targets b)) ≤ k →
  p ∈ pool st (targets b) → p ∉ tried →
  ∃ t b', draw IntN k st key tried b = (Some t, b').
Proof.
  intros Hrr Hc Hov Hk Hp Hnt.
  assert (∀ j, j ≤ k → ∀ b1, round_robin b1 → targets b1 = targets b → (0 ≤ counter b1)%Z →
    (counter b1 + Z.of_nat j < 2 ^ 64)%Z → (∃ x, Some x ∈ picks IntN j st key b1 ∧ x ∉ tried) →
    ∃ t b', draw IntN j st key tried b1 = (Some t, b')) as Hdraw.
  { clear -Hp. assert (pool st (targets b) ≠ []) as Hne.
    { intros Hn. rewrite Hn in Hp. by apply not_elem_of_nil in Hp. }
    intros j. induction j as [|j IH]; intros Hj b1 Hrr1 Ht1 Hc1 Hov1 (x & Hx & Hxt).
    { by apply not_elem_of_nil in Hx. }
    simpl in *. rewrite Pick_round_robin in * by (rewrite ?Ht1; try done; lia).
    simpl in Hx. destruct (pool st (targets b1) !! _) as [t|] eqn:Hl.
    - case_bool_decide as Htt; [|eauto].
      apply elem_of_cons in Hx as [?|Hx]; [by simplify_eq|].
      apply IH; try done; simpl; try lia. eauto.
    - exfalso. apply lookup_ge_None in Hl. rewrite Ht1 in Hl.
      assert (0 < length (pool st (targets b))) by (destruct (pool st (targets b)); [done|simpl; lia]).
      pose proof (Z.mod_pos_bound (counter b1) (Z.of_nat (length (pool st (targets b))))). lia. }
  apply Hdraw; try done. exists p. split; [|done].
  assert (∀ j b1, j ≤ k → picks IntN k st key b1 = picks IntN j st key b1 ++
    drop j (picks IntN k st key b1)) as Hpre.
  { clear. intros j. induction k as [|k IH] in j |- *; intros b1 Hj.
    - by replace j with 0 by lia.
    - destruct j as [|j]; [done|]. simpl. f_equal. apply IH. lia. }
  rewrite (Hpre (length (pool st (targets b))) b Hk), elem_of_app. left.
  rewrite picks_cycle by (try done; lia). apply list_elem_of_fmap_2. by rewrite rotate_perm.
Qed.
