(* ===== verification/ProxyProps.v ===== *)
(** * Properties of the balancer, the health checker and the HTTP proxy *)

From S2P Require Import Prelude GoStrings Effects FastHTTP Core Balancer Health Net Proxy ProxyTheory.

(** ** Balancing *)

(** [Pick] returns a target of the pool that is healthy, for every algorithm,
    and nothing exactly when every target is down. *)
Theorem Pick_healthy (IntN : nat → nat) st key b :
  (∀ n, 0 < n → IntN n < n) →
  match (Pick IntN st key b).1 with
  | Some p => p ∈ targets b ∧ ∃ t, st !! p = Some t ∧ healthy t = true
  | None => ∀ p t, p ∈ targets b → st !! p = Some t → healthy t = false
  end.
Proof.
  intros HIntN. destruct (Pick IntN st key b).1 as [p|] eqn:Hp.
  - apply elem_pool. by eapply Pick_elem.
  - by apply pool_nil, (Pick_None IntN st key b).
Qed.

(** C17 Round robin is fair: over one cycle of as many picks as the weights of the
    healthy targets add up to, each healthy target is chosen exactly as often as
    its weight, wherever the counter starts, as long as the 64-bit counter does
    not wrap during the cycle. *)
Theorem round_robin_fair IntN st key b p t :
  round_robin b → (0 ≤ counter b)%Z →
  (counter b + Z.of_nat (length (pool st (targets b))) < 2 ^ 64)%Z →
  NoDup (targets b) → p ∈ targets b → st !! p = Some t → healthy t = true →
  occurrences p (omap id (picks IntN (length (pool st (targets b))) st key b)) = weight t.
Proof.
  intros Hrr Hc Hov Hnd Hp Ht Hh. rewrite picks_cycle by done.
  rewrite <- (pool_occurrences st (targets b) p t) by done.
  apply occurrences_perm. etrans; [|apply (rotate_perm (Z.to_nat (counter b)))].
  induction (rotate (Z.to_nat (counter b)) (pool st (targets b))) as [|x l IH]; [done|].
  simpl. by constructor.
Qed.

(** Least connections picks a healthy target with the fewest requests in
    flight: none of the healthy targets has fewer. *)
Theorem least_conn_minimal IntN st key b p :
  algo b = LeastConn → (Pick IntN st key b).1 = Some p →
  ∀ q t, q ∈ targets b → st !! q = Some t → healthy t = true →
    (active_of st p ≤ active_of st q)%Z.
Proof.
  intros Ha Hp q t Hq Ht Hh. assert (q ∈ pool st (targets b)) as Hqp by (apply elem_pool; eauto).
  unfold Pick in Hp. rewrite Ha in Hp. destruct (pool st (targets b)) as [|p0 rest]; [done|].
  simpl in Hp. simplify_eq. destruct (least_spec st p0 rest) as (l1 & l2 & _ & _ & Hall).
  by apply Hall.
Qed.

(** ** Health *)

(** C18 The checker's single counter implements both thresholds: whatever the
    history of probes, the next answer takes a healthy target out of rotation
    exactly when it completes [FailThreshold] consecutive failures, and puts an
    unhealthy one back exactly when it completes [SuccessThreshold] consecutive
    successes. *)
Theorem health_thresholds (c : HealthCheck) t (h : list bool) (r : bool) :
  (FailThreshold c < 2 ^ 63)%Z → (SuccessThreshold c < 2 ^ 63)%Z →
  healthy t = true → fails t = 0%Z →
  let c' := setDefaults c in
  healthy (after c' t (h ++ [r])) =
  if healthy (after c' t h) then negb (FailThreshold c' <=? trailing false (h ++ [r]))%Z
  else (SuccessThreshold c' <=? trailing true (h ++ [r]))%Z.
Proof.
  intros HF HS Hh Hf c'. pose proof (setDefaults_thresholds c HF HS) as Hok.
  rewrite after_snoc. apply healthy_step; [done|]. by apply counts_after.
Qed.

(** A probe round has one outcome, whatever order its goroutines finish in:
    every target is updated once, by its own probe. *)
Theorem probe_round_order (c : HealthCheck) probe order order' st :
  NoDup order → order ≡ₚ order' →
  runOnce c probe order st = runOnce c probe order' st ∧
  ∀ p, p ∈ order →
    runOnce c probe order st !! p = (λ t, apply_probe c (probe t) t) <$> st !! p.
Proof.
  intros Hnd Hp. split; [|intros p Hin; by apply lookup_runOnce].
  apply list_eq. intros p. assert (NoDup order') as Hnd' by by rewrite <- Hp.
  destruct (decide (p ∈ order)) as [Hin|Hin].
  - rewrite !lookup_runOnce; try done. by rewrite <- Hp.
  - rewrite !lookup_runOnce_notin; try done. by rewrite <- Hp.
Qed.

(** However [start] and [stop] are called, at most one probe loop runs, and one
    runs exactly when the checker says so. *)
Theorem one_probe_loop (c : HealthCheck) calls :
  let k := checker_run calls (newChecker c) in
  loops k = if running k then 1 else 0.
Proof. by apply checker_one_loop. Qed.

(** ** Forwarding *)

(** The path sent upstream starts with a slash, and is the inbound path with
    [StripPrefix] removed and [AddPrefix] put in front. *)
Theorem rewritePath_spec `{FastHTTP} (c : Config) rest :
  let path := rewritePath c (StripPrefix c ++ rest) in
  HasPrefix path (B "/") = true ∧
  (path = AddPrefix c ++ rest ∨
   path = B "/" ++ AddPrefix c ++ rest ∧ HasPrefix (AddPrefix c ++ rest) (B "/") = false).
Proof.
  unfold rewritePath.
  assert (match StripPrefix c with
          | [] => StripPrefix c ++ rest
          | s => TrimPrefix (StripPrefix c ++ rest) s
          end = rest) as ->.
  { destruct (StripPrefix c) as [|x s] eqn:Hs; [done|]. rewrite <- Hs. apply TrimPrefix_app. }
  assert (match AddPrefix c with [] => rest | a => a ++ rest end = AddPrefix c ++ rest) as ->
    by by destruct (AddPrefix c).
  destruct (HasPrefix (AddPrefix c ++ rest) (B "/")) eqn:Hp; [by auto|].
  split; [apply HasPrefix_app|by auto].
Qed.

(** The response handed back to the client has no hop-by-hop header: neither
    the fixed ones nor those the upstream's [Connection] header names; every other
    header is the upstream's. *)
Theorem response_hop_by_hop `{!FastHTTPLaws F} (r : Response) k :
  Forall (λ n, resettable_header n = true) (connectionTokens (res_Peek r (B "Connection"))) →
  res_Peek (stripResponseHopByHop r) k =
  if hop_by_hop (res_Peek r (B "Connection")) k then [] else res_Peek r k.
Proof. apply peek_stripResponse. Qed.


(** When a request is done, however many targets it tried and whatever they
    answered, every target's count of requests in flight is what it was. *)
Theorem Do_restores_active `{U : Upstream} (cfg : Config) IntN dial url_Host (s : Ctx * world) :
  WebSocket cfg = false → in_range (w_store s.2) →
  w_store (Do cfg IntN (λ _ w, w) dial url_Host s).2.2 = w_store s.2.
Proof.
  intros Hws Hr. unfold Do, gets_ctx, gets, mbind, M_bind. cbn [fst snd id].
  rewrite Hws. cbn [andb]. by apply attempt_store.
Qed.

(** With every target down nothing is sent and the answer is 502. *)
Theorem Do_no_target `{!FastHTTPLaws F} `{U : !Upstream} (cfg : Config) IntN dial url_Host
    (s : Ctx * world) :
  WebSocket cfg = false → cfg_ErrorHandler cfg = None →
  pool (w_store s.2) (targets (w_bal s.2)) = [] →
  let out := Do cfg IntN (λ _ w, w) dial url_Host s in
  out.1 = Ret None ∧ w_sent out.2.2 = w_sent s.2 ∧
  res_StatusCode (ctx_Response (c_RequestCtx out.2.1)) = StatusBadGateway.
Proof.
  intros Hws He Hpool out. unfold out, Do, gets_ctx, gets, mbind, M_bind. cbn [fst snd id].
  rewrite Hws. cbn [andb]. destruct (Z.to_nat (wrap_i64 (MaxRetries cfg + 1))) as [|n].
  { simpl attempt. rewrite fail_world. by destruct (fail_502 cfg ErrNoTarget s). }
  rewrite attempt_S.
  assert (drawn IntN s.2 s.1 [] = (None, w_bal s.2)) as ->
    by (unfold drawn; cbn [draw]; unfold Pick; by rewrite Hpool).
  rewrite fail_world. destruct (fail_502 cfg (default ErrNoTarget None) (s.1, set_bal (w_bal s.2) s.2));
    done.
Qed.

Lemma alter_past {A} (l : list A) x r f : alter f (length l) (l ++ x :: r) = l ++ f x :: r.
Proof. induction l as [|y l IH]; [done|]. simpl. f_equal. exact IH. Qed.

Lemma alter_all (f : Target → Target) (us : list bytes) g pre :
  fold_left (λ st p, alter f p st) (seq (length pre) (length us)) (pre ++ (g <$> us)) =
  pre ++ ((λ u, f (g u)) <$> us).
Proof.
  revert pre. induction us as [|u us IH]; intros pre; [done|]. simpl. rewrite alter_past.
  specialize (IH (pre ++ [f (g u)])). rewrite length_app, <- !app_assoc in IH. simpl in IH.
  by rewrite Nat.add_1_r in IH.
Qed.

Lemma NewProxy_pool `{U : Upstream} (c : Config) st :
  cfg_Targets c ≠ [] →
  ∃ p, NewProxy c st = (p, fold_left (λ st p, alter (set_healthy true) p st) (cfg_Targets c)
                             (Config_SetDefaults c st).2) ∧
    targets (p_bal p) = cfg_Targets c ∧ p_checker p = newChecker (cfg_HealthCheck c) ∧
    p_started p = false.
Proof.
  intros Hne. unfold NewProxy, Config_SetDefaults. cbn [cfg_Targets snd].
  destruct (cfg_Targets c); [done|]. eexists. split_and!; reflexivity.
Qed.

(** [Balance] hands its middleware a pool of one new target per URL, in order, each with
    its URL in normal form, in rotation and idle. *)
Lemma Balance_pool `{U : Upstream} urls (cfg : Config) st IntN env dial url_Host :
  urls ≠ [] →
  let '(_, p, st') := Balance urls cfg st IntN env dial url_Host in
  targets (p_bal p) = seq (length st) (length urls) ∧
  st' = st ++ ((λ u, mkTarget (normalizeURL u) 0 true 0 0) <$> urls) ∧
  running (p_checker p) = Enable (cfg_HealthCheck cfg).
Proof.
  intros Hne. unfold Balance, New. set (st0 := st ++ _). set (c := set_Targets _ cfg).
  destruct (NewProxy_pool c st0) as (p & -> & Ht & Hc & Hs); [by destruct urls|]. split_and!.
  - unfold Start. rewrite Hs. exact Ht.
  - unfold Config_SetDefaults. cbn [snd]. unfold c, st0. cbn [cfg_Targets set_Targets].
    by rewrite !alter_all.
  - unfold Start. rewrite Hs. cbn [p_checker]. rewrite Hc. unfold start, newChecker, c. cbn.
    by destruct (Enable _).
Qed.

(** C16 Retries do fail over under round robin when every target has weight one, as long as
    nothing else draws from the balancer during the search and its 64-bit counter does not
    wrap: if some healthy target has not been tried, the search offers one that has not.
    With larger weights, equal ones included, it may give up ([weighted_pick_gives_up]). *)
Theorem round_robin_fails_over IntN st key b tried p :
  round_robin b → (0 ≤ counter b)%Z →
  (counter b + Z.of_nat (S (length (targets b))) < 2 ^ 64)%Z →
  (∀ q t, q ∈ targets b → st !! q = Some t → weight t = 1) →
  p ∈ pool st (targets b) → p ∉ tried →
  ∃ t b', draw IntN (S (length (targets b))) st key tried b = (Some t, b') ∧ t ∉ tried.
Proof.
  intros Hrr Hc Hov Hw Hp Hnt.
  assert (length (pool st (targets b)) ≤ length (targets b)) as Hlen.
  { clear -Hw. induction (targets b) as [|q ts IH]; [done|]. rewrite pool_cons, length_app. simpl.
    assert (length (pool st ts) ≤ length ts) by (apply IH; intros; eapply Hw; [by right|done]).
    destruct (st !! q) as [t|] eqn:Hq; [|simpl; lia]. destruct (healthy t); [|simpl; lia].
    rewrite length_replicate, (Hw q t); [lia|left|done]. }
  destruct (draw_round_robin IntN st key b tried p (S (length (targets b)))) as (t & b' & Hd);
    try done; [lia|]. exists t, b'. split; [done|]. by eapply draw_untried.
Qed.

(** Under least connections and IP hash the proxy never fails over: the
    balancer offers the target that just failed again, so a request makes at most
    one call whatever [MaxRetries] says. *)
Theorem sticky_single_attempt `{U : Upstream} (cfg : Config) IntN dial url_Host (s : Ctx * world) :
  WebSocket cfg = false → sticky (w_bal s.2) → in_range (w_store s.2) →
  ∃ sent, w_sent (Do cfg IntN (λ _ w, w) dial url_Host s).2.2 = w_sent s.2 ++ sent ∧
    length sent ≤ 1.
Proof.
  intros Hws Hst Hr. unfold Do, gets_ctx, gets, mbind, M_bind. cbn [fst snd id].
  rewrite Hws. cbn [andb]. destruct (Z.to_nat (wrap_i64 (MaxRetries cfg + 1))) as [|n].
  { exists []. simpl attempt. rewrite fail_world, app_nil_r. split; [done|simpl; lia]. }
  rewrite attempt_S. destruct (drawn _ _ _) as [[p|] b] eqn:Hd.
  2: { exists []. rewrite fail_world, app_nil_r. split; [done|simpl; lia]. }
  unfold drawn in Hd. apply draw_sticky_first in Hd as [Hp ->]; [|done]. cbn zeta.
  set (req' := outgoing _ _ _ _ _ _). set (w := set_bal (w_bal s.2) s.2).
  exists [(p, req')]. split; [|simpl; lia].
  assert (w_store (called p req' w) = w_store s.2) as Hw by by apply alter_active_undo.
  destruct (DoTimeout _ _ _) as [res|err]; cbn [snd]; [by rewrite relay_world|].
  destruct n as [|n]; [simpl attempt; by rewrite fail_world|].
  rewrite attempt_S. unfold drawn. cbn [fst snd]. rewrite Hw.
  change (w_bal (called p req' w)) with (w_bal s.2).
  rewrite (draw_sticky _ _ _ _ _ _ p) by (try done; left). by rewrite fail_world.
Qed.

(** ** Witnesses *)

Module SimpleUpstream.
Import Simple.

(** Every call fails. *)
#[export] Instance down : Upstream := {
  SetRequestURI v r := mkRequest (rq_method r) v (rq_host r) (rq_query r) (rq_headers r) (rq_body r);
  RequestURI r := rq_path r;
  SetHost v r := mkRequest (rq_method r) (rq_path r) v (rq_query r) (rq_headers r) (rq_body r);
  DoTimeout n r t := inr (Err (B "connection refused"));
}.

#[export] Instance down_laws : UpstreamLaws down.
Proof. by split. Qed.

Definition config (algo : Algorithm) (retries : Z) (ws : bool) : Config :=
  mkConfig [] [0; 1] algo (B "/api") [] [] Second retries 0 (mkHealthCheck false 0 0 [] 0 0)
    None ws None None None.

Definition target (u : bytes) (w : Z) (up : bool) : Target := mkTarget u w up 0 0.
Definition two : store := [target (B "http://a") 1 true; target (B "http://b") 1 true].
Definition bal (algo : Algorithm) : Balancer := mkBalancer [0; 1] algo 0.
Definition start_state (st : store) (algo : Algorithm) (hs : headers) : Ctx * world :=
  (mkCtx _ (mkRequestCtx simple_http
              (mkRequest (B "GET") (B "/api/users") (B "example.com") [] hs [])
              (mkResponse 200 [] [] []) (B "192.0.2.1") false) None None None None,
   mkWorld st (bal algo) [] []).

Definition no_dial (req : dial_request) : option error := None.
Definition no_url (u : bytes) : option bytes := None.
Definition first (n : nat) : nat := 0.
End SimpleUpstream.

Section witnesses.
Import Simple SimpleUpstream.
Local Existing Instance simple_http.

Lemma two_in_range : in_range two.
Proof. repeat constructor; simpl; lia. Qed.

Lemma Pick_healthy_witness :
  match (Pick first two [] (bal RoundRobin)).1 with
  | Some p => p ∈ [0; 1] ∧ ∃ t, two !! p = Some t ∧ healthy t = true
  | None => False
  end.
Proof.
  exact (Pick_healthy first two [] (bal RoundRobin) (λ n (H : 0 < n), H)).
Defined.

Lemma round_robin_fair_witness :
  occurrences 1 (omap id (picks first 4
    [target (B "a") 1 true; target (B "b") 3 true] [] (bal RoundRobin))) = 3.
Proof.
  apply (round_robin_fair first [target (B "a") 1 true; target (B "b") 3 true] []
           (bal RoundRobin) 1 (target (B "b") 3 true));
    [by vm_compute|simpl; lia|by vm_compute|repeat constructor; set_solver|
     set_solver|reflexivity|reflexivity].
Defined.

Lemma least_conn_minimal_witness : (active_of two 0%nat ≤ active_of two 1%nat)%Z.
Proof.
  apply (least_conn_minimal first two [] (bal LeastConn) 0) with (t := target (B "http://b") 1 true);
    [reflexivity|reflexivity|set_solver|reflexivity|reflexivity].
Defined.

Lemma health_thresholds_witness :
  let c := mkHealthCheck true 0 0 [] 3 1 in
  healthy (after (setDefaults c) (target (B "a") 1 true) ([false; false] ++ [false])) = false.
Proof.
  exact (health_thresholds (mkHealthCheck true 0 0 [] 3 1) (target (B "a") 1 true)
           [false; false] false eq_refl eq_refl eq_refl eq_refl).
Defined.

Lemma probe_round_order_witness :
  let probe t := beqb (URL t) (B "http://a") in
  let c := setDefaults (mkHealthCheck true 0 0 [] 1 1) in
  runOnce c probe [0; 1] two = runOnce c probe [1; 0] two.
Proof.
  intros probe c. apply (probe_round_order c probe [0; 1] [1; 0] two).
  - repeat constructor; set_solver.
  - apply perm_swap.
Defined.

Lemma response_hop_by_hop_witness :
  res_Peek (stripResponseHopByHop
    (mkResponse 200 [] [(B "Connection", B "x-trace"); (B "X-Trace", B "1")] [])) (B "X-Trace") = [].
Proof.
  rewrite (response_hop_by_hop); [vm_compute; reflexivity|].
  vm_compute. repeat constructor.
Defined.


Lemma Do_restores_active_witness :
  w_store (Do (config RoundRobin 1 false) first (λ _ w, w) no_dial no_url
    (start_state two RoundRobin [])).2.2 = two.
Proof.
  apply (Do_restores_active (config RoundRobin 1 false) first no_dial no_url
           (start_state two RoundRobin [])); [reflexivity|apply two_in_range].
Defined.

Lemma Do_no_target_witness :
  let down := [target (B "http://a") 1 false; target (B "http://b") 1 false] in
  res_StatusCode (ctx_Response (c_RequestCtx
    (Do (config RoundRobin 1 false) first (λ _ w, w) no_dial no_url
       (start_state down RoundRobin [])).2.1)) = StatusBadGateway.
Proof.
  apply (Do_no_target (config RoundRobin 1 false) first no_dial no_url
    (start_state [target (B "http://a") 1 false; target (B "http://b") 1 false] RoundRobin []));
    reflexivity.
Defined.

Lemma round_robin_fails_over_witness :
  ∃ t b', draw first 3 two [] [0] (bal RoundRobin) = (Some t, b') ∧ t ∉ [0].
Proof.
  apply (round_robin_fails_over first two [] (bal RoundRobin) [0] 1);
    [by vm_compute|simpl; lia|simpl; lia| |apply elem_pool|set_solver].
  - intros [|[|q]] t _ Ht; simpl in Ht; simplify_eq; done.
  - split; [set_solver|]. exists (target (B "http://b") 1 true). done.
Defined.

Lemma sticky_single_attempt_witness :
  ∃ sent, w_sent (Do (config LeastConn 5 false) first (λ _ w, w) no_dial no_url
                    (start_state two LeastConn [])).2.2 = [] ++ sent ∧ length sent ≤ 1.
Proof.
  apply (sticky_single_attempt (config LeastConn 5 false) first no_dial no_url
           (start_state two LeastConn [])); [reflexivity|by left|apply two_in_range].
Defined.

(** ** What the model showed *)

(** Least connections with retries: one call, then 502, with a healthy target
    untried; round robin tries both. *)
Example sticky_does_not_fail_over :
  let sent algo := (w_sent (Do (config algo 5 false) first (λ _ w, w) no_dial no_url
                      (start_state two algo [])).2.2).*1 in
  sent LeastConn = [0] ∧ sent RoundRobin = [0; 1].
Proof. vm_compute. done. Qed.

(** With weights the bound of [pick] is too small: three draws all hit the
    heavy target, or the same one of two that weigh as much. *)
Example weighted_pick_gives_up :
  let st w := [target (B "a") 3 true; target (B "b") w true] in
  pool (st 1%Z) [0; 1] = [0; 0; 0; 1] ∧
  (draw first 3 (st 1%Z) [] [0] (bal RoundRobin)).1 = None ∧
  (draw first 3 (st 3%Z) [] [0] (bal RoundRobin)).1 = None.
Proof. vm_compute. done. Qed.

(** IP hash moves a client off a healthy target when another one goes down. *)
Example ip_hash_moves_clients :
  let st c := [target (B "a") 1 true; target (B "b") 1 true; target (B "c") 1 c] in
  let b := mkBalancer [0; 1; 2] IPHash 0 in
  (Pick first (st true) (B "10.0.0.1") b).1 = Some 0 ∧
  (Pick first (st false) (B "10.0.0.1") b).1 = Some 1.
Proof. vm_compute. done. Qed.

(** The upgrade path does not strip hop-by-hop headers. *)
Example upgrade_forwards_proxy_credentials :
  let hs := [(B "Connection", B "Upgrade"); (B "Upgrade", B "websocket");
             (B "Proxy-Authorization", B "secret")] in
  (λ x, req_Peek x.2 (B "Proxy-Authorization")) <$>
    w_hijacked (Do (config RoundRobin 0 true) first (λ _ w, w) no_dial no_url
                  (start_state two RoundRobin hs)).2.2 = [B "secret"].
Proof. vm_compute. done. Qed.
End witnesses.
