(* ===== verification/Tcp.v ===== *)
(** * The TCP proxy ([proxy/tcp.go])

    The life cycle ([Start], [Stop], the listener), the accept loop
    with its connection limit as a step relation, one connection ([handle]), and
    one turn of a copy loop and one direction of the copy ([Relay] runs both). Sockets
    are parameters: what [Listen], [Read], [Write] and the upstream dial answer. *)

From S2P Require Import Prelude GoStrings Effects Core Balancer Health Net Proxy.

(** [type TCPConn struct]; its [Locals] map is nil until [Set]. *)
Record TCPConn := mkTCPConn { tc_Target : option target_ptr; tc_Locals : option (gmap bytes any) }.
Definition TCPConn_Set (key : bytes) (val : any) (c : TCPConn) : TCPConn :=
  mkTCPConn (tc_Target c) (Some (<[key := val]> (default ∅ (tc_Locals c)))).
Definition TCPConn_Get (c : TCPConn) (key : bytes) : any :=
  match tc_Locals c with None => VNil | Some m => default VNil (m !! key) end.

(** A data hook sees the connection, whose [Locals] it may change, and a chunk; it
    answers the bytes to forward or an error. *)
Definition data_hook : Type := option (TCPConn → bytes → (bytes + error) * TCPConn).

(** [type TCPConfig struct]; of the two hooks that only look at a connection, whether
    they are set. *)
Record TCPConfig := mkTCPConfig {
  Enabled : bool;
  Address : bytes;
  Port : Z;
  TLSEnabled : bool;
  tcp_Name : bytes;
  tcp_Target : bytes;
  tcp_Targets : list target_ptr;
  tcp_Balancer : Algorithm;
  DialTimeout : Z;
  IdleTimeout : Z;
  MaxConnections : Z;
  tcp_HealthCheck : HealthCheck;
  UpstreamTLS : option tls_config;
  OnConnect : option (TCPConn → option error * TCPConn);
  OnClientData : data_hook;
  OnUpstreamData : data_hook;
  has_OnClose : bool;
  has_ErrorHandler : bool;
}.

Definition TCPConfig_SetDefaults (url_Host : bytes → option bytes) (c : TCPConfig) (st : store)
  : TCPConfig * store :=
  (mkTCPConfig (Enabled c) (match Address c with [] => B "0.0.0.0" | a => a end) (Port c)
     (TLSEnabled c) (match tcp_Name c with [] => B "tcp-proxy" | n => n end)
     (match tcp_Target c with [] => [] | t => hostPort url_Host t end)
     (tcp_Targets c) (tcp_Balancer c)
     (if (DialTimeout c <=? 0)%Z then 10 * Second else DialTimeout c)%Z
     (IdleTimeout c) (MaxConnections c) (tcp_HealthCheck c) (UpstreamTLS c)
     (OnConnect c) (OnClientData c) (OnUpstreamData c) (has_OnClose c) (has_ErrorHandler c),
   fold_left (λ st p, alter (λ t, mkTarget (hostPort url_Host (URL t)) (Weight t) (healthy t)
                                    (active t) (fails t)) p st) (tcp_Targets c) st).

(** ** Life cycle *)

(** [type TCPProxy struct] without the balancer; listeners are numbered.
    [l_bound] are the listeners [Start] opened that nobody closed, [l_loops] the
    listeners an accept loop is waiting on: a loop ends when its listener is closed. *)
Record TCPProxy := mkTCPProxy {
  config : TCPConfig;
  l_checker : checker;
  listener : option nat;
  injected : bool;
  isRunning : bool;
  l_bound : list nat;
  l_loops : list nat;
}.

(** [NewTCPProxy(config)], with the balancer and the store it creates. *)
Definition NewTCPProxy (url_Host : bytes → option bytes) (c : TCPConfig) (st : store)
  : TCPProxy * Balancer * store :=
  let '(c, st) := TCPConfig_SetDefaults url_Host c st in
  let '(ts, st) :=
    match tcp_Targets c, tcp_Target c with
    | [], _ :: _ => ([length st], st ++ [mkTarget (tcp_Target c) 0 false 0 0])
    | ts, _ => (ts, st)
    end in
  let '(b, st) := NewBalancer ts (tcp_Balancer c) st in
  (mkTCPProxy c (newChecker (tcp_HealthCheck c)) None false false [] [], b, st).

Definition SetListener (ln : nat) (p : TCPProxy) : TCPProxy :=
  mkTCPProxy (config p) (l_checker p) (Some ln) true (isRunning p) (l_bound p) (l_loops p).

(** What [net.Listen] and [tls.LoadX509KeyPair] answer for one call of [Start]. *)
Record start_env := mkStartEnv { listen : option nat; cert_ok : bool }.

Definition Start (targets : nat) (e : start_env) (p : TCPProxy) : option error * TCPProxy :=
  if isRunning p then (None, p)
  else if negb (Enabled (config p)) then (None, p)
  else if targets =? 0 then (Some (Err (tcp_Name (config p) ++ B ": no target configured")), p)
  else
    let serve ln p :=
      (None, mkTCPProxy (config p) (start (l_checker p)) (Some ln) (injected p) true
               (l_bound p) (ln :: l_loops p)) in
    match listener p with
    | Some ln => serve ln p
    | None =>
        match listen e with
        | None => (Some (Err (tcp_Name (config p) ++ B ": listen")), p)
        | Some ln =>
            if TLSEnabled (config p) && negb (cert_ok e) then
              (* [ln] is closed again *)
              (Some (Err (tcp_Name (config p) ++ B ": load TLS keypair")), p)
            else
              serve ln (mkTCPProxy (config p) (l_checker p) (Some ln) (injected p) false
                          (ln :: l_bound p) (l_loops p))
        end
    end.

(** [Stop]: an injected listener is left to cmux. *)
Definition Stop (p : TCPProxy) : TCPProxy :=
  if negb (isRunning p) then p
  else
    let close l :=
      match listener p with
      | Some ln => if injected p then l else List.remove Nat.eq_dec ln l
      | None => l
      end in
    mkTCPProxy (config p) (stop (l_checker p)) None (injected p) false
      (close (l_bound p)) (close (l_loops p)).

Definition Config (p : TCPProxy) : TCPConfig := config p.
Definition tcp_GetName (p : TCPProxy) : bytes := tcp_Name (config p).
Definition tcp_GetPaths : list bytes := [].
Definition tcp_IsRunning (p : TCPProxy) : bool := isRunning p.
(** [Targets]; the model keeps the balancer beside the proxy. *)
Definition tcp_Targets_of (b : Balancer) : list target_ptr := Targets b.

Definition tcp_GetInfo (targets : nat) (p : TCPProxy) : bytes :=
  B "TCP proxy on " ++ Address (config p) ++ B ":" ++ format_int (Port (config p)) ++ B " -> " ++
  format_int (Z.of_nat targets) ++ B " target(s)".

Inductive tcp_call :=
  | CallSetListener (ln : nat)
  | CallTcpStart (e : start_env)
  | CallTcpStop.
Definition tcp_apply (targets : nat) (c : tcp_call) (p : TCPProxy) : TCPProxy :=
  match c with
  | CallSetListener ln => SetListener ln p
  | CallTcpStart e => (Start targets e p).2
  | CallTcpStop => Stop p
  end.
Definition tcp_run (targets : nat) (cs : list tcp_call) (p : TCPProxy) : TCPProxy :=
  fold_left (λ p c, tcp_apply targets c p) cs p.

(** ** The accept loop *)

(** Where the loop is: waiting in [Accept], past the limit check, or returned. *)
Inductive accept_pc := Accepting | Checked | Ended.
Record accept_state := mkAccept { pc : accept_pc; a_active : Z; a_total : Z; a_conns : nat }.

Definition full (max : Z) (s : accept_state) : bool := (0 <? max)%Z && (max <=? a_active s)%Z.

(** One step of the loop or of a connection's goroutine; every counter update is
    atomic and connections end at any time. An error of [Accept] that is not a timeout
    ends the loop. *)
Inductive accept_step (max : Z) : accept_state → accept_state → Prop :=
  | step_timeout s : pc s = Accepting → accept_step max s s
  | step_accept_error s :
      pc s = Accepting → accept_step max s (mkAccept Ended (a_active s) (a_total s) (a_conns s))
  | step_refuse s : pc s = Accepting → full max s = true → accept_step max s s
  | step_check s :
      pc s = Accepting → full max s = false →
      accept_step max s (mkAccept Checked (a_active s) (a_total s) (a_conns s))
  | step_serve s :
      pc s = Checked →
      accept_step max s (mkAccept Accepting (a_active s + 1) (wrap_u64 (a_total s + 1)) (S (a_conns s)))
  | step_finish s n :
      a_conns s = S n →
      accept_step max s (mkAccept (pc s) (a_active s - 1) (a_total s) n).

(** [Stats] *)
Definition Stats (s : accept_state) : Z * Z := (a_active s, a_total s).

Definition accept_init : accept_state := mkAccept Accepting 0 0 0.

(** ** One connection *)

(** How the handling of a connection ended. *)
Inductive handled :=
  | Refused (tc : TCPConn) (e : error)
  | NoTarget (tc : TCPConn)
  | DialFailed (tc : TCPConn) (p : target_ptr) (addr : bytes) (e : error)
  | Relayed (tc : TCPConn) (p : target_ptr) (sent received : Z).

(** [(p *TCPProxy).handle] on a client at the address [remote]: the outcome and its effect
    on the pool. [dial] answers what [dialUpstream] asks for; [relay] is what happens while
    bytes are relayed ([Relay]): to the connection record, with the two counts, and to the
    pool. *)
Definition handle (cfg : TCPConfig) (IntN : nat → nat) (dial : dial_request → option error)
    (relay : TCPConn → store → TCPConn * (Z * Z) * store) (remote : bytes) (s : store * Balancer)
    : handled * (store * Balancer) :=
  let tc := mkTCPConn None None in
  match match OnConnect cfg with Some f => f tc | None => (None, tc) end with
  | (Some e, tc) => (Refused tc e, s)
  | (None, tc) =>
      let '(st, b) := s in
      match Pick IntN st (client_key remote) b with
      | (None, b) => (NoTarget tc, (st, b))
      | (Some p, b) =>
          let tc := mkTCPConn (Some p) (tc_Locals tc) in
          let addr := target_URL st p in
          let secure := match UpstreamTLS cfg with Some _ => true | None => false end in
          match dial (dialUpstream addr secure (UpstreamTLS cfg) (DialTimeout cfg)) with
          | Some e => (DialFailed tc p addr e, (alter (set_healthy false) p st, b))
          | None =>
              let st := alter (add_active 1) p st in
              let '((tc, (sent, received)), st) := relay tc st in
              (Relayed tc p sent received, (alter (add_active (-1)) p st, b))
          end
      end
  end.

(** ** What is reported *)

(** The sentinel errors of [net], [io] and [syscall] the source compares with. *)
Definition ErrClosed : error := Err (B "use of closed network connection").
Definition EOF : error := Err (B "EOF").
Definition ECONNRESET : error := Err (B "connection reset by peer").
Definition ECONNABORTED : error := Err (B "software caused connection abort").

(** A call of [ErrorHandler] or [OnClose], or a line of the log. *)
Inductive tcp_event :=
  | EvError (tc : TCPConn) (e : error)
  | EvLogged (line : bytes)
  | EvClose (tc : TCPConn) (sent received : Z).

Section reports.
Context (errors_Is : error → error → bool).

Definition isClosedConn (err : error) : bool :=
  errors_Is err ErrClosed || errors_Is err EOF || errors_Is err ECONNRESET ||
  errors_Is err ECONNABORTED.

(** [reportErr(tc, err)]; [cause] is the error [err] wraps, or [err] itself. *)
Definition report (cfg : TCPConfig) (tc : TCPConn) (cause err : error) : list tcp_event :=
  if isClosedConn cause then []
  else if has_ErrorHandler cfg then [EvError tc err]
  else [EvLogged (B "[" ++ tcp_Name cfg ++ B "] " ++ err_Error err)].

(** What [handle] reports once it knows how the connection ended, and what the accept loop
    reports of a connection it turns away. *)
Definition handle_events (cfg : TCPConfig) (h : handled) : list tcp_event :=
  match h with
  | Refused tc e => report cfg tc e e
  | NoTarget tc => report cfg tc ErrNoTarget ErrNoTarget
  | DialFailed tc p addr e =>
      report cfg tc e (Err (B "dial " ++ addr ++ B ": " ++ err_Error e))
  | Relayed tc p sent received =>
      if has_OnClose cfg then [EvClose tc sent received] else []
  end.
Definition limit_events (cfg : TCPConfig) : list tcp_event :=
  let err := Err (B "connection limit of " ++ format_int (MaxConnections cfg) ++ B " reached") in
  report cfg (mkTCPConn None None) err err.
End reports.

(** ** Copying bytes *)

(** One [Read]: the bytes it returned and its error; [EOF] is told apart. *)
Inductive read_end := ReadEOF | ReadErr (e : error).
Record read_result := mkRead { r_bytes : bytes; r_end : option read_end }.

(** What [copy] has done so far: the count it will return and the bytes that reached
    [dst]; the connection record belongs to both directions. *)
Record copy_state := mkCopy { cs_tc : TCPConn; cs_total : Z; cs_out : bytes }.

(** The hook on a chunk that was read. *)
Definition inspect (hook : data_hook) (tc : TCPConn) (chunk : bytes) : (bytes + error) * TCPConn :=
  match hook with Some f => f tc chunk | None => (inl chunk, tc) end.

(** One turn of the loop of [copy] on what [src.Read] answered; [write] is what
    [dst.Write] answers. The second component is the error returned, if it returns. *)
Definition turn (hook : data_hook) (write : bytes → nat * option error) (r : read_result)
    (x : copy_state) : copy_state * option (option error) :=
  let finish x :=
    (x, match r_end r with
        | Some ReadEOF => Some None
        | Some (ReadErr e) => Some (Some e)
        | None => None
        end) in
  match r_bytes r with
  | [] => finish x
  | chunk =>
      match inspect hook (cs_tc x) chunk with
      | (inr e, tc) => (mkCopy tc (cs_total x) (cs_out x), Some (Some e))
      | (inl [], tc) => finish (mkCopy tc (cs_total x) (cs_out x))
      | (inl chunk, tc) =>
          let '(n, werr) := write chunk in
          let x := mkCopy tc (wrap_i64 (cs_total x + Z.of_nat n)) (cs_out x ++ take n chunk) in
          match werr with Some e => (x, Some (Some e)) | None => finish x end
      end
  end.

(** [copy] while nothing else touches the connection record: [reads] are the answers
    of [src.Read] in order ([None] at the end: it still waits), [write k] the answer of
    [dst.Write] on the k-th turn. *)
Fixpoint copy (hook : data_hook) (write : nat → bytes → nat * option error)
    (reads : list read_result) (k : nat) (x : copy_state) : copy_state * option (option error) :=
  match reads with
  | [] => (x, None)
  | r :: reads =>
      match turn hook (write k) r x with
      | (x, Some ret) => (x, Some ret)
      | (x, None) => copy hook write reads (S k) x
      end
  end.

(** ** Lemmas *)

(** The bytes of one read the hook lets through. *)
Definition passed (hook : data_hook) (tc : TCPConn) (r : read_result) : bytes :=
  match r_bytes r with
  | [] => []
  | chunk => match (inspect hook tc chunk).1 with inl b => b | inr _ => [] end
  end.
(** The connection record after the hook. *)
Definition inspected (hook : data_hook) (tc : TCPConn) (r : read_result) : TCPConn :=
  match r_bytes r with [] => tc | chunk => (inspect hook tc chunk).2 end.

(** The bytes the hook lets through, read by read. *)
Fixpoint forwarded (hook : data_hook) (tc : TCPConn) (reads : list read_result) : bytes :=
  match reads with
  | [] => []
  | r :: reads => passed hook tc r ++ forwarded hook (inspected hook tc r) reads
  end.

(** The contract of [io.Writer]. *)
Definition write_ok (write : bytes → nat * option error) : Prop :=
  ∀ b, (write b).1 ≤ length b ∧ ((write b).2 = None → (write b).1 = length b).
Definition writer_ok (write : nat → bytes → nat * option error) : Prop := ∀ k, write_ok (write k).

(** One turn sends a prefix of what the hook let through, and all of it unless the
    direction ends with an error. *)
Lemma turn_spec hook write r x :
  write_ok write → (0 ≤ cs_total x)%Z →
  (cs_total x + Z.of_nat (length (passed hook (cs_tc x) r)) < 2 ^ 63)%Z →
  let y := turn hook write r x in
  cs_tc y.1 = inspected hook (cs_tc x) r ∧
  ∃ sent, cs_out y.1 = cs_out x ++ sent ∧ cs_total y.1 = (cs_total x + Z.of_nat (length sent))%Z ∧
    sent `prefix_of` passed hook (cs_tc x) r ∧
    (y.2 = None ∨ y.2 = Some None → sent = passed hook (cs_tc x) r).
Proof.
  intros Hw Ht Hl. unfold turn, passed, inspected in *. destruct (r_bytes r) as [|c ch].
  { split; [done|]. exists []. by rewrite app_nil_r, Z.add_0_r. }
  destruct (inspect hook (cs_tc x) (c :: ch)) as [[b|e] tc]; simpl in *.
  2: { split; [done|]. exists []. by rewrite app_nil_r, Z.add_0_r. }
  destruct b as [|b0 b']; [split; [done|]; exists []; by rewrite app_nil_r, Z.add_0_r|].
  destruct (Hw (b0 :: b')) as [Hn Hfull]. destruct (write (b0 :: b')) as [n werr]. simpl in Hn, Hfull.
  assert (wrap_i64 (cs_total x + Z.of_nat n) = cs_total x + Z.of_nat n)%Z as Hz
    by (simpl in Hl; solve_z).
  assert (length (take n (b0 :: b')) = n) as Hlen by (rewrite length_take; simpl in *; lia).
  destruct werr as [e|]; simpl cs_tc; simpl cs_out; simpl cs_total; (split; [done|]);
    exists (take n (b0 :: b')); rewrite Hz, Hlen; split_and!; try done; try apply prefix_take.
  - intros [?|?]; simplify_eq.
  - intros _. rewrite (Hfull eq_refl). exact (firstn_all (b0 :: b')).
Qed.

Lemma copy_prefix hook write reads k x :
  writer_ok write → (0 ≤ cs_total x)%Z →
  (cs_total x + Z.of_nat (length (forwarded hook (cs_tc x) reads)) < 2 ^ 63)%Z →
  let y := copy hook write reads k x in
  ∃ sent, cs_out y.1 = cs_out x ++ sent ∧ sent `prefix_of` forwarded hook (cs_tc x) reads ∧
    cs_total y.1 = (cs_total x + Z.of_nat (length sent))%Z.
Proof.
  intros Hw. revert k x. induction reads as [|r reads IH]; intros k x Ht Hlen; simpl.
  { exists []. rewrite app_nil_r, Z.add_0_r. split_and!; [done|by exists []|done]. }
  simpl in Hlen. rewrite length_app in Hlen.
  destruct (turn_spec hook (write k) r x) as (Htc & sent & Ho & Hto & Hp & Hall); [done..|lia|].
  destruct (turn hook (write k) r x) as [y [ret|]]; simpl in *.
  { exists sent. split_and!; [done|by apply prefix_app_r|done]. }
  rewrite (Hall (or_introl eq_refl)) in *. clear Hall.
  destruct (IH (S k) y) as (sent' & Ho' & Hp' & Hto'); [lia|rewrite Htc; lia|].
  exists (passed hook (cs_tc x) r ++ sent'). rewrite Ho', Ho, Htc, app_assoc in *.
  split_and!; [done|by apply prefix_app|]. rewrite Hto', Hto, length_app. lia.
Qed.

(** A read of the whole stream with no error: everything arrived. *)
Lemma copy_complete hook write reads k x b :
  writer_ok write → (∀ k b, (write k b).2 = None) →
  (∀ tc c, ∃ y, (inspect hook tc c).1 = inl y) → (0 ≤ cs_total x)%Z →
  let all := reads ++ [mkRead b (Some ReadEOF)] in
  (cs_total x + Z.of_nat (length (forwarded hook (cs_tc x) all)) < 2 ^ 63)%Z →
  Forall (λ r, r_end r = None) reads →
  let y := copy hook write all k x in
  cs_out y.1 = cs_out x ++ forwarded hook (cs_tc x) all ∧
  cs_total y.1 = (cs_total x + Z.of_nat (length (forwarded hook (cs_tc x) all)))%Z ∧
  y.2 = Some None.
Proof.
  intros Hw Hok Hhook.
  assert (∀ k r x, (turn hook (write k) r x).2 = match r_end r with
      | Some ReadEOF => Some None | Some (ReadErr e) => Some (Some e) | None => None end) as Hret.
  { intros k' r x'. unfold turn. destruct (r_bytes r) as [|c ch]; [done|].
    destruct (Hhook (cs_tc x') (c :: ch)) as [y Hy].
    destruct (inspect hook (cs_tc x') (c :: ch)) as [z tc]. simpl in Hy. subst z.
    destruct y as [|y0 y']; [done|]. specialize (Hok k' (y0 :: y')).
    destruct (write k' (y0 :: y')) as [n e]. simpl in Hok. by subst. }
  revert k x. induction reads as [|r reads IH]; intros k x Ht all Hl Hends; subst all;
    cbn [app copy forwarded] in *.
  - rewrite app_nil_r in *. specialize (Hret k (mkRead b (Some ReadEOF)) x).
    destruct (turn_spec hook (write k) (mkRead b (Some ReadEOF)) x) as (_ & sent & Ho & Hto & _ & Hall); [done..|].
    destruct (turn hook (write k) _ x) as [y o]. simpl in *. subst o.
    by rewrite (Hall (or_intror eq_refl)) in *.
  - apply Forall_cons in Hends as [Hr Hends]. rewrite length_app in Hl.
    specialize (Hret k r x). rewrite Hr in Hret.
    destruct (turn_spec hook (write k) r x) as (Htc & sent & Ho & Hto & _ & Hall); [done..|lia|].
    destruct (turn hook (write k) r x) as [y o]. simpl in *. subst o.
    rewrite (Hall (or_introl eq_refl)) in *. rewrite <- Htc in *.
    destruct (IH (S k) y) as (Ho' & Hto' & He); [lia|lia|done|].
    rewrite Ho', Hto', Ho, Hto, app_assoc, length_app. split_and!; [done|lia|done].
Qed.

Inductive accept_steps (max : Z) : accept_state → Prop :=
  | accept_start : accept_steps max accept_init
  | accept_next s s' : accept_steps max s → accept_step max s s' → accept_steps max s'.

(** The accept loop's invariant. *)
Definition accept_inv (max : Z) (s : accept_state) : Prop :=
  a_active s = Z.of_nat (a_conns s) ∧
  ((0 < max)%Z → (a_active s ≤ max)%Z ∧ (pc s = Checked → a_active s < max)%Z).

Lemma accept_steps_inv max s : accept_steps max s → accept_inv max s.
Proof.
  induction 1 as [|s s' _ [Ha Hm] Hstep]; [split; simpl; [done|intros; split; [lia|done]]|].
  destruct Hstep as [s Hpc|s Hpc|s Hpc Hf|s Hpc Hf|s Hpc|s n Hn]; unfold accept_inv; simpl in *.
  - done.
  - split; [done|]. intros Hmax. by destruct (Hm Hmax).
  - done.
  - split; [done|]. intros Hmax. destruct (Hm Hmax) as [H1 H2]. split; [done|]. intros _.
    unfold full in Hf. apply andb_false_iff in Hf as [Hf|Hf];
      [apply Z.ltb_ge in Hf|apply Z.leb_gt in Hf]; lia.
  - split; [lia|]. intros Hmax. destruct (Hm Hmax) as [H1 H2]. specialize (H2 Hpc).
    split; [lia|done].
  - rewrite Hn in Ha. split; [lia|]. intros Hmax. destruct (Hm Hmax) as [H1 H2].
    split; [lia|]. intros Hpc. specialize (H2 Hpc). lia.
Qed.

(** Without an injected listener: one bound listener while running, none after. *)
Definition own_listener (p : TCPProxy) : Prop :=
  injected p = false ∧
  if isRunning p then ∃ ln, listener p = Some ln ∧ l_bound p = [ln] ∧ l_loops p = [ln]
  else listener p = None ∧ l_bound p = [] ∧ l_loops p = [].

Lemma own_listener_apply n c p :
  own_listener p → (∀ ln, c ≠ CallSetListener ln) → own_listener (tcp_apply n c p).
Proof.
  intros [Hi Hp] Hc. destruct c as [ln|e|]; [by destruct (Hc ln)|..]; unfold own_listener; simpl.
  - unfold Start. destruct (isRunning p) eqn:Hr; [simpl; by rewrite Hr|].
    destruct Hp as (Hl & Hb & Hloops).
    destruct (negb (Enabled _)); [simpl; by rewrite Hr|]. destruct (n =? 0); [simpl; by rewrite Hr|].
    rewrite Hl. destruct (listen e) as [ln|]; [|simpl; by rewrite Hr].
    destruct (TLSEnabled _ && _); [simpl; by rewrite Hr|]. simpl.
    split; [done|]. exists ln. by rewrite Hb, Hloops.
  - unfold Stop. destruct (isRunning p) eqn:Hr; [|simpl; by rewrite Hr].
    destruct Hp as (ln & Hl & Hb & Hloops). simpl. rewrite Hl, Hi, Hb, Hloops. simpl.
    by destruct (Nat.eq_dec ln ln).
Qed.

Lemma own_listener_run n cs p :
  own_listener p → (∀ ln, CallSetListener ln ∉ cs) → own_listener (tcp_run n cs p).
Proof.
  revert p. induction cs as [|c cs IH]; intros p Hp Hcs; [done|]. simpl. apply IH.
  - apply own_listener_apply; [done|]. intros ln ->. by destruct (Hcs ln); left.
  - intros ln Hln. by destruct (Hcs ln); right.
Qed.
