(* ===== verification/Relay.v ===== *)
(** * Both directions of a proxied connection ([proxy/tcp.go] [relay], [proxy/websocket.go])

    Two goroutines copy bytes, one each way, until both have returned; the shutdown of
    the proxy may close the two connections at any moment. The model is a state machine
    whose events are the turns of the two loops, the end of each goroutine and the
    cancellation; [os_ok] says which answers the sockets can give. The connection
    record the hooks see belongs to both goroutines. *)

From S2P Require Import Prelude GoStrings Effects Core Balancer Health Tcp.

(** The error of a deadline that passed. *)
Definition ErrDeadlineExceeded : error := Err (B "i/o timeout").

(** [Up] copies from the client to the upstream. *)
Inductive dir := Up | Down.
#[export] Instance dir_eq_dec : EqDecision dir.
Proof. solve_decision. Defined.
Definition other (d : dir) : dir := match d with Up => Down | Down => Up end.

(** A connection of ours, whose write side may be shut down. *)
Inductive conn_state := Open | WriteClosed | Closed.

(** One goroutine: its [copy], the value it returned, whether it is past
    [closeWrite]; [h_since] is when its current [Read] began. *)
Record half := mkHalf {
  h_total : Z;
  h_out : bytes;
  h_since : Z;
  h_ret : option (option error);
  h_done : bool;
}.
(** [conns d] is the connection the direction [d] writes to: [conns Up] is the
    upstream's, [conns Down] the client's. *)
Record relay_state := mkRelay {
  r_tc : TCPConn;
  halves : dir → half;
  conns : dir → conn_state;
  r_reports : list error;
  r_cancelled : bool;
}.
Definition dst (d : dir) (s : relay_state) : conn_state := conns s d.
Definition src (d : dir) (s : relay_state) : conn_state := conns s (other d).
Definition upd {A} (d : dir) (x : A) (f : dir → A) : dir → A := λ d', if decide (d' = d) then x else f d'.

(** What [relay] is given: the hooks, the idle timeout, and which of the two
    connections can be half-closed (a TCP or TLS connection can, one that comes from
    the port multiplexer cannot). *)
Record relay_env := mkRelayEnv {
  hooks : dir → data_hook;
  idle : Z;
  CloseWrite : dir → bool;
}.

Section relay.
Context (errors_Is : error → error → bool) (env : relay_env).

Local Abbreviation isClosedConn := (isClosedConn errors_Is).

(** [reportErr]: what reaches the error handler. *)
Definition reportErr (err : option error) (reports : list error) : list error :=
  match err with
  | Some e => if isClosedConn e then reports else reports ++ [e]
  | None => reports
  end.

(** [closeWrite] *)
Definition closeWrite (can : bool) (c : conn_state) : conn_state :=
  match c with Closed => Closed | _ => if can then WriteClosed else Closed end.

(** [Turn]: [Read] answered [r], and [Write] will answer as [w] says, the turn being
    over at the time given. [Finish]: the goroutine after its [copy] returned.
    [Cancel]: the context of the proxy is done. *)
Inductive event :=
  | Turn (d : dir) (at_ : Z) (r : read_result) (w : bytes → nat * option error)
  | Finish (d : dir)
  | Cancel.

Definition step (ev : event) (s : relay_state) : option relay_state :=
  match ev with
  | Turn d t r w =>
      let h := halves s d in
      match h_ret h with
      | Some _ => None
      | None =>
          let '(x, ret) := turn (hooks env d) w r (mkCopy (r_tc s) (h_total h) (h_out h)) in
          Some (mkRelay (cs_tc x) (upd d (mkHalf (cs_total x) (cs_out x) t ret false) (halves s))
                  (conns s) (r_reports s) (r_cancelled s))
      end
  | Finish d =>
      let h := halves s d in
      match h_ret h, h_done h with
      | Some err, false =>
          Some (mkRelay (r_tc s)
                  (upd d (mkHalf (h_total h) (h_out h) (h_since h) (h_ret h) true) (halves s))
                  (upd d (closeWrite (CloseWrite env d) (conns s d)) (conns s))
                  (reportErr err (r_reports s)) (r_cancelled s))
      | _, _ => None
      end
  | Cancel =>
      if r_cancelled s then None
      else Some (mkRelay (r_tc s) (halves s) (λ _, Closed) (r_reports s) true)
  end.

(** [relay] returns when both goroutines are done, with the two counts. *)
Definition relay_result (s : relay_state) : option (Z * Z) :=
  if h_done (halves s Up) && h_done (halves s Down)
  then Some (h_total (halves s Up), h_total (halves s Down)) else None.

Definition relay_start (tc : TCPConn) (now : Z) : relay_state :=
  mkRelay tc (λ _, mkHalf 0 [] now None false) (λ _, Open) [] false.

(** What sockets answer. A connection closed on our side fails at once; a read times
    out when it has waited for the idle timeout. *)
Definition read_fails (r : read_result) (e : error) : Prop :=
  r_bytes r = [] ∧ ∃ e', r_end r = Some (ReadErr e') ∧ errors_Is e' e = true.
Definition os_ok (ev : event) (s : relay_state) : Prop :=
  match ev with
  | Turn d t r w =>
      (h_since (halves s d) ≤ t)%Z ∧ write_ok w ∧
      (src d s = Closed → read_fails r ErrClosed) ∧
      (dst d s = Closed → ∀ b, (w b).1 = 0 ∧ ∃ e, (w b).2 = Some e ∧ errors_Is e ErrClosed = true) ∧
      (read_fails r ErrDeadlineExceeded → (0 < idle env)%Z ∧ (h_since (halves s d) + idle env ≤ t)%Z)
  | _ => True
  end.

(** The states a relay can reach, with the bytes the hooks have let through in each
    direction on the way. *)
Definition let_through (ev : event) (s : relay_state) (pass : dir → bytes) : dir → bytes :=
  match ev with
  | Turn d _ r _ => upd d (pass d ++ passed (hooks env d) (r_tc s) r) pass
  | _ => pass
  end.
Inductive relayed : relay_state → (dir → bytes) → Prop :=
  | relayed_start tc now : relayed (relay_start tc now) (λ _, [])
  | relayed_step ev s s' pass :
      relayed s pass → os_ok ev s → step ev s = Some s' → relayed s' (let_through ev s pass).

(** ** The invariants *)

Lemma upd_same {A} d (x : A) f : upd d x f d = x.
Proof. unfold upd. by rewrite decide_True. Qed.
Lemma upd_other {A} d d' (x : A) f : d' ≠ d → upd d x f d' = f d'.
Proof. intros. unfold upd. by rewrite decide_False. Qed.

(** A step that is not a turn of [d] leaves what it has copied alone. *)
Lemma step_other ev s s' d :
  step ev s = Some s' → (∀ t r w, ev ≠ Turn d t r w) →
  h_total (halves s' d) = h_total (halves s d) ∧ h_out (halves s' d) = h_out (halves s d) ∧
  h_ret (halves s' d) = h_ret (halves s d) ∧ (∀ pass, let_through ev s pass d = pass d).
Proof.
  intros Hs Hev. destruct ev as [d' t r w|d'|]; simpl in Hs.
  - assert (d ≠ d') by (intros ->; exact (Hev t r w eq_refl)). destruct (h_ret (halves s d')); [done|].
    destruct (turn _ _ _ _). simplify_eq. unfold let_through. simpl.
    rewrite !upd_other by done. split_and!; [done..|]. intros pass. by rewrite upd_other.
  - destruct (h_ret (halves s d')) eqn:Hr; [|done]. destruct (h_done (halves s d')); [done|].
    simplify_eq. simpl. unfold upd. case_decide; by subst.
  - destruct (r_cancelled s); by simplify_eq.
Qed.

(** What was copied is a prefix of what the hooks let through. *)
Definition copied (h : half) (p : bytes) : Prop :=
  h_out h `prefix_of` p ∧ h_total h = Z.of_nat (length (h_out h)) ∧
  (h_ret h = None ∨ h_ret h = Some None → h_out h = p).

Lemma relayed_copied s pass d :
  relayed s pass → (Z.of_nat (length (pass d)) < 2 ^ 63)%Z → copied (halves s d) (pass d).
Proof.
  induction 1 as [tc now|ev s s' pass _ IH Hos Hs]; intros Hlen; [done|].
  assert ((∃ t r w, ev = Turn d t r w) ∨ ∀ t r w, ev ≠ Turn d t r w) as [(t & r & w & ->)|Hne].
  { destruct ev as [d' t r w|d'|]; [destruct (decide (d = d')) as [->|]|..];
      [left; eauto|right; congruence..]. }
  2: { destruct (step_other ev s s' d Hs Hne) as (H1 & H2 & H3 & H4). unfold copied.
       rewrite H1, H2, H3, H4 in *. by apply IH. }
  simpl in Hs, Hlen |- *. rewrite upd_same, length_app in *.
  destruct IH as (Hp & Ht & Hall); [lia|]. destruct (h_ret (halves s d)); [done|].
  rewrite Hall in * by auto. clear Hall Hp. destruct Hos as (_ & Hw & _).
  destruct (turn_spec (hooks env d) w r (mkCopy (r_tc s) (h_total (halves s d)) (pass d)))
    as (_ & sent & Ho & Hto & Hpre & Heq); [done|simpl; lia|simpl; lia|].
  destruct (turn _ _ _ _) as [x ret]. simpl in *. simplify_eq. simpl.
  unfold copied. rewrite upd_same. simpl. rewrite Ho, Hto, Ht, length_app. split_and!.
  - by apply prefix_app.
  - lia.
  - intros Hr. by rewrite (Heq Hr).
Qed.

(** Unless the proxy shuts down, a connection is open until the direction that writes
    to it is done. *)
Definition open_until_done (s : relay_state) : Prop :=
  ∀ d, (h_done (halves s d) = true → h_ret (halves s d) ≠ None) ∧
       conns s d = if r_cancelled s then Closed
                   else if h_done (halves s d) then (if CloseWrite env d then WriteClosed else Closed)
                   else Open.

Lemma relayed_open s pass : relayed s pass → open_until_done s.
Proof.
  induction 1 as [tc now|ev s s' pass _ IH _ Hs]; [by intros d|]. intros d. pose proof (IH d) as [Hr Hc].
  destruct ev as [d' t r w|d'|]; simpl in Hs.
  - destruct (h_ret (halves s d')) eqn:Hret; [done|]. destruct (turn _ _ _ _). simplify_eq. simpl.
    unfold upd. case_decide; [subst|by rewrite Hc]. simpl. split; [done|].
    rewrite Hc. destruct (h_done (halves s d')); [by destruct Hr|done].
  - destruct (h_ret (halves s d')) eqn:Hret; [|done]. destruct (h_done (halves s d')) eqn:Hd; [done|].
    simplify_eq. simpl. unfold upd. case_decide; [subst|by rewrite Hc]. simpl. split; [done|].
    rewrite Hc, Hd. by destruct (r_cancelled s), (CloseWrite env d').
  - destruct (r_cancelled s); [done|]. by simplify_eq.
Qed.

(** Steps left once the connections are closed. *)
Definition rank1 (h : half) : nat :=
  if h_done h then 0 else match h_ret h with Some _ => 1 | None => 2 end.
Definition rank (s : relay_state) : nat := rank1 (halves s Up) + rank1 (halves s Down).

Lemma rank_upd s d h tc cs rep c :
  rank1 h < rank1 (halves s d) →
  rank (mkRelay tc (upd d h (halves s)) cs rep c) < rank s.
Proof. unfold rank. intros Hlt. destruct d; simpl; unfold upd; simpl in *; lia. Qed.

(** A turn on closed connections is the last of its loop. *)
Lemma turn_closed hook w r x :
  read_fails r ErrClosed → ∃ e, turn hook w r x = (x, Some (Some e)) ∧ errors_Is e ErrClosed = true.
Proof. intros (Hb & e & He & Hc). exists e. unfold turn. by rewrite Hb, He. Qed.

(** The errors that are reported are those of the directions that are done. *)
Definition reported (h : half) : list error :=
  match h_done h, h_ret h with
  | true, Some (Some e) => if isClosedConn e then [] else [e]
  | _, _ => []
  end.
Lemma relayed_reports s pass :
  relayed s pass → r_reports s ≡ₚ reported (halves s Up) ++ reported (halves s Down).
Proof.
  intros Hrel. induction Hrel as [tc now|ev s s' pass Hrel IH _ Hs]; [done|].
  assert (∀ d h l, reported h = reported (halves s d) ++ l →
    reported (upd d h (halves s) Up) ++ reported (upd d h (halves s) Down)
    ≡ₚ (reported (halves s Up) ++ reported (halves s Down)) ++ l) as Hupd.
  { intros d h l Hh. destruct d; unfold upd; simpl; rewrite Hh; solve_Permutation. }
  destruct ev as [d t r w|d|]; simpl in Hs.
  - destruct (h_ret (halves s d)) eqn:Hret; [done|]. destruct (turn _ _ _ _). simplify_eq. simpl.
    rewrite (Hupd d _ []), app_nil_r; [done|]. unfold reported at 2. rewrite Hret.
    by destruct (h_done (halves s d)).
  - destruct (h_ret (halves s d)) as [err|] eqn:Hret; [|done]. destruct (h_done (halves s d)) eqn:Hd; [done|].
    simplify_eq. simpl. rewrite (Hupd d _ (reportErr err [])).
    + unfold reportErr. destruct err as [e|]; [destruct (isClosedConn e)|]; by rewrite ?app_nil_r, IH.
    + unfold reported, reportErr. cbn [h_done h_ret]. rewrite Hd.
      by destruct err as [e|]; [destruct (isClosedConn e)|].
  - destruct (r_cancelled s); by simplify_eq.
Qed.
End relay.

(** ** The connection of an upgrade, once it is handed over ([doUpgrade], [pipe]) *)

(** The handshake goes up; the header read back and what was read with it go down;
    then [pipe] copies both ways. The answers of the sockets are arguments: the error of
    writing the handshake, the header with the bytes buffered behind it, the writes to
    the client. The result is what was written to the client and whether [pipe] is
    reached. *)
Definition hand_over (write_up : option error) (read_header : option (bytes * bytes))
    (write : nat → bytes → nat * option error) : bytes * bool :=
  match write_up, read_header with
  | Some _, _ | None, None => ([], false)
  | None, Some (header, buffered) =>
      let '(n, werr) := write 0 header in
      match werr with
      | Some _ => (take n header, false)
      | None =>
          match buffered with
          | [] => (take n header, true)
          | _ =>
              let '(m, werr) := write 1 buffered in
              (take n header ++ take m buffered, match werr with Some _ => false | None => true end)
          end
      end
  end.
(** [pipe]: the same two goroutines without hooks or deadlines; nothing cancels it. *)
Definition pipe_env (CloseWrite : dir → bool) : relay_env := mkRelayEnv (λ _, None) 0 CloseWrite.

(** [relay] of a TCP proxy. *)
Definition tcp_env (cfg : TCPConfig) (CloseWrite : dir → bool) : relay_env :=
  mkRelayEnv (λ d, match d with Up => OnClientData cfg | Down => OnUpstreamData cfg end)
    (IdleTimeout cfg) CloseWrite.

Lemma hand_over_in_order write_up header buffered write sent :
  writer_ok write → hand_over write_up (Some (header, buffered)) write = (sent, true) →
  sent = header ++ buffered.
Proof.
  intros Hw. unfold hand_over. destruct write_up; [done|].
  destruct (Hw 0 header) as [_ H0]. destruct (write 0 header) as [n [e|]]; [done|]. simpl in H0.
  rewrite (H0 eq_refl), firstn_all. destruct buffered as [|c b]; [intros [= <-]; by rewrite app_nil_r|].
  destruct (Hw 1 (c :: b)) as [_ H1]. destruct (write 1 (c :: b)) as [m [e|]]; [done|]. simpl fst in H1.
  rewrite (H1 eq_refl), firstn_all. by intros [= <-].
Qed.
