(* ===== verification/TcpProps.v ===== *)
(** * Properties of the TCP proxy *)

From S2P Require Import Prelude GoStrings Effects FastHTTP Core Balancer Health Net Proxy ProxyTheory Tcp.

(** C24 In every state the accept loop can reach, however connections end in
    between, the counter is the number of connections being served, and with a
    positive [MaxConnections] it never exceeds it. *)
Theorem connection_limit max s :
  accept_steps max s →
  a_active s = Z.of_nat (a_conns s) ∧ ((0 < max)%Z → (a_active s ≤ max)%Z).
Proof.
  intros [Ha Hm]%accept_steps_inv. split; [done|]. intros Hmax. by apply Hm.
Qed.

(** As long as no listener is injected, any sequence of [Start] and [Stop],
    failing listens and bad certificates included, leaves exactly one bound
    listener with one accept loop while the proxy runs, and none when it does
    not. *)
Theorem listeners_not_leaked url_Host c st n cs :
  (∀ ln, CallSetListener ln ∉ cs) →
  let p := tcp_run n cs (NewTCPProxy url_Host c st).1.1 in
  if isRunning p then ∃ ln, listener p = Some ln ∧ l_bound p = [ln] ∧ l_loops p = [ln]
  else listener p = None ∧ l_bound p = [] ∧ l_loops p = [].
Proof.
  intros Hcs p. apply (own_listener_run n cs _); [|done].
  unfold NewTCPProxy. simpl. unfold NewBalancer.
  by destruct (tcp_Targets c), (match tcp_Target c with [] => [] | t => hostPort url_Host t end).
Qed.

(** Whatever the reads, the write errors and the hook, the bytes that reach the
    other side are a prefix of what the hook let through, in order, and the count
    returned is their number. *)
Theorem copy_forwards_prefix hook write tc reads :
  writer_ok write → (Z.of_nat (length (forwarded hook tc reads)) < 2 ^ 63)%Z →
  let r := copy hook write reads 0 (mkCopy tc 0 []) in
  cs_out r.1 `prefix_of` forwarded hook tc reads ∧ cs_total r.1 = Z.of_nat (length (cs_out r.1)).
Proof.
  intros Hw Hlen r. destruct (copy_prefix hook write reads 0 (mkCopy tc 0 [])) as (sent & Hs & Hp & Hres);
    [done|simpl; lia|simpl; lia|]. unfold r. rewrite Hs, Hres. by split.
Qed.

(** When the sender closes and nothing fails, everything the hook let through
    has arrived and no error is reported. *)
Theorem copy_complete_at_eof hook write tc reads b :
  writer_ok write → (∀ k c, (write k c).2 = None) →
  (∀ tc c, ∃ y, (inspect hook tc c).1 = inl y) →
  Forall (λ r, r_end r = None) reads →
  let all := forwarded hook tc (reads ++ [mkRead b (Some ReadEOF)]) in
  (Z.of_nat (length all) < 2 ^ 63)%Z →
  let r := copy hook write (reads ++ [mkRead b (Some ReadEOF)]) 0 (mkCopy tc 0 []) in
  cs_out r.1 = all ∧ cs_total r.1 = Z.of_nat (length all) ∧ r.2 = Some None.
Proof.
  intros Hw Hok Hh He all Hlen. by apply (copy_complete hook write reads 0 (mkCopy tc 0 []) b).
Qed.

(** A connection leaves every target's count as it found it; it goes to a
    healthy target, and the only lasting change it can make to the pool is to take
    the target it could not reach out of rotation. *)
Theorem handle_pool cfg IntN dial relay host st b :
  (∀ tc st, (relay tc st).2 = st) → in_range st →
  let r := handle cfg IntN dial relay host (st, b) in
  match r.1 with
  | Refused _ _ | NoTarget _ => r.2.1 = st
  | DialFailed _ p _ _ => p ∈ pool st (targets b) ∧ r.2.1 = alter (set_healthy false) p st
  | Relayed _ p _ _ => p ∈ pool st (targets b) ∧ r.2.1 = st
  end.
Proof.
  intros Hrel Hr. unfold handle. destruct (match OnConnect cfg with Some _ => _ | None => _ end) as [[e|] tc]; [done|].
  pose proof (λ p, Pick_elem IntN st (client_key host) b p) as Hp.
  destruct (Pick IntN st (client_key host) b) as [[p|] b']; [|done].
  specialize (Hp p eq_refl). destruct (dial _); simpl; [done|].
  pose proof (Hrel (mkTCPConn (Some p) (tc_Locals tc)) (alter (add_active 1) p st)) as Hst.
  destruct (relay _ _) as [[tc' [sent received]] st']. simpl in *. subst st'.
  split; [done|]. by apply alter_active_undo.
Qed.

(** A relay that copies nothing. *)
Definition idle_relay (tc : TCPConn) (st : store) : TCPConn * (Z * Z) * store := (tc, (0, 0)%Z, st).

(** Connections arriving one after the other, each with its own dial outcome. *)
Fixpoint serve_all cfg IntN (cs : list (bytes * (dial_request → option error))) (s : store * Balancer)
  : list handled :=
  match cs with
  | [] => []
  | (host, dial) :: cs =>
      let '(h, s') := handle cfg IntN dial idle_relay host s in h :: serve_all cfg IntN cs s'
  end.

Lemma serve_all_down cfg IntN cs st b :
  OnConnect cfg = None → pool st (targets b) = [] →
  serve_all cfg IntN cs (st, b) = replicate (length cs) (NoTarget (mkTCPConn None None)).
Proof.
  intros Hc Hp. induction cs as [|[host dial] cs IH]; [done|]. simpl.
  unfold handle, Pick. rewrite Hc, Hp. by rewrite IH.
Qed.

(** What the proxy asks of the network for an upstream at [addr]. *)
Definition upstream_request (cfg : TCPConfig) (addr : bytes) : dial_request :=
  dialUpstream addr (match UpstreamTLS cfg with Some _ => true | None => false end) (UpstreamTLS cfg)
    (DialTimeout cfg).

(** With one target and no health checks, a single failed dial stops the proxy
    for good: every later connection is refused without trying the upstream, even
    once it is back. *)
Theorem dial_failure_is_permanent cfg IntN cs host dial e t st b p :
  OnConnect cfg = None → targets b = [p] → st !! p = Some t → healthy t = true →
  (∀ n, 0 < n → IntN n < n) → dial (upstream_request cfg (URL t)) = Some e →
  serve_all cfg IntN ((host, dial) :: cs) (st, b) =
  DialFailed (mkTCPConn (Some p) None) p (URL t) e ::
    replicate (length cs) (NoTarget (mkTCPConn None None)).
Proof.
  intros Hc Hts Ht Hh HIntN Hd. simpl. unfold handle, target_URL. rewrite Hc.
  pose proof (Pick_elem IntN st (client_key host) b) as Helem.
  pose proof (Pick_None IntN st (client_key host) b HIntN) as Hnone.
  pose proof (Pick_fixed IntN st (client_key host) b) as [Hfix _].
  assert (p ∈ pool st (targets b)) as Hin.
  { apply elem_pool. rewrite Hts. split; [left|eauto]. }
  destruct (Pick IntN st (client_key host) b) as [[q|] b'].
  2: { rewrite (proj1 Hnone eq_refl) in Hin. by apply not_elem_of_nil in Hin. }
  specialize (Helem q eq_refl). apply elem_pool in Helem as [Hq _].
  rewrite Hts in Hq. apply list_elem_of_singleton in Hq as ->. unfold upstream_request in Hd. rewrite Ht, Hd. simpl. f_equal.
  apply serve_all_down; [done|]. simpl in Hfix. rewrite Hfix, Hts. apply pool_nil.
  intros q u Hqp Hu. apply list_elem_of_singleton in Hqp. subst q.
  assert (set_healthy false <$> st !! p = Some u) as Hu'
    by (rewrite <- Hu; symmetry; apply list_lookup_alter_eq).
  rewrite Ht in Hu'. by simplify_eq/=.
Qed.

(** ** Witnesses *)

Definition tcp_cfg : TCPConfig :=
  mkTCPConfig true [] 5432 false [] [] [0] RoundRobin 0 0 2 (mkHealthCheck false 0 0 [] 0 0)
    None None None None false false.
Definition one_target : store := [mkTarget (B "db:5432") 1 true 0 0].
Definition full_write (k : nat) (b : bytes) : nat * option error := (length b, None).

Lemma full_write_ok : writer_ok full_write.
Proof. by intros k b. Qed.

Lemma connection_limit_witness :
  a_active (mkAccept Accepting 1 1 1) = 1%Z ∧ ((0 < 1)%Z → (1 ≤ 1)%Z).
Proof.
  apply (connection_limit 1).
  apply (accept_next _ (mkAccept Checked 0 0 0)); [|by apply (step_serve 1 (mkAccept Checked 0 0 0))].
  apply (accept_next _ accept_init); [constructor|by apply step_check].
Defined.

Lemma listeners_not_leaked_witness :
  let p := tcp_run 1 [CallTcpStart (mkStartEnv (Some 7) true); CallTcpStop]
             (NewTCPProxy (λ _, None) tcp_cfg one_target).1.1 in
  listener p = None ∧ l_bound p = [] ∧ l_loops p = [].
Proof.
  apply (listeners_not_leaked (λ _, None) tcp_cfg one_target 1
           [CallTcpStart (mkStartEnv (Some 7) true); CallTcpStop]).
  intros ln. set_solver.
Defined.

Definition fresh_conn : TCPConn := mkTCPConn None None.

Lemma copy_forwards_prefix_witness :
  cs_out (copy None full_write [mkRead (B "SELECT") None; mkRead [] (Some (ReadErr ErrNoTarget))] 0
            (mkCopy fresh_conn 0 [])).1 `prefix_of` B "SELECT".
Proof.
  apply (copy_forwards_prefix None full_write fresh_conn
           [mkRead (B "SELECT") None; mkRead [] (Some (ReadErr ErrNoTarget))]);
    [apply full_write_ok|reflexivity].
Defined.

(** A hook that drops the first chunk and keeps in [Locals] that it did. *)
Definition skip_first : data_hook :=
  Some (λ tc b, match TCPConn_Get tc (B "seen") with
                | VNil => (inl [], TCPConn_Set (B "seen") (VBool true) tc)
                | _ => (inl b, tc)
                end).

Lemma copy_complete_at_eof_witness :
  cs_out (copy skip_first full_write ([mkRead (B "HELLO") None; mkRead (B "SELECT") None] ++
            [mkRead (B " 1") (Some ReadEOF)]) 0 (mkCopy fresh_conn 0 [])).1 = B "SELECT 1".
Proof.
  apply (copy_complete_at_eof skip_first full_write fresh_conn
           [mkRead (B "HELLO") None; mkRead (B "SELECT") None] (B " 1"));
    [apply full_write_ok|done| |repeat constructor|vm_compute; reflexivity].
  intros tc c. unfold inspect, skip_first. destruct (TCPConn_Get tc (B "seen")); by eexists.
Defined.

Lemma handle_pool_witness :
  let r := handle tcp_cfg id (λ _, None) idle_relay (B "10.0.0.9") (one_target, mkBalancer [0] RoundRobin 0) in
  match r.1 with
  | Refused _ _ | NoTarget _ => r.2.1 = one_target
  | DialFailed _ p _ _ => p ∈ pool one_target [0] ∧ r.2.1 = alter (set_healthy false) p one_target
  | Relayed _ p _ _ => p ∈ pool one_target [0] ∧ r.2.1 = one_target
  end.
Proof.
  apply (handle_pool tcp_cfg id (λ _, None) idle_relay (B "10.0.0.9") one_target (mkBalancer [0] RoundRobin 0));
    [done|]. repeat constructor; simpl; lia.
Defined.

Lemma dial_failure_is_permanent_witness :
  serve_all tcp_cfg (λ _, 0) [(B "a", λ _, Some ErrNoTarget); (B "b", λ _, None)]
    (one_target, mkBalancer [0] RoundRobin 0) =
  [DialFailed (mkTCPConn (Some 0) None) 0 (B "db:5432") ErrNoTarget; NoTarget (mkTCPConn None None)].
Proof.
  apply (dial_failure_is_permanent tcp_cfg (λ _, 0) [(B "b", λ _, None)] (B "a")
           (λ _, Some ErrNoTarget) ErrNoTarget (mkTarget (B "db:5432") 1 true 0 0) one_target
           (mkBalancer [0] RoundRobin 0) 0); try reflexivity. intros n Hn. exact Hn.
Defined.

(** ** What the model showed *)

(** Once a listener was injected, [Stop] never closes one again: a later [Start]
    that binds its own port leaks it. *)
Example restart_after_injection_leaks :
  let p := tcp_run 1 [CallSetListener 3; CallTcpStart (mkStartEnv None true); CallTcpStop;
                      CallTcpStart (mkStartEnv (Some 7) true); CallTcpStop]
             (NewTCPProxy (λ _, None) tcp_cfg one_target).1.1 in
  isRunning p = false ∧ l_bound p = [7].
Proof. vm_compute. done. Qed.

(** An error of [Accept] that is not a timeout, such as running out of file
    descriptors, ends the accept loop for good: nothing is accepted any more, while
    [isRunning] stays set and the listener bound. *)
Lemma ended_loop_accepts_nothing max s s' :
  accept_step max s s' → pc s = Ended → pc s' = Ended ∧ a_total s' = a_total s.
Proof. destruct 1; simpl; intros ?; split; congruence. Qed.
Example accept_error_ends_the_loop : accept_steps 0 (mkAccept Ended 0 0 0).
Proof. eapply accept_next; [constructor|]. by apply (step_accept_error 0 accept_init). Qed.

(** A failed dial takes a target out without resetting its count of failed probes, which
    then counts as successes: after two failed probes and a failed dial a single success
    puts the target back, though three are required. *)
Example dial_failure_spends_the_streak :
  let checks := setDefaults (mkHealthCheck true 0 0 [] 3 3) in
  let cfg := mkTCPConfig true [] 5432 false [] [] [0] RoundRobin 0 0 2 checks None None None None
    false false in
  let probed r st := runOnce checks (λ _, r) [0] st in
  let st := probed false (probed false one_target) in
  let down := (handle cfg (λ _, 0) (λ _, Some ErrNoTarget) idle_relay (B "a") (st, mkBalancer [0] RoundRobin 0)).2.1 in
  (healthy <$> down !! 0) = Some false ∧ (healthy <$> probed true down !! 0) = Some true.
Proof. vm_compute. done. Qed.
