(* ===== verification/RelayProps.v ===== *)
(** * Properties of a relayed connection *)

From S2P Require Import Prelude GoStrings Effects Core Balancer Health Tcp Relay TcpProps.

Section relay_props.
Context (errors_Is : error → error → bool) (env : relay_env).
Local Abbreviation relayed := (relayed errors_Is env).
Local Abbreviation step := (step errors_Is env).
Local Abbreviation os_ok := (os_ok errors_Is env).

(** C25 In every state the two goroutines can reach, however they interleave and whatever
    the sockets answer, each side has received a prefix of what the hooks let through
    of the other's bytes, in order, and all of it while its direction goes on or when it
    ended without an error. The counts [relay] returns are the numbers of these bytes. *)
Theorem relay_delivers s pass :
  relayed s pass → (∀ d, Z.of_nat (length (pass d)) < 2 ^ 63)%Z →
  (∀ d, h_out (halves s d) `prefix_of` pass d ∧
        (h_ret (halves s d) = None ∨ h_ret (halves s d) = Some None → h_out (halves s d) = pass d)) ∧
  ∀ sent received, relay_result s = Some (sent, received) →
    sent = Z.of_nat (length (h_out (halves s Up))) ∧ received = Z.of_nat (length (h_out (halves s Down))).
Proof.
  intros Hrel Hlen.
  assert (∀ d, copied (halves s d) (pass d)) as Hc by (intros d; by eapply relayed_copied).
  split; [by intros d; destruct (Hc d) as (? & _ & ?)|]. intros sent received. unfold relay_result.
  destruct (_ && _); [|done]. intros [= <- <-].
  by destruct (Hc Up) as (_ & ? & _), (Hc Down) as (_ & ? & _).
Qed.

Inductive steps : relay_state → list event → relay_state → Prop :=
  | steps_nil s : steps s [] s
  | steps_cons s ev s' evs s'' :
      os_ok ev s → step ev s = Some s' → steps s' evs s'' → steps s (ev :: evs) s''.

Lemma relayed_closed s pass : relayed s pass → r_cancelled s = true → ∀ d, conns s d = Closed.
Proof. intros Hrel Hc d. destruct (relayed_open _ _ _ _ Hrel d) as [_ ->]. by rewrite Hc. Qed.

Lemma step_rank ev s s' pass :
  relayed s pass → r_cancelled s = true → os_ok ev s → step ev s = Some s' →
  rank s' < rank s ∧ r_cancelled s' = true.
Proof.
  intros Hrel Hc Hos Hs. destruct ev as [d t r w|d|]; simpl in Hs.
  - destruct (h_ret (halves s d)) eqn:Hret; [done|]. destruct Hos as (_ & _ & Hread & _).
    destruct (turn_closed errors_Is (hooks env d) w r
      (mkCopy (r_tc s) (h_total (halves s d)) (h_out (halves s d)))) as (e & He & _);
      [by apply Hread, (relayed_closed _ _ Hrel)|]. rewrite He in Hs. simplify_eq. split; [|done].
    apply rank_upd. destruct (relayed_open _ _ _ _ Hrel d) as [Hr _]. unfold rank1. simpl. rewrite Hret.
    destruct (h_done (halves s d)); [by destruct Hr|lia].
  - destruct (h_ret (halves s d)) as [err|] eqn:Hret; [|done].
    destruct (h_done (halves s d)) eqn:Hd; [done|]. simplify_eq. split; [|done].
    apply rank_upd. unfold rank1. simpl. rewrite Hd, Hret. lia.
  - by rewrite Hc in Hs.
Qed.

(** A direction that is not done can always go on. *)
Lemma progress s d :
  errors_Is ErrClosed ErrClosed = true → errors_Is ErrClosed ErrDeadlineExceeded = false →
  h_done (halves s d) = false → ∃ ev s', os_ok ev s ∧ step ev s = Some s'.
Proof.
  intros Hrefl Hne Hd. destruct (h_ret (halves s d)) as [err|] eqn:Hret.
  { exists (Finish d). eexists. split; [done|]. simpl. by rewrite Hret, Hd. }
  exists (Turn d (h_since (halves s d)) (mkRead [] (Some (ReadErr ErrClosed))) (λ _, (0, Some ErrClosed))).
  eexists. split; [|simpl; by rewrite Hret]. split_and!; [done| | | |].
  - intros b. simpl. split; [lia|done].
  - intros _. split; [done|]. by exists ErrClosed.
  - intros _ b. split; [done|]. by exists ErrClosed.
  - intros (_ & e & [= <-] & He). congruence.
Qed.

(** C27 Once the proxy is stopped a relay cannot hold it: whatever the sockets answer, the
    two goroutines take at most four more steps, they are never stuck before both have
    returned, and [relay] then returns. *)
Theorem relay_stops s pass evs s' :
  errors_Is ErrClosed ErrClosed = true → errors_Is ErrClosed ErrDeadlineExceeded = false →
  relayed s pass → r_cancelled s = true → steps s evs s' →
  length evs + rank s' ≤ 4 ∧
  ((∃ ev s'', os_ok ev s' ∧ step ev s' = Some s'') ∨ ∃ sent received, relay_result s' = Some (sent, received)).
Proof.
  intros Hrefl Hne Hrel Hc Hst.
  assert (length evs + rank s' ≤ rank s) as Hle.
  { revert pass Hrel Hc. induction Hst as [s|s ev s' evs s'' Hos Hs _ IH]; intros pass Hrel Hc; simpl; [done|].
    destruct (step_rank ev s s' pass) as [Hlt Hc']; [done..|].
    specialize (IH _ (relayed_step _ _ _ _ _ _ Hrel Hos Hs) Hc'). lia. }
  split.
  { etrans; [exact Hle|]. unfold rank, rank1. repeat case_match; lia. }
  unfold relay_result. destruct (h_done (halves s' Up)) eqn:Hu; [|left; by apply (progress _ Up)].
  destruct (h_done (halves s' Down)) eqn:Hd; [|left; by apply (progress _ Down)].
  right. eauto.
Qed.
End relay_props.

(** C26 A side of a proxied TCP connection that finishes sending cleanly is not cut off by
    that. As long as the proxy is not stopped, and if both connections can be half-closed, a
    direction that ended with the end of the file has delivered all that the hooks let
    through, and leaves the other alone: that one, while it copies, still reads from a
    connection that is not closed and writes to one that is open; and once the ended
    direction is past its last step the peer has been told, its connection being closed for
    writing and no more. *)
Theorem half_close errors_Is cfg can s pass d :
  relayed errors_Is (tcp_env cfg can) s pass → r_cancelled s = false → (∀ d, can d = true) →
  (Z.of_nat (length (pass (other d))) < 2 ^ 63)%Z →
  h_ret (halves s (other d)) = Some None → h_ret (halves s d) = None →
  h_out (halves s (other d)) = pass (other d) ∧ dst d s = Open ∧ src d s = if h_done (halves s (other d)) then WriteClosed else Open.
Proof.
  intros Hrel Hc Hcan Hlen Hend Hd. split.
  { destruct (relayed_copied _ _ _ _ (other d) Hrel Hlen) as (_ & _ & Hall). apply Hall. by right. }
  pose proof (relayed_open _ _ _ _ Hrel) as Ho. unfold dst, src.
  destruct (Ho d) as [Hdone ->], (Ho (other d)) as [_ ->]. rewrite Hc. cbn [tcp_env CloseWrite].
  rewrite !Hcan. split; [destruct (h_done (halves s d)); [by destruct Hdone|done]|done].
Qed.

(** ** Concrete runs *)

Module Wire.
(** [errors.Is] on errors that wrap nothing. *)
Definition errors_Is (e t : error) : bool := beqb (err_Error e) (err_Error t).
Definition is_closed (c : conn_state) : bool := match c with Closed => true | _ => false end.

(** Events with writes that succeed, unless the connections are closed. *)
Inductive wire := Data (d : dir) (at_ : Z) (b : bytes) | End (d : dir) (at_ : Z) (e : read_end)
  | Fin (d : dir) | Stop_.
Definition to_event (x : wire) : event :=
  match x with
  | Data d t b => Turn d t (mkRead b None) (λ b, (length b, None))
  | End d t e => Turn d t (mkRead [] (Some e)) (λ _, (0, Some ErrClosed))
  | Fin d => Finish d
  | Stop_ => Cancel
  end.
Definition fails_with (e : read_end) (target : error) : bool :=
  match e with ReadErr e => errors_Is e target | ReadEOF => false end.
Definition check (env : relay_env) (x : wire) (s : relay_state) : bool :=
  match x with
  | Data d t b => (h_since (halves s d) <=? t)%Z && negb (is_closed (dst d s)) && negb (is_closed (src d s))
  | End d t e =>
      (h_since (halves s d) <=? t)%Z && implb (is_closed (src d s)) (fails_with e ErrClosed) &&
      implb (fails_with e ErrDeadlineExceeded)
        ((0 <? idle env)%Z && (h_since (halves s d) + idle env <=? t)%Z)
  | _ => true
  end.
Fixpoint run (env : relay_env) (xs : list wire) (s : relay_state) : option relay_state :=
  match xs with
  | [] => Some s
  | x :: xs =>
      if check env x s then
        match step errors_Is env (to_event x) s with Some s => run env xs s | None => None end
      else None
  end.

Lemma check_ok env x s : check env x s = true → os_ok errors_Is env (to_event x) s.
Proof.
  destruct x as [d t b|d t e| |]; simpl; [|..|done|done]; rewrite !andb_true_iff, Z.leb_le.
  - intros [[Ht Hd] Hs]. split_and!; [done|by intros c|..].
    + intros Hc. by rewrite Hc in Hs.
    + intros Hc. by rewrite Hc in Hd.
    + by intros (_ & e & ? & _).
  - intros [[Ht Hs] He]. split_and!; [done|by intros c; simpl; split; [lia|]|..].
    + intros Hc. rewrite Hc in Hs. split; [done|]. destruct e as [|e]; [done|]. by exists e.
    + intros _ c. split; [done|]. by exists ErrClosed.
    + intros (_ & e' & [= ->] & Ht'). simpl in He. rewrite Ht' in He. simpl in He.
      apply andb_true_iff in He as [H1 H2]. apply Z.ltb_lt in H1. by apply Z.leb_le in H2.
Qed.
Lemma run_steps env xs s s' : run env xs s = Some s' → steps errors_Is env s (to_event <$> xs) s'.
Proof.
  revert s. induction xs as [|x xs IH]; intros s; simpl; [intros [= ->]; constructor|].
  destruct (check env x s) eqn:Hc; [|done]. destruct (step _ _ _ s) as [s1|] eqn:Hs; [|done].
  intros Hr. econstructor; [by apply check_ok|done|by apply IH].
Qed.
(** The bytes the hooks let through on the way. *)
Fixpoint through (env : relay_env) (xs : list wire) (s : relay_state) (pass : dir → bytes) : dir → bytes :=
  match xs with
  | [] => pass
  | x :: xs =>
      match step errors_Is env (to_event x) s with
      | Some s' => through env xs s' (let_through env (to_event x) s pass)
      | None => pass
      end
  end.
Lemma run_relayed env xs s s' pass :
  relayed errors_Is env s pass → run env xs s = Some s' → relayed errors_Is env s' (through env xs s pass).
Proof.
  revert s pass. induction xs as [|x xs IH]; intros s pass Hrel; simpl; [by intros [= <-]|].
  destruct (check env x s) eqn:Hc; [|done]. destruct (step _ _ _ s) as [s1|] eqn:Hs; [|done].
  intros Hr. apply IH; [|done]. by eapply relayed_step, Hs; [|apply check_ok].
Qed.

Definition start0 : relay_state := relay_start fresh_conn 0.
Definition plain_cfg : TCPConfig :=
  mkTCPConfig true [] 5432 false [] [] [0] RoundRobin 0 60 2 (mkHealthCheck false 0 0 [] 0 0) None None None None
    false false.
Definition plain : relay_env := tcp_env plain_cfg (λ _, true).
Definition outputs (s : relay_state) : bytes * bytes := (h_out (halves s Up), h_out (halves s Down)).

(** A client that asks, half-closes, and gets its answer. *)
Definition ask : list wire :=
  [Data Up 1 (B "PING"); End Up 2 ReadEOF; Fin Up; Data Down 3 (B "PONG"); End Down 4 ReadEOF; Fin Down].
(** The proxy is stopped while both sides are silent. *)
Definition stopped : list wire := [Data Up 1 (B "PING"); Stop_].
Definition drain : list wire :=
  [End Up 2 (ReadErr ErrClosed); End Down 2 (ReadErr ErrClosed); Fin Down; Fin Up].

(** A hook that refuses a chunk. *)
Definition refusing : relay_env :=
  mkRelayEnv (λ d, match d with Up => Some (λ tc _, (inr (Err (B "denied")), tc)) | Down => None end)
    0 (λ _, true).
End Wire.

Example half_closed_client_gets_its_answer :
  (λ s, (Wire.outputs s, relay_result s)) <$> Wire.run Wire.plain Wire.ask Wire.start0
  = Some (B "PING", B "PONG", Some (4, 4))%Z.
Proof. vm_compute. reflexivity. Qed.

(** The comment on [OnClientData] says an error closes the connection: only the
    upstream's write side is, and the client goes on receiving. *)
Example refused_client_keeps_receiving :
  (λ s, (r_reports s, Wire.outputs s, conns s Down)) <$> Wire.run Wire.refusing [Wire.Data Up 1 (B "DROP TABLE"); Wire.Fin Up; Wire.Data Down 2 (B "rows")]
        Wire.start0
  = Some ([Err (B "denied")], ([], B "rows"), Open).
Proof. vm_compute. reflexivity. Qed.

(** The idle timeout is said to count silence in both directions: it is kept per
    direction, and a client that only listens has its upstream shut down while bytes
    still flow. *)
Example idle_timeout_cuts_a_listener :
  (λ s, (r_reports s, Wire.outputs s, conns s Up)) <$> Wire.run Wire.plain
        [Wire.Data Down 20 (B "a"); Wire.Data Down 40 (B "b"); Wire.Data Down 59 (B "c");
         Wire.End Up 60 (ReadErr ErrDeadlineExceeded); Wire.Fin Up] Wire.start0
  = Some ([ErrDeadlineExceeded], ([], B "abc"), WriteClosed).
Proof. vm_compute. reflexivity. Qed.

(** The state after a run. *)
Definition after (env : relay_env) (xs : list Wire.wire) : relay_state :=
  default Wire.start0 (Wire.run env xs Wire.start0).

Lemma after_relayed env xs :
  Wire.run env xs Wire.start0 = Some (after env xs) →
  relayed Wire.errors_Is env (after env xs) (Wire.through env xs Wire.start0 (λ _, [])).
Proof. intros H. eapply Wire.run_relayed; [constructor|exact H]. Qed.

Lemma relay_delivers_witness :
  relay_result (after Wire.plain Wire.ask) = Some (4, 4)%Z ∧
  4%Z = Z.of_nat (length (h_out (halves (after Wire.plain Wire.ask) Up))).
Proof.
  split; [vm_compute; reflexivity|].
  refine (proj1 (proj2 (relay_delivers Wire.errors_Is Wire.plain (after Wire.plain Wire.ask) _
    (after_relayed _ _ _) _) 4%Z 4%Z _)); [vm_compute; reflexivity| |vm_compute; reflexivity].
  intros [|]; vm_compute; reflexivity.
Defined.

Lemma half_close_witness :
  dst Down (after Wire.plain (take 3 Wire.ask)) = Open ∧ src Down (after Wire.plain (take 3 Wire.ask)) = WriteClosed.
Proof.
  refine (proj2 (half_close Wire.errors_Is Wire.plain_cfg (λ _, true) _ _ Down (after_relayed _ _ _) _ _ _ _ _));
    [vm_compute; reflexivity..|by intros d|vm_compute; reflexivity|vm_compute; reflexivity|vm_compute; reflexivity].
Defined.

Lemma relay_stops_witness :
  length (Wire.to_event <$> Wire.drain) +
    rank (after Wire.plain (Wire.stopped ++ Wire.drain)) ≤ 4.
Proof.
  refine (proj1 (relay_stops Wire.errors_Is Wire.plain (after Wire.plain Wire.stopped) _ _ _ _ _
    (after_relayed _ _ _) _ (Wire.run_steps _ _ _ _ _))); try (vm_compute; reflexivity).
Defined.
