(* ===== verification/Middleware.v ===== *)
(** * Middleware ([middleware/])

    Each middleware is a [Middleware St]. Those that keep state of their own (the
    cache store, the rate limiter's visitors, the request counters) reach it through
    [Has], and read the clock through [Clock]; the handlers they wrap may change
    both. *)

From S2P Require Import Prelude GoStrings Base64 Effects FastHTTP Core.

(** A component [S] of the shared state [T]. *)
Class Has (S T : Type) := {
  view : T → S;
  over : (S → S) → T → T;
  view_over f t : view (over f t) = f (view t);
}.
#[export] Instance Has_self S : Has S S.
Proof. by refine {| view := id; over := id |}. Defined.

(** [time.Now()], in nanoseconds. *)
Class Clock (T : Type) := now : T → Z.

Section middleware.
Context `{F : FastHTTP} {St : Type}.

Definition on_state (f : St → St) : act St unit := modify (λ s, (s.1, f s.2)).
Definition mod_request (f : Request → Request) : act St unit := mod_RequestCtx (on_request f).
Definition request (c : Ctx) : Request := ctx_Request (c_RequestCtx c).
Definition response (c : Ctx) : Response := ctx_Response (c_RequestCtx c).

(** ** [recover.go] *)
Definition Recover : Middleware St := λ next,
  let h : hfn St :=
    recovering (call next)
      (λ _, Status StatusInternalServerError;;
            JSON (error_body (B "internal server error"))) in
  Some h.

(** ** [bodylimit.go] *)

Definition formatBytes (b : Z) : bytes :=
  if (1024 * 1024 <=? b)%Z then format_int (Z.quot (Z.quot b 1024) 1024) ++ B " MB"
  else if (1024 <=? b)%Z then format_int (Z.quot b 1024) ++ B " KB"
  else format_int b ++ B " B".

Definition BodyLimit (maxBytes : Z) : Middleware St := λ next,
  let h : hfn St :=
    c ← gets_ctx id;
    if (maxBytes <? Z.of_nat (length (req_Body (request c))))%Z then
      mod_response (res_SetStatusCode StatusRequestEntityTooLarge);;
      mod_response (res_SetContentType (B "application/json"));;
      mod_response (res_SetBody (Q "{'error':'request body exceeds limit of " ++
                                 formatBytes maxBytes ++ Q "'}"));;
      mret None
    else call next in
  Some h.

(** ** [security_headers.go] *)
Definition security_headers : list (bytes * bytes) :=
  [(B "X-Content-Type-Options", B "nosniff");
   (B "X-Frame-Options", B "DENY");
   (B "Referrer-Policy", B "no-referrer");
   (B "X-XSS-Protection", B "0");
   (B "Content-Security-Policy", B "default-src 'self'; script-src 'self' cdn.jsdelivr.net; style-src 'self' cdn.jsdelivr.net 'unsafe-inline';");
   (B "Strict-Transport-Security", B "max-age=63072000; includeSubDomains; preload")].
Definition SecurityHeaders : Middleware St := λ next,
  let h : hfn St :=
    mod_response (λ r, fold_left (λ r kv, res_Set kv.1 kv.2 r) security_headers r);;
    call next in
  Some h.

(** ** [requestid.go]; [newRequestID] is a parameter: random bytes in hex *)
Definition RequestID (newRequestID : St → bytes) : Middleware St := λ next,
  let h : hfn St :=
    c ← gets_ctx id;
    fresh ← gets (λ s, newRequestID s.2);
    let id := match Header c (B "X-Request-ID") with [] => fresh | i => i end in
    mod_request (req_Set (B "X-Request-ID") id);;
    mod_response (res_Set (B "X-Request-ID") id);;
    call next in
  Some h.

(** ** [favicon.go] *)
Definition Favicon : Middleware St := λ next,
  let h : hfn St :=
    c ← gets_ctx id;
    if beqb (ctx_Path (c_RequestCtx c)) (B "/favicon.ico") then
      mod_response (res_SetContentType (B "image/svg+xml"));;
      mod_response (res_SetStatusCode StatusOK);;
      mod_response (res_Set (B "Cache-Control") (B "public, max-age=86400"));;
      mod_response (res_SetBody faviconBytes);;
      mret None
    else call next in
  Some h.

(** ** [cors.go] *)
Record CORSConfig := mkCORS {
  AllowOrigins : list bytes;
  AllowMethods : list bytes;
  AllowHeaders : list bytes;
  MaxAge : Z;
}.
Definition DefaultCORSConfig : CORSConfig :=
  mkCORS [] (B <$> ["GET"; "POST"; "PUT"; "PATCH"; "DELETE"; "OPTIONS"]%string)
    (B <$> ["Origin"; "Content-Type"; "Authorization"; "Accept"]%string) 86400.

(** The loop of [itoa]: [fuel] is the room left in its 20-byte buffer. *)
Fixpoint itoa_loop (fuel : nat) (n : nat) (acc : bytes) : bytes :=
  match fuel with
  | 0 => acc
  | S fuel =>
      if n =? 0 then acc else itoa_loop fuel (n / 10) (ascii_of_nat (n mod 10 + 48) :: acc)
  end.
Definition itoa (n : Z) : bytes :=
  if (n =? 0)%Z then B "0" else itoa_loop 20 (Z.to_nat n) [].

(** The [allowed] loop. *)
Definition allowed_origin (c : CORSConfig) (origin : bytes) : bytes :=
  default [] (first_some (λ o, if beqb o (B "*") || beqb o origin then Some o else None)
                (AllowOrigins c)).

Definition CORS (cfg : option CORSConfig) : Middleware St := λ next,
  let c := default DefaultCORSConfig cfg in
  let h : hfn St :=
    ctx ← gets_ctx id;
    let allowed := allowed_origin c (req_Peek (request ctx) (B "Origin")) in
    mod_response (res_Add (B "Vary") (B "Origin"));;
    (match allowed with
     | [] => mret tt
     | _ =>
         mod_response (res_Set (B "Access-Control-Allow-Origin") allowed);;
         mod_response (res_Set (B "Access-Control-Allow-Methods") (Join (AllowMethods c) (B ", ")));;
         mod_response (res_Set (B "Access-Control-Allow-Headers") (Join (AllowHeaders c) (B ", ")));;
         if (0 <? MaxAge c)%Z then
           mod_response (res_Set (B "Access-Control-Max-Age") (Join [itoa (MaxAge c)] []))
         else mret tt
     end);;
    if beqb (ctx_Method (c_RequestCtx ctx)) (B "OPTIONS") then
      mod_response (res_SetStatusCode StatusNoContent);;
      mret None
    else call next in
  Some h.

(** ** [timeout.go]

    The handler runs in a goroutine against a context of its own, over a copy of
    the request and a response that starts [empty]; the copy has the address of the
    client and no TLS connection. [wins] tells whether the handler finishes before the
    timer, [late] what it does to the shared state when it does not. A panic of the
    handler is one on a goroutine without a deferred function: it ends the process. *)
Definition detached (empty : Response) (c : Ctx) : Ctx :=
  let ctx := c_RequestCtx c in
  mkCtx _ (mkRequestCtx _ (ctx_Request ctx) empty (ctx_RemoteIP ctx) false)
    (Params c) (JWTClaims c) (Locals c) (Some (default ctx (c_outer c))).
(** [r.sub.Response.CopyTo(&c.RequestCtx.Response)]. A map of locals that existed before
    is shared; what was done to the connection's own context stays. *)
Definition publish (c sub : Ctx) : Ctx :=
  let ctx := match c_outer c with None => default (c_RequestCtx c) (c_outer sub) | Some _ => c_RequestCtx c end in
  mkCtx _ (on_response (λ _, response sub) ctx) (Params c) (JWTClaims c)
    (match Locals c with Some _ => Locals sub | None => None end)
    (match c_outer c with Some _ => c_outer sub | None => None end).
Definition Timeout (empty : Response) (wins : Ctx * St → bool) (late : St → St) : Middleware St := λ next,
  let h : hfn St := λ s,
    let c := s.1 in
    if wins s then
      match call next (detached empty c, s.2) with
      | (Ret err, (sub, st)) => (Ret err, (publish c sub, st))
      | (Panic v, (_, st)) | (Crash v, (_, st)) => (Crash v, (c, st))
      end
    else (Status StatusServiceUnavailable;; JSON (error_body (B "request timeout"))) (c, late s.2) in
  Some h.

(** ** [compress.go]; [gzip] and [deflate] are fasthttp's encoders *)
Fixpoint findSubstr_from (n : nat) (s sub : bytes) : bool :=
  match n with
  | 0 => false
  | S n => beqb (take (length sub) s) sub || findSubstr_from n (drop 1 s) sub
  end.
Definition findSubstr (s sub : bytes) : bool :=
  if length s <? length sub then false else findSubstr_from (length s - length sub + 1) s sub.
Definition contains (s sub : bytes) : bool :=
  (length sub <=? length s) && (beqb s sub || ((0 <? length s) && findSubstr s sub)).

Definition Compress (gzip deflate : bytes → bytes) : Middleware St := λ next,
  let h : hfn St :=
    err ← call next;
    match err with
    | Some e => mret (Some e)
    | None =>
        c ← gets_ctx id;
        let ae := req_Peek (request c) (B "Accept-Encoding") in
        let body := res_Body (response c) in
        if length body <? 1024 then mret None
        else if contains ae (B "gzip") then
          mod_response (res_Set (B "Content-Encoding") (B "gzip"));;
          mod_response (res_Set (B "Vary") (B "Accept-Encoding"));;
          mod_response (res_SetBody (gzip body));;
          mret None
        else if contains ae (B "deflate") then
          mod_response (res_Set (B "Content-Encoding") (B "deflate"));;
          mod_response (res_Set (B "Vary") (B "Accept-Encoding"));;
          mod_response (res_SetBody (deflate body));;
          mret None
        else mret None
    end in
  Some h.
End middleware.

(** ** [metrics.go] *)

Record stats := mkStats { totalRequests : Z; activeRequests : Z }.

Section metrics.
Context `{F : FastHTTP} {St : Type} `{!Has stats St}.

Definition Metrics : Middleware St := λ next,
  let h : hfn St :=
    on_state (over (λ m, mkStats (wrap_u64 (totalRequests m + 1)) (activeRequests m)));;
    on_state (over (λ m, mkStats (totalRequests m) (wrap_i64 (activeRequests m + 1))));;
    deferring (call next)
      (λ s, (s.1, over (λ m, mkStats (totalRequests m) (wrap_i64 (activeRequests m - 1))) s.2)) in
  Some h.
Definition GetStats (st : St) : Z * Z := (totalRequests (view st), activeRequests (view st)).
End metrics.

(** ** [ratelimit.go] *)

Record visitor := mkVisitor { count : Z; resetAt : Z }.
Abbreviation visitors := (gmap bytes visitor).

(** [getVisitor] and the critical section of the handler: the verdict [over] and the
    table. *)
Definition visit (limit window : Z) (t : Z) (ip : bytes) (vs : visitors) : bool * visitors :=
  let v := default (mkVisitor 0 (t + window)) (vs !! ip) in
  let v := if (resetAt v <? t)%Z then mkVisitor 0 (t + window) else v in
  let v := mkVisitor (wrap_i64 (count v + 1)) (resetAt v) in
  ((limit <? count v)%Z, <[ip := v]> vs).

(** One tick of the cleaner. *)
Definition sweep (t : Z) (vs : visitors) : visitors :=
  filter (λ kv : bytes * visitor, negb (resetAt kv.2 <? t)%Z = true) vs.

Section ratelimit.
Context `{F : FastHTTP} {St : Type} `{!Has visitors St} `{!Clock St}.

Definition RateLimit (limit window : Z) : Middleware St := λ next,
  let h : hfn St :=
    c ← gets_ctx id;
    let ip := ctx_RemoteIP (c_RequestCtx c) in
    over_ ← gets (λ s, (visit limit window (now s.2) ip (view s.2)).1);
    modify (λ s, (s.1, over (λ vs, (visit limit window (now s.2) ip vs).2) s.2));;
    if (over_ : bool) then
      Status StatusTooManyRequests;; JSON (error_body (B "too many requests, slow down"))
    else call next in
  Some h.
End ratelimit.

(** ** [cache.go] *)

Record cacheEntry := mkCacheEntry {
  ce_body : bytes;
  ce_contentType : bytes;
  ce_status : Z;
  expiresAt : Z;
}.
Abbreviation cacheStore := (gmap bytes cacheEntry).

(** [newCacheStore]; its ticker calls [evict]. *)
Definition newCacheStore : cacheStore := ∅.
Definition cache_get (t : Z) (key : bytes) (s : cacheStore) : option cacheEntry :=
  match s !! key with
  | Some e => if (expiresAt e <? t)%Z then None else Some e
  | None => None
  end.
Definition cache_set (key : bytes) (e : cacheEntry) (s : cacheStore) : cacheStore := <[key := e]> s.
Definition evict (t : Z) (s : cacheStore) : cacheStore :=
  filter (λ kv : bytes * cacheEntry, negb (expiresAt kv.2 <? t)%Z = true) s.

Section cache.
Context `{F : FastHTTP} {St : Type} `{!Has cacheStore St} `{!Clock St}.

Record CacheConfig := mkCacheConfig {
  TTL : Z;
  KeyFunc : option (Ctx → bytes);
  Methods : list bytes;
}.
Definition default_TTL : Z := 30 * 1000000000.
Definition defaultCacheMethods : list bytes := [B "GET"; B "HEAD"].
Definition default_key (c : Ctx) : bytes :=
  ctx_Method (c_RequestCtx c) ++ B ":" ++ ctx_Path (c_RequestCtx c) ++ B "?" ++
  query_String (request c).

Definition cache_ttl (cfg : CacheConfig) : Z := if (TTL cfg =? 0)%Z then default_TTL else TTL cfg.
Definition cache_key (cfg : CacheConfig) : Ctx → bytes := default default_key (KeyFunc cfg).
Definition cache_methods (cfg : CacheConfig) : list bytes :=
  match Methods cfg with [] => defaultCacheMethods | ms => ms end.

(** Replaying a stored entry. *)
Definition replay (e : cacheEntry) : act St unit :=
  mod_response (res_SetStatusCode (ce_status e));;
  mod_response (res_SetContentType (ce_contentType e));;
  mod_response (res_Set (B "X-Cache") (B "HIT"));;
  mod_response (res_SetBody (ce_body e)).

(** What is kept, at time [t], of the response [next] left: nothing unless it is a
    success. *)
Definition entry_of (cfg : CacheConfig) (t : Z) (r : Response) : option cacheEntry :=
  let status := res_StatusCode r in
  if (200 <=? status)%Z && (status <? 300)%Z then
    Some (mkCacheEntry (res_Body r) (res_ContentType r) status (t + cache_ttl cfg))
  else None.
Definition remember (cfg : CacheConfig) (key : bytes) : act St unit :=
  modify (λ s, (s.1, match entry_of cfg (now s.2) (response s.1) with
                     | Some e => over (cache_set key e) s.2
                     | None => s.2
                     end)).

Definition Cache (cfg : CacheConfig) : Middleware St := λ next,
  let h : hfn St :=
    c ← gets_ctx id;
    if negb (existsb (beqb (ctx_Method (c_RequestCtx c))) (cache_methods cfg)) then call next
    else if negb (beqb (req_Peek (request c) (B "Authorization")) []) then call next
    else
      let key := cache_key cfg c in
      entry ← gets (λ s, cache_get (now s.2) key (view s.2));
      match entry with
      | Some e => replay e;; mret None
      | None =>
          mod_response (res_Set (B "X-Cache") (B "MISS"));;
          err ← call next;
          match err with
          | Some e => mret (Some e)
          | None => remember cfg key;; mret None
          end
      end in
  Some h.
End cache.
