(* ===== verification/Jwt.v ===== *)
(** * Token authentication ([middleware/jwt.go])

    [github.com/golang-jwt/jwt] is a parameter: a token has a signing method, a
    claim set and a signature that verifies under some keys. *)

From S2P Require Import Prelude GoStrings Effects FastHTTP Core Middleware.

Abbreviation claims := (gmap bytes any).

(** A claim read as a date ([MapClaims.GetExpirationTime], [GetNotBefore]): absent, not a
    number, or a time in nanoseconds. *)
Inductive date := NoDate | BadDate | Date (t : Z).

(** The text of ASCII characters alone. *)
Definition is_ascii (s : bytes) : bool := forallb (λ c, nat_of_ascii c <? 128) s.

Class JWTLib := {
  (** [jwt.Parse(raw, keyfunc, WithValidMethods(ms), WithExpirationRequired())] at
      time [t]: the claims of a valid token, [None] on any error. *)
  jwt_Parse : (bytes → option bytes) → list bytes → Z → bytes → option claims;
  (** [jwt.NewWithClaims(SigningMethodHS256, c).SignedString(key)] *)
  jwt_SignedString : claims → bytes → option bytes;
  (** what a token is: its algorithm, the claims its payload decodes to, and whether it is
      well formed with a signature that verifies under a key *)
  token_alg : bytes → bytes;
  token_claims : bytes → claims;
  signed_under : bytes → bytes → bool;
  (** the claims [exp] and [nbf] *)
  claims_exp : claims → date;
  claims_nbf : claims → date;
  (** [jwt.NewNumericDate] as a claim value *)
  numeric_date : Z → any;
  (** what a claim value reads as after it was encoded as JSON and decoded *)
  json_value : any → any;
}.

(** The library's validator with the options of the source, at time [t]: the token expires
    later, and if it says when it becomes valid, that is not later. *)
Definition in_date `{JWTLib} (t : Z) (c : claims) : Prop :=
  (∃ e, claims_exp c = Date e ∧ (t < e)%Z) ∧
  match claims_nbf c with NoDate => True | BadDate => False | Date n => (n ≤ t)%Z end.

(** Documented behaviour of the library: what it checks, *)
Class JWTSound (L : JWTLib) :=
  parse_sound kf ms t raw c :
    jwt_Parse kf ms t raw = Some c →
    token_alg raw ∈ ms ∧ token_claims raw = c ∧
    (∃ key, kf (token_alg raw) = Some key ∧ signed_under raw key = true) ∧ in_date t c.
(** that it accepts what passes the checks, and what signing makes. Claims go through JSON
    one by one; [NewNumericDate] cuts a time to whole seconds. *)
Class JWTLaws (L : JWTLib) := {
  jwt_sound :: JWTSound L;
  parse_complete kf ms t raw key :
    token_alg raw ∈ ms → kf (token_alg raw) = Some key → signed_under raw key = true →
    in_date t (token_claims raw) → jwt_Parse kf ms t raw = Some (token_claims raw);
  sign_sound c key raw :
    jwt_SignedString c key = Some raw →
    raw ≠ [] ∧ token_alg raw = B "HS256" ∧ signed_under raw key = true ∧
    ∀ k, is_ascii k = true → token_claims raw !! k = json_value <$> c !! k;
  exp_date c e :
    (Second ≤ e < 2 ^ 53 * Second)%Z → c !! B "exp" = Some (json_value (numeric_date e)) →
    claims_exp c = Date (e - e mod Second);
  nbf_absent c : c !! B "nbf" = None → claims_nbf c = NoDate;
}.

Definition hmac_methods : list bytes := B <$> ["HS256"; "HS384"; "HS512"]%string.
(** [t.Method.( *jwt.SigningMethodHMAC)] *)
Definition is_hmac (alg : bytes) : bool := existsb (beqb alg) hmac_methods.

Definition Hour : Z := 3600 * Second.
Definition DefaultTokenTTL : Z := Hour.

Section jwt.
Context `{L : JWTLib}.

(** The result of [ValidateJWT]: claims, or a non-empty message. *)
Definition ValidateJWT (t : Z) (raw secret : bytes) : claims + bytes :=
  match secret, raw with
  | [], _ => inr (B "server misconfiguration: missing JWT secret")
  | _, [] => inr (B "missing or empty token")
  | _, _ =>
      match jwt_Parse (λ alg, if is_hmac alg then Some secret else None) hmac_methods t raw with
      | None => inr (B "invalid token")
      | Some c => inl c
      end
  end.
Definition DecodeJWT := ValidateJWT.

Definition EncodeJWTWithTTL (t : Z) (c : claims) (secret : bytes) (ttl : Z) : bytes + error :=
  match secret with
  | [] => inr (Err (B "jwt: missing secret"))
  | _ =>
      let ttl := if (ttl <=? 0)%Z then DefaultTokenTTL else ttl in
      let mc := match c !! B "exp" with
                | None => <[B "exp" := numeric_date (t + ttl)%Z]> c
                | Some _ => c
                end in
      let mc := match mc !! B "iat" with
                | None => <[B "iat" := numeric_date t]> mc
                | Some _ => mc
                end in
      match jwt_SignedString mc secret with
      | Some s => inl s
      | None => inr (Err (B "jwt: signing failed"))
      end
  end.
Definition EncodeJWT (t : Z) (c : claims) (secret : bytes) : bytes + error :=
  EncodeJWTWithTTL t c secret DefaultTokenTTL.
End jwt.

Section middleware.
Context `{F : FastHTTP} `{L : JWTLib} {St : Type} `{!Clock St}.

(** [type JWTConfig struct] *)
Record JWTConfig := mkJWTConfig {
  Secret : bytes;
  TokenLookup : bytes;
  jwt_ErrorHandler : option (bytes → hfn St);
}.

(** [strings.SplitN(lookup, ":", 2)], when it has two parts. *)
Definition split_lookup (lookup : bytes) : option (bytes * bytes) :=
  match IndexByte lookup ":" with
  | Some i => Some (take i lookup, drop (i + 1) lookup)
  | None => None
  end.

Definition default_lookup : bytes := B "header:Authorization".

Definition ExtractToken (c : Ctx) (lookup : bytes) : bytes :=
  let lookup := match lookup with [] => default_lookup | l => l end in
  match split_lookup lookup with
  | None => []
  | Some (source, key) =>
      if beqb source (B "header") then
        TrimSpace (TrimPrefix (req_Peek (request c) key) (B "Bearer "))
      else if beqb source (B "query") then query_Peek (request c) key
      else if beqb source (B "cookie") then req_Cookie (request c) key
      else []
  end.

Definition jwt_reject (cfg : JWTConfig) (reason : bytes) : hfn St :=
  match jwt_ErrorHandler cfg with
  | Some eh => eh reason
  | None => mod_response (res_SetStatusCode StatusUnauthorized);; WriteJSONError reason
  end.

(** The lookup [JWT] settles on. *)
Definition jwt_lookup (cfg : JWTConfig) : bytes :=
  let l := match TokenLookup cfg with [] => default_lookup | l => l end in
  if Contains l (B ":") then l else default_lookup.

Definition JWT (cfg : JWTConfig) : Middleware St := λ next,
  let h : hfn St :=
    match Secret cfg with
    | [] => jwt_reject cfg (B "server misconfiguration: missing JWT secret")
    | secret =>
        c ← gets_ctx id;
        let raw := ExtractToken c (jwt_lookup cfg) in
        match raw with
        | [] => jwt_reject cfg (B "missing or empty token")
        | _ =>
            t ← gets (λ s, now s.2);
            match ValidateJWT t raw secret with
            | inr msg => jwt_reject cfg msg
            | inl cl => modify (λ s, (SetJWT (Some cl) s.1, s.2));; call next
            end
        end
    end in
  Some h.

Definition JWTEncode (cfg : JWTConfig) : Middleware St := λ next,
  let h : hfn St :=
    err ← call next;
    match err with
    | Some e => mret (Some e)
    | None =>
        c ← gets_ctx id;
        match JWT_ c with
        | None => mret None
        | Some cl =>
            t ← gets (λ s, now s.2);
            match EncodeJWT t cl (Secret cfg) with
            | inr e => mret (Some e)
            | inl s =>
                mod_response (res_Set (B "Authorization") (B "Bearer " ++ s));;
                mret None
            end
        end
    end in
  Some h.
End middleware.
Arguments JWTConfig {F} St.

(** ** Lemmas *)

Section lemmas.
Context `{L : JWTLib}.

(** A token that [secret] vouches for at time [t]. *)
Definition authentic (t : Z) (raw secret : bytes) (c : claims) : Prop :=
  raw ≠ [] ∧ secret ≠ [] ∧ token_alg raw ∈ hmac_methods ∧ signed_under raw secret = true ∧
  token_claims raw = c ∧ in_date t c.

Lemma is_hmac_elem alg : is_hmac alg = true ↔ alg ∈ hmac_methods.
Proof.
  unfold is_hmac. rewrite existsb_exists. setoid_rewrite <- list_elem_of_In. split.
  - by intros (x & Hx & ->%beqb_eq).
  - intros Ha. exists alg. by rewrite beqb_refl.
Qed.

Lemma ValidateJWT_sound `{!JWTSound L} t raw secret c :
  ValidateJWT t raw secret = inl c → authentic t raw secret c.
Proof.
  unfold ValidateJWT, authentic. destruct secret as [|x secret]; [done|].
  destruct raw as [|y raw]; [done|]. destruct (jwt_Parse _ _ _ _) as [c'|] eqn:Hp; [|done].
  intros [= <-]. apply parse_sound in Hp as (Halg & Hc & (key & Hk & Hs) & He).
  destruct (is_hmac _); [|done]. by simplify_eq.
Qed.

Lemma ValidateJWT_inl `{!JWTLaws L} t raw secret c :
  ValidateJWT t raw secret = inl c ↔ authentic t raw secret c.
Proof.
  split; [apply ValidateJWT_sound|]. unfold ValidateJWT, authentic.
  destruct secret as [|x secret]; [naive_solver|]. destruct raw as [|y raw]; [naive_solver|].
  intros (_ & _ & Halg & Hs & <- & He).
  rewrite (parse_complete _ _ _ _ (x :: secret)); try done. by rewrite (proj2 (is_hmac_elem _) Halg).
Qed.

(** A token signed with a lifetime of at least a second is good until it is over. *)
Lemma EncodeJWT_authentic `{!JWTLaws L} t c secret ttl raw :
  c !! B "exp" = None → c !! B "nbf" = None →
  (ttl ≤ 0 ∨ Second ≤ ttl)%Z → (0 ≤ t)%Z → (t + Z.max ttl DefaultTokenTTL < 2 ^ 53 * Second)%Z →
  EncodeJWTWithTTL t c secret ttl = inl raw →
  ∃ c', authentic t raw secret c' ∧
    (∀ k, k ≠ B "exp" → k ≠ B "iat" → is_ascii k = true → c' !! k = json_value <$> c !! k).
Proof.
  intros Hexp Hnbf Httl Ht Hmax. unfold EncodeJWTWithTTL. destruct secret as [|x secret]; [done|]. rewrite Hexp.
  set (ttl' := if (ttl <=? 0)%Z then DefaultTokenTTL else ttl).
  assert (Second ≤ ttl' ≤ Z.max ttl DefaultTokenTTL)%Z as Httl'.
  { unfold ttl', DefaultTokenTTL, Hour, Second in *. destruct (Z.leb_spec ttl 0); lia. }
  set (mc := match _ !! B "iat" with None => _ | Some _ => _ end).
  assert (∀ k, k ≠ B "iat" → mc !! k = (<[B "exp" := numeric_date (t + ttl')%Z]> c) !! k) as Hmc.
  { intros k Hk. unfold mc. case_match; [done|]. by rewrite lookup_insert_ne. }
  destruct (jwt_SignedString mc _) as [s|] eqn:Hs; [|done]. intros Heq. simplify_eq.
  apply sign_sound in Hs as (Hne & Halg & Hu & Hc). exists (token_claims raw). split.
  - unfold authentic. rewrite Halg. split_and!; try done; [apply is_hmac_elem; reflexivity|].
    split.
    + exists (t + ttl' - (t + ttl') mod Second)%Z. split.
      * apply exp_date; [unfold Second in *; lia|].
        rewrite Hc, Hmc, lookup_insert_eq by done. reflexivity.
      * pose proof (Z.mod_pos_bound (t + ttl') Second eq_refl). lia.
    + rewrite nbf_absent; [done|]. rewrite Hc, Hmc, lookup_insert_ne, Hnbf by done. reflexivity.
  - intros k Hk1 Hk2 Hk. rewrite Hc, Hmc, lookup_insert_ne by done. done.
Qed.
End lemmas.

(** ** The middleware *)

Section gate.
Context `{F : FastHTTP} `{L : JWTLib} {St : Type} `{!Clock St}.
Implicit Types (next : Handler St) (s : Ctx * St).

(** The token is looked up in the request alone. *)
Lemma ExtractToken_request c c' lookup :
  request c = request c' → ExtractToken c lookup = ExtractToken c' lookup.
Proof. unfold ExtractToken. by intros ->. Qed.

(** The middleware does what [ValidateJWT] says. *)
Lemma JWT_passes (cfg : JWTConfig St) next s c :
  ValidateJWT (now s.2) (ExtractToken s.1 (jwt_lookup cfg)) (Secret cfg) = inl c →
  call (JWT cfg next) s = call next (SetJWT (Some c) s.1, s.2).
Proof.
  unfold JWT. cbn [call]. destruct (Secret cfg) as [|x secret]; [done|].
  unfold gets_ctx, gets, mbind, M_bind. cbn [fst snd id].
  generalize (ExtractToken s.1 (jwt_lookup cfg)) as raw. intros [|y raw]; [done|]. by intros ->.
Qed.
Lemma JWT_refuses (cfg : JWTConfig St) s :
  (∀ c, ValidateJWT (now s.2) (ExtractToken s.1 (jwt_lookup cfg)) (Secret cfg) ≠ inl c) →
  ∃ msg, ∀ next, call (JWT cfg next) s = jwt_reject cfg msg s.
Proof.
  unfold JWT. cbn [call]. destruct (Secret cfg) as [|x secret]; [by eexists|].
  unfold gets_ctx, gets, mbind, M_bind. cbn [fst snd id].
  generalize (ExtractToken s.1 (jwt_lookup cfg)) as raw. intros [|y raw] Hno; [by eexists|].
  destruct (ValidateJWT (now s.2) (y :: raw) (x :: secret)) as [c|msg]; [by destruct (Hno c)|].
  by exists msg.
Qed.

Lemma JWT_admits `{!JWTLaws L} (cfg : JWTConfig St) next s c :
  authentic (now s.2) (ExtractToken s.1 (jwt_lookup cfg)) (Secret cfg) c →
  call (JWT cfg next) s = call next (SetJWT (Some c) s.1, s.2).
Proof. intros Ha%ValidateJWT_inl. by apply JWT_passes. Qed.

(** A request without an authentic token is rejected, whatever stands behind. *)
Lemma JWT_rejects `{!JWTSound L} (cfg : JWTConfig St) s :
  (∀ c, ¬ authentic (now s.2) (ExtractToken s.1 (jwt_lookup cfg)) (Secret cfg) c) →
  ∃ msg, ∀ next, call (JWT cfg next) s = jwt_reject cfg msg s.
Proof. intros Hno. apply JWT_refuses. intros c Hc%ValidateJWT_sound. by apply (Hno c). Qed.

Lemma jwt_reject_status `{!FastHTTPLaws F} (cfg : JWTConfig St) msg s :
  jwt_ErrorHandler cfg = None →
  (jwt_reject cfg msg s).1 = Ret None ∧
  res_StatusCode (response (jwt_reject cfg msg s).2.1) = StatusUnauthorized.
Proof.
  intros He. unfold jwt_reject. rewrite He. destruct (json_error_body msg) as [b Hb].
  unfold WriteJSONError, mod_response, mod_RequestCtx, modify, mbind, M_bind. cbn. rewrite Hb.
  unfold response. cbn. split; [done|]. by rewrite status_SetBody, status_SetContentType, status_set.
Qed.
End gate.

(** ** A concrete library *)

Module SimpleJWT.
Definition read_date (k : bytes) (c : claims) : date :=
  match c !! k with None => NoDate | Some (VInt e) => Date e | Some _ => BadDate end.
Definition in_dateb (t : Z) (c : claims) : bool :=
  match read_date (B "exp") c with Date e => (t <? e)%Z | _ => false end &&
  match read_date (B "nbf") c with NoDate => true | BadDate => false | Date n => (n <=? t)%Z end.

(** The tokens in circulation: each with the key that signed it and its claims. *)
Section lib.
Context (known : list (bytes * (bytes * claims))).

Definition find (raw : bytes) : option (bytes * claims) :=
  first_some (λ kv, if beqb kv.1 raw then Some kv.2 else None) known.
Definition verify (raw key : bytes) : bool :=
  match find raw with Some (k, _) => beqb k key | None => false end.
Definition claims_of (raw : bytes) : claims :=
  match find raw with Some (_, c) => c | None => ∅ end.
Definition alg_of (raw : bytes) : bytes :=
  match find raw with Some _ => B "HS256" | None => B "none" end.
Definition sign (c : claims) (key : bytes) : option bytes :=
  first_some (λ kv, if negb (beqb kv.1 []) && verify kv.1 key &&
                       bool_decide (claims_of kv.1 = c)
                    then Some kv.1 else None) known.

(** Dates are integers in nanoseconds, which JSON leaves alone. *)
Definition lib : JWTLib := {|
  jwt_Parse kf ms t raw :=
    if existsb (beqb (alg_of raw)) ms then
      match kf (alg_of raw) with
      | Some key => if verify raw key && in_dateb t (claims_of raw) then Some (claims_of raw) else None
      | None => None
      end
    else None;
  jwt_SignedString := sign;
  token_alg := alg_of;
  token_claims := claims_of;
  signed_under := verify;
  claims_exp := read_date (B "exp");
  claims_nbf := read_date (B "nbf");
  numeric_date e := VInt (e - e mod Second);
  json_value v := v;
|}.

Lemma in_dateb_spec t c : in_dateb t c = true ↔ in_date (H := lib) t c.
Proof.
  unfold in_dateb, in_date. simpl. rewrite andb_true_iff. apply and_iff_compat_both.
  - destruct (read_date (B "exp") c) as [| |e]; [split; [done|naive_solver]..|]. rewrite Z.ltb_lt.
    split; [by exists e|naive_solver].
  - destruct (read_date (B "nbf") c); [done|done|]. apply Z.leb_le.
Qed.

Lemma lib_laws : JWTLaws lib.
Proof.
  split; simpl.
  - intros kf ms t raw c Hp. simpl in Hp. destruct (existsb _ _) eqn:He; [|done].
    apply existsb_exists in He as (x & Hx & Hax%beqb_eq).
    destruct (kf _) as [key|] eqn:Hk; [|done]. destruct (verify raw key) eqn:Hv; [|done].
    destruct (in_dateb t (claims_of raw)) eqn:Hd; [|done]. simpl in Hp. simplify_eq.
    split_and!; [by apply list_elem_of_In|done|by exists key|]. by apply in_dateb_spec.
  - intros kf ms t raw key Ha Hk Hv Hd%in_dateb_spec.
    assert (existsb (beqb (alg_of raw)) ms = true) as ->.
    { apply existsb_exists. exists (alg_of raw). rewrite <- list_elem_of_In. by rewrite beqb_refl. }
    by rewrite Hk, Hv, Hd.
  - intros c key raw. unfold sign. intros Hs. apply first_some_Some in Hs as (l1 & [r kc] & l2 & _ & Hr & _).
    simpl in Hr. destruct (negb (beqb r []) && verify r key && _) eqn:Hb; simplify_eq.
    apply andb_true_iff in Hb as [[Hne Hv]%andb_true_iff Hc%bool_decide_eq_true].
    apply negb_true_iff, beqb_neq in Hne. split_and!; try done.
    + unfold verify, alg_of in *. by destruct (find raw).
    + intros k _. rewrite Hc. by destruct (c !! k).
  - intros c e _ He. unfold read_date. by rewrite He.
  - intros c Hc. unfold read_date. by rewrite Hc.
Qed.
End lib.
End SimpleJWT.
