(* ===== verification/MiddlewareProps.v ===== *)
(** * Properties of the middleware *)

From S2P Require Import Prelude GoStrings Effects FastHTTP Core Middleware Jwt.

(** ** Decimal numbers *)

Lemma digit_char n : n < 10 → digit (ascii_of_nat (n + 48)) = Some (Z.of_nat n).
Proof. intros Hn. do 10 (destruct n as [|n]; [reflexivity|]). lia. Qed.

(** [itoa_loop] puts the digits of [n] in front of [acc]. *)
Lemma itoa_loop_digits fuel n acc z :
  n < 10 ^ fuel →
  ∃ k, digits z (itoa_loop fuel n acc) = digits (z * 10 ^ Z.of_nat k + Z.of_nat n) acc.
Proof.
  revert n acc. induction fuel as [|fuel IH]; intros n acc Hn.
  { simpl in *. exists 0. replace n with 0 by lia. simpl. f_equal. lia. }
  cbn [itoa_loop]. destruct (Nat.eqb_spec n 0) as [->|Hne].
  { exists 0. simpl. f_equal. lia. }
  assert (n / 10 < 10 ^ fuel) as Hq by (apply Nat.Div0.div_lt_upper_bound; simpl in Hn; lia).
  destruct (IH (n / 10) (ascii_of_nat (n mod 10 + 48) :: acc) Hq) as [k ->]. exists (S k).
  cbn [digits]. rewrite digit_char by (apply Nat.mod_upper_bound; lia). f_equal.
  pose proof (Nat.div_mod_eq n 10) as Hdm. rewrite Hdm at 3.
  rewrite Nat2Z.inj_succ, Z.pow_succ_r by lia. lia.
Qed.

Lemma itoa_loop_nonempty fuel n acc : n ≠ 0 → fuel ≠ 0 → itoa_loop fuel n acc ≠ [].
Proof.
  assert (∀ fuel n acc, acc ≠ [] → itoa_loop fuel n acc ≠ []) as Hacc.
  { clear. intros fuel. induction fuel as [|fuel IH]; intros n acc Ha; [done|]. simpl.
    destruct (n =? 0); [done|]. by apply IH. }
  intros Hn Hf. destruct fuel as [|fuel]; [done|]. cbn [itoa_loop].
  destruct (Nat.eqb_spec n 0); [done|]. by apply Hacc.
Qed.

Lemma z_pow10_20 : (2 ^ 64 < 10 ^ 20)%Z.
Proof. reflexivity. Qed.

(** The number CORS prints is the number configured: parsing what [itoa] writes
    gives it back, for every non-negative 64-bit [int]; its 20-byte buffer is large
    enough. *)
Theorem itoa_round_trip n : (0 ≤ n < 2 ^ 63)%Z → ParseUint10 (itoa n) = Some n.
Proof.
  intros Hn. unfold itoa. destruct (Z.eqb_spec n 0) as [->|Hne]; [reflexivity|].
  assert (Z.to_nat n < 10 ^ 20) as Hlt.
  { apply Nat2Z.inj_lt. rewrite Nat2Z.inj_pow, Z2Nat.id by lia. pose proof z_pow10_20. lia. }
  destruct (itoa_loop_digits 20 (Z.to_nat n) [] 0 Hlt) as [k Hk].
  unfold ParseUint10. pose proof (itoa_loop_nonempty 20 (Z.to_nat n) []) as Hnn.
  destruct (itoa_loop 20 (Z.to_nat n) []) as [|c s]; [destruct Hnn; [lia|lia|done]|].
  rewrite Hk. cbn [digits]. rewrite Z2Nat.id by lia.
  replace (0 * 10 ^ Z.of_nat k + n)%Z with n by lia.
  destruct (Z.ltb_spec n (2 ^ 64)); [done|lia].
Qed.

(** ** Substrings *)

Lemma findSubstr_from_spec n s sub :
  findSubstr_from n s sub = true ↔ ∃ i, i < n ∧ take (length sub) (drop i s) = sub.
Proof.
  revert s. induction n as [|n IH]; intros s; simpl; [split; [done|intros (i & ? & _); lia]|].
  rewrite orb_true_iff, IH, beqb_eq. split.
  - intros [Heq|(i & Hi & Heq)]; [exists 0; split; [lia|by rewrite drop_0]|].
    exists (S i). split; [lia|]. by rewrite drop_drop in Heq.
  - intros ([|i] & Hi & Heq); [left; by rewrite drop_0 in Heq|]. right. exists i.
    split; [lia|]. by rewrite drop_drop.
Qed.

(** The hand-written substring test of the compression middleware is correct:
    it holds exactly when the needle occurs somewhere in the header. *)
Theorem contains_spec s sub : sub ≠ [] → contains s sub = true ↔ ∃ a b, s = a ++ sub ++ b.
Proof.
  intros Hsub. unfold contains. rewrite andb_true_iff, Nat.leb_le, orb_true_iff, andb_true_iff.
  rewrite beqb_eq, Nat.ltb_lt. unfold findSubstr. split.
  - intros [Hlen [->|[Hpos Hf]]]; [exists [], []; by rewrite app_nil_r|].
    destruct (Nat.ltb_spec (length s) (length sub)); [done|].
    apply findSubstr_from_spec in Hf as (i & Hi & Heq).
    exists (take i s), (drop (length sub) (drop i s)).
    rewrite <- Heq at 1. by rewrite take_drop, take_drop.
  - intros (a & b & ->). rewrite !length_app. split; [lia|right].
    destruct sub as [|c sub]; [done|]. simpl length. split; [lia|].
    destruct (Nat.ltb_spec (length a + (S (length sub) + length b)) (S (length sub))); [lia|].
    apply findSubstr_from_spec. exists (length a). split; [simpl; lia|].
    by rewrite drop_app_length, take_app_length.
Qed.

(** ** Rate limiting *)

Inductive rl_event := RlRequest (t : Z) (ip : bytes) | RlSweep (t : Z).
Definition rl_time (e : rl_event) : Z := match e with RlRequest t _ | RlSweep t => t end.

(** The addresses of the admitted requests of a run. *)
Fixpoint rl_admitted (limit window : Z) (es : list rl_event) (vs : visitors) : list bytes :=
  match es with
  | [] => []
  | RlRequest t ip :: es =>
      let '(over, vs') := visit limit window t ip vs in
      (if over then [] else [ip]) ++ rl_admitted limit window es vs'
  | RlSweep t :: es => rl_admitted limit window es (sweep t vs)
  end.

Fixpoint rl_requests (ip : bytes) (es : list rl_event) : nat :=
  match es with
  | [] => 0
  | RlRequest _ ip' :: es => (if decide (ip' = ip) then 1 else 0) + rl_requests ip es
  | RlSweep _ :: es => rl_requests ip es
  end.
Fixpoint times (ip : bytes) (l : list bytes) : nat :=
  match l with
  | [] => 0
  | ip' :: l => (if decide (ip' = ip) then 1 else 0) + times ip l
  end.

Lemma times_app ip l l' : times ip (l ++ l') = times ip l + times ip l'.
Proof. induction l as [|x l IH]; simpl; [done|]. rewrite IH. lia. Qed.

Lemma times_one ip (b : bool) : times ip (if b then [] else [ip]) = if b then 0 else 1.
Proof. destruct b; simpl; [done|]. by rewrite decide_True. Qed.

Lemma rl_run limit window ip reset es vs n :
  vs !! ip = Some (mkVisitor n reset) → (0 ≤ n)%Z →
  (n + Z.of_nat (rl_requests ip es) < 2 ^ 63)%Z →
  Forall (λ e, (rl_time e ≤ reset)%Z) es →
  times ip (rl_admitted limit window es vs) =
  Nat.min (Z.to_nat (limit - n)) (rl_requests ip es).
Proof.
  revert vs n. induction es as [|e es IH]; intros vs n Hv Hn Hov Ht; [simpl; lia|].
  apply Forall_cons in Ht as [Ht Hts]. destruct e as [t ip'|t]; simpl in Ht.
  - cbn [rl_admitted rl_requests] in *. unfold visit. rewrite times_app.
    destruct (decide (ip' = ip)) as [->|Hne].
    + rewrite Hv. cbn [default id resetAt count].
      destruct (Z.ltb_spec reset t); [lia|]. cbn [count resetAt].
      replace (wrap_i64 (n + 1)) with (n + 1)%Z by solve_z.
      rewrite times_one, (IH _ (n + 1)%Z); [|by rewrite lookup_insert_eq|lia|lia|done].
      destruct (Z.ltb_spec limit (n + 1)); lia.
    + rewrite (IH _ n); [|by rewrite lookup_insert_ne|done|done|done].
      destruct (_ <? _)%Z; simpl; [done|]. by rewrite decide_False.
  - apply IH; try done. unfold sweep. apply map_lookup_filter_Some. split; [done|]. simpl.
    by destruct (Z.ltb_spec reset t); [lia|].
Qed.

(** The limiter admits exactly the first [limit] requests of a window: from the
    request that opens it until it closes, whatever other clients do and however
    often expired visitors are swept, a client gets [min limit n] of its [n]
    requests through. *)
Theorem rate_limit_exact limit window ip t0 es vs :
  vs !! ip = None → (0 ≤ limit)%Z → (0 ≤ window)%Z →
  Forall (λ e, (t0 ≤ rl_time e ≤ t0 + window)%Z) es →
  (Z.of_nat (rl_requests ip (RlRequest t0 ip :: es)) < 2 ^ 63)%Z →
  times ip (rl_admitted limit window (RlRequest t0 ip :: es) vs) =
  Nat.min (Z.to_nat limit) (rl_requests ip (RlRequest t0 ip :: es)).
Proof.
  intros Hv Hl Hw Ht Hov.
  cbn [rl_admitted rl_requests] in *. unfold visit. rewrite Hv.
  rewrite decide_True in Hov |- * by done. cbn [default id resetAt count].
  destruct (Z.ltb_spec (t0 + window) t0); [lia|]. cbn [count resetAt].
  change (wrap_i64 (0 + 1)) with 1%Z. rewrite times_app, times_one.
  rewrite (rl_run limit window ip (t0 + window) es _ 1);
    [|by rewrite lookup_insert_eq|lia|lia|eapply Forall_impl; [exact Ht|simpl; lia]].
  destruct (Z.ltb_spec limit 1); lia.
Qed.

(** ** Recovery and counters *)

Section handlers.
Context `{F : FastHTTP} {St : Type}.
Implicit Types (next : Handler St) (s : Ctx * St).

(** No panic passes [Recover], though a crash does. When the handler panics, its effects on the
    shared state stay, the status becomes 500, and the error object is appended to
    whatever body the handler had already written. *)
Theorem Recover_contains_panics `{!FastHTTPLaws F} next s b :
  json_Encode (error_body (B "internal server error")) = Some b →
  match call next s with
  | (Ret err, s') => call (Recover next) s = (Ret err, s')
  | (Panic v, s') =>
      let out := call (Recover next) s in
      out.1 = Ret None ∧ out.2.2 = s'.2 ∧
      res_StatusCode (response out.2.1) = StatusInternalServerError ∧
      res_Body (response out.2.1) = res_Body (response s'.1) ++ b
  | (Crash v, s') => call (Recover next) s = (Crash v, s')
  end.
Proof.
  intros Hb. unfold Recover. cbn [call]. unfold recovering.
  destruct (call next s) as [[err|v|v] s']; [done| |done].
  unfold Status, JSON, mod_response, mod_RequestCtx, modify, mbind, M_bind. cbn.
  rewrite Hb. cbn. unfold response. cbn.
  by rewrite status_AppendBody, status_SetContentType, status_set, body_append,
    body_SetContentType, body_SetStatusCode.
Qed.

(** Each request is counted once and is in flight exactly while its handler
    runs, also when the handler panics; a crash ends the process and its counts. *)
Theorem Metrics_balanced `{!Has stats St} next s :
  (∀ s, view (call next s).2.2 = view s.2) →
  (- 2 ^ 63 ≤ activeRequests (view s.2) < 2 ^ 63)%Z →
  let out := call (Metrics next) s in
  out.1 = (call next (s.1, over (λ m, mkStats (totalRequests m) (wrap_i64 (activeRequests m + 1)))
                             (over (λ m, mkStats (wrap_u64 (totalRequests m + 1)) (activeRequests m)) s.2))).1 ∧
  ((∀ v, out.1 ≠ Crash v) →
   GetStats out.2.2 = (wrap_u64 (totalRequests (view s.2) + 1), activeRequests (view s.2))).
Proof.
  intros Hnext Ha. unfold Metrics. cbn [call]. unfold on_state, modify, mbind, M_bind, deferring.
  cbn [fst snd]. set (s2 := (s.1, _)). specialize (Hnext s2).
  destruct (call next s2) as [o [c' st']]. cbn in *. split; [by destruct o|]. intros Hcr.
  destruct o as [err|v|v]; [..|by destruct (Hcr v)]; cbn; unfold GetStats;
    rewrite view_over, Hnext; cbn; rewrite !view_over; cbn; f_equal; solve_z.
Qed.
End handlers.

(** ** Caching *)

Section cache.
Context `{F : FastHTTP} {St : Type} `{!Has cacheStore St} `{!Clock St}.
Implicit Types (next : Handler St) (s : Ctx * St) (cfg : CacheConfig).

(** A request the cache looks up. *)
Definition cacheable cfg (c : Ctx) : Prop :=
  ctx_Method (c_RequestCtx c) ∈ cache_methods cfg ∧ req_Peek (request c) (B "Authorization") = [].

Lemma cacheable_tests cfg c :
  cacheable cfg c →
  existsb (beqb (ctx_Method (c_RequestCtx c))) (cache_methods cfg) = true ∧
  beqb (req_Peek (request c) (B "Authorization")) [] = true.
Proof.
  intros [Hm Ha]. split; [|by apply beqb_eq]. apply existsb_exists.
  exists (ctx_Method (c_RequestCtx c)). rewrite <- list_elem_of_In. by rewrite beqb_refl.
Qed.

#[export] Instance cacheable_dec cfg c : Decision (cacheable cfg c).
Proof. unfold cacheable. apply _. Defined.

(** Other requests, those with credentials among them, never touch the cache. *)
Lemma Cache_skips cfg next s : ¬ cacheable cfg s.1 → call (Cache cfg next) s = call next s.
Proof.
  intros Hc. unfold Cache. cbn [call].
  unfold gets_ctx, gets, mbind, M_bind. cbn [fst snd id].
  destruct (existsb _ _) eqn:Hm; [|done]. destruct (beqb _ []) eqn:Ha; [|done].
  destruct Hc. split; [|by apply beqb_eq].
  apply existsb_exists in Hm as (m & Hin & ->%beqb_eq). by apply list_elem_of_In.
Qed.

Lemma Cache_hit cfg next s e :
  cacheable cfg s.1 → cache_get (now s.2) (cache_key cfg s.1) (view s.2) = Some e →
  call (Cache cfg next) s = (replay e;; mret None) s.
Proof.
  intros [Hm Ha]%cacheable_tests He. unfold Cache. cbn [call].
  unfold gets_ctx, gets, mbind at 1, M_bind at 1. cbn [fst snd id]. rewrite Hm, Ha. cbn [negb].
  unfold mbind at 1, M_bind at 1. by rewrite He.
Qed.

Lemma Cache_miss cfg next s :
  cacheable cfg s.1 → cache_get (now s.2) (cache_key cfg s.1) (view s.2) = None →
  call (Cache cfg next) s =
  (mod_response (res_Set (B "X-Cache") (B "MISS"));;
   err ← call next;
   match err with
   | Some e => mret (Some e)
   | None => remember cfg (cache_key cfg s.1);; mret None
   end) s.
Proof.
  intros [Hm Ha]%cacheable_tests He. unfold Cache. cbn [call].
  unfold gets_ctx, gets, mbind at 1, M_bind at 1. cbn [fst snd id]. rewrite Hm, Ha. cbn [negb].
  unfold mbind at 1, M_bind at 1. by rewrite He.
Qed.

(** A cached response is the response: after a miss whose handler succeeded,
    any later request with the same key inside the TTL gets the same status, body
    and content type, and the handler is not run, so nothing else changes. *)
Theorem cache_round_trip `{!FastHTTPLaws F} cfg next s s1 next2 s2 :
  cacheable cfg s.1 → cache_get (now s.2) (cache_key cfg s.1) (view s.2) = None →
  call next (upd_RequestCtx (on_response (res_Set (B "X-Cache") (B "MISS"))) s.1, s.2)
    = (Ret None, s1) →
  (200 ≤ res_StatusCode (response s1.1) < 300)%Z →
  let out := call (Cache cfg next) s in
  cacheable cfg s2.1 → cache_key cfg s2.1 = cache_key cfg s.1 →
  view s2.2 = view out.2.2 → (now s2.2 ≤ now s1.2 + cache_ttl cfg)%Z →
  let out2 := call (Cache cfg next2) s2 in
  out2.1 = Ret None ∧ out2.2.2 = s2.2 ∧
  res_StatusCode (response out2.2.1) = res_StatusCode (response out.2.1) ∧
  res_Body (response out2.2.1) = res_Body (response out.2.1) ∧
  res_ContentType (response out2.2.1) = res_ContentType (response out.2.1).
Proof.
  intros Hc Hmiss Hnext Hst out Hc2 Hkey Hview Hnow out2.
  assert (out = (Ret None, (s1.1, over (cache_set (cache_key cfg s.1)
            (mkCacheEntry (res_Body (response s1.1)) (res_ContentType (response s1.1))
               (res_StatusCode (response s1.1)) (now s1.2 + cache_ttl cfg))) s1.2))) as Hout.
  { unfold out. rewrite Cache_miss by done.
    unfold mod_response, mod_RequestCtx, modify, mbind, M_bind. cbn [fst snd]. rewrite Hnext.
    unfold remember, entry_of, modify, mbind, M_bind. cbn [fst snd].
    destruct (Z.leb_spec 200 (res_StatusCode (response s1.1))); [|lia].
    by destruct (Z.ltb_spec (res_StatusCode (response s1.1)) 300); [|lia]. }
  clearbody out. subst out. cbn [fst snd] in *.
  unfold out2. erewrite Cache_hit; [|done|].
  2: { rewrite Hview, view_over, Hkey. unfold cache_get, cache_set. rewrite lookup_insert_eq.
       cbn [expiresAt]. by destruct (Z.ltb_spec (now s1.2 + cache_ttl cfg) (now s2.2)); [lia|]. }
  unfold replay, mod_response, mod_RequestCtx, modify, mbind, M_bind. unfold response in *. cbn in *.
  rewrite status_SetBody, status_Set, status_SetContentType, status_set by (done || lia).
  by rewrite body_set, ctype_SetBody, ctype_Set, ctype_set by (done || apply ctype_nonempty).
Qed.

(** Requests with credentials never touch the cache. *)
Theorem cache_skips_authorized cfg next s :
  req_Peek (request s.1) (B "Authorization") ≠ [] → call (Cache cfg next) s = call next s.
Proof. intros Ha. apply Cache_skips. by intros [_ ?]. Qed.
End cache.

(** ** Cross-origin requests *)

Section cors.
Context `{F : FastHTTP} {St : Type}.
Implicit Types (next : Handler St) (s : Ctx * St).

Lemma allowed_origin_spec c origin o :
  allowed_origin c origin = o → o ≠ [] →
  o ∈ AllowOrigins c ∧ (o = B "*" ∨ o = origin).
Proof.
  unfold allowed_origin. destruct (first_some _ _) as [o'|] eqn:Ho; [|by intros <-].
  cbn. intros <- _. apply first_some_Some in Ho as (l1 & x & l2 & -> & Hx & _).
  destruct (beqb x (B "*")) eqn:H1, (beqb x origin) eqn:H2; simplify_eq/=;
    (split; [apply elem_of_app; right; left|]);
    first [left; by apply beqb_eq|right; by apply beqb_eq].
Qed.

(** A preflight is answered without the handler: 204, and an allow-origin
    header only for an origin on the list, the wildcard or the very origin of the
    request; any other origin gets none. *)
Theorem CORS_preflight `{!FastHTTPLaws F} cfg next s :
  ctx_Method (c_RequestCtx s.1) = B "OPTIONS" →
  let c := default DefaultCORSConfig cfg in
  let origin := req_Peek (request s.1) (B "Origin") in
  let out := call (CORS cfg next) s in
  let acao := res_Peek (response out.2.1) (B "Access-Control-Allow-Origin") in
  out.1 = Ret None ∧ out.2.2 = s.2 ∧
  res_StatusCode (response out.2.1) = StatusNoContent ∧
  (acao = res_Peek (response s.1) (B "Access-Control-Allow-Origin") ∨
   acao ∈ AllowOrigins c ∧ (acao = B "*" ∨ acao = origin)).
Proof.
  intros Hm c origin out acao. unfold acao, out, CORS. fold c. cbn [call].
  unfold gets_ctx, gets, mbind, M_bind. cbn [fst snd id]. fold origin.
  pose proof (allowed_origin_spec c origin _ eq_refl) as Hal.
  destruct (allowed_origin c origin) as [|o0 o] eqn:Ho.
  - cbn -[response]. rewrite Hm, beqb_refl. unfold response. cbn.
    rewrite status_set, peek_SetStatusCode, peek_Add_ne by done. split_and!; try done. by left.
  - destruct (Hal ltac:(done)) as [Hin Hwho].
    destruct (0 <? MaxAge c)%Z; cbn -[response itoa]; rewrite Hm, beqb_refl; unfold response; cbn -[itoa];
      rewrite status_set, peek_SetStatusCode by done;
      rewrite ?(peek_set_ne (B "Access-Control-Max-Age")) by done;
      rewrite (peek_set_ne (B "Access-Control-Allow-Headers")),
        (peek_set_ne (B "Access-Control-Allow-Methods")), peek_set by done;
      split_and!; try done; by right.
Qed.
End cors.

(** ** Tokens *)

Section tokens.
Context `{F : FastHTTP} `{L : JWTLib} `{!JWTLaws L} {St : Type} `{!Clock St}.
Implicit Types (next : Handler St) (s : Ctx * St).

(** C12 The JWT middleware is a gate: the handler runs exactly when the secret is not empty
    and the request carries, where [TokenLookup] says, a token signed under the secret
    with an HMAC method that expires in the future and whose [nbf] claim, if it has one,
    is a date that has come; and then it sees that token's claims. In every other case the
    handler is not run and the request is rejected, with 401 unless a custom handler is
    configured. An empty secret rejects every request, though a comment on the field says
    that it disables the check. *)
Theorem JWT_gate `{!FastHTTPLaws F} (cfg : JWTConfig St) next s :
  let raw := ExtractToken s.1 (jwt_lookup cfg) in
  (∃ c, authentic (now s.2) raw (Secret cfg) c ∧
        call (JWT cfg next) s = call next (SetJWT (Some c) s.1, s.2)) ∨
  ((∀ c, ¬ authentic (now s.2) raw (Secret cfg) c) ∧
   ∃ msg, call (JWT cfg next) s = jwt_reject cfg msg s ∧
     (jwt_ErrorHandler cfg = None →
      res_StatusCode (response (jwt_reject cfg msg s).2.1) = StatusUnauthorized)).
Proof.
  intros raw. destruct (ValidateJWT (now s.2) raw (Secret cfg)) as [c|msg] eqn:Hv.
  - apply ValidateJWT_inl in Hv. left. exists c. split; [done|]. by apply JWT_admits.
  - right. assert (∀ c, ¬ authentic (now s.2) raw (Secret cfg) c) as Hno.
    { intros c Ha%ValidateJWT_inl. congruence. }
    split; [done|]. destruct (JWT_rejects cfg s Hno) as [m Hm]. exists m.
    split; [apply Hm|]. intros He. by apply jwt_reject_status.
Qed.

(** Tokens round-trip: what [EncodeJWT] signs for a lifetime of a second at least,
    [ValidateJWT] accepts under the same secret, with the claims that went in, as JSON
    hands them on; only [exp] and [iat] are added. *)
Theorem jwt_round_trip t c secret ttl raw :
  c !! B "exp" = None → c !! B "nbf" = None →
  (ttl ≤ 0 ∨ Second ≤ ttl)%Z → (0 ≤ t)%Z → (t + Z.max ttl DefaultTokenTTL < 2 ^ 53 * Second)%Z →
  EncodeJWTWithTTL t c secret ttl = inl raw →
  ∃ c', ValidateJWT t raw secret = inl c' ∧
    ∀ k, k ≠ B "exp" → k ≠ B "iat" → is_ascii k = true → c' !! k = json_value <$> c !! k.
Proof.
  intros Hexp Hnbf Httl Ht Hmax Henc.
  destruct (EncodeJWT_authentic t c secret ttl raw Hexp Hnbf Httl Ht Hmax Henc) as (c' & Ha & Hk).
  exists c'. split; [by apply ValidateJWT_inl|done].
Qed.
End tokens.

(** ** Witnesses *)

Section witnesses.
Import Simple.
Local Existing Instance simple_http.

Local Instance Has_fst {S T} : Has S (S * T).
Proof. by refine {| view := fst; over f x := (f x.1, x.2) |}. Defined.
Local Instance Clock_snd {S} : Clock (S * Z) := snd.
Local Instance Clock_Z : Clock Z := id.

Definition ctx_of (method path : bytes) (hs : headers) : Ctx :=
  mkCtx _ (mkRequestCtx simple_http (mkRequest method path (B "example.com") [] hs [])
             (mkResponse 200 [] [] []) (B "192.0.2.1") false) None None None None.
Definition write {St} (b : bytes) : hfn St := mod_response (res_SetBody b);; mret None.

Lemma itoa_round_trip_witness : ParseUint10 (itoa 86400) = Some 86400%Z.
Proof. apply (itoa_round_trip 86400). lia. Defined.

Lemma contains_spec_witness :
  contains (B "br, gzip") (B "gzip") = true ↔ ∃ a b, B "br, gzip" = a ++ B "gzip" ++ b.
Proof. apply (contains_spec (B "br, gzip") (B "gzip")). discriminate. Defined.

Lemma rate_limit_exact_witness :
  let r t := RlRequest t (B "a") in
  times (B "a") (rl_admitted 2 100 (r 0%Z :: [r 1%Z; RlSweep 2; r 3%Z]) ∅) = 2.
Proof.
  apply (rate_limit_exact 2 100 (B "a") 0
           [RlRequest 1 (B "a"); RlSweep 2; RlRequest 3 (B "a")] ∅);
    [apply lookup_empty|lia|lia|repeat constructor; simpl; lia|vm_compute; reflexivity].
Defined.

Lemma Recover_contains_panics_witness :
  let boom : Handler unit := Some (mod_response (res_SetBody (B "partial"));; throw VNil) in
  let out := call (Recover boom) (ctx_of (B "GET") (B "/") [], tt) in
  out.1 = Ret None ∧ res_StatusCode (Middleware.response out.2.1) = StatusInternalServerError.
Proof.
  intros boom out.
  destruct (Recover_contains_panics boom (ctx_of (B "GET") (B "/") [], tt) _ eq_refl)
    as (H1 & _ & H2 & _). split; [exact H1|exact H2].
Defined.

Lemma Metrics_balanced_witness :
  let boom : Handler stats := Some (throw VNil) in
  GetStats (call (Metrics boom) (ctx_of (B "GET") (B "/") [], mkStats 4 1)).2.2 = (5, 1)%Z.
Proof.
  intros boom.
  assert (- 2 ^ 63 ≤ 1 < 2 ^ 63)%Z as Ha by lia.
  pose proof (Metrics_balanced boom (ctx_of (B "GET") (B "/") [], mkStats 4 1)) as [_ H].
  - reflexivity.
  - exact Ha.
  - apply H. by intros v [=].
Defined.

Definition empty_cache (t : Z) : cacheStore * Z := (newCacheStore, t).
Definition cache_cfg : CacheConfig := mkCacheConfig 10 None [].

Lemma cache_round_trip_witness :
  let c := ctx_of (B "GET") (B "/x") [] in
  let out := call (Cache cache_cfg (Some (write (B "hello")))) (c, empty_cache 0) in
  let out2 := call (Cache cache_cfg (Some (write (B "other")))) (c, (out.2.2.1, 7%Z)) in
  res_Body (Middleware.response out2.2.1) = res_Body (Middleware.response out.2.1).
Proof.
  intros c out out2.
  assert (cacheable cache_cfg c) as Hc by (split; [left|reflexivity]).
  destruct (cache_round_trip cache_cfg (Some (write (B "hello"))) (c, empty_cache 0)
    (mkCtx _ (on_response (res_SetBody (B "hello"))
                (on_response (res_Set (B "X-Cache") (B "MISS")) (c_RequestCtx c))) None None None None,
     empty_cache 0)
    (Some (write (B "other"))) (c, (out.2.2.1, 7%Z)) Hc) as (_ & _ & _ & H & _).
  - vm_compute. reflexivity.
  - reflexivity.
  - split; vm_compute; [discriminate|reflexivity].
  - exact Hc.
  - reflexivity.
  - reflexivity.
  - vm_compute. discriminate.
  - exact H.
Defined.

Lemma cache_skips_authorized_witness :
  let s := (ctx_of (B "GET") (B "/x") [(B "Authorization", B "Bearer t")], empty_cache 0) in
  call (Cache cache_cfg (Some (write (B "secret")))) s = call (Some (write (B "secret"))) s.
Proof. apply cache_skips_authorized. discriminate. Defined.

Lemma CORS_preflight_witness :
  let cfg := mkCORS [B "https://app.example"] [] [] 60 in
  let s := (ctx_of (B "OPTIONS") (B "/x") [(B "Origin", B "https://evil.example")], tt) in
  let out := call (CORS (Some cfg) (Some (write (B "x")))) s in
  res_StatusCode (Middleware.response out.2.1) = StatusNoContent.
Proof.
  apply (CORS_preflight (Some (mkCORS [B "https://app.example"] [] [] 60)) (Some (write (B "x")))
           (ctx_of (B "OPTIONS") (B "/x") [(B "Origin", B "https://evil.example")], tt)).
  reflexivity.
Defined.

Definition alice : claims := {[B "sub" := VString (B "alice")]}.
Definition whole (t : Z) : any := VInt (t - t mod Second).
Definition alice' (t : Z) : claims :=
  <[B "iat" := whole t]> (<[B "exp" := whole (t + Hour)]> alice).
Local Instance lib : JWTLib := SimpleJWT.lib [(B "tok", (B "key", alice' 5))].
Local Instance lib_laws : JWTLaws lib := SimpleJWT.lib_laws _.

Lemma JWT_gate_witness :
  let s := (ctx_of (B "GET") (B "/x") [(B "Authorization", B "Bearer tok")], 5%Z) in
  call (JWT (mkJWTConfig (B "key") [] None) (Some (write (B "secret")))) s =
  call (Some (write (B "secret"))) (SetJWT (Some (alice' 5)) s.1, s.2).
Proof.
  intros s. destruct (JWT_gate (mkJWTConfig (B "key") [] None) (Some (write (B "secret"))) s)
    as [(c & Ha & Heq)|[Hn _]].
  - rewrite Heq. assert (c = alice' 5) as ->; [|reflexivity].
    destruct Ha as (_ & _ & _ & _ & Hc & _). rewrite <- Hc. reflexivity.
  - exfalso. apply (Hn (alice' 5)). apply ValidateJWT_inl. vm_compute. reflexivity.
Defined.

Lemma jwt_round_trip_witness :
  ∃ c', ValidateJWT 5 (B "tok") (B "key") = inl c' ∧
    ∀ k, k ≠ B "exp" → k ≠ B "iat" → is_ascii k = true → c' !! k = json_value <$> alice !! k.
Proof.
  apply (jwt_round_trip 5 alice (B "key") Hour (B "tok"));
    try (right; vm_compute; discriminate); vm_compute; (reflexivity || discriminate).
Defined.

(** ** What the model showed *)

(** A request that passes two limiters is counted twice: the visitors are shared
    by all of them. *)
Example limiters_share_visitors :
  let h := RateLimit 2 100 (RateLimit 2 100 (Some (write (B "ok")))) in
  let s := (ctx_of (B "GET") (B "/") [], ((∅ : visitors), 0%Z)) in
  let out := call h s in
  let out' := call h (ctx_of (B "GET") (B "/") [], out.2.2) in
  res_StatusCode (Middleware.response out.2.1) = 200%Z ∧ res_StatusCode (Middleware.response out'.2.1) = 429%Z.
Proof. vm_compute. done. Qed.

(** A handler that answered before it panicked leaves its body in front of the
    error object. *)
Example recover_keeps_partial_body :
  let boom : Handler unit := Some (mod_response (res_SetBody (B "partial"));; throw VNil) in
  let out := call (Recover boom) (ctx_of (B "GET") (B "/") [], tt) in
  HasPrefix (res_Body (Middleware.response out.2.1)) (B "partial{") = true.
Proof. vm_compute. done. Qed.

(** When the handler beats the timer, the headers outer middleware had set are
    lost: its response replaces the whole of the client's. *)
Definition in_time {St} : Middleware St := Timeout (mkResponse 200 [] [] []) (λ _, true) id.
Example timeout_drops_outer_headers :
  let before := call (SecurityHeaders (Some (mret None))) (ctx_of (B "GET") (B "/") [], tt) in
  let after := call (in_time (Some (write (B "ok")))) before.2 in
  res_Peek (Middleware.response before.2.1) (B "X-Frame-Options") = B "DENY" ∧
  res_Peek (Middleware.response after.2.1) (B "X-Frame-Options") = [].
Proof. vm_compute. done. Qed.

(** A handler that panics behind [Timeout] does so on a goroutine of its own: [Recover] in
    front of it does not help, and the process ends. *)
Example timeout_panic_crashes :
  let boom : Handler unit := Some (throw (VString (B "boom"))) in
  (call (Recover (in_time boom)) (ctx_of (B "GET") (B "/") [], tt)).1 = Crash (VString (B "boom")).
Proof. vm_compute. done. Qed.

(** A token for less than a second may have expired when it is made: its expiry is cut to
    whole seconds. *)
Definition brief : claims := <[B "iat" := whole 100]> (<[B "exp" := whole (100 + 500000000)]> alice).
Example brief_token_is_expired :
  let L := SimpleJWT.lib [(B "brief", (B "key", brief))] in
  EncodeJWTWithTTL (L := L) 100 alice (B "key") 500000000 = inl (B "brief") ∧
  ValidateJWT (L := L) 100 (B "brief") (B "key") = inr (B "invalid token").
Proof. vm_compute. done. Qed.
End witnesses.
