(* ===== verification/Caching.v ===== *)
(** * Requests that share a cache ([middleware/cache.go])

    A request through [Cache] touches the store twice, each time under its lock: [get]
    before the handler, [set] after it. In between other requests, the eviction ticker
    and the clock move: an execution is a sequence of [event]s. [Cache_alone] relates
    the two steps of the machine to the middleware's handler; [cache_coherent] and
    [eviction_unobservable] hold for every sequence. *)

From S2P Require Import Prelude GoStrings Effects FastHTTP Core Middleware Jwt MiddlewareProps.

Section flights.
Context `{F : FastHTTP} (cfg : CacheConfig).

(** Where a request is: answered from the cache, in the handler, or past it with what
    it stored. *)
Inductive phase := Replayed (e : cacheEntry) | Running | Finished (stored : option cacheEntry).
Record flight := mkFlight { fl_key : bytes; fl_time : Z; fl_phase : phase }.
Record cstate := mkCstate { cs_now : Z; cs_store : cacheStore; flights : list flight }.

Inductive event :=
  | Arrive (key : bytes)
  | Return (i : nat) (o : outcome (option error)) (r : Response)
  | Evict
  | Tick (d : nat).

(** What the end of the handler stores at time [t], and the store with it. *)
Definition settle (t : Z) (o : outcome (option error)) (r : Response) : option cacheEntry :=
  match o with Ret None => entry_of cfg t r | _ => None end.
Definition put (key : bytes) (e : option cacheEntry) (s : cacheStore) : cacheStore :=
  match e with Some e => cache_set key e s | None => s end.

Definition cstep (w : cstate) (ev : event) : cstate :=
  let '(mkCstate t s fs) := w in
  match ev with
  | Arrive key =>
      let p := match cache_get t key s with Some e => Replayed e | None => Running end in
      mkCstate t s (fs ++ [mkFlight key t p])
  | Return i o r =>
      match fs !! i with
      | Some (mkFlight key t0 Running) =>
          let e := settle t o r in
          mkCstate t (put key e s) (<[i := mkFlight key t0 (Finished e)]> fs)
      | _ => w
      end
  | Evict => mkCstate t (evict t s) fs
  | Tick d => mkCstate (t + Z.of_nat d)%Z s fs
  end.
Definition crun (es : list event) (w : cstate) : cstate := fold_left cstep es w.
Definition empty_at (t : Z) : cstate := mkCstate t newCacheStore [].

(** ** Every replay is somebody's response *)

(** [e] is the success that a request for [key] ended with, at a time [t] or before
    at which it was not older than the TTL. *)
Definition vouched (fs : list flight) (key : bytes) (e : cacheEntry) (t : Z) : Prop :=
  (∃ j t0, fs !! j = Some (mkFlight key t0 (Finished (Some e)))) ∧
  (200 ≤ ce_status e < 300)%Z ∧ (expiresAt e - cache_ttl cfg ≤ t)%Z.

Record coherent (w : cstate) : Prop := {
  coh_store key e : cs_store w !! key = Some e → vouched (flights w) key e (cs_now w);
  coh_replay i key t e : flights w !! i = Some (mkFlight key t (Replayed e)) →
    vouched (flights w) key e t ∧ (t ≤ expiresAt e)%Z;
}.

Lemma entry_of_spec t r e :
  entry_of cfg t r = Some e →
  (200 ≤ ce_status e < 300)%Z ∧ expiresAt e = (t + cache_ttl cfg)%Z ∧
  ce_status e = res_StatusCode r ∧ ce_body e = res_Body r ∧ ce_contentType e = res_ContentType r.
Proof.
  unfold entry_of. destruct (Z.leb_spec 200 (res_StatusCode r)); [|done].
  destruct (Z.ltb_spec (res_StatusCode r) 300); [|done]. intros [= <-]. simpl. repeat split; lia.
Qed.

Lemma vouched_app fs fs' key e t : vouched fs key e t → vouched (fs ++ fs') key e t.
Proof.
  intros [(j & t0 & Hj) H]. split; [|done]. exists j, t0. by apply lookup_app_l_Some.
Qed.
Lemma vouched_later fs key e t t' : (t ≤ t')%Z → vouched fs key e t → vouched fs key e t'.
Proof. intros Ht (Hj & Hs & He). split_and!; try done; lia. Qed.
(** A request that ends leaves what others ended with. *)
Lemma vouched_insert fs i key0 t0 p key e t :
  fs !! i = Some (mkFlight key0 t0 Running) →
  vouched fs key e t → vouched (<[i := mkFlight key0 t0 p]> fs) key e t.
Proof.
  intros Hi [(j & t1 & Hj) H]. split; [|done]. exists j, t1.
  rewrite list_lookup_insert_ne; [done|]. congruence.
Qed.

Lemma cache_get_Some t key s e :
  cache_get t key s = Some e → s !! key = Some e ∧ (t ≤ expiresAt e)%Z.
Proof.
  unfold cache_get. destruct (s !! key) as [e'|]; [|done].
  destruct (Z.ltb_spec (expiresAt e') t); [done|]. intros [= ->]. by split.
Qed.
Lemma evict_lookup t s key e : evict t s !! key = Some e → s !! key = Some e.
Proof. unfold evict. by intros [? _]%map_lookup_filter_Some. Qed.

Lemma coherent_arrive t s fs key :
  coherent (mkCstate t s fs) → coherent (cstep (mkCstate t s fs) (Arrive key)).
Proof.
  intros [Hs Hr]. simpl in *. split; simpl.
  - intros k e He. by apply vouched_app, Hs.
  - intros i k t1 e [Hi|[Hlen Hi]]%lookup_app_Some.
    + destruct (Hr i k t1 e Hi). split; [by apply vouched_app|done].
    + apply list_lookup_singleton_Some in Hi as [_ Hi].
      destruct (cache_get t key s) as [e'|] eqn:Hget; simplify_eq.
      apply cache_get_Some in Hget as [Hget Ht]. split; [by apply vouched_app, Hs|done].
Qed.

Lemma coherent_return t s fs i o r :
  coherent (mkCstate t s fs) → coherent (cstep (mkCstate t s fs) (Return i o r)).
Proof.
  intros [Hs Hr]. simpl in *. destruct (fs !! i) as [[key t0 [e0| |e0]]|] eqn:Hi; try by split.
  assert (∀ e, settle t o r = Some e →
    vouched (<[i := mkFlight key t0 (Finished (settle t o r))]> fs) key e t) as Hnew.
  { intros e He. split.
    - exists i, t0. rewrite He. apply list_lookup_insert_eq. by eapply lookup_lt_Some.
    - unfold settle in He. destruct o as [[|]| |]; try done.
      apply entry_of_spec in He as (? & -> & _). split; [done|lia]. }
  split; simpl.
  - intros k e He. destruct (settle t o r) as [e'|] eqn:Hse; simpl in He.
    + unfold cache_set in He. apply lookup_insert_Some in He as [[-> ->]|[_ He]]; [by apply Hnew|].
      by apply vouched_insert; [|apply Hs].
    + by apply vouched_insert; [|apply Hs].
  - intros j k t1 e Hj. apply list_lookup_insert_Some in Hj as [(_ & ? & _)|[_ Hj]]; [done|].
    destruct (Hr j k t1 e Hj). by split; [apply vouched_insert|].
Qed.

Lemma coherent_step w ev : coherent w → coherent (cstep w ev).
Proof.
  destruct w as [t s fs], ev; [apply coherent_arrive|apply coherent_return|..]; intros [Hs Hr].
  - split; simpl in *; [|done]. intros k e He%evict_lookup. by apply Hs.
  - split; simpl in *; [|done]. intros k e He. eapply vouched_later; [|by apply Hs]. lia.
Qed.

Lemma coherent_empty t : coherent (empty_at t).
Proof. by split. Qed.

Lemma crun_coherent es t : coherent (crun es (empty_at t)).
Proof. apply (fold_left_inv coherent); [intros; by apply coherent_step|apply coherent_empty]. Qed.

(** What a request stored is the response it returned with. *)
Lemma finished_returned es t0 j key t1 e :
  flights (crun es (empty_at t0)) !! j = Some (mkFlight key t1 (Finished (Some e))) →
  ∃ r ts, Return j (Ret None) r ∈ es ∧ entry_of cfg ts r = Some e.
Proof.
  induction es as [|ev es IH] using rev_ind; [done|]. unfold crun in *.
  intros Hj. rewrite fold_left_app in Hj. cbn [fold_left] in Hj. assert (flights (fold_left cstep es (empty_at t0)) !! j = Some (mkFlight key t1 (Finished (Some e))) ∨
    ∃ r ts, ev = Return j (Ret None) r ∧ entry_of cfg ts r = Some e) as [Hold|(r & ts & -> & He)].
  - destruct (fold_left cstep es (empty_at t0)) as [t s fs]. destruct ev as [k|i o r| |d]; simpl in Hj; try by left.
    + apply lookup_app_Some in Hj as [Hj|[_ Hj]]; [by left|].
      apply list_lookup_singleton_Some in Hj as [_ Hj]. by destruct (cache_get t k s).
    + destruct (fs !! i) as [[k t2 [ | | ]]|] eqn:Hi; try by left. simpl in Hj.
      apply list_lookup_insert_Some in Hj as [(-> & Hj & _)|[_ Hj]]; [right|by left].
      injection Hj as -> -> Hset. unfold settle in Hset. destruct o as [[|]| |]; try done. eauto.
  - destruct (IH Hold) as (r & ts & Hin & He). exists r, ts. split; [set_solver|done].
  - exists r, ts. split; [set_solver|done].
Qed.

(** C35 The cache is coherent under concurrency. However requests, evictions and the clock
    interleave, a request answered from the cache replays exactly the status, content type
    and body another request for the same key returned with, without an error and with a
    success, at most the TTL earlier. *)
Theorem cache_coherent es t0 i key t e :
  flights (crun es (empty_at t0)) !! i = Some (mkFlight key t (Replayed e)) →
  ∃ j t1 r ts,
    flights (crun es (empty_at t0)) !! j = Some (mkFlight key t1 (Finished (Some e))) ∧
    Return j (Ret None) r ∈ es ∧ (200 ≤ res_StatusCode r < 300)%Z ∧
    (ts ≤ t ≤ ts + cache_ttl cfg)%Z ∧
    e = mkCacheEntry (res_Body r) (res_ContentType r) (res_StatusCode r) (ts + cache_ttl cfg).
Proof.
  intros Hi. destruct (crun_coherent es t0) as [_ Hr].
  destruct (Hr i key t e Hi) as [((j & t1 & Hj) & Hst & Ht) He].
  destruct (finished_returned es t0 j key t1 e Hj) as (r & ts & Hin & Hent).
  exists j, t1, r, ts. apply entry_of_spec in Hent as (_ & Hexp & Hcode & Hbody & Hct).
  rewrite Hexp in Ht, He. rewrite <- Hcode. split_and!; try done; try lia.
  destruct e; simpl in *. by subst.
Qed.

(** ** Evictions answer nothing *)

(** The two stores answer alike from now on. *)
Definition same_from (t : Z) (s s' : cacheStore) : Prop :=
  ∀ t' key, (t ≤ t')%Z → cache_get t' key s = cache_get t' key s'.

Lemma evict_get t t' key s : (t ≤ t')%Z → cache_get t' key (evict t s) = cache_get t' key s.
Proof.
  intros Ht. unfold cache_get, evict. rewrite map_lookup_filter.
  destruct (s !! key) as [e|]; simpl; [|done].
  destruct (Z.ltb_spec (expiresAt e) t); simpl; [|done].
  by destruct (Z.ltb_spec (expiresAt e) t'); [|lia].
Qed.
Lemma put_get t key' e key s :
  cache_get t key' (put key e s) =
    match e with
    | Some e => if decide (key' = key) then (if (expiresAt e <? t)%Z then None else Some e)
                else cache_get t key' s
    | None => cache_get t key' s
    end.
Proof.
  destruct e as [e|]; [|done]. unfold cache_get. simpl. unfold cache_set.
  destruct (decide (key' = key)) as [->|]; [by rewrite lookup_insert_eq|by rewrite lookup_insert_ne].
Qed.

Definition is_evict (ev : event) : bool := match ev with Evict => true | _ => false end.

Lemma same_from_run es t s s' fs :
  same_from t s s' →
  flights (crun es (mkCstate t s fs)) =
  flights (crun (filter (λ ev, is_evict ev = false) es) (mkCstate t s' fs)).
Proof.
  revert t s s' fs. induction es as [|ev es IH]; intros t s s' fs Hs; [done|].
  destruct ev as [key|i o r| |d].
  - rewrite filter_cons_True by done. simpl. rewrite (Hs t key) by lia. by apply IH.
  - rewrite filter_cons_True by done. simpl.
    destruct (fs !! i) as [[key t1 [ | | ]]|]; try by apply IH.
    apply IH. intros t' key' Ht. rewrite !put_get. destruct (settle t o r); [|by apply Hs].
    destruct (decide _); [done|by apply Hs].
  - rewrite filter_cons_False by done. apply IH. intros t' key Ht.
    rewrite evict_get by done. by apply Hs.
  - rewrite filter_cons_True by done. apply IH. intros t' key Ht. apply Hs. lia.
Qed.

(** C36 The eviction ticker frees memory and nothing else: whenever it fires, every
    request is answered as if it never did. *)
Theorem eviction_unobservable es t :
  flights (crun es (empty_at t)) = flights (crun (filter (λ ev, is_evict ev = false) es) (empty_at t)).
Proof. by apply same_from_run. Qed.
End flights.

(** ** The handler's two steps *)

Section handler.
Context `{F : FastHTTP} `{!FastHTTPLaws F} {St : Type} `{!Has cacheStore St} `{!Clock St}.
Implicit Types (next : Handler St) (s : Ctx * St).

(** What [Cache] leaves for the handler after a miss. *)
Definition missed s : Ctx * St :=
  (upd_RequestCtx (on_response (res_Set (B "X-Cache") (B "MISS"))) s.1, s.2).

(** Run on its own, a request the cache looks up is an [Arrive] and a [Return] of the
    machine: the same answer, and the same store after. *)
Lemma Cache_alone cfg next s :
  cacheable cfg s.1 →
  match cache_get (now s.2) (cache_key cfg s.1) (view s.2) with
  | Some e => call (Cache cfg next) s = (replay e;; mret None) s
  | None =>
      let ran := call next (missed s) in
      let out := call (Cache cfg next) s in
      out.1 = ran.1 ∧ out.2.1 = ran.2.1 ∧
      view out.2.2 = put (cache_key cfg s.1) (settle cfg (now ran.2.2) ran.1 (response ran.2.1))
                       (view ran.2.2)
  end.
Proof.
  intros Hc. destruct (cache_get _ _ _) as [e|] eqn:Hget; [by apply Cache_hit|].
  cbv zeta. rewrite Cache_miss by done.
  unfold mod_response, mod_RequestCtx, modify, mbind, M_bind. cbn [fst snd]. fold (missed s).
  destruct (call next (missed s)) as [[[err|]|v|v] s1]; cbn [fst snd settle put]; try done.
  unfold remember, modify, mbind, M_bind. cbn [fst snd]. split_and!; try done.
  cbn [mret M_ret fst snd]. destruct (entry_of _ _ _); [apply view_over|done].
Qed.
End handler.

(** ** Caches and tokens *)

Section secrets.
Context `{F : FastHTTP} `{!FastHTTPLaws F} `{L : JWTLib}.
Context {St : Type} `{!Has cacheStore St} `{!Clock St}.
Implicit Types (next : Handler St) (s : Ctx * St).

Lemma WriteJSONError_state msg s : (WriteJSONError msg s).2.2 = s.2.
Proof.
  unfold WriteJSONError, mod_response, mod_RequestCtx, modify, mbind, M_bind. cbn.
  by destruct (json_Marshal _).
Qed.
Lemma jwt_reject_state (jcfg : JWTConfig St) msg s :
  jwt_ErrorHandler jcfg = None → (jwt_reject jcfg msg s).2.2 = s.2.
Proof.
  intros He. unfold jwt_reject. rewrite He. unfold mbind, M_bind. unfold mod_response, mod_RequestCtx, modify. by rewrite WriteJSONError_state.
Qed.

(** Without an [Authorization] header the default lookup finds no token. *)
Lemma no_header_no_token c :
  req_Peek (request c) (B "Authorization") = [] → ExtractToken c default_lookup = [].
Proof.
  intros Ha. change (ExtractToken c default_lookup)
    with (TrimSpace (TrimPrefix (req_Peek (request c) (B "Authorization")) (B "Bearer "))).
  by rewrite Ha.
Qed.

(** Authentication leaves the store as its handler does. *)
Lemma JWT_state (jcfg : JWTConfig St) next s :
  jwt_ErrorHandler jcfg = None → (∀ s, view (S := cacheStore) (call next s).2.2 = view s.2) →
  view (S := cacheStore) (call (JWT jcfg next) s).2.2 = view s.2.
Proof.
  intros He Hn.
  destruct (ValidateJWT (now s.2) (ExtractToken s.1 (jwt_lookup jcfg)) (Secret jcfg)) as [c|msg] eqn:Hv.
  - rewrite (JWT_passes jcfg next s c Hv). by rewrite Hn.
  - destruct (JWT_refuses jcfg s) as [m Hm]; [congruence|by rewrite Hm, jwt_reject_state].
Qed.

(** C13 A cache in front of the default authentication, that of the [Authorization] header
    with the default [ErrorHandler], keeps nothing of what it protects: whatever the
    request, the store is left as it was if the handler leaves it alone, since requests with
    an [Authorization] header pass by and the others are refused, which is no success. This
    needs no law of the JWT library. *)
Theorem cache_keeps_no_secret cfg (jcfg : JWTConfig St) next s :
  jwt_lookup jcfg = default_lookup → jwt_ErrorHandler jcfg = None →
  (∀ s, view (S := cacheStore) (call next s).2.2 = view s.2) →
  view (S := cacheStore) (call (Cache cfg (JWT jcfg next)) s).2.2 = view s.2.
Proof.
  intros Hl He Hn. destruct (decide (cacheable cfg s.1)) as [Hc|Hc].
  2: { rewrite Cache_skips by done. by apply JWT_state. }
  pose proof (Cache_alone cfg (JWT jcfg next) s Hc) as Hal.
  destruct (cache_get _ _ _) as [e|]; [by rewrite Hal|]. destruct Hal as (_ & _ & ->).
  destruct (JWT_refuses jcfg (missed s)) as [m Hm].
  { rewrite Hl. intros c. rewrite no_header_no_token by apply Hc. unfold ValidateJWT.
    by destruct (Secret jcfg). }
  rewrite Hm, jwt_reject_state by done.
  destruct (jwt_reject_status jcfg m (missed s) He) as [-> Hst]. unfold settle, entry_of.
  by rewrite Hst.
Qed.
End secrets.

(** ** Concrete runs *)

Section witnesses.
Import Simple.
Local Existing Instance simple_http.
Local Instance Has_fst {S T} : Has S (S * T).
Proof. by refine {| view := fst; over f x := (f x.1, x.2) |}. Defined.
Local Instance Clock_snd {S} : Clock (S * Z) := snd.
Local Instance lib : JWTLib := SimpleJWT.lib [(B "tok", (B "key", alice' 5))].

(** Two requests for a key miss together; a third, after an eviction and 7 ticks, gets
    what the second stored. *)
Definition page (b : string) : response := mkResponse 200 [] [] (B b).
Definition traffic : list (event (F := simple_http)) :=
  [Arrive (B "k"); Arrive (B "k"); Return 0 (Ret None) (page "old"); Tick 4;
   Return 1 (Ret None) (page "new"); Evict; Tick 7; Arrive (B "k")].

Lemma cache_coherent_witness :
  ∃ j t1 r ts e,
    flights (crun cache_cfg traffic (empty_at 0)) !! j = Some (mkFlight (B "k") t1 (Finished (Some e))) ∧
    Return j (Ret None) r ∈ traffic ∧ (ts ≤ 11 ≤ ts + 10)%Z ∧ ce_body e = B "new".
Proof.
  destruct (cache_coherent cache_cfg traffic 0 2 (B "k") 11
    (mkCacheEntry (B "new") default_ctype 200 14)) as (j & t1 & r & ts & Hj & Hin & _ & Ht & He).
  - vm_compute. reflexivity.
  - exists j, t1, r, ts. eexists. split; [exact Hj|]. split; [exact Hin|]. split; [exact Ht|reflexivity].
Defined.

(** A protected page in front of which the application put a cache, under two lookups. *)
Definition guarded (lookup : bytes) : Handler (cacheStore * Z) :=
  Cache cache_cfg (JWT (mkJWTConfig (B "key") lookup None) (Some (write (B "secret")))).
Definition visit (hs : headers) (h : Handler (cacheStore * Z)) (st : cacheStore * Z) :=
  call h (ctx_of (B "GET") (B "/x") hs, st).

Lemma cache_keeps_no_secret_witness :
  (visit [(B "Authorization", B "Bearer tok")] (guarded []) (empty_cache 5)).2.2.1 = ∅ ∧
  res_Body (Middleware.response (visit [(B "Authorization", B "Bearer tok")] (guarded []) (empty_cache 5)).2.1)
    = B "secret".
Proof.
  split; [|vm_compute; reflexivity].
  pose proof (cache_keeps_no_secret cache_cfg (mkJWTConfig (B "key") [] None) (Some (write (B "secret")))
    (ctx_of (B "GET") (B "/x") [(B "Authorization", B "Bearer tok")], empty_cache 5)) as H.
  exact (H eq_refl eq_refl (λ _, eq_refl)).
Defined.

(** With any other lookup the cache hands what an authenticated client was sent to
    whoever asks next. *)
Example other_lookups_leak :
  let h := guarded (B "header:X-Token") in
  let out := visit [(B "X-Token", B "tok")] h (empty_cache 5) in
  let stranger := visit [] h out.2.2 in
  res_StatusCode (Middleware.response (visit [] h (empty_cache 5)).2.1) = 401%Z ∧
  res_StatusCode (Middleware.response stranger.2.1) = 200%Z ∧
  res_Body (Middleware.response stranger.2.1) = B "secret".
Proof. vm_compute. done. Qed.

(** In front of [Compress] the cache replays a compressed body without the header that
    says so, to a client that never asked for it. *)
Example cache_loses_encoding :
  let gzip b := B "gz:" ++ take 4 b in
  let h := Cache cache_cfg (Compress gzip gzip (Some (write (replicate 1024 "a"%char)))) in
  let out := visit [(B "Accept-Encoding", B "gzip")] h (empty_cache 0) in
  let next := visit [] h out.2.2 in
  res_Peek (Middleware.response out.2.1) (B "Content-Encoding") = B "gzip" ∧
  res_Peek (Middleware.response next.2.1) (B "Content-Encoding") = [] ∧
  res_Body (Middleware.response next.2.1) = B "gz:aaaa".
Proof. vm_compute. done. Qed.
End witnesses.
