(* ===== verification/Limiting.v ===== *)
(** * Requests that share the rate limiters' table ([middleware/ratelimit.go])

    [visitors] is one table for the whole package: every [RateLimit] counts in it, with its
    own limit and window, and has its own cleaner. A request through one takes two steps:
    [getVisitor] finds or makes the visitor of its address, and a critical section on that
    visitor counts it. In between other requests, the cleaners and the clock move, and a
    cleaner looks at a visitor first and deletes its key later. Visitors are objects: the
    table holds pointers, and a request may hold one the table has forgotten.
    [limiter_exact] holds for every sequence of [event]s; [visit_alone] relates the two
    steps to [visit]; and [cleaner_race] is a run in which a client gets two windows at
    once. *)

From S2P Require Import Prelude GoStrings Effects FastHTTP Core Middleware.

Section limiter.
(** The limiters in use, by number, with their limits and windows. *)
Context (limits windows : nat → Z).

(** A request at limiter [fl_lim] that got the visitor [fl_ptr], before its critical
    section or after it. *)
Record flight := mkFlight { fl_ip : bytes; fl_lim : nat; fl_ptr : nat; fl_judged : bool }.

(** What a critical section decided: whose request it was, at which limiter, on which
    visitor, in the window that ends at [vd_epoch], when, and whether it was refused. *)
Record verdict := mkVerdict {
  vd_ip : bytes; vd_lim : nat; vd_ptr : nat; vd_epoch : Z; vd_time : Z; vd_over : bool }.

(** The time a cleaner read when its tick began, and the key it found expired and has not
    deleted yet. *)
Record cleaner := mkCleaner { woken : Z; doomed : option bytes }.

Record lstate := mkLstate {
  ls_now : Z;
  heap : list visitor;
  table : gmap bytes nat;
  flights : list flight;
  cleaners : gmap nat cleaner;
  verdicts : list verdict;
}.
Definition start_at (t : Z) : lstate := mkLstate t [] ∅ [] ∅ [].

(** A [Load] carries how long before it the request read the clock. [Range] loads a visitor
    a little before the cleaner looks at it; since [resetAt] only grows, that is an
    [Inspect] at the time of the load. *)
Inductive event :=
  | Load (k : nat) (ip : bytes) (lag : nat)
  | Judge (i : nat)
  | Wake (k : nat)
  | Inspect (k : nat) (ip : bytes)
  | Remove (k : nat) (ip : bytes)
  | Tick (d : nat).

(** The critical section of the handler of limiter [k]. *)
Definition judge (k : nat) (t : Z) (v : visitor) : bool * visitor :=
  let v := if (resetAt v <? t)%Z then mkVisitor 0 (t + windows k) else v in
  let v := mkVisitor (wrap_i64 (count v + 1)) (resetAt v) in
  ((limits k <? count v)%Z, v).

Definition lstep (w : lstate) (ev : event) : lstate :=
  let '(mkLstate t h tb fs cl vs) := w in
  match ev with
  | Load k ip lag =>
      match tb !! ip with
      | Some p => mkLstate t h tb (fs ++ [mkFlight ip k p false]) cl vs
      | None =>
          let p := length h in
          mkLstate t (h ++ [mkVisitor 0 (t - Z.of_nat lag + windows k)]) (<[ip := p]> tb)
            (fs ++ [mkFlight ip k p false]) cl vs
      end
  | Judge i =>
      match fs !! i with
      | Some (mkFlight ip k p false) =>
          match h !! p with
          | Some v =>
              let '(over, v) := judge k t v in
              mkLstate t (<[p := v]> h) tb (<[i := mkFlight ip k p true]> fs) cl
                (vs ++ [mkVerdict ip k p (resetAt v) t over])
          | None => w
          end
      | _ => w
      end
  | Wake k =>
      match cl !! k with
      | Some (mkCleaner _ (Some _)) => w
      | _ => mkLstate t h tb fs (<[k := mkCleaner t None]> cl) vs
      end
  | Inspect k ip =>
      match cl !! k, tb !! ip ≫= λ p, h !! p with
      | Some (mkCleaner wk None), Some v =>
          if (resetAt v <? wk)%Z then mkLstate t h tb fs (<[k := mkCleaner wk (Some ip)]> cl) vs else w
      | _, _ => w
      end
  | Remove k ip =>
      match cl !! k with
      | Some (mkCleaner wk (Some ip')) =>
          if beqb ip ip' then mkLstate t h (delete ip tb) fs (<[k := mkCleaner wk None]> cl) vs else w
      | _ => w
      end
  | Tick d => mkLstate (t + Z.of_nat d) h tb fs cl vs
  end.
Definition lrun (es : list event) (w : lstate) : lstate := fold_left lstep es w.

(** How many elements a predicate holds of. *)
Fixpoint tally {A} (P : A → bool) (l : list A) : nat :=
  match l with [] => 0 | x :: l => (if P x then 1 else 0) + tally P l end.

(** Judged on the visitor [p] in the window that ends at [r]; and let through there by
    limiter [k]. *)
Definition judged_in (p : nat) (r : Z) (d : verdict) : bool := (vd_ptr d =? p) && (vd_epoch d =? r)%Z.
Definition admitted_in (k p : nat) (r : Z) (d : verdict) : bool :=
  judged_in p r d && (vd_lim d =? k) && negb (vd_over d).

(** Every verdict is what its limiter says of the number of requests, of any limiter, that
    were judged in the same window before. *)
Definition exact (vs : list verdict) : Prop :=
  ∀ l1 d l2, vs = l1 ++ d :: l2 →
    vd_over d = (limits (vd_lim d) <? 1 + Z.of_nat (tally (judged_in (vd_ptr d) (vd_epoch d)) l1))%Z.

(** ** Counting *)

Lemma tally_app {A} (P : A → bool) l l' : tally P (l ++ l') = tally P l + tally P l'.
Proof. induction l as [|f l IH]; simpl; [done|]. rewrite IH. lia. Qed.
Lemma tally_le {A} (P Q : A → bool) l :
  (∀ x, P x = true → Q x = true) → tally P l ≤ tally Q l.
Proof.
  intros H. induction l as [|x l IH]; simpl; [done|]. specialize (H x).
  destruct (P x), (Q x); naive_solver lia.
Qed.
Lemma tally_length {A} (P : A → bool) l : tally P l ≤ length l.
Proof. induction l as [|f l IH]; simpl; [done|]. destruct (P f); lia. Qed.
Lemma tally_0 {A} (P : A → bool) l : (∀ x, x ∈ l → P x = false) → tally P l = 0.
Proof.
  induction l as [|x l IH]; intros H; [done|]. simpl. rewrite (H x) by by left.
  apply IH. intros y Hy. apply H. by right.
Qed.

Lemma exact_nil : exact [].
Proof. intros l1 d l2 Heq. by destruct l1. Qed.
Lemma exact_snoc vs d :
  exact vs →
  vd_over d = (limits (vd_lim d) <? 1 + Z.of_nat (tally (judged_in (vd_ptr d) (vd_epoch d)) vs))%Z →
  exact (vs ++ [d]).
Proof.
  intros Hvs Hd l1 x l2. destruct l2 as [|y l2 _] using rev_ind.
  - intros [-> [= ->]]%app_inj_2; done.
  - rewrite app_comm_cons, app_assoc. intros [-> [= ->]]%app_inj_2; [|done]. by eapply Hvs.
Qed.
Lemma exact_prefix vs d : exact (vs ++ [d]) →
  exact vs ∧ vd_over d = (limits (vd_lim d) <? 1 + Z.of_nat (tally (judged_in (vd_ptr d) (vd_epoch d)) vs))%Z.
Proof.
  intros H. split; [|by apply (H vs d [])]. intros l1 x l2 ->.
  apply (H l1 x (l2 ++ [d])). by rewrite <- app_assoc.
Qed.

(** No limiter lets more than its limit through in a window; one that has the window to
    itself lets through as many as it may. *)
Lemma exact_bound vs k p r :
  exact vs → (0 ≤ limits k)%Z →
  tally (admitted_in k p r) vs ≤ Nat.min (Z.to_nat (limits k)) (tally (judged_in p r) vs).
Proof.
  intros Hvs Hk. induction vs as [|d vs IH] using rev_ind; [simpl; lia|].
  apply exact_prefix in Hvs as [Hvs Hd]. specialize (IH Hvs). rewrite !tally_app. simpl.
  unfold admitted_in at 2. destruct (judged_in p r d) eqn:Hj; simpl; [|lia].
  apply andb_true_iff in Hj as [Hp%Nat.eqb_eq Hr%Z.eqb_eq]. rewrite Hp, Hr in Hd.
  destruct (Nat.eqb_spec (vd_lim d) k) as [Hl|]; simpl; [|lia]. rewrite Hl in Hd.
  destruct (vd_over d); simpl; [lia|]. symmetry in Hd. apply Z.ltb_ge in Hd. lia.
Qed.
Lemma exact_alone vs k p r :
  exact vs → (0 ≤ limits k)%Z → (∀ d, d ∈ vs → judged_in p r d = true → vd_lim d = k) →
  tally (admitted_in k p r) vs = Nat.min (Z.to_nat (limits k)) (tally (judged_in p r) vs).
Proof.
  intros Hvs Hk Hal. induction vs as [|d vs IH] using rev_ind; [simpl; lia|].
  apply exact_prefix in Hvs as [Hvs Hd].
  specialize (IH Hvs ltac:(intros x Hx; apply Hal; apply elem_of_app; by left)).
  rewrite !tally_app. simpl. unfold admitted_in at 2. specialize (Hal d ltac:(apply elem_of_app; right; by left)).
  destruct (judged_in p r d) eqn:Hj; simpl; [|lia]. rewrite (Hal eq_refl), Nat.eqb_refl in *. simpl.
  apply andb_true_iff in Hj as [Hp%Nat.eqb_eq Hr%Z.eqb_eq]. rewrite Hp, Hr in Hd.
  destruct (vd_over d); symmetry in Hd; simpl; [apply Z.ltb_lt in Hd|apply Z.ltb_ge in Hd]; lia.
Qed.

(** ** The invariant *)

(** What the counter of a visitor means, given the verdicts so far. *)
Definition counted (vs : list verdict) (p : nat) (v : visitor) : Prop :=
  count v = Z.of_nat (tally (judged_in p (resetAt v)) vs) ∧
  ∀ r, (resetAt v < r)%Z → tally (judged_in p r) vs = 0.

(** [own] names the client each visitor was made for. *)
Record linv (own : list bytes) (w : lstate) : Prop := {
  inv_own : length own = length (heap w);
  inv_table ip p : table w !! ip = Some p → own !! p = Some ip;
  inv_flight f : f ∈ flights w → own !! fl_ptr f = Some (fl_ip f);
  inv_verdict d : d ∈ verdicts w → own !! vd_ptr d = Some (vd_ip d) ∧
    (vd_time d ≤ vd_epoch d)%Z ∧ ∃ k, (vd_epoch d - windows k ≤ vd_time d)%Z;
  inv_count p v : heap w !! p = Some v → counted (verdicts w) p v;
  inv_opened p v : heap w !! p = Some v → ∃ k, (resetAt v - windows k ≤ ls_now w)%Z;
  inv_exact : exact (verdicts w);
}.

Lemma unborn_tally own w p r : linv own w → length (heap w) ≤ p → tally (judged_in p r) (verdicts w) = 0.
Proof.
  intros Hi Hp. apply tally_0. intros d Hd. apply (inv_verdict _ _ Hi) in Hd as [Hd _].
  apply lookup_lt_Some in Hd. rewrite (inv_own _ _ Hi) in Hd. unfold judged_in.
  by destruct (Nat.eqb_spec (vd_ptr d) p); [lia|].
Qed.

(** The clients a step makes visitors for. *)
Definition born (w : lstate) (ev : event) : list bytes :=
  match ev with
  | Load _ ip _ => match table w !! ip with Some _ => [] | None => [ip] end
  | _ => []
  end.

Lemma linv_load own w k ip lag : linv own w → linv (own ++ born w (Load k ip lag)) (lstep w (Load k ip lag)).
Proof.
  intros Hi. destruct w as [t h tb fs cl vs]. simpl. destruct (tb !! ip) as [p|] eqn:Hp.
  - rewrite app_nil_r. destruct Hi as [H1 H2 H3 H4 H5 H6 H7]. split; simpl in *; try done.
    intros f [Hf| ->%list_elem_of_singleton]%elem_of_app; [by apply H3|by apply H2].
  - pose proof (λ r, unborn_tally own _ (length h) r Hi (le_n _)) as Hun. simpl in Hun.
    destruct Hi as [H1 H2 H3 H4 H5 H6 H7]. simpl in *.
    assert (∀ q x, own !! q = Some x → (own ++ [ip]) !! q = Some x) as Hown
      by (intros q x; apply lookup_app_l_Some).
    assert ((own ++ [ip]) !! length h = Some ip) as Hnew by (rewrite <- H1; by rewrite lookup_app_r, Nat.sub_diag).
    split; simpl; try done.
    + rewrite !length_app. simpl. lia.
    + intros ip' q [[<- <-]|[_ Hq]]%lookup_insert_Some; [done|]. by apply Hown, H2.
    + intros f [Hf| ->%list_elem_of_singleton]%elem_of_app; [by apply Hown, H3|done].
    + intros d Hd. destruct (H4 d Hd). split; [by apply Hown|done].
    + intros q v [Hv|[Hle Hv]]%lookup_app_Some; [by apply H5|].
      apply list_lookup_singleton_Some in Hv as [Hq <-]. assert (q = length h) as -> by lia.
      split; simpl; [by rewrite Hun|]. intros r _. apply Hun.
    + intros q v [Hv|[_ Hv]]%lookup_app_Some; [by eapply H6|].
      apply list_lookup_singleton_Some in Hv as [_ <-]. exists k. simpl. lia.
Qed.

(** What a critical section does to the meaning of the counter. *)
Lemma judge_counted k t v vs p ip :
  (0 ≤ windows k)%Z → (Z.of_nat (length vs) + 1 < 2 ^ 63)%Z → counted vs p v →
  let '(over, v') := judge k t v in
  let d := mkVerdict ip k p (resetAt v') t over in
  counted (vs ++ [d]) p v' ∧ over = (limits k <? 1 + Z.of_nat (tally (judged_in p (resetAt v')) vs))%Z ∧
  (resetAt v' = resetAt v ∨ resetAt v' = (t + windows k)%Z) ∧ (t ≤ resetAt v')%Z.
Proof.
  intros Hw Hov [Hc Hz]. unfold judge. set (v1 := if (resetAt v <? t)%Z then _ else v).
  assert ((resetAt v1 = resetAt v ∨ resetAt v1 = (t + windows k)%Z) ∧ (t ≤ resetAt v1)%Z ∧
          (resetAt v ≤ resetAt v1)%Z ∧ count v1 = Z.of_nat (tally (judged_in p (resetAt v1)) vs))
    as (Hr & Ht & Hle & Hn).
  { unfold v1. destruct (Z.ltb_spec (resetAt v) t) as [Hlt|Hge]; simpl.
    - split_and!; [by right|lia|lia|]. by rewrite Hz by lia.
    - split_and!; [by left|lia|lia|done]. }
  clearbody v1. cbn [resetAt count]. pose proof (tally_length (judged_in p (resetAt v1)) vs) as Hlen.
  rewrite wrap_i64_small by lia. split_and!; [|f_equal; lia|done|done].
  split; cbn [resetAt count].
  - rewrite tally_app. simpl. unfold judged_in at 2. cbn [vd_ptr vd_epoch]. rewrite Nat.eqb_refl, Z.eqb_refl. simpl. lia.
  - intros r Hlt. rewrite tally_app, Hz by lia. simpl. unfold judged_in. cbn [vd_ptr vd_epoch].
    rewrite (proj2 (Z.eqb_neq (resetAt v1) r)) by lia. by rewrite andb_false_r.
Qed.

Lemma counted_other vs p q v d : vd_ptr d = p → p ≠ q → counted vs q v → counted (vs ++ [d]) q v.
Proof.
  intros Hd Hne [Hc Hz].
  assert (∀ r, tally (judged_in q r) (vs ++ [d]) = tally (judged_in q r) vs) as Ht.
  { intros r. rewrite tally_app. simpl. unfold judged_in at 2. rewrite (proj2 (Nat.eqb_neq (vd_ptr d) q)) by congruence.
    simpl. lia. }
  split; [by rewrite Ht|]. intros r Hr. by rewrite Ht, Hz.
Qed.

Lemma linv_judge own w i :
  (∀ k, 0 ≤ windows k)%Z → (Z.of_nat (length (verdicts w)) + 1 < 2 ^ 63)%Z →
  linv own w → linv own (lstep w (Judge i)).
Proof.
  intros Hw Hov Hinv. destruct w as [t h tb fs cl vs]. unfold lstep.
  destruct (fs !! i) as [[ip k p []]|] eqn:Hi; [done| |done].
  destruct (h !! p) as [v|] eqn:Hp; [|done].
  destruct Hinv as [H1 H2 H3 H4 H5 H6 H7]. cbn [heap table flights ls_now verdicts] in *.
  pose proof (judge_counted k t v vs p ip (Hw k) Hov (H5 p v Hp)) as Hj.
  destruct (judge k t v) as [over v']. destruct Hj as (Hc & Hover & Hr & Ht).
  pose proof (H3 _ (list_elem_of_lookup_2 _ _ _ Hi)) as Hown. simpl in Hown.
  assert (∃ k', (resetAt v' - windows k' ≤ t)%Z) as Hopen.
  { destruct Hr as [-> | ->]; [by apply (H6 p v Hp)|]. exists k. lia. }
  split; cbn [heap table flights ls_now verdicts].
  - by rewrite length_insert.
  - done.
  - intros f [j Hf]%list_elem_of_lookup.
    apply list_lookup_insert_Some in Hf as [(-> & <- & _)|[_ Hf]]; [exact Hown|].
    by apply H3, (list_elem_of_lookup_2 _ j).
  - intros d [Hd| ->%list_elem_of_singleton]%elem_of_app; [by apply H4|]. done.
  - intros q u [(-> & <- & _)|[Hne Hu]]%list_lookup_insert_Some; [done|].
    apply (counted_other _ p); [done|done|by apply H5].
  - intros q u [(-> & <- & _)|[_ Hu]]%list_lookup_insert_Some; [done|by eapply H6].
  - by apply exact_snoc.
Qed.

Lemma lstep_length w ev : length (verdicts (lstep w ev)) ≤ S (length (verdicts w)).
Proof.
  destruct w as [t h tb fs cl vs], ev as [k ip lag|i|k|k ip|k ip|d]; unfold lstep; repeat case_match; simpl;
    rewrite ?length_app; simpl; lia.
Qed.

Lemma linv_step own w ev :
  (∀ k, 0 ≤ windows k)%Z → (Z.of_nat (length (verdicts w)) + 1 < 2 ^ 63)%Z →
  linv own w → linv (own ++ born w ev) (lstep w ev).
Proof.
  intros Hw Hov Hi. destruct ev as [k ip lag|i|k|k ip|k ip|d]; [by apply linv_load|cbn [born]; rewrite app_nil_r..].
  - by apply linv_judge.
  - destruct w as [t h tb fs cl vs]. unfold lstep. destruct (cl !! k) as [[wk [ip|]]|]; [done|by destruct Hi..].
  - destruct w as [t h tb fs cl vs]. unfold lstep. destruct (cl !! k) as [[wk [ip'|]]|]; [done| |done].
    destruct (tb !! ip ≫= _) as [v|]; [|done]. destruct (_ <? _)%Z; [|done]. by destruct Hi.
  - destruct w as [t h tb fs cl vs]. unfold lstep. destruct (cl !! k) as [[wk [ip'|]]|]; [|done..].
    destruct (beqb ip ip'); [|done]. destruct Hi as [H1 H2 H3 H4 H5 H6 H7]. split; simpl in *; try done.
    intros x p [_ Hp]%lookup_delete_Some. by apply H2.
  - destruct w as [t h tb fs cl vs], Hi as [H1 H2 H3 H4 H5 H6 H7]. split; simpl in *; try done.
    intros p v Hv. destruct (H6 p v Hv) as [k Hk]. exists k. lia.
Qed.

(** A client whose key is never deleted has one visitor, the one in the table. *)
Definition kept (own : list bytes) (ip : bytes) (w : lstate) : Prop :=
  ∀ p, own !! p = Some ip → table w !! ip = Some p.

Lemma table_step w ev ip :
  (∀ k, ev ≠ Remove k ip) → (∀ k lag, ev ≠ Load k ip lag ∨ is_Some (table w !! ip)) →
  table (lstep w ev) !! ip = table w !! ip.
Proof.
  intros Hr Hl. destruct w as [t h tb fs cl vs], ev as [k x lag|i|k|k x|k x|d]; unfold lstep; simpl in *;
    try by repeat case_match.
  - destruct (tb !! x) eqn:Hx; [done|]. simpl. apply lookup_insert_ne. intros ->.
    destruct (Hl k lag) as [?|[? ?]]; congruence.
  - repeat case_match; try done. simpl. apply lookup_delete_ne. intros ->. by apply (Hr k).
Qed.

Lemma kept_step own w ev ip :
  linv own w → kept own ip w → (∀ k, ev ≠ Remove k ip) → kept (own ++ born w ev) ip (lstep w ev).
Proof.
  intros Hi Hk Hev p Hp.
  assert (∀ q, own !! q = Some ip → table (lstep w ev) !! ip = Some q) as Hold.
  { intros q Hq%Hk. rewrite table_step; [done|done|]. intros. right. by exists q. }
  apply lookup_app_Some in Hp as [Hp|[Hle Hp]]; [by apply Hold|].
  destruct ev as [k x lag| | | | |]; cbn [born] in Hp; [|by rewrite lookup_nil in Hp..].
  destruct (table w !! x) eqn:Hx; [by rewrite lookup_nil in Hp|].
  apply list_lookup_singleton_Some in Hp as [Hp ->]. pose proof (inv_own _ _ Hi) as Hl.
  destruct w as [t h tb fs cl vs]. unfold lstep. simpl in *. rewrite Hx. simpl.
  rewrite lookup_insert_eq. f_equal. lia.
Qed.

Lemma linv_run es t0 :
  (∀ k, 0 ≤ windows k)%Z → (Z.of_nat (length es) < 2 ^ 63)%Z →
  length (verdicts (lrun es (start_at t0))) ≤ length es ∧
  ∃ own, linv own (lrun es (start_at t0)) ∧
    ∀ ip, (∀ k, Remove k ip ∉ es) → kept own ip (lrun es (start_at t0)).
Proof.
  intros Hw. induction es as [|ev es IH] using rev_ind; intros Hov.
  - split; [simpl; lia|]. exists []. split; [|done].
    split; simpl; try done; [by intros f ?%not_elem_of_nil|by intros d ?%not_elem_of_nil|apply exact_nil].
  - rewrite length_app in *. simpl in Hov. unfold lrun in *. rewrite fold_left_app. simpl.
    destruct IH as [Hlen (own & Hi & Hk)]; [lia|]. set (w := fold_left lstep es (start_at t0)) in *.
    split; [pose proof (lstep_length w ev); lia|]. exists (own ++ born w ev). split.
    + apply linv_step; [done|lia|done].
    + intros ip Hr. apply kept_step; [done| |].
      * apply Hk. intros k Hin. apply (Hr k), elem_of_app. by left.
      * intros k ->. apply (Hr k), elem_of_app. right. by left.
Qed.

(** C34 The limiters are exact, though all of them count in one table. Take limits and
    windows that are not negative. However requests at any of them, their cleaners and the
    clock interleave: each request is refused exactly when it is beyond its limiter's limit
    among all the requests, of whatever limiter, that were judged on its visitor in the same
    window, and it is judged while that window, which one of the limiters opened, is open.
    So in a window of a visitor no limiter lets more than its limit through, and one that
    shares the window with no other lets through exactly the first ones up to its limit. No
    two clients share a visitor, and a client whose key no cleaner deletes has one visitor
    only. *)
Theorem limiter_exact es t0 :
  (∀ k, 0 ≤ limits k)%Z → (∀ k, 0 ≤ windows k)%Z → (Z.of_nat (length es) < 2 ^ 63)%Z →
  let vs := verdicts (lrun es (start_at t0)) in
  (∀ l1 d l2, vs = l1 ++ d :: l2 →
    vd_over d = (limits (vd_lim d) <? 1 + Z.of_nat (tally (judged_in (vd_ptr d) (vd_epoch d)) l1))%Z) ∧
  (∀ d, d ∈ vs → (vd_time d ≤ vd_epoch d)%Z ∧ ∃ k, (vd_epoch d - windows k ≤ vd_time d)%Z) ∧
  (∀ k p r, tally (admitted_in k p r) vs ≤ Z.to_nat (limits k)) ∧
  (∀ k p r, (∀ d, d ∈ vs → judged_in p r d = true → vd_lim d = k) →
    tally (admitted_in k p r) vs = Nat.min (Z.to_nat (limits k)) (tally (judged_in p r) vs)) ∧
  (∀ d d', d ∈ vs → d' ∈ vs →
    (vd_ptr d = vd_ptr d' → vd_ip d = vd_ip d') ∧
    (vd_ip d = vd_ip d' → (∀ k, Remove k (vd_ip d) ∉ es) → vd_ptr d = vd_ptr d')).
Proof.
  intros Hl Hw Hov vs. destruct (linv_run es t0 Hw Hov) as [_ (own & Hi & Hk)]. fold vs in Hi.
  pose proof (inv_exact _ _ Hi) as Hex. fold vs in Hex. split_and!.
  - exact Hex.
  - intros d Hd. by destruct (inv_verdict _ _ Hi d Hd).
  - intros k p r. pose proof (exact_bound vs k p r Hex (Hl k)). lia.
  - intros k p r Hal. by apply exact_alone.
  - intros d d' Hd Hd'. destruct (inv_verdict _ _ Hi d Hd) as [Ho _], (inv_verdict _ _ Hi d' Hd') as [Ho' _].
    split; [congruence|]. intros Heq Hr. rewrite <- Heq in Ho'.
    pose proof (Hk _ Hr _ Ho). pose proof (Hk _ Hr _ Ho'). congruence.
Qed.

(** ** The handler's two steps *)

Lemma visit_judge (k : nat) (t : Z) (ip : bytes) (vs : visitors) :
  visit (limits k) (windows k) t ip vs =
  let '(over, v) := judge k t (default (mkVisitor 0 (t + windows k)) (vs !! ip)) in (over, <[ip := v]> vs).
Proof. reflexivity. Qed.

(** The table as the sequential model has it. *)
Definition deref (w : lstate) : visitors := omap (λ p, heap w !! p) (table w).

(** What a change to one visitor does to that table. *)
Lemma deref_insert (tb : gmap bytes nat) (h : list visitor) (ip : bytes) p v :
  tb !! ip = Some p → p < length h → (∀ ip', tb !! ip' = Some p → ip' = ip) →
  (omap (λ q, <[p := v]> h !! q) tb : visitors) = <[ip := v]> (omap (λ q, h !! q) tb).
Proof.
  intros Hp Hlt Hinj. apply map_eq. intros ip'. rewrite lookup_omap.
  destruct (decide (ip' = ip)) as [->|Hne].
  - rewrite lookup_insert_eq, Hp. simpl. by apply list_lookup_insert_eq.
  - rewrite lookup_insert_ne, lookup_omap by done. destruct (tb !! ip') as [q|] eqn:Hq; [|done].
    simpl. apply list_lookup_insert_ne. intros <-. by apply Hne, Hinj.
Qed.

(** After a [Load] the request, the last flight, holds the visitor of its address, and the
    table has the fresh one the request would have made only when it had none. *)
Lemma load_spec own w k (ip : bytes) :
  linv own w →
  let w' := lstep w (Load k ip 0) in
  ∃ p, table w' !! ip = Some p ∧ flights w' = flights w ++ [mkFlight ip k p false] ∧
    ls_now w' = ls_now w ∧ verdicts w' = verdicts w ∧
    heap w' !! p = Some (default (mkVisitor 0 (ls_now w + windows k)) (deref w !! ip)) ∧
    (∀ v, <[ip := v]> (deref w') = <[ip := v]> (deref w)).
Proof.
  intros Hi. destruct w as [t h tb fs cl vs]. unfold deref. simpl. rewrite lookup_omap.
  destruct (tb !! ip) as [p|] eqn:Hp; simpl.
  - exists p. split_and!; try done. apply (inv_table _ _ Hi), lookup_lt_Some in Hp.
    rewrite (inv_own _ _ Hi) in Hp. apply lookup_lt_is_Some_2 in Hp as [v Hv]. simpl in Hv. by rewrite Hv.
  - exists (length h). rewrite lookup_insert_eq, Z.sub_0_r, list_lookup_middle by done.
    split_and!; try done. intros v. apply map_eq. intros ip'.
    destruct (decide (ip' = ip)) as [->|Hne]; [by rewrite !lookup_insert_eq|].
    rewrite !lookup_insert_ne, !lookup_omap, lookup_insert_ne by done.
    destruct (tb !! ip') as [q|] eqn:Hq; [|done]. simpl. apply lookup_app_l.
    apply (inv_table _ _ Hi), lookup_lt_Some in Hq. by rewrite (inv_own _ _ Hi) in Hq.
Qed.

(** A [Judge] of a request that holds the visitor of its address in the table. *)
Lemma judge_spec w i k (ip : bytes) p v :
  flights w !! i = Some (mkFlight ip k p false) → heap w !! p = Some v →
  table w !! ip = Some p → (∀ ip', table w !! ip' = Some p → ip' = ip) →
  let '(over, v') := judge k (ls_now w) v in
  verdicts (lstep w (Judge i)) = verdicts w ++ [mkVerdict ip k p (resetAt v') (ls_now w) over] ∧
  deref (lstep w (Judge i)) = <[ip := v']> (deref w).
Proof.
  destruct w as [t h tb fs cl vs]. unfold deref, lstep. cbn [flights heap table ls_now verdicts].
  intros Hi Hh Ht Hinj. rewrite Hi, Hh. destruct (judge k t v) as [over v'] eqn:Hj. cbn [heap table verdicts].
  split; [done|]. apply deref_insert; [done|by eapply lookup_lt_Some|done].
Qed.

(** Run on its own, a request is a [Load] and a [Judge] of the machine: the same verdict,
    and the same table after. *)
Lemma visit_alone own w k (ip : bytes) :
  (∀ k, 0 ≤ windows k)%Z → (Z.of_nat (length (verdicts w)) + 1 < 2 ^ 63)%Z →
  linv own w →
  let i := length (flights w) in
  let w' := lstep (lstep w (Load k ip 0)) (Judge i) in
  let out := visit (limits k) (windows k) (ls_now w) ip (deref w) in
  ∃ p r, verdicts w' = verdicts w ++ [mkVerdict ip k p r (ls_now w) out.1] ∧ deref w' = out.2.
Proof.
  intros Hw Hov Hi. cbn zeta. destruct (load_spec own w k ip Hi) as (p & Ht & Hf & Hn & Hvs & Hh & Hd).
  pose proof (linv_step own w (Load k ip 0) Hw Hov Hi) as Hi'.
  pose proof (judge_spec (lstep w (Load k ip 0)) (length (flights w)) k ip p _
    ltac:(by rewrite Hf, list_lookup_middle) Hh Ht) as Hj.
  rewrite visit_judge. rewrite Hn, Hvs in Hj. destruct (judge _ _ _) as [over v'].
  destruct Hj as [H1 H2]; [|rewrite Hd in H2; by eauto].
  intros ip' Hp'. apply (inv_table _ _ Hi') in Ht, Hp'. congruence.
Qed.

End limiter.

(** ** Runs *)

Definition alice : bytes := B "192.0.2.1".
Definition bob : bytes := B "192.0.2.2".

(** Limiter 0 admits two requests in ten ticks, limiter 1 three in five. *)
Definition two_limits (k : nat) : Z := match k with 0 => 2 | _ => 3 end.
Definition two_windows (k : nat) : Z := match k with 0 => 10 | _ => 5 end.
Definition rush : list event :=
  [Load 0 alice 0; Load 0 bob 0; Load 1 alice 0; Judge 2; Judge 0; Tick 3; Load 0 alice 1; Load 1 alice 0;
   Judge 3; Judge 4; Judge 1].

Lemma limiter_exact_witness :
  let vs := verdicts (lrun two_limits two_windows rush (start_at 0)) in
  tally (judged_in 0 10) vs = 4 ∧ tally (admitted_in 0 0 10) vs ≤ 2 ∧ tally (admitted_in 0 1 10) vs = 1.
Proof.
  intros vs. split; [by vm_compute|].
  pose proof (limiter_exact two_limits two_windows rush 0 ltac:(by intros [|k]) ltac:(by intros [|k]) ltac:(done))
    as (_ & _ & Hle & Heq & _).
  split; [apply (Hle 0 0 10%Z)|]. etrans; [apply (Heq 0 1 10%Z)|by vm_compute].
  intros d Hd Hj. vm_compute in Hd.
  repeat (apply elem_of_cons in Hd as [->|Hd]; [first [reflexivity|discriminate Hj]|]).
  by apply elem_of_nil in Hd.
Defined.

(** The first request of a client decides the window, the limit is its limiter's: three
    requests of [alice] in a window of limiter 0 leave limiter 1 nothing until time 10, though
    it would admit three in every five ticks. *)
Example limiters_share_windows :
  let vs := verdicts (lrun two_limits two_windows
    [Load 0 alice 0; Judge 0; Load 0 alice 0; Judge 1; Load 0 alice 0; Judge 2; Tick 9; Load 1 alice 0; Judge 3]
    (start_at 0)) in
  vd_over <$> vs = [false; false; true; true].
Proof. by vm_compute. Qed.

(** The cleaner finds the visitor of [alice] expired, a request of hers opens a new window
    on it, and the cleaner then deletes her key: the next request starts a second window.
    The limit is one request in ten ticks, and two pass at time 11. *)
Example cleaner_race :
  let w := lrun (λ _, 1%Z) (λ _, 10%Z)
    [Load 0 alice 0; Judge 0; Tick 11; Load 0 alice 0; Wake 0; Inspect 0 alice; Judge 1;
     Remove 0 alice; Load 0 alice 0; Judge 2] (start_at 0) in
  (λ d, (vd_ptr d, vd_epoch d, vd_time d, vd_over d)) <$> verdicts w =
    [(0%nat, 10, 0, false); (0%nat, 21, 11, false); (1%nat, 21, 11, false)]%Z.
Proof. by vm_compute. Qed.
