(* ===== verification/Validation.v ===== *)
(** * Binding and validation ([core/types.go])

    A struct value, as [reflect] shows it, is a list of fields with their tags and
    kinds. Strings are walked byte by byte where the source walks runes: every
    character the rules accept is ASCII, and no byte of a longer rune is. *)

From S2P Require Import Prelude GoStrings Quote Effects FastHTTP Core Middleware.

(** What [reflect.Value] tells of a field. Numbers have the width of their kind. Floats
    are opaque: [trunc] is [int64(fv.Float())], [fzero] whether it is zero. *)
Inductive value :=
  | KString (s : bytes)
  | KInt (bits : Z) (n : Z)
  | KUint (bits : Z) (n : Z)
  | KFloat (bits : Z) (trunc : Z) (fzero : bool)
  | KBool (b : bool)
  | KSlice (is_nil : bool) (len : nat)    (* slices and maps *)
  | KArray (all_zero : bool) (len : nat)
  | KStruct (fs : list field)
  | KOther (is_zero : bool)
with field :=
  | mkField (Name json query param header validate : bytes) (Anonymous CanSet : bool) (v : value).

(** [reflect.StructField]: the name, the tags, and the field's value. *)
Definition f_Name (f : field) : bytes := let '(mkField n _ _ _ _ _ _ _ _) := f in n.
Definition t_json (f : field) : bytes := let '(mkField _ t _ _ _ _ _ _ _) := f in t.
Definition t_query (f : field) : bytes := let '(mkField _ _ t _ _ _ _ _ _) := f in t.
Definition t_param (f : field) : bytes := let '(mkField _ _ _ t _ _ _ _ _) := f in t.
Definition t_header (f : field) : bytes := let '(mkField _ _ _ _ t _ _ _ _) := f in t.
Definition t_validate (f : field) : bytes := let '(mkField _ _ _ _ _ t _ _ _) := f in t.
Definition f_Anonymous (f : field) : bool := let '(mkField _ _ _ _ _ _ a _ _) := f in a.
Definition f_CanSet (f : field) : bool := let '(mkField _ _ _ _ _ _ _ s _) := f in s.
Definition f_value (f : field) : value := let '(mkField _ _ _ _ _ _ _ _ v) := f in v.

(** [fv.IsZero()] *)
Fixpoint isZero (v : value) {struct v} : bool :=
  match v with
  | KString s => match s with [] => true | _ => false end
  | KInt _ n | KUint _ n => (n =? 0)%Z
  | KFloat _ _ z => z
  | KBool b => negb b
  | KSlice n _ => n
  | KArray z _ => z
  | KStruct fs => forallb (λ f, isZero (f_value f)) fs
  | KOther z => z
  end.

(** ** Character classes *)

Definition in_range (lo hi c : byte) : bool :=
  (nat_of_ascii lo <=? nat_of_ascii c) && (nat_of_ascii c <=? nat_of_ascii hi).
Definition is_digit (c : byte) : bool := in_range "0" "9" c.
Definition is_letter (c : byte) : bool := in_range "a" "z" c || in_range "A" "Z" c.
Definition is_alnum (c : byte) : bool := is_letter c || is_digit c.

Definition isNumeric (s : bytes) : bool := forallb is_digit s.
Definition isAlpha (s : bytes) : bool := forallb is_letter s.

(** [emailRegex]: local part, ['@'], and at least two dot-separated labels. *)
Definition local_char (c : byte) : bool :=
  is_alnum c || existsb (Ascii.eqb c) (B ".!#$%&'*+/=?^_`{|}~-").
Definition label_char (c : byte) : bool := is_alnum c || Ascii.eqb c "-".
Definition email_label (s : bytes) : bool :=
  match s, last s with
  | c :: _, Some d =>
      is_alnum c && is_alnum d && forallb label_char s && (length s <=? 63)
  | _, _ => false
  end.
Definition emailRegex (s : bytes) : bool :=
  match IndexByte s "@" with
  | None => false
  | Some i =>
      let labels := Split (drop (i + 1) s) "." in
      (0 <? i) && forallb local_char (take i s) && (2 <=? length labels) &&
      forallb email_label labels
  end.
Definition isEmail (s : bytes) : bool :=
  match s with
  | [] => true
  | _ => if 254 <? length s then false else emailRegex s
  end.

(** ** Rules *)

Definition digit_value (c : byte) : Z := Z.of_nat (nat_of_ascii c) - 48.
Definition parseIntRule (s : bytes) : Z :=
  fold_left (λ n c, if is_digit c then wrap_i64 (wrap_i64 (n * 10) + digit_value c) else n) s 0%Z.

(** [checkMin], [checkMax]: the message, empty when the rule holds. *)
Definition checkMin (name : bytes) (v : value) (min : Z) : bytes :=
  match v with
  | KString s =>
      if (Z.of_nat (length s) <? min)%Z
      then name ++ B " must be at least " ++ format_int min ++ B " characters" else []
  | KInt _ n => if (n <? min)%Z then name ++ B " must be >= " ++ format_int min else []
  | KFloat _ t _ => if (t <? min)%Z then name ++ B " must be >= " ++ format_int min else []
  | KSlice _ len | KArray _ len =>
      if (Z.of_nat len <? min)%Z
      then name ++ B " must have at least " ++ format_int min ++ B " items" else []
  | _ => []
  end.
Definition checkMax (name : bytes) (v : value) (max : Z) : bytes :=
  match v with
  | KString s =>
      if (max <? Z.of_nat (length s))%Z
      then name ++ B " must be at most " ++ format_int max ++ B " characters" else []
  | KInt _ n => if (max <? n)%Z then name ++ B " must be <= " ++ format_int max else []
  | KFloat _ t _ => if (max <? t)%Z then name ++ B " must be <= " ++ format_int max else []
  | KSlice _ len | KArray _ len =>
      if (max <? Z.of_nat len)%Z
      then name ++ B " must have at most " ++ format_int max ++ B " items" else []
  | _ => []
  end.

(** [if err != empty { *errs = append( *errs, err) }] *)
Definition message (err : bytes) : list bytes := match err with [] => [] | _ => [err] end.

(** One pass of the rule loop; the messages it appends. *)
Definition check_rule (name : bytes) (v : value) (rule : bytes) : list bytes :=
  let rule := TrimSpace rule in
  if beqb rule (B "required") then if isZero v then [name ++ B " is required"] else []
  else if beqb rule (B "email") then
    match v with
    | KString s => if negb (isEmail s) then [name ++ B " must be a valid email"] else []
    | _ => []
    end
  else if beqb rule (B "numeric") then
    match v with
    | KString s => if negb (isNumeric s) then [name ++ B " must be numeric"] else []
    | _ => []
    end
  else if beqb rule (B "alpha") then
    match v with
    | KString s => if negb (isAlpha s) then [name ++ B " must contain only letters"] else []
    | _ => []
    end
  else if HasPrefix rule (B "min=") then message (checkMin name v (parseIntRule (drop 4 rule)))
  else if HasPrefix rule (B "max=") then message (checkMax name v (parseIntRule (drop 4 rule)))
  else [].

(** The name a field goes by in messages. *)
Definition field_name (f : field) : bytes :=
  let name := first_some (λ t, match t with [] => None | _ => Some t end)
                [t_json f; t_query f; t_param f; t_header f; f_Name f] in
  default [] (head (Split (default [] name) ",")).

(** [validateStruct]: embedded structs are checked in place. *)
Fixpoint validate_field (f : field) : list bytes :=
  let own :=
    match t_validate f with
    | [] => []
    | tag => mjoin (check_rule (field_name f) (f_value f) <$> Split tag ",")
    end in
  match f_Anonymous f, f_value f with
  | true, KStruct fs => mjoin (map validate_field fs)
  | _, _ => own
  end.
Definition validateStruct (fs : list field) : list bytes := mjoin (map validate_field fs).

Definition Validate (v : value) : option error :=
  match v with
  | KStruct fs =>
      match validateStruct fs with
      | [] => None
      | errs => Some (ValidationErr errs)
      end
  | _ => None
  end.

(** ** Binding *)

(** [reflect.Value.SetInt] and [SetUint] keep the low bits of their argument. *)
Definition truncate_int (bits n : Z) : Z := ((n + 2 ^ (bits - 1)) mod 2 ^ bits - 2 ^ (bits - 1))%Z.
Definition truncate_uint (bits n : Z) : Z := (n mod 2 ^ bits)%Z.

(** [fmt.Errorf("expected .., got %q", raw)] *)
Definition expected `{Unicode} (what raw : bytes) : error :=
  Err (B "expected " ++ what ++ B ", got " ++ Quote raw).

(** [setField]; [ParseFloat bits] is [strconv.ParseFloat(raw, 64)], answering the two
    views of the float a field of that width then holds. *)
Definition setField `{Unicode} (ParseFloat : Z → bytes → option (Z * bool)) (v : value) (raw : bytes)
  : value + error :=
  match v with
  | KString _ => inl (KString raw)
  | KInt bits _ =>
      match ParseInt10 raw with
      | Some n => inl (KInt bits (truncate_int bits n))
      | None => inr (expected (B "integer") raw)
      end
  | KUint bits _ =>
      match ParseUint10 raw with
      | Some n => inl (KUint bits (truncate_uint bits n))
      | None => inr (expected (B "unsigned integer") raw)
      end
  | KFloat bits _ _ =>
      match ParseFloat bits raw with
      | Some (t, z) => inl (KFloat bits t z)
      | None => inr (expected (B "number") raw)
      end
  | KBool _ =>
      match ParseBool raw with
      | Some b => inl (KBool b)
      | None => inr (expected (B "boolean") raw)
      end
  | _ => inl v
  end.

Definition with_value (f : field) (v : value) : field :=
  mkField (f_Name f) (t_json f) (t_query f) (t_param f) (t_header f) (t_validate f)
    (f_Anonymous f) (f_CanSet f) v.

Section bind.
Context `{F : FastHTTP} `{U : Unicode} (ParseFloat : Z → bytes → option (Z * bool)) (c : Ctx).

(** The raw text for a field: one source, in the order query, param, header. *)
Definition field_raw (f : field) : bytes :=
  match t_query f, t_param f, t_header f with
  | (_ :: _) as key, _, _ => Query c key
  | [], (_ :: _) as key, _ => Param c key
  | [], [], (_ :: _) as key => Header c key
  | [], [], [] => []
  end.

Definition bind_error (f : field) (e : error) : error :=
  Err (B "field " ++ match t_json f with [] => f_Name f | n => n end ++ B ": " ++ err_Error e).

(** [bindRecursive]: the fields as they are left, and the first error. *)
Fixpoint bind_field (f : field) : field * option error :=
  if negb (f_CanSet f) then (f, None)
  else
    let plain :=
      match field_raw f with
      | [] => (f, None)
      | raw =>
          match setField ParseFloat (f_value f) raw with
          | inl v => (with_value f v, None)
          | inr e => (f, Some (bind_error f e))
          end
      end in
    match f_Anonymous f, f_value f with
    | true, KStruct fs =>
        let '(fs', e) :=
          (fix bind_all (fs : list field) : list field * option error :=
             match fs with
             | [] => ([], None)
             | f :: fs =>
                 match bind_field f with
                 | (f', Some e) => (f' :: fs, Some e)
                 | (f', None) => let '(fs', e) := bind_all fs in (f' :: fs', e)
                 end
             end) fs in
        (with_value f (KStruct fs'), e)
    | _, _ => plain
    end.
Fixpoint bindRecursive (fs : list field) : list field * option error :=
  match fs with
  | [] => ([], None)
  | f :: fs =>
      match bind_field f with
      | (f', Some e) => (f' :: fs, Some e)
      | (f', None) => let '(fs', e) := bindRecursive fs in (f' :: fs', e)
      end
  end.

(** The argument of [Bind], as [reflect.ValueOf] sees it. *)
Inductive argument := NoPointer | NilPointer | PointerTo (v : value).

(** [Bind]: what the pointer leads to afterwards, and the error. [Unmarshal] is the JSON
    decoder, [SetDefaults] the type's method, if it has one. *)
Definition Bind (Unmarshal : bytes → list field → list field * option error)
    (SetDefaults : list field → list field) (v : argument) : argument * option error :=
  match v with
  | NoPointer | NilPointer => (v, Some (Err (B "bind: v must be a non-nil pointer")))
  | PointerTo (KStruct fs) =>
      let ret fs err := (PointerTo (KStruct fs), err) in
      let body := req_Body (ctx_Request (c_RequestCtx c)) in
      match match body with [] => (fs, None) | _ => Unmarshal body fs end with
      | (fs, Some e) => ret fs (Some (Err (B "invalid JSON: " ++ err_Error e)))
      | (fs, None) =>
          match bindRecursive fs with
          | (fs, Some e) => ret fs (Some e)
          | (fs, None) =>
              let fs := SetDefaults fs in
              ret fs (Validate (KStruct fs))
          end
      end
  | PointerTo _ => (v, Some (Err (B "bind: v must be a pointer to struct")))
  end.
End bind.

(** [type Pagination struct] and its defaults. *)
Record Pagination := mkPagination { Page : Z; PerPage : Z }.
Definition Pagination_SetDefaults (p : Pagination) : Pagination :=
  mkPagination (if (Page p <=? 0)%Z then 1 else Page p)%Z
    (if (PerPage p <=? 0)%Z then 10 else PerPage p)%Z.
Definition pagination_fields (p : Pagination) : list field :=
  [mkField (B "Page") (B "page") (B "page") [] [] (B "min=1") false true (KInt 64 (Page p));
   mkField (B "PerPage") (B "per_page") (B "per_page") [] [] (B "min=1") false true
     (KInt 64 (PerPage p))].
