(* ===== verification/Aliases.v ===== *)
(** * The names the root package re-exports ([status.go], [context.go], [handler.go], [response.go])

    Applications import [goichi] alone: its status codes and types are those of [core]. *)

From S2P Require Import Prelude Effects FastHTTP Core Validation.

(** ** [status.go] *)

(* 2xx Success *)
Definition StatusOK : Z := Core.StatusOK.
Definition StatusCreated : Z := Core.StatusCreated.
Definition StatusAccepted : Z := Core.StatusAccepted.
Definition StatusNonAuthoritativeInfo : Z := Core.StatusNonAuthoritativeInfo.
Definition StatusNoContent : Z := Core.StatusNoContent.
Definition StatusResetContent : Z := Core.StatusResetContent.
Definition StatusPartialContent : Z := Core.StatusPartialContent.
(* 3xx Redirection *)
Definition StatusMultipleChoices : Z := Core.StatusMultipleChoices.
Definition StatusMovedPermanently : Z := Core.StatusMovedPermanently.
Definition StatusFound : Z := Core.StatusFound.
Definition StatusSeeOther : Z := Core.StatusSeeOther.
Definition StatusNotModified : Z := Core.StatusNotModified.
Definition StatusTemporaryRedirect : Z := Core.StatusTemporaryRedirect.
Definition StatusPermanentRedirect : Z := Core.StatusPermanentRedirect.
(* 4xx Client errors *)
Definition StatusBadRequest : Z := Core.StatusBadRequest.
Definition StatusUnauthorized : Z := Core.StatusUnauthorized.
Definition StatusPaymentRequired : Z := Core.StatusPaymentRequired.
Definition StatusForbidden : Z := Core.StatusForbidden.
Definition StatusNotFound : Z := Core.StatusNotFound.
Definition StatusMethodNotAllowed : Z := Core.StatusMethodNotAllowed.
Definition StatusNotAcceptable : Z := Core.StatusNotAcceptable.
Definition StatusProxyAuthRequired : Z := Core.StatusProxyAuthRequired.
Definition StatusRequestTimeout : Z := Core.StatusRequestTimeout.
Definition StatusConflict : Z := Core.StatusConflict.
Definition StatusGone : Z := Core.StatusGone.
Definition StatusLengthRequired : Z := Core.StatusLengthRequired.
Definition StatusPreconditionFailed : Z := Core.StatusPreconditionFailed.
Definition StatusRequestEntityTooLarge : Z := Core.StatusRequestEntityTooLarge.
Definition StatusRequestURITooLong : Z := Core.StatusRequestURITooLong.
Definition StatusUnsupportedMediaType : Z := Core.StatusUnsupportedMediaType.
Definition StatusRequestedRangeNotSatisfiable : Z := Core.StatusRequestedRangeNotSatisfiable.
Definition StatusExpectationFailed : Z := Core.StatusExpectationFailed.
Definition StatusTeapot : Z := Core.StatusTeapot.
Definition StatusUnprocessableEntity : Z := Core.StatusUnprocessableEntity.
Definition StatusLocked : Z := Core.StatusLocked.
Definition StatusFailedDependency : Z := Core.StatusFailedDependency.
Definition StatusUpgradeRequired : Z := Core.StatusUpgradeRequired.
Definition StatusPreconditionRequired : Z := Core.StatusPreconditionRequired.
Definition StatusTooManyRequests : Z := Core.StatusTooManyRequests.
Definition StatusHeaderFieldsTooLarge : Z := Core.StatusHeaderFieldsTooLarge.
Definition StatusUnavailableForLegalReasons : Z := Core.StatusUnavailableForLegalReasons.
(* 5xx Server errors *)
Definition StatusInternalServerError : Z := Core.StatusInternalServerError.
Definition StatusNotImplemented : Z := Core.StatusNotImplemented.
Definition StatusBadGateway : Z := Core.StatusBadGateway.
Definition StatusServiceUnavailable : Z := Core.StatusServiceUnavailable.
Definition StatusGatewayTimeout : Z := Core.StatusGatewayTimeout.
Definition StatusHTTPVersionNotSupported : Z := Core.StatusHTTPVersionNotSupported.
Definition StatusVariantAlsoNegotiates : Z := Core.StatusVariantAlsoNegotiates.
Definition StatusInsufficientStorage : Z := Core.StatusInsufficientStorage.
Definition StatusLoopDetected : Z := Core.StatusLoopDetected.
Definition StatusNotExtended : Z := Core.StatusNotExtended.
Definition StatusNetworkAuthenticationRequired : Z := Core.StatusNetworkAuthenticationRequired.

(** ** Types *)

(** [type Context = core.Context], [type Handler = core.Handler],
    [type Middleware = core.Middleware], [type Pagination = core.Pagination] *)
Definition Context_ `{FastHTTP} : Type := Core.Ctx.
Definition Handler_ `{FastHTTP} (St : Type) : Type := Core.Handler St.
Definition Middleware_ `{FastHTTP} (St : Type) : Type := Core.Middleware St.
Definition Pagination_ : Type := Validation.Pagination.

(** ** The codes *)

Definition codes : list Z :=
  [StatusOK; StatusCreated; StatusAccepted; StatusNonAuthoritativeInfo; StatusNoContent;
   StatusResetContent; StatusPartialContent; StatusMultipleChoices; StatusMovedPermanently;
   StatusFound; StatusSeeOther; StatusNotModified; StatusTemporaryRedirect;
   StatusPermanentRedirect; StatusBadRequest; StatusUnauthorized; StatusPaymentRequired;
   StatusForbidden; StatusNotFound; StatusMethodNotAllowed; StatusNotAcceptable;
   StatusProxyAuthRequired; StatusRequestTimeout; StatusConflict; StatusGone;
   StatusLengthRequired; StatusPreconditionFailed; StatusRequestEntityTooLarge;
   StatusRequestURITooLong; StatusUnsupportedMediaType; StatusRequestedRangeNotSatisfiable;
   StatusExpectationFailed; StatusTeapot; StatusUnprocessableEntity; StatusLocked;
   StatusFailedDependency; StatusUpgradeRequired; StatusPreconditionRequired;
   StatusTooManyRequests; StatusHeaderFieldsTooLarge; StatusUnavailableForLegalReasons;
   StatusInternalServerError; StatusNotImplemented; StatusBadGateway; StatusServiceUnavailable;
   StatusGatewayTimeout; StatusHTTPVersionNotSupported; StatusVariantAlsoNegotiates;
   StatusInsufficientStorage; StatusLoopDetected; StatusNotExtended;
   StatusNetworkAuthenticationRequired].

(** No two names share a code, and each is one [WriteHeader] accepts. *)
Lemma codes_distinct : NoDup codes.
Proof. apply (bool_decide_unpack (NoDup codes)). vm_compute. exact I. Qed.
Lemma codes_valid : Forall (λ c, 200 <= c < 600)%Z codes.
Proof. repeat constructor; done. Qed.
