(* ===== verification/ValidationProps.v ===== *)
(** * Properties of binding and validation *)

From S2P Require Import Prelude GoStrings Quote Effects FastHTTP Core Middleware Validation.

(** ** Induction on nested fields *)

Section field_ind.
Context (P : field → Prop).
Context (Hstep : ∀ f, (∀ fs g, f_value f = KStruct fs → g ∈ fs → P g) → P f).

Fixpoint field_rec (f : field) : P f.
Proof.
  destruct f as [n j q p h v a s [| | | | | | |l|]]; try (apply Hstep; intros fs g; discriminate).
  assert (Forall P l) as Hl.
  { induction l as [|f' l IH]; constructor; [apply field_rec|apply IH]. }
  apply Hstep. intros fs g [= <-]. by apply Forall_forall.
Defined.
End field_ind.

(** ** Rules as propositions *)

(** The fields [Validate] visits: embedded structs are opened. *)
Fixpoint leaves (f : field) : list field :=
  match f_Anonymous f, f_value f with
  | true, KStruct fs => mjoin (map leaves fs)
  | _, _ => [f]
  end.

Definition at_least (m : Z) (v : value) : Prop :=
  match v with
  | KString s => (m ≤ Z.of_nat (length s))%Z
  | KInt _ n | KFloat _ n _ => (m ≤ n)%Z
  | KSlice _ len | KArray _ len => (m ≤ Z.of_nat len)%Z
  | _ => True
  end.
Definition at_most (m : Z) (v : value) : Prop :=
  match v with
  | KString s => (Z.of_nat (length s) ≤ m)%Z
  | KInt _ n | KFloat _ n _ => (n ≤ m)%Z
  | KSlice _ len | KArray _ len => (Z.of_nat len ≤ m)%Z
  | _ => True
  end.
Definition on_string (P : bytes → Prop) (v : value) : Prop :=
  match v with KString s => P s | _ => True end.

(** What one rule of a tag demands of the value. *)
Inductive satisfies (v : value) : bytes → Prop :=
  | sat_required : isZero v = false → satisfies v (B "required")
  | sat_email : on_string (λ s, isEmail s = true) v → satisfies v (B "email")
  | sat_numeric : on_string (Forall (λ c, is_digit c = true)) v → satisfies v (B "numeric")
  | sat_alpha : on_string (Forall (λ c, is_letter c = true)) v → satisfies v (B "alpha")
  | sat_min k : at_least (parseIntRule k) v → satisfies v (B "min=" ++ k)
  | sat_max k : at_most (parseIntRule k) v → satisfies v (B "max=" ++ k)
  | sat_unknown r :
      r ∉ [B "required"; B "email"; B "numeric"; B "alpha"] →
      HasPrefix r (B "min=") = false → HasPrefix r (B "max=") = false → satisfies v r.

Lemma forallb_Forall_true {A} (p : A → bool) l : forallb p l = true ↔ Forall (λ c, p c = true) l.
Proof. rewrite forallb_forall, Forall_forall. by setoid_rewrite list_elem_of_In. Qed.

Lemma message_nil m : message m = [] ↔ m = [].
Proof. by destruct m. Qed.

Lemma message_if (n m : bytes) (b : bool) :
  m ≠ [] → (if b then n ++ m else []) = [] ↔ b = false.
Proof. intros Hm. destruct b; [|done]. destruct n; [by destruct m|done]. Qed.

Lemma check_min_ok name v m : message (checkMin name v m) = [] ↔ at_least m v.
Proof.
  rewrite message_nil. destruct v; simpl; try done; rewrite message_if by done; by rewrite Z.ltb_ge.
Qed.

Lemma check_max_ok name v m : message (checkMax name v m) = [] ↔ at_most m v.
Proof.
  rewrite message_nil. destruct v; simpl; try done; rewrite message_if by done; by rewrite Z.ltb_ge.
Qed.

Lemma one_message (b : bool) (m : bytes) : (if b then [m] else []) = [] ↔ b = false.
Proof. by destruct b. Qed.

Lemma drop_prefix r p : HasPrefix r p = true → r = p ++ drop (length p) r.
Proof. intros [t ->]%HasPrefix_spec. by rewrite drop_app_length. Qed.

Lemma check_rule_ok name v rule : check_rule name v rule = [] ↔ satisfies v (TrimSpace rule).
Proof.
  unfold check_rule. generalize (TrimSpace rule). clear rule. intros r.
  destruct (beqb r (B "required")) eqn:H1.
  { apply beqb_eq in H1 as ->. rewrite one_message. split; [by constructor|].
    inversion 1 as [| | | | | |? Hn]; [done|]. by destruct Hn; left. }
  destruct (beqb r (B "email")) eqn:H2.
  { apply beqb_eq in H2 as ->. split.
    - intros Hc. constructor. destruct v; simpl in *; try done.
      apply one_message in Hc. by apply negb_false_iff.
    - inversion 1 as [|Hs| | | | |? Hn]; [|by destruct Hn; right; left].
      destruct v; simpl in *; try done. by rewrite Hs. }
  destruct (beqb r (B "numeric")) eqn:H3.
  { apply beqb_eq in H3 as ->. split.
    - intros Hc. constructor. destruct v; simpl in *; try done.
      apply one_message, negb_false_iff in Hc. by apply forallb_Forall_true.
    - inversion 1 as [| |Hs| | | |? Hn]; [|by destruct Hn; right; right; left].
      destruct v; simpl in *; try done. apply forallb_Forall_true in Hs.
      unfold isNumeric. by rewrite Hs. }
  destruct (beqb r (B "alpha")) eqn:H4.
  { apply beqb_eq in H4 as ->. split.
    - intros Hc. constructor. destruct v; simpl in *; try done.
      apply one_message, negb_false_iff in Hc. by apply forallb_Forall_true.
    - inversion 1 as [| | |Hs| | |? Hn]; [|by destruct Hn; do 3 right; left].
      destruct v; simpl in *; try done. apply forallb_Forall_true in Hs.
      unfold isAlpha. by rewrite Hs. }
  apply beqb_neq in H1, H2, H3, H4.
  destruct (HasPrefix r (B "min=")) eqn:H5.
  { rewrite check_min_ok. apply drop_prefix in H5. change (length (B "min=")) with 4 in H5.
    split; [intros Hc; rewrite H5; by constructor|].
    intros Hs. rewrite H5 in Hs. inversion Hs; try done. }
  destruct (HasPrefix r (B "max=")) eqn:H6.
  { rewrite check_max_ok. apply drop_prefix in H6. change (length (B "max=")) with 4 in H6.
    split; [intros Hc; rewrite H6; by constructor|].
    intros Hs. rewrite H6 in Hs. inversion Hs; try done. }
  split; [intros _|done]. apply sat_unknown; [|done..].
  rewrite !not_elem_of_cons. split_and!; try done. apply not_elem_of_nil.
Qed.

(** ** The walk over the fields *)

Definition leaf_messages (f : field) : list bytes :=
  match t_validate f with
  | [] => []
  | tag => mjoin (check_rule (field_name f) (f_value f) <$> Split tag ",")
  end.

Lemma mjoin_nil {A} (l : list (list A)) : mjoin l = [] ↔ Forall (.= []) l.
Proof.
  induction l as [|x l IH]; simpl; [done|]. rewrite Forall_cons, <- IH. split.
  - by intros [? ?]%app_nil.
  - by intros [-> ->].
Qed.

Lemma validate_field_leaves f :
  validate_field f = [] ↔ Forall (λ g, leaf_messages g = []) (leaves f).
Proof.
  induction f as [f IH] using field_rec.
  destruct f as [n j q p h t a s v]. simpl in *.
  assert (Forall (λ g, leaf_messages g = []) [mkField n j q p h t a s v] ↔
          match t with
          | [] => []
          | c :: l => mjoin (check_rule (field_name (mkField n j q p h t a s v)) v
                               <$> Split (c :: l) ",")
          end = []) as Hplain.
  { rewrite Forall_singleton. split; intros H; exact H. }
  destruct a; [|by rewrite Hplain].
  destruct v as [| | | | | | |fs|]; try by rewrite Hplain.
  rewrite mjoin_nil, !Forall_forall. change (map ?f ?l) with (f <$> l). split.
  - intros Hall g (l & Hg & (f' & -> & Hin)%list_elem_of_fmap)%list_elem_of_join.
    assert (validate_field f' = []) as Hv by by apply Hall, list_elem_of_fmap_2.
    apply (IH fs f' eq_refl Hin) in Hv. rewrite Forall_forall in Hv. by apply Hv.
  - intros Hall x (f' & -> & Hin)%list_elem_of_fmap.
    apply (IH fs f' eq_refl Hin), Forall_forall. intros g Hg. apply Hall, list_elem_of_join.
    exists (leaves f'). split; [done|]. by apply list_elem_of_fmap_2.
Qed.

Lemma leaf_messages_nil f :
  leaf_messages f = [] ↔
  (t_validate f = [] ∨ ∀ r, r ∈ Split (t_validate f) "," → satisfies (f_value f) (TrimSpace r)).
Proof.
  unfold leaf_messages. destruct (t_validate f) as [|c t]; [by split; [left|]|].
  rewrite mjoin_nil, Forall_fmap, Forall_forall. unfold compose. split.
  - intros Hall. right. intros r Hr. by apply (check_rule_ok (field_name f)), Hall.
  - intros [?|Hall] r Hr; [done|]. by apply check_rule_ok, Hall.
Qed.

Lemma Validate_rules fs :
  Validate (KStruct fs) = None ↔
  ∀ f, f ∈ mjoin (map leaves fs) → t_validate f ≠ [] →
    ∀ r, r ∈ Split (t_validate f) "," → satisfies (f_value f) (TrimSpace r).
Proof.
  assert (Validate (KStruct fs) = None ↔ validateStruct fs = []) as ->
    by (simpl; by destruct (validateStruct fs)).
  unfold validateStruct. change (map ?f ?l) with (f <$> l).
  rewrite mjoin_nil, Forall_fmap, Forall_forall. unfold compose.
  setoid_rewrite validate_field_leaves. setoid_rewrite Forall_forall.
  setoid_rewrite leaf_messages_nil. split.
  - intros Hall f (l & Hf & (f' & -> & Hin)%list_elem_of_fmap)%list_elem_of_join Ht.
    by destruct (Hall f' Hin f Hf).
  - intros Hall f' Hf' f Hf. destruct (t_validate f) as [|c t] eqn:Ht; [by left|right].
    rewrite <- Ht. apply Hall; [|by rewrite Ht].
    apply list_elem_of_join. exists (leaves f'). split; [done|]. by apply list_elem_of_fmap_2.
Qed.

(** *** The messages *)

#[export] Instance satisfies_dec v r : Decision (satisfies v (TrimSpace r)).
Proof.
  destruct (check_rule [] v r) as [|m ms] eqn:Hc; [left|right]; rewrite <- (check_rule_ok []), Hc; done.
Defined.

(** What is said of a field that breaks a rule. *)
Definition complaint (name : bytes) (v : value) (r : bytes) : bytes :=
  let bound := format_int (parseIntRule (drop 4 r)) in
  if beqb r (B "required") then name ++ B " is required"
  else if beqb r (B "email") then name ++ B " must be a valid email"
  else if beqb r (B "numeric") then name ++ B " must be numeric"
  else if beqb r (B "alpha") then name ++ B " must contain only letters"
  else if HasPrefix r (B "min=") then
    match v with
    | KString _ => name ++ B " must be at least " ++ bound ++ B " characters"
    | KSlice _ _ | KArray _ _ => name ++ B " must have at least " ++ bound ++ B " items"
    | _ => name ++ B " must be >= " ++ bound
    end
  else
    match v with
    | KString _ => name ++ B " must be at most " ++ bound ++ B " characters"
    | KSlice _ _ | KArray _ _ => name ++ B " must have at most " ++ bound ++ B " items"
    | _ => name ++ B " must be <= " ++ bound
    end.

(** The rules of a struct, field by field, and those that do not hold. *)
Definition tag_rules (f : field) : list (field * bytes) :=
  match t_validate f with [] => [] | tag => pair f <$> Split tag "," end.
Definition rules (fs : list field) : list (field * bytes) := mjoin (map leaves fs) ≫= tag_rules.
Definition broken (fs : list field) : list (field * bytes) :=
  filter (λ x, ¬ satisfies (f_value x.1) (TrimSpace x.2)) (rules fs).
Definition complaints (fs : list field) : list bytes :=
  (λ x, complaint (field_name x.1) (f_value x.1) (TrimSpace x.2)) <$> broken fs.

Lemma message_one name m : message (name ++ m) = [] ∨ message (name ++ m) = [name ++ m].
Proof. destruct (name ++ m); [by left|by right]. Qed.

Lemma check_rule_said name v r :
  check_rule name v r = if decide (satisfies v (TrimSpace r)) then [] else [complaint name v (TrimSpace r)].
Proof.
  assert (check_rule name v r = [] ∨ check_rule name v r = [complaint name v (TrimSpace r)]) as Hone.
  { unfold check_rule, complaint. generalize (TrimSpace r). clear r. intros r.
    destruct (beqb r (B "required")); [case_match; auto|].
    destruct (beqb r (B "email")); [repeat case_match; auto|].
    destruct (beqb r (B "numeric")); [repeat case_match; auto|].
    destruct (beqb r (B "alpha")); [repeat case_match; auto|].
    destruct (HasPrefix r (B "min=")).
    { destruct v; cbn [checkMin]; try (by left); (case_match; [apply message_one|by left]). }
    destruct (HasPrefix r (B "max=")); [|by left].
    destruct v; cbn [checkMax]; try (by left); (case_match; [apply message_one|by left]). }
  pose proof (check_rule_ok name v r) as Hok. destruct (decide _) as [Hs|Hs]; [by apply Hok|].
  destruct Hone as [Hn|]; [|done]. by apply Hok in Hn.
Qed.

Lemma leaf_messages_said f :
  leaf_messages f =
  (λ x, complaint (field_name x.1) (f_value x.1) (TrimSpace x.2)) <$>
    filter (λ x, ¬ satisfies (f_value x.1) (TrimSpace x.2)) (tag_rules f).
Proof.
  unfold leaf_messages, tag_rules. destruct (t_validate f) as [|c t]; [done|].
  generalize (Split (c :: t) ","). intros l. induction l as [|r l IH]; [done|].
  rewrite mjoin_fmap_cons, (fmap_cons (pair f)), filter_cons, IH, check_rule_said. cbn [fst snd].
  destruct (decide (satisfies _ _)); [rewrite decide_False by tauto|rewrite decide_True by done]; done.
Qed.

Lemma validate_field_said f : validate_field f = leaves f ≫= leaf_messages.
Proof.
  induction f as [f IH] using field_rec. destruct f as [n j q p h t a s v]. simpl in *.
  destruct a; [|symmetry; apply app_nil_r].
  destruct v as [| | | | | | |fs|]; try (symmetry; apply app_nil_r).
  assert (∀ g, g ∈ fs → validate_field g = leaves g ≫= leaf_messages) as Hall by (intros; by eapply IH).
  clear IH. induction fs as [|g fs IH]; [done|]. cbn [map mjoin list_join].
  rewrite bind_app, (Hall g) by by left. f_equal. apply IH. intros. apply Hall. by right.
Qed.

Lemma mjoin_map_cons {A C} (f : A → list C) x l : mjoin (map f (x :: l)) = f x ++ mjoin (map f l).
Proof. done. Qed.
Lemma validateStruct_said fs : validateStruct fs = complaints fs.
Proof.
  unfold validateStruct, complaints, broken, rules. induction fs as [|f fs IH]; [done|].
  rewrite !mjoin_map_cons, IH, !bind_app, filter_app, fmap_app. f_equal.
  rewrite validate_field_said. clear. induction (leaves f) as [|g l IH]; [done|].
  rewrite !bind_cons, IH, filter_app, fmap_app. f_equal. apply leaf_messages_said.
Qed.

(** C37 Validation is exactly its rules: a struct passes when every field of it and of the
    structs embedded in it satisfies every rule of its tag, and otherwise the error is the
    list of one message for each rule that is broken, in the order of the fields and of the
    rules in their tags, each with the name of the field and the bound. *)
Theorem Validate_spec fs :
  (Validate (KStruct fs) = None ↔
   ∀ f, f ∈ mjoin (map leaves fs) → t_validate f ≠ [] →
     ∀ r, r ∈ Split (t_validate f) "," → satisfies (f_value f) (TrimSpace r)) ∧
  (∀ e, Validate (KStruct fs) = Some e → broken fs ≠ [] ∧ e = ValidationErr (complaints fs)).
Proof.
  split; [apply Validate_rules|]. intros e. cbn [Validate]. rewrite validateStruct_said. unfold complaints.
  destruct (broken fs) as [|x l]; [done|]. by intros [= <-].
Qed.

(** ** The email pattern *)

(** [[a-zA-Z0-9](?:[a-zA-Z0-9-]{0,61}[a-zA-Z0-9])?] *)
Definition label_lang (s : bytes) : Prop :=
  ∃ a, is_alnum a = true ∧
    (s = [a] ∨ ∃ m b, s = a :: m ++ [b] ∧ is_alnum b = true ∧
                      Forall (λ c, label_char c = true) m ∧ length m ≤ 61).

(** [^local+@label(?:\.label)+$] *)
Definition email_lang (s : bytes) : Prop :=
  ∃ l ls, l ≠ [] ∧ Forall (λ c, local_char c = true) l ∧ 2 ≤ length ls ∧
    Forall label_lang ls ∧ s = l ++ B "@" ++ Join ls (B ".").

Lemma alnum_label c : is_alnum c = true → label_char c = true.
Proof. unfold label_char. by intros ->. Qed.

Lemma email_label_lang s : email_label s = true ↔ label_lang s.
Proof.
  unfold email_label, label_lang. destruct s as [|a t].
  { split; [done|]. intros (b & _ & [?|(m & d & ? & _)]); done. }
  destruct t as [|d t _] using rev_ind.
  - simpl. split.
    + intros H. apply andb_true_iff in H as [[[Ha _]%andb_true_iff _]%andb_true_iff _]. eauto.
    + intros (b & Hb & [?|(m & d & Heq & _)]); simplify_eq; [|by destruct m].
      by rewrite Hb, alnum_label.
  - rewrite app_comm_cons, last_snoc. cbn [app].
    rewrite !andb_true_iff, forallb_Forall_true, Nat.leb_le. cbn [length].
    rewrite length_app. cbn [length]. split.
    + intros [[[Ha Hd] Hall] Hlen]. exists a. split; [done|right]. exists t, d.
      apply Forall_cons in Hall as [_ [Ht _]%Forall_app]. split_and!; try done. lia.
    + intros (b & Hb & [Heq|(m & e & Heq & He & Hm & Hlen)]); [by destruct t|].
      injection Heq as <- Heq. apply app_inj_2 in Heq as [<- Heq]; [|done]. simplify_eq.
      split_and!; try done; [|lia]. constructor; [by apply alnum_label|].
      apply Forall_app. split; [done|]. repeat constructor. by apply alnum_label.
Qed.

Lemma local_no_at c : local_char c = true → c ≠ "@"%char.
Proof. by intros Hc ->. Qed.

Lemma label_no_dot s : label_lang s → ∀ c, c ∈ s → c ≠ "."%char.
Proof.
  assert (∀ c, is_alnum c = true → c ≠ "."%char) as Ha by by intros c Hc ->.
  intros (a & Haa & [->|(m & b & -> & Hb & Hm & _)]) c Hc.
  - apply list_elem_of_singleton in Hc as ->. by apply Ha.
  - apply elem_of_cons in Hc as [->|[Hc| ->%list_elem_of_singleton]%elem_of_app]; [by apply Ha| |by apply Ha].
    rewrite Forall_forall in Hm. intros ->. by specialize (Hm _ Hc).
Qed.

Lemma drop_past {A} (l r : list A) c : drop (length l + 1) (l ++ c :: r) = r.
Proof. induction l as [|x l IH]; simpl; [apply drop_0|done]. Qed.

Lemma IndexByte_app l c r : (∀ x, x ∈ l → x ≠ c) → IndexByte (l ++ c :: r) c = Some (length l).
Proof.
  unfold IndexByte. induction l as [|x l IH]; intros Hl; simpl; [by rewrite Ascii.eqb_refl|].
  destruct (Ascii.eqb_spec c x) as [->|]; [by destruct (Hl x); [left|]|].
  rewrite IH; [done|]. intros y Hy. apply Hl. by right.
Qed.

Lemma IndexByte_split s c i : IndexByte s c = Some i → s = take i s ++ c :: drop (i + 1) s.
Proof.
  intros Hi. destruct (index_where_Some _ _ _ Hi) as (Hlen & Hc & _).
  destruct (lookup_lt_is_Some_2 s i Hlen) as [x Hx].
  specialize (Hc x Hx). apply Ascii.eqb_eq in Hc as <-.
  rewrite <- (take_drop_middle s i c Hx) at 1. by rewrite Nat.add_1_r.
Qed.

(** The address check is the regular expression it stands for: the empty string
    passes, and any other exactly when it has at most 254 bytes and is a local part,
    an at sign and two or more labels of at most 63 characters joined by dots. *)
Theorem isEmail_spec s : isEmail s = true ↔ s = [] ∨ (length s ≤ 254 ∧ email_lang s).
Proof.
  assert (emailRegex s = true ↔ email_lang s) as Hre.
  { unfold emailRegex, email_lang. split.
    - destruct (IndexByte s "@") as [i|] eqn:Hi; [|done].
      rewrite !andb_true_iff, !forallb_Forall_true, Nat.ltb_lt, Nat.leb_le.
      intros [[[Hpos Hloc] Hlen] Hlab]. pose proof (IndexByte_split _ _ _ Hi) as Hs.
      destruct (index_where_Some _ _ _ Hi) as (Hlt & _ & _).
      exists (take i s), (Split (drop (i + 1) s) "."). split_and!; try done.
      + intros Hn. apply (f_equal length) in Hn. rewrite length_take in Hn. simpl in Hn. lia.
      + eapply Forall_impl; [exact Hlab|]. intros x. apply email_label_lang.
      + change (B ".") with ["."%char]. rewrite Join_Split. exact Hs.
    - intros (l & ls & Hne & Hl & Hlen & Hls & ->). change (B "@" ++ ?x) with ("@"%char :: x).
      rewrite IndexByte_app.
      2: { intros x Hx. apply local_no_at. rewrite Forall_forall in Hl. by apply Hl. }
      rewrite take_app_length, drop_past. change (B ".") with ["."%char].
      rewrite Split_Join; [|intros ->; simpl in Hlen; lia|eapply Forall_impl; [exact Hls|apply label_no_dot]].
      rewrite !andb_true_iff, !forallb_Forall_true, Nat.ltb_lt, Nat.leb_le.
      split_and!; try done; [destruct l; [done|simpl; lia]|].
      eapply Forall_impl; [exact Hls|]. intros x. apply email_label_lang. }
  unfold isEmail. destruct s as [|c s]; [by split; [left|]|].
  destruct (Nat.ltb_spec 254 (length (c :: s))) as [Hlt|Hle].
  - split; [done|]. intros [?|[? _]]; [done|lia].
  - rewrite Hre. split; [by right|]. intros [?|[_ ?]]; done.
Qed.

(** ** Binding *)

Section bind.
Context `{F : FastHTTP} `{U : Unicode} (ParseFloat : Z → bytes → option (Z * bool)) (c : Ctx).

(** The fields of a struct, embedded structs opened, each with whether it can be set: a
    field of an embedded struct can be only if that can. *)
Fixpoint sources (ok : bool) (f : field) : list (bool * field) :=
  let ok := ok && f_CanSet f in
  match f_Anonymous f, f_value f with
  | true, KStruct fs => mjoin (map (sources ok) fs)
  | _, _ => [(ok, f)]
  end.
Definition all_sources (fs : list field) : list (bool * field) := mjoin (map (sources true) fs).

(** A field after binding: what its query, path or header value converts to, and what it
    was when there is none or it cannot be set. *)
Definition bound (x y : bool * field) : Prop :=
  y.1 = x.1 ∧ ∃ v, y.2 = with_value x.2 v ∧
    match (if x.1 then field_raw c x.2 else []) with
    | [] => v = f_value x.2
    | raw => setField ParseFloat (f_value x.2) raw = inl v
    end.

(** [e] is the failure of converting the value of a field. *)
Definition bind_fails (x : bool * field) (e : error) : Prop :=
  x.1 = true ∧ field_raw c x.2 ≠ [] ∧
  ∃ e', setField ParseFloat (f_value x.2) (field_raw c x.2) = inr e' ∧ e = bind_error x.2 e'.

Lemma with_value_self f : with_value f (f_value f) = f.
Proof. by destruct f. Qed.

Lemma bound_refl l : Forall (λ x, x.1 = false ∨ field_raw c x.2 = []) l → Forall2 bound l l.
Proof.
  induction 1 as [|[ok f] l Hx _ IH]; constructor; [|done]. split; [done|].
  exists (f_value f). simpl in *. rewrite with_value_self. split; [done|].
  destruct Hx as [->|Hx]; [done|]. rewrite Hx. by destruct ok.
Qed.

Lemma sources_false f : Forall (λ x, x.1 = false) (sources false f).
Proof.
  induction f as [f IH] using field_rec. destruct f as [n j q p h t a s v]. simpl in *.
  destruct a; [|by repeat constructor]. destruct v as [| | | | | | |fs|]; try by repeat constructor.
  apply Forall_forall. intros x (l & Hx & (g & -> & Hg)%list_elem_of_fmap)%list_elem_of_join.
  specialize (IH fs g eq_refl Hg). rewrite Forall_forall in IH. by apply IH.
Qed.

Lemma sources_unset f : f_CanSet f = false → Forall (λ x, x.1 = false) (sources true f).
Proof.
  intros Hs. assert (sources true f = sources false f) as ->; [|apply sources_false].
  destruct f as [n j q p h t a s v]. simpl in *. by subst.
Qed.

(** A field that is not an embedded struct. *)
Definition simple (f : field) : Prop := ∀ fs, f_Anonymous f = true → f_value f ≠ KStruct fs.
Lemma sources_simple ok f : simple f → sources ok f = [(ok && f_CanSet f, f)].
Proof.
  destruct f as [n j q p h t a s v]. unfold simple. simpl. intros Hf.
  destruct a; [|done]. destruct v; try done. by destruct (Hf fs eq_refl).
Qed.

Lemma setField_simple f raw v :
  simple f → setField ParseFloat (f_value f) raw = inl v → simple (with_value f v).
Proof.
  destruct f as [n j q p h t a s w]. unfold simple. simpl. intros Hf Hv fs ->.
  specialize (Hf fs eq_refl). destruct w; simpl in Hv; repeat case_match; simplify_eq; done.
Qed.

Lemma bind_simple f :
  simple f → f_CanSet f = true →
  bind_field ParseFloat c f =
  match field_raw c f with
  | [] => (f, None)
  | raw => match setField ParseFloat (f_value f) raw with
           | inl v => (with_value f v, None)
           | inr e => (f, Some (bind_error f e))
           end
  end.
Proof.
  destruct f as [n j q p h t a s v]. unfold simple. simpl. intros Hf ->. simpl.
  destruct a; [|done]. destruct v; try done. by destruct (Hf fs eq_refl).
Qed.
Lemma bind_struct f fs :
  f_Anonymous f = true → f_value f = KStruct fs → f_CanSet f = true →
  bind_field ParseFloat c f =
  let '(fs', e) := bindRecursive ParseFloat c fs in (with_value f (KStruct fs'), e).
Proof. destruct f as [n j q p h t a s v]. simpl. by intros -> -> ->. Qed.

(** What binding a list of fields leaves, or the error it stops with. *)
Definition binds (l : list (bool * field)) (l' : list (bool * field)) (e : option error) : Prop :=
  match e with None => Forall2 bound l l' | Some e => ∃ x, x ∈ l ∧ bind_fails x e end.

Lemma bind_list fs :
  (∀ f, f ∈ fs → binds (sources true f) (sources true (bind_field ParseFloat c f).1)
                       (bind_field ParseFloat c f).2) →
  binds (all_sources fs) (all_sources (bindRecursive ParseFloat c fs).1)
    (bindRecursive ParseFloat c fs).2.
Proof.
  unfold all_sources. induction fs as [|f fs IH]; intros Hall; [constructor|].
  pose proof (Hall f ltac:(by left)) as Hf. specialize (IH ltac:(intros g Hg; apply Hall; by right)).
  cbn [bindRecursive map mjoin list_join]. destruct (bind_field ParseFloat c f) as [f' [e|]]; simpl in *.
  - destruct Hf as (x & Hx & He). exists x. split; [set_solver|done].
  - destruct (bindRecursive ParseFloat c fs) as [fs' [e|]]; simpl in *.
    + destruct IH as (x & Hx & He). exists x. split; [set_solver|done].
    + by apply Forall2_app.
Qed.

Lemma bind_field_spec f :
  binds (sources true f) (sources true (bind_field ParseFloat c f).1) (bind_field ParseFloat c f).2.
Proof.
  induction f as [f IH] using field_rec. destruct (f_CanSet f) eqn:Hs.
  2: { assert (bind_field ParseFloat c f = (f, None)) as ->
         by (destruct f; simpl in *; by rewrite Hs).
       apply bound_refl. eapply Forall_impl; [by apply sources_unset|]. by left. }
  assert (simple f ∨ ∃ fs, f_Anonymous f = true ∧ f_value f = KStruct fs) as [Hf|(fs & Ha & Hv)].
  { unfold simple. destruct (f_Anonymous f); [|by left]. destruct (f_value f); eauto; by left. }
  - rewrite (bind_simple f Hf Hs), (sources_simple true f Hf), Hs. cbn [andb].
    destruct (field_raw c f) as [|x raw] eqn:Hraw.
    { simpl. rewrite (sources_simple true f Hf), Hs. apply bound_refl. constructor; [by right|done]. }
    destruct (setField _ _ _) as [v|e] eqn:He; cbn [fst snd binds].
    + rewrite (sources_simple true _ (setField_simple f _ v Hf He)).
      assert (f_CanSet (with_value f v) = true) as -> by (by destruct f).
      constructor; [|done]. split; [done|]. exists v. simpl. by rewrite Hraw.
    + exists (true, f). split; [by left|]. split; [done|]. simpl. rewrite Hraw. eauto.
  - rewrite (bind_struct f fs Ha Hv Hs).
    pose proof (bind_list fs (λ g, IH fs g Hv)) as Hb.
    assert (∀ gs, sources true (with_value f (KStruct gs)) = all_sources gs) as Hsrc.
    { intros gs. destruct f. simpl in *. by subst. }
    assert (sources true f = all_sources fs) as ->
      by (rewrite <- (with_value_self f), Hv; apply Hsrc).
    destruct (bindRecursive ParseFloat c fs) as [fs' e]. simpl in *. by rewrite Hsrc.
Qed.

(** The JSON body first, when there is one. *)
Definition decoded (Unmarshal : bytes → list field → list field * option error) (fs : list field)
  : list field * option error :=
  let body := req_Body (ctx_Request (c_RequestCtx c)) in
  match body with [] => (fs, None) | _ => Unmarshal body fs end.

(** C40 Binding is what it says. When [Bind] succeeds, every field of the struct and of the
    structs embedded in it held, before [SetDefaults], what its query, path or header
    value converts to, or what the JSON body left there when it names no such value or
    cannot be set, and the struct that results satisfies every validation rule. When it
    fails, the error says why: the argument was not a pointer to a struct; or the body did
    not decode, with the decoder's error; or the value of a field that can be set did not
    convert, with the field; or all that was bound, and rules of the struct that resulted
    are broken, with a message for each of them. *)
Theorem Bind_spec Unmarshal SetDefaults v :
  match Bind ParseFloat c Unmarshal SetDefaults v with
  | (v', None) => ∃ fs fs1 fs2, v = PointerTo (KStruct fs) ∧ decoded Unmarshal fs = (fs1, None) ∧
      Forall2 bound (all_sources fs1) (all_sources fs2) ∧ v' = PointerTo (KStruct (SetDefaults fs2)) ∧
      ∀ f, f ∈ mjoin (map leaves (SetDefaults fs2)) → t_validate f ≠ [] →
        ∀ r, r ∈ Split (t_validate f) "," → satisfies (f_value f) (TrimSpace r)
  | (v', Some e) =>
      match v with
      | NoPointer | NilPointer => v' = v ∧ e = Err (B "bind: v must be a non-nil pointer")
      | PointerTo (KStruct fs) =>
          (∃ e', (decoded Unmarshal fs).2 = Some e' ∧ e = Err (B "invalid JSON: " ++ err_Error e')) ∨
          (∃ fs1 x, decoded Unmarshal fs = (fs1, None) ∧ x ∈ all_sources fs1 ∧ bind_fails x e) ∨
          (∃ fs1 fs2, decoded Unmarshal fs = (fs1, None) ∧
             Forall2 bound (all_sources fs1) (all_sources fs2) ∧ v' = PointerTo (KStruct (SetDefaults fs2)) ∧
             broken (SetDefaults fs2) ≠ [] ∧ e = ValidationErr (complaints (SetDefaults fs2)))
      | PointerTo _ => v' = v ∧ e = Err (B "bind: v must be a pointer to struct")
      end
  end.
Proof.
  unfold Bind. destruct v as [| |v]; [done|done|]. destruct v as [| | | | | | |fs|]; try done.
  fold (decoded Unmarshal fs). cbv zeta. destruct (decoded Unmarshal fs) as [fs1 [e|]] eqn:Hd.
  { left. by exists e. }
  pose proof (bind_list fs1 (λ g _, bind_field_spec g)) as Hb.
  destruct (bindRecursive ParseFloat c fs1) as [fs2 [e|]]; simpl in Hb.
  { destruct Hb as (x & Hx & He). right. left. by exists fs1, x. }
  destruct (Validate (KStruct (SetDefaults fs2))) as [e|] eqn:Hv.
  - do 2 right. exists fs1, fs2. cbn [Validate] in Hv. rewrite validateStruct_said in Hv.
    unfold complaints in *. destruct (broken (SetDefaults fs2)) as [|x l]; [done|]. by injection Hv as <-.
  - exists fs, fs1, fs2. split_and!; try done. by apply Validate_rules.
Qed.
End bind.

(** ** Pages *)

(** A page request never fails validation and never divides by zero: whatever
    [page] and [per_page] were bound, after [SetDefaults] both are positive, the
    struct validates, and the page count of [SendPage] is defined. *)
Theorem pagination_safe p total :
  let p' := Pagination_SetDefaults p in
  (1 ≤ Page p' ∧ 1 ≤ PerPage p')%Z ∧
  Validate (KStruct (pagination_fields p')) = None ∧
  total_page (PerPage p') total ≠ None.
Proof.
  intros p'. assert (1 ≤ Page p' ∧ 1 ≤ PerPage p')%Z as [Hp Hq].
  { unfold p', Pagination_SetDefaults. simpl.
    destruct (Z.leb_spec (Page p) 0), (Z.leb_spec (PerPage p) 0); lia. }
  assert (∀ n m, (1 ≤ n)%Z → check_rule m (KInt 64 n) (B "min=1") = []) as Hmin.
  { intros n m Hn. apply check_rule_ok. change (TrimSpace (B "min=1")) with (B "min=" ++ B "1").
    constructor. exact Hn. }
  split_and!; [done|done| |].
  - unfold Validate, validateStruct, pagination_fields. simpl map.
    change (Split (B "min=1") ",") with [B "min=1"]. simpl.
    change (field_name _) with (B "page") at 1. change (field_name _) with (B "per_page").
    rewrite !Hmin by done. done.
  - unfold total_page. by destruct (Z.eqb_spec (PerPage p') 0); [lia|].
Qed.

(** ** What the model showed *)

(** A minus sign in a rule is ignored, so ["min=-5"] demands at least 5. *)
Example negative_rule_is_positive :
  check_rule (B "n") (KInt 64 0) (B "min=-5") = [B "n must be >= 5"].
Proof. vm_compute. done. Qed.

(** A number too large for a small field is bound modulo its width. *)
Example narrow_field_wraps `{Unicode} :
  setField (λ _ _, None) (KInt 8 0) (B "300") = inl (KInt 8 44).
Proof. vm_compute. done. Qed.

(** Unsigned fields are not covered by [min] and [max]. *)
Example unsigned_bounds_ignored :
  check_rule (B "n") (KUint 64 500) (B "max=10") = [].
Proof. vm_compute. done. Qed.
