(* ===== verification/Uuid.v ===== *)
(** * UUIDs ([utils/uuid.go])

    The random source, the clock and the hashes are arguments: [rand] is what
    [rand.Read] put in the buffer, [None] when it failed; [now] is the time in
    milliseconds. *)

From S2P Require Import Prelude GoStrings Router Quote.

(** [b[i] = byte(f(b[i]))] *)
Definition set_byte (i : nat) (f : Z → Z) (b : bytes) : bytes := alter (λ c, byte_of (f (code c))) i b.

(** [b[6] = (b[6] & 0x0f) | v], [b[8] = (b[8] & 0x3f) | 0x80] *)
Definition stamp (v : Z) (b : bytes) : bytes :=
  set_byte 8 (λ x, Z.lor (Z.land x 63) 128) (set_byte 6 (λ x, Z.lor (Z.land x 15) v) b).

(** The verb [%0nx] on a byte slice. *)
Definition hex_bytes (b : bytes) : bytes := mjoin ((λ c, hexdigits 2 (code c)) <$> b).
Definition fmt_0x (width : nat) (b : bytes) : bytes :=
  let h := hex_bytes b in replicate (width - length h) "0"%char ++ h.

(** [fmt.Sprintf("%08x-%04x-%04x-%04x-%012x", b[0:4], b[4:6], b[6:8], b[8:10], b[10:16])] *)
Definition slice (i j : nat) (b : bytes) : bytes := take (j - i) (drop i b).
Definition uuid_text (b : bytes) : bytes :=
  fmt_0x 8 (slice 0 4 b) ++ B "-" ++ fmt_0x 4 (slice 4 6 b) ++ B "-" ++ fmt_0x 4 (slice 6 8 b) ++
  B "-" ++ fmt_0x 4 (slice 8 10 b) ++ B "-" ++ fmt_0x 12 (slice 10 16 b).

(** [b[k] = byte((now >> (40 - 8k)) & 0xff)] for [k] from 0 to 5. *)
Definition stamp_time (now : Z) (b : bytes) : bytes :=
  ((λ k, byte_of (Z.land (Z.shiftr now k) 255)) <$> [40; 32; 24; 16; 8; 0]%Z) ++ drop 6 b.

Definition UUID4 (rand : option bytes) : bytes :=
  match rand with Some b => uuid_text (stamp 64 b) | None => [] end.

(** [UUID5] and [UUID8] ignore the error of [rand.Read]: the buffer is hashed as it is. *)
Definition UUID5 (sha1 : bytes → bytes) (buffer : bytes) : bytes :=
  uuid_text (stamp 80 (slice 0 16 (sha1 (B "goichi" ++ buffer)))).
Definition UUID6 (rand : option bytes) (now : Z) : bytes :=
  match rand with Some b => uuid_text (stamp 96 (stamp_time now b)) | None => [] end.
Definition UUID7 (rand : option bytes) (now : Z) : bytes :=
  match rand with Some b => uuid_text (stamp 112 (stamp_time now b)) | None => [] end.
Definition UUID8 (md5 : bytes → bytes) (buffer : bytes) : bytes :=
  uuid_text (stamp 128 (slice 0 16 (md5 buffer))).

(** ** Reading a UUID back *)

Fixpoint unhex (s : bytes) : option bytes :=
  match s with
  | [] => Some []
  | a :: b :: s =>
      match hexval a, hexval b, unhex s with
      | Some x, Some y, Some r => Some (byte_of (x * 16 + y) :: r)
      | _, _, _ => None
      end
  | _ => None
  end.
Definition parse_uuid (s : bytes) : option bytes :=
  match Split s "-" with
  | [a; b; c; d; e] =>
      if (length a =? 8) && (length b =? 4) && (length c =? 4) && (length d =? 4) && (length e =? 12)
      then unhex (a ++ b ++ c ++ d ++ e) else None
  | _ => None
  end.
(** The version and variant fields of a UUID. *)
Definition version (b : bytes) : option Z := (λ c, Z.shiftr (code c) 4) <$> b !! 6.
Definition variant (b : bytes) : option Z := (λ c, Z.shiftr (code c) 6) <$> b !! 8.

(** ** Lemmas *)

Lemma hexdigit_range d : (0 <= d < 16)%Z → hexdigit d ≠ "-"%char.
Proof. intros Hd. revert Hd. by apply (digit_cases (λ d, hexdigit d ≠ "-"%char)). Qed.

Lemma hexdigits_no_dash n z c : c ∈ hexdigits n z → c ≠ "-"%char.
Proof.
  revert z. induction n as [|n IH]; intros z; [by intros ?%not_elem_of_nil|].
  cbn [hexdigits]. rewrite elem_of_app. intros [Hc|Hc]; [by eapply IH|].
  apply list_elem_of_singleton in Hc as ->. apply hexdigit_range, Z.mod_pos_bound. lia.
Qed.

Lemma hex_bytes_app a b : hex_bytes (a ++ b) = hex_bytes a ++ hex_bytes b.
Proof. unfold hex_bytes. by rewrite fmap_app, join_app. Qed.
Lemma hex_bytes_length b : length (hex_bytes b) = 2 * length b.
Proof.
  induction b as [|c b IH]; [done|]. unfold hex_bytes. rewrite mjoin_fmap_cons, length_app, hexdigits_length.
  fold (hex_bytes b). rewrite IH. simpl. lia.
Qed.
Lemma hex_bytes_no_dash b c : c ∈ hex_bytes b → c ≠ "-"%char.
Proof.
  induction b as [|d b IH]; [by intros ?%not_elem_of_nil|]. unfold hex_bytes. rewrite mjoin_fmap_cons, elem_of_app.
  intros [Hc|Hc]; [by eapply hexdigits_no_dash|by apply IH].
Qed.
Lemma unhex_hex_bytes b : unhex (hex_bytes b) = Some b.
Proof.
  induction b as [|c b IH]; [done|]. unfold hex_bytes. rewrite mjoin_fmap_cons. fold (hex_bytes b).
  unfold hexdigits. cbn [app unhex]. rewrite !hexval_hexdigit by (apply Z.mod_pos_bound; lia).
  rewrite IH. f_equal. f_equal. rewrite <- (byte_of_code c) at 3. f_equal.
  pose proof (code_range c). solve_z.
Qed.

Lemma fmt_0x_exact w b : 2 * length b = w → fmt_0x w b = hex_bytes b.
Proof. intros Hw. unfold fmt_0x. by rewrite hex_bytes_length, Hw, Nat.sub_diag. Qed.

(** The text of 16 bytes, its groups written out. *)
Lemma uuid_text_groups b :
  length b = 16 →
  uuid_text b =
  Join (hex_bytes <$> [slice 0 4 b; slice 4 6 b; slice 6 8 b; slice 8 10 b; slice 10 16 b]) (B "-").
Proof.
  intros Hb. unfold uuid_text. rewrite !fmt_0x_exact; [done|unfold slice; rewrite length_take, length_drop; lia..].
Qed.

Lemma slices_join b :
  length b = 16 →
  slice 0 4 b ++ slice 4 6 b ++ slice 6 8 b ++ slice 8 10 b ++ slice 10 16 b = b.
Proof. intros Hb. do 17 (destruct b as [|? b]; [done|]). simpl in Hb. lia. Qed.

Lemma parse_uuid_text b : length b = 16 → parse_uuid (uuid_text b) = Some b.
Proof.
  intros Hb. rewrite uuid_text_groups by done. unfold parse_uuid.
  rewrite (Split_Join _ "-"%char); [|done|].
  - cbn [fmap list_fmap].
    assert (∀ i j, i ≤ j ≤ 16 → length (hex_bytes (slice i j b)) = 2 * (j - i)) as Hl.
    { intros i j Hij. rewrite hex_bytes_length. unfold slice. rewrite length_take, length_drop. lia. }
    rewrite !Hl by lia. cbn [Nat.sub Nat.mul Nat.add Nat.eqb andb].
    rewrite <- !hex_bytes_app, slices_join by done. apply unhex_hex_bytes.
  - apply Forall_fmap, Forall_true. intros x c. apply hex_bytes_no_dash.
Qed.

Lemma set_byte_length i f b : length (set_byte i f b) = length b.
Proof. apply length_alter. Qed.
Lemma stamp_length v b : length (stamp v b) = length b.
Proof. unfold stamp. by rewrite !set_byte_length. Qed.
Lemma stamp_time_length now b : length b = 16 → length (stamp_time now b) = 16.
Proof. intros Hb. unfold stamp_time. rewrite length_app, length_drop. simpl. lia. Qed.

Lemma land_15 x : Z.land x 15 = (x mod 16)%Z.
Proof. change 15%Z with (Z.ones 4). by rewrite Z.land_ones. Qed.
Lemma land_63 x : Z.land x 63 = (x mod 64)%Z.
Proof. change 63%Z with (Z.ones 6). by rewrite Z.land_ones. Qed.
Lemma land_255 x : Z.land x 255 = (x mod 256)%Z.
Proof. change 255%Z with (Z.ones 8). by rewrite Z.land_ones. Qed.

Lemma lor_byte a b : (0 <= a < 256)%Z → (0 <= b < 256)%Z → (0 <= Z.lor a b < 256)%Z.
Proof.
  intros Ha Hb. split; [apply Z.lor_nonneg; lia|].
  destruct (Z.eq_dec (Z.lor a b) 0) as [->|Hne]; [lia|].
  assert (0 <= Z.lor a b)%Z by (apply Z.lor_nonneg; lia).
  change 256%Z with (2 ^ 8)%Z. apply Z.log2_lt_pow2; [lia|]. rewrite Z.log2_lor by lia.
  assert (∀ x, 0 <= x < 256 → Z.log2 x < 8)%Z as Hl.
  { intros x Hx. destruct (Z.eq_dec x 0) as [->|]; [done|]. apply Z.log2_lt_pow2; lia. }
  pose proof (Hl a Ha). pose proof (Hl b Hb). lia.
Qed.

(** What [stamp] leaves in the two fields, and elsewhere. *)
Lemma stamp_fields v b :
  length b = 16 → In v [64; 80; 96; 112; 128]%Z →
  version (stamp v b) = Some (v / 16)%Z ∧ variant (stamp v b) = Some 2%Z.
Proof.
  intros Hb Hv.
  assert (0 <= v < 256 ∧ Z.shiftr v 4 = v / 16)%Z as [Hr Hs].
  { repeat destruct Hv as [<-|Hv]; done || destruct Hv. }
  unfold version, variant, stamp, set_byte.
  destruct (lookup_lt_is_Some_2 b 6) as [x Hx]; [lia|].
  destruct (lookup_lt_is_Some_2 b 8) as [y Hy]; [lia|].
  rewrite list_lookup_alter_ne, list_lookup_alter_eq, Hx by done.
  rewrite list_lookup_alter_eq, list_lookup_alter_ne, Hy by done. cbn [fmap option_fmap option_map].
  split; f_equal.
  - rewrite land_15, code_byte_of by (apply lor_byte; [pose proof (Z.mod_pos_bound (code x) 16); lia|lia]).
    rewrite Z.shiftr_lor, (Z.shiftr_div_pow2 (code x mod 16)), Z.div_small, Z.lor_0_l by
      (try apply Z.mod_pos_bound; lia). done.
  - rewrite land_63, code_byte_of by (apply lor_byte; [pose proof (Z.mod_pos_bound (code y) 64); lia|lia]).
    rewrite Z.shiftr_lor, (Z.shiftr_div_pow2 (code y mod 64)), Z.div_small, Z.lor_0_l by
      (try apply Z.mod_pos_bound; lia). done.
Qed.

(** *** The order of texts *)

(** [a] comes strictly before [b] in the order of Go's string comparison, at a
    position both have. *)
Definition before (a b : bytes) : Prop :=
  ∃ p c d x y, a = p ++ c :: x ∧ b = p ++ d :: y ∧ (code c < code d)%Z.

Lemma before_app a b x y : before a b → before (a ++ x) (b ++ y).
Proof.
  intros (p & c & d & u & v & -> & -> & Hlt). exists p, c, d, (u ++ x), (v ++ y).
  by rewrite <- !app_assoc.
Qed.
Lemma before_prefix p a b : before a b → before (p ++ a) (p ++ b).
Proof.
  intros (q & c & d & u & v & -> & -> & Hlt). exists (p ++ q), c, d, u, v. by rewrite !app_assoc.
Qed.
Lemma before_leb a b : before a b → bytes_leb b a = false.
Proof.
  intros (p & c & d & x & y & -> & -> & Hlt). induction p as [|e p IH]; cbn [app bytes_leb].
  - unfold code in Hlt. destruct (Nat.ltb_spec (nat_of_ascii d) (nat_of_ascii c)); [lia|].
    destruct (Nat.ltb_spec (nat_of_ascii c) (nat_of_ascii d)); [done|lia].
  - by rewrite Nat.ltb_irrefl.
Qed.

Lemma code_hexdigit d e : (0 <= d < e)%Z → (e < 16)%Z → (code (hexdigit d) < code (hexdigit e))%Z.
Proof.
  intros Hd He.
  assert (∀ k, (0 <= k < 16)%Z → code (hexdigit k) = (if k <? 10 then 48 + k else 87 + k)%Z) as Hc.
  { intros k Hk. revert Hk. by apply (digit_cases (λ k, code (hexdigit k) = (if k <? 10 then 48 + k else 87 + k)%Z)). }
  rewrite !Hc by lia. destruct (Z.ltb_spec d 10), (Z.ltb_spec e 10); lia.
Qed.

(** Hexadecimal numbers of one width are ordered as their texts. *)
Lemma before_hexdigits n x y :
  (0 <= x < y)%Z → (y < 16 ^ Z.of_nat n)%Z → before (hexdigits n x) (hexdigits n y).
Proof.
  revert x y. induction n as [|n IH]; intros x y Hxy Hy; [simpl in Hy; lia|].
  rewrite Nat2Z.inj_succ, Z.pow_succ_r in Hy by lia. cbn [hexdigits].
  assert (x / 16 <= y / 16)%Z as Hle by (apply Z.div_le_mono; lia).
  destruct (Z.eq_dec (x / 16) (y / 16)) as [Heq|Hne].
  - rewrite Heq. apply before_prefix. exists [], (hexdigit (x mod 16)), (hexdigit (y mod 16)), [], [].
    split_and!; [done|done|]. apply code_hexdigit; solve_z.
  - apply before_app, IH; [|apply Z.div_lt_upper_bound; lia].
    split; [apply Z.div_pos; lia|lia].
Qed.

Lemma hexdigits_mod n z : (0 <= z)%Z → hexdigits n (z mod 16 ^ Z.of_nat n) = hexdigits n z.
Proof.
  revert z. induction n as [|n IH]; intros z Hz; [done|].
  rewrite Nat2Z.inj_succ, Z.pow_succ_r by lia. cbn [hexdigits].
  assert (0 < 16 ^ Z.of_nat n)%Z by (apply Z.pow_pos_nonneg; lia).
  rewrite (Z.rem_mul_r z 16 (16 ^ Z.of_nat n)) by lia.
  rewrite (Z.mul_comm 16), Z.div_add, Z.mod_add by lia.
  rewrite (Z.div_small (z mod 16)), Z.add_0_l by (apply Z.mod_pos_bound; lia).
  rewrite IH by (apply Z.div_pos; lia). by rewrite Z.mod_mod by lia.
Qed.

Lemma hexdigits_two n z : hexdigits (S (S n)) z = hexdigits n (z / 256)%Z ++ hexdigits 2 z.
Proof. cbn [hexdigits]. rewrite Z.div_div by lia. by rewrite <- !app_assoc. Qed.

(** One byte of the time, and its two digits. *)
Definition time_byte (now k : Z) : byte := byte_of (Z.land (Z.shiftr now k) 255).
Lemma time_byte_digits now k :
  (0 <= now)%Z → (0 <= k)%Z → hexdigits 2 (code (time_byte now k)) = hexdigits 2 (now / 2 ^ k)%Z.
Proof.
  intros Hn Hk. unfold time_byte. rewrite land_255, Z.shiftr_div_pow2 by done.
  rewrite code_byte_of by (apply Z.mod_pos_bound; lia).
  change 256%Z with (16 ^ Z.of_nat 2)%Z. apply hexdigits_mod. apply Z.div_pos; [done|].
  by apply Z.pow_pos_nonneg.
Qed.

(** The text of a timestamped buffer starts with the 12 digits of the time. *)
Lemma time_groups v now b :
  length b = 16 → (0 <= now)%Z →
  ∃ rest, uuid_text (stamp v (stamp_time now b)) =
          hexdigits 8 (now / 65536) ++ B "-" ++ hexdigits 4 now ++ rest.
Proof.
  intros Hb Hn. rewrite uuid_text_groups by (rewrite stamp_length; by apply stamp_time_length).
  set (u := stamp v (stamp_time now b)).
  assert (slice 0 4 u = time_byte now <$> [40; 32; 24; 16]%Z ∧ slice 4 6 u = time_byte now <$> [8; 0]%Z)
    as [-> ->].
  { subst u. do 16 (destruct b as [|? b]; [done|]). destruct b; [split; reflexivity|done]. }
  assert (∀ l, hex_bytes (time_byte now <$> l) = mjoin ((λ k, hexdigits 2 (code (time_byte now k))) <$> l))
    as Hh by (intros l; unfold hex_bytes; by rewrite <- list_fmap_compose).
  generalize (slice 6 8 u), (slice 8 10 u), (slice 10 16 u). intros x y z.
  exists (B "-" ++ hex_bytes x ++ B "-" ++ hex_bytes y ++ B "-" ++ hex_bytes z).
  change (hex_bytes (time_byte now <$> [40; 32; 24; 16]%Z) ++ B "-" ++
          hex_bytes (time_byte now <$> [8; 0]%Z) ++ B "-" ++ hex_bytes x ++ B "-" ++ hex_bytes y ++
          B "-" ++ hex_bytes z =
          hexdigits 8 (now / 65536) ++ B "-" ++ hexdigits 4 now ++
          B "-" ++ hex_bytes x ++ B "-" ++ hex_bytes y ++ B "-" ++ hex_bytes z).
  rewrite !Hh. cbn [fmap list_fmap mjoin list_join].
  rewrite !time_byte_digits by lia.
  rewrite (hexdigits_two 6), (hexdigits_two 4), (hexdigits_two 2 (now / 65536 / 256 / 256)).
  rewrite (hexdigits_two 2 now). rewrite !Z.div_div by lia.
  change (2 ^ 0)%Z with 1%Z. rewrite Z.div_1_r, !app_nil_r, <- !app_assoc. reflexivity.
Qed.

(** ** Properties *)

(** The lowest [k] bits of a byte, and what bytes are as a number, the first the highest. *)
Definition low (k : Z) (c : byte) : Z := (code c mod 2 ^ k)%Z.
Definition number (b : bytes) : Z := fold_left (λ n c, n * 256 + code c)%Z b 0%Z.

(** The shape of every UUID the package makes: 36 characters that read back to 16 bytes,
    with the version of the function and the variant of RFC 9562; every other bit is the
    one of [src]. *)
Definition well_formed_uuid (v : Z) (src s : bytes) : Prop :=
  length s = 36 ∧ ∃ b, length b = 16 ∧ parse_uuid s = Some b ∧
    version b = Some v ∧ variant b = Some 2%Z ∧
    (∀ i, i ≠ 6 → i ≠ 8 → b !! i = src !! i) ∧
    low 4 <$> b !! 6 = low 4 <$> src !! 6 ∧ low 6 <$> b !! 8 = low 6 <$> src !! 8.

Lemma low_lor k x v :
  (0 ≤ k ≤ 8)%Z → (0 ≤ Z.lor (Z.land (code x) (Z.ones k)) v < 256)%Z → Z.land v (Z.ones k) = 0%Z →
  low k (byte_of (Z.lor (Z.land (code x) (Z.ones k)) v)) = low k x.
Proof.
  intros Hk Hr Hv. unfold low. rewrite code_byte_of by done. rewrite <- !Z.land_ones by lia.
  by rewrite Z.land_lor_distr_l, Hv, Z.lor_0_r, <- Z.land_assoc, Z.land_diag.
Qed.

(** [stamp] changes no other bit. *)
Lemma stamp_rest v b :
  length b = 16 → In v [64; 80; 96; 112; 128]%Z →
  (∀ i, i ≠ 6 → i ≠ 8 → stamp v b !! i = b !! i) ∧
  low 4 <$> stamp v b !! 6 = low 4 <$> b !! 6 ∧ low 6 <$> stamp v b !! 8 = low 6 <$> b !! 8.
Proof.
  intros Hb Hv. assert (0 ≤ v < 256 ∧ Z.land v (Z.ones 4) = 0)%Z as [Hr Hs].
  { repeat destruct Hv as [<-|Hv]; done || destruct Hv. }
  unfold stamp, set_byte. split; [|split].
  - intros i H6 H8. by rewrite !list_lookup_alter_ne by done.
  - rewrite list_lookup_alter_ne, list_lookup_alter_eq by done. destruct (b !! 6) as [x|]; [|done].
    cbn [fmap option_fmap option_map]. f_equal. apply (low_lor 4); [lia| |done].
    change (Z.ones 4) with 15%Z. rewrite land_15. apply lor_byte; [pose proof (Z.mod_pos_bound (code x) 16); lia|done].
  - rewrite list_lookup_alter_eq, list_lookup_alter_ne by done. destruct (b !! 8) as [y|]; [|done].
    cbn [fmap option_fmap option_map]. f_equal. apply (low_lor 6); [lia| |done].
    change (Z.ones 6) with 63%Z. rewrite land_63. apply lor_byte; [pose proof (Z.mod_pos_bound (code y) 64); lia|lia].
Qed.

Lemma stamped_well_formed v b :
  length b = 16 → In (v * 16)%Z [64; 80; 96; 112; 128]%Z →
  well_formed_uuid v b (uuid_text (stamp (v * 16) b)).
Proof.
  intros Hb Hv. assert (length (stamp (v * 16) b) = 16) as Hs by (by rewrite stamp_length).
  destruct (stamp_fields (v * 16) b Hb Hv) as [H1 H2]. rewrite Z.div_mul in H1 by done.
  split; [|exists (stamp (v * 16) b); rewrite parse_uuid_text by done; split_and!; try done; by apply stamp_rest].
  rewrite uuid_text_groups by done. cbn [fmap list_fmap Join].
  rewrite !length_app, !hex_bytes_length. unfold slice. rewrite !length_take, !length_drop, Hs. reflexivity.
Qed.

Lemma stamp_time_number now b : number (take 6 (stamp_time now b)) = (now mod 2 ^ 48)%Z.
Proof.
  unfold stamp_time. rewrite take_app_length'; [|done]. unfold number. cbn [fmap list_fmap fold_left].
  rewrite !land_255, !code_byte_of by (apply Z.mod_pos_bound; lia).
  rewrite !Z.shiftr_div_pow2 by lia.
  change (2 ^ 40)%Z with (256 * 256 * 256 * 256 * 256)%Z. change (2 ^ 32)%Z with (256 * 256 * 256 * 256)%Z.
  change (2 ^ 24)%Z with (256 * 256 * 256)%Z. change (2 ^ 16)%Z with (256 * 256)%Z. change (2 ^ 8)%Z with 256%Z.
  change (2 ^ 0)%Z with 1%Z. rewrite Z.div_1_r, <- !Z.div_div by lia. solve_z.
Qed.

(** C33 Each function makes a UUID that reads back to sixteen bytes with its version number
    and the variant, and the other 122 bits are those of its source, whatever that is: the
    random bytes for version 4, the start of the SHA-1 hash for 5, the MD5 hash for 8, and
    for 6 and 7 the time in milliseconds in the first six bytes, the highest byte first, and
    random bytes behind.
    (That is the layout of version 7; what [UUID6] makes has the number of version 6 and
    not its layout.) *)
Theorem uuids_well_formed sha1 md5 buffer r now :
  length r = 16 → length (sha1 (B "goichi" ++ buffer)) = 20 → length (md5 buffer) = 16 →
  well_formed_uuid 4 r (UUID4 (Some r)) ∧
  well_formed_uuid 5 (take 16 (sha1 (B "goichi" ++ buffer))) (UUID5 sha1 buffer) ∧
  (∃ src, number (take 6 src) = (now mod 2 ^ 48)%Z ∧ drop 6 src = drop 6 r ∧
     well_formed_uuid 6 src (UUID6 (Some r) now) ∧ well_formed_uuid 7 src (UUID7 (Some r) now)) ∧
  well_formed_uuid 8 (md5 buffer) (UUID8 md5 buffer).
Proof.
  intros Hr H5 H8.
  assert (∀ b : bytes, 16 ≤ length b → length (take 16 b) = 16) as Hs by (intros b Hb; rewrite length_take; lia).
  split_and!.
  - apply (stamped_well_formed 4); [done|by left].
  - apply (stamped_well_formed 5); [apply Hs; lia|right; by left].
  - exists (stamp_time now r). split_and!.
    + apply stamp_time_number.
    + reflexivity.
    + apply (stamped_well_formed 6); [by apply stamp_time_length|do 2 right; by left].
    + apply (stamped_well_formed 7); [by apply stamp_time_length|do 3 right; by left].
  - unfold UUID8, slice. rewrite drop_0, take_ge by (simpl; lia).
    apply (stamped_well_formed 8); [done|do 4 right; by left].
Qed.

(** UUIDs of version 7 sort by the time they were made, to the millisecond: the texts
    of two different times compare as the times do, whatever the random bytes. *)
Theorem uuid7_sorted r1 r2 t1 t2 :
  length r1 = 16 → length r2 = 16 → (0 <= t1 < t2)%Z → (t2 < 2 ^ 48)%Z →
  bytes_leb (UUID7 (Some r2) t2) (UUID7 (Some r1) t1) = false.
Proof.
  intros H1 H2 Ht Hb. apply before_leb. unfold UUID7.
  destruct (time_groups 112 t1 r1 H1) as [x ->]; [lia|].
  destruct (time_groups 112 t2 r2 H2) as [y ->]; [lia|].
  assert (t1 / 65536 <= t2 / 65536)%Z as Hle by (apply Z.div_le_mono; lia).
  destruct (Z.eq_dec (t1 / 65536) (t2 / 65536)) as [Heq|Hne].
  - rewrite Heq. apply before_prefix, before_prefix, before_app.
    rewrite <- (hexdigits_mod 4 t1), <- (hexdigits_mod 4 t2) by lia. 
    change (16 ^ Z.of_nat 4)%Z with 65536%Z. apply before_hexdigits; [solve_z|].
    change (16 ^ Z.of_nat 4)%Z with 65536%Z. apply Z.mod_pos_bound. lia.
  - apply before_app, before_hexdigits; [split; [apply Z.div_pos; lia|lia]|].
    apply Z.div_lt_upper_bound; [lia|]. change (65536 * 16 ^ Z.of_nat 8)%Z with (2 ^ 48)%Z. done.
Qed.

(** ** Witnesses and examples *)

Definition zeros : bytes := replicate 16 (ascii_of_nat 0).

Lemma uuids_well_formed_witness :
  ∃ src, number (take 6 src) = 1700000000000%Z ∧ well_formed_uuid 7 src (UUID7 (Some zeros) 1700000000000).
Proof.
  destruct (uuids_well_formed (λ _, replicate 20 (ascii_of_nat 7)) (λ _, zeros) zeros zeros 1700000000000)
    as (_ & _ & (src & Hn & _ & _ & H7) & _); [reflexivity|reflexivity|reflexivity|].
  exists src. split; [exact Hn|exact H7].
Defined.

Lemma uuid7_sorted_witness :
  bytes_leb (UUID7 (Some zeros) 1700000000001) (UUID7 (Some (replicate 16 (ascii_of_nat 255))) 1700000000000)
  = false.
Proof. apply uuid7_sorted; [reflexivity|reflexivity|lia|lia]. Defined.

(** When the random source fails the result is the empty string, for the functions
    that look at the error. *)
Example failed_source t : UUID4 None = [] ∧ UUID6 None t = [] ∧ UUID7 None t = [].
Proof. done. Qed.

(** Version 6 has the layout of version 7, the milliseconds of the Unix epoch in the
    first six bytes, where RFC 9562 puts a count of 100 ns since 1582 in another order. *)
Example uuid6_has_the_layout_of_7 :
  UUID6 (Some zeros) 1700000000000 = B "018bcfe5-6800-6000-8000-000000000000" ∧
  UUID7 (Some zeros) 1700000000000 = B "018bcfe5-6800-7000-8000-000000000000".
Proof. vm_compute. done. Qed.
