(* ===== verification/Logging.v ===== *)
(** * The access log and request ids ([middleware/logger.go], [requestid.go], [metrics.go])

    The text of a log line, byte for byte: [fmt]'s padding counts runes, and [%.2f] of a
    number of milliseconds rounds twice, once to the nearest double and once to two
    decimals. The destination of the log is a function on the shared state. *)

From S2P Require Import Prelude GoStrings Effects FastHTTP Core Middleware Quote Uuid.

(** ** [fmt] *)

(** [%-6s]: padding with spaces on the right up to a number of runes. *)
Definition pad_right (width : nat) (s : bytes) : bytes :=
  s ++ replicate (width - length (runes s)) " "%char.

(** The integer nearest to [n / d], ties to even. *)
Definition round_even (n d : Z) : Z :=
  let q := (n / d)%Z in let r := (n mod d)%Z in
  if (2 * r <? d)%Z then q
  else if (d <? 2 * r)%Z then q + 1
  else if Z.even q then q else q + 1.

(** The double nearest to [p / q] for positive [p] and [q], as [m] and [k] with value
    [m / 2^k]; [m] has 53 bits. *)
Definition to_double (p q : Z) : Z * Z :=
  let k := (52 - (Z.log2 p - Z.log2 q))%Z in
  let scaled k := if (0 <=? k)%Z then (p * 2 ^ k, q)%Z else (p, q * 2 ^ (- k))%Z in
  let '(n, d) := scaled k in
  let k := if (n <? 2 ^ 52 * d)%Z then (k + 1)%Z else k in
  let '(n, d) := scaled k in (round_even n d, k).

(** [%.2f] of [m / 2^k], not negative. *)
Definition two_digits (h : Z) : bytes := (if (h <? 10)%Z then B "0" else []) ++ format_int h.
Definition fmt_2f (x : Z * Z) : bytes :=
  let h := round_even (x.1 * 100) (2 ^ x.2) in
  format_int (h / 100) ++ B "." ++ two_digits (h mod 100).

(** ** [logger.go] *)

Definition esc (s : bytes) : bytes := ascii_of_nat 27 :: s.

Definition statusColor (code : Z) : bytes :=
  if (500 <=? code)%Z then esc (B "[31m")
  else if (400 <=? code)%Z then esc (B "[33m")
  else if (300 <=? code)%Z then esc (B "[36m")
  else esc (B "[32m").

(** A duration in nanoseconds. Below a millisecond the double is an integer. *)
Definition Millisecond : Z := 1000000.
Definition Microseconds (d : Z) : Z := Z.quot d 1000.
Definition formatDur (d : Z) : bytes :=
  if (d <? Millisecond)%Z then format_int (Microseconds d) ++ B ".00µs"
  else fmt_2f (to_double (Microseconds d) 1000) ++ B "ms".

Definition log_line (method path : bytes) (status dur : Z) : bytes :=
  B "[GoICHI] " ++ pad_right 6 method ++ B " " ++ pad_right 30 path ++ B " " ++
  statusColor status ++ format_int status ++ esc (B "[0m") ++ B "  " ++ formatDur dur.

Section logger.
Context `{F : FastHTTP} {St : Type} `{!Clock St} (log : bytes → St → St).

Definition Logger : Middleware St := λ next,
  let h : hfn St :=
    start ← gets (λ s, now s.2);
    err ← call next;
    dur ← gets (λ s, wrap_i64 (now s.2 - start));
    c ← gets_ctx id;
    let ctx := c_RequestCtx c in
    on_state (log (log_line (ctx_Method ctx) (ctx_Path ctx) (res_StatusCode (ctx_Response ctx)) dur));;
    mret err in
  Some h.

(** The logger is transparent: the handler's verdict and what it did to the request and
    to the shared state are kept, one line is written when it returns, and a panic goes
    through without one. *)
Lemma Logger_transparent next (s : Ctx * St) :
  call (Logger next) s =
  match call next s with
  | (Panic v, s') => (Panic v, s')
  | (Crash v, s') => (Crash v, s')
  | (Ret err, (c, st)) =>
      let ctx := c_RequestCtx c in
      (Ret err, (c, log (log_line (ctx_Method ctx) (ctx_Path ctx) (res_StatusCode (ctx_Response ctx))
                           (wrap_i64 (now st - now s.2))) st))
  end.
Proof.
  unfold Logger. cbn. unfold mbind, M_bind, gets_ctx, gets, on_state, modify. cbn.
  by destruct (call next s) as [[err|v|v] [c st]].
Qed.

(** [StatsLogger]: the line of one tick. *)
Definition stats_line `{!Has stats St} (st : St) : bytes :=
  let '(total, active) := GetStats st in
  B "[Metrics] Total Requests: " ++ format_int total ++ B ", Active: " ++ format_int active.
End logger.

(** ** [requestid.go]: [rand] is what the random source answers *)
Definition newRequestID (rand : option bytes) : bytes :=
  match rand with
  | None => B "00000000000000000000000000000000"
  | Some b => hex_bytes b
  end.

(** ** Properties *)

Lemma round_even_spec n d :
  (0 < d)%Z → (2 * Z.abs (n - d * round_even n d) ≤ d)%Z.
Proof.
  intros Hd. unfold round_even. pose proof (Z.div_mod n d). pose proof (Z.mod_pos_bound n d Hd).
  repeat case_match; nia.
Qed.

(** A duration of a millisecond or more, up to twelve days, is printed to the nearest
    hundredth of a millisecond, in spite of the two roundings; ties may go either way. *)
Lemma formatDur_nearest us :
  (1000 ≤ us < 2 ^ 40)%Z →
  let x := to_double us 1000 in (Z.abs (us - 10 * round_even (x.1 * 100) (2 ^ x.2)) ≤ 5)%Z.
Proof.
  intros Hus. unfold to_double. change (Z.log2 1000) with 9%Z.
  assert (0 ≤ Z.log2 us < 40)%Z as Hl.
  { split; [apply Z.log2_nonneg|]. apply Z.log2_lt_pow2; lia. }
  set (k0 := (52 - (Z.log2 us - 9))%Z). rewrite (proj2 (Z.leb_le 0 k0)) by (unfold k0; lia).
  match goal with |- context [if ?b then (k0 + 1)%Z else k0] => set (k := if b then (k0 + 1)%Z else k0) end.
  assert (20 ≤ k)%Z as Hk by (unfold k, k0; case_match; lia). clearbody k. clear k0 Hl.
  rewrite (proj2 (Z.leb_le 0 k)) by lia. cbn [fst snd].
  set (m := round_even (us * 2 ^ k) 1000).
  pose proof (round_even_spec (us * 2 ^ k) 1000 eq_refl) as Hm. fold m in Hm.
  assert (2 ^ 20 ≤ 2 ^ k)%Z as H2 by (apply Z.pow_le_mono_r; lia).
  pose proof (round_even_spec (m * 100) (2 ^ k) ltac:(lia)) as Hh.
  set (h := round_even (m * 100) (2 ^ k)) in *. clearbody m h.
  generalize dependent (2 ^ k)%Z. intros p Hm Hp Hh. change (2 ^ 20)%Z with 1048576%Z in Hp. nia.
Qed.

(** The log prints a duration of a millisecond or more, up to twelve days, as the number
    of milliseconds with two decimals that is nearest to its microseconds; below a
    millisecond it prints the microseconds. *)
Theorem formatDur_spec d :
  (0 ≤ d < 2 ^ 40 * 1000)%Z →
  if (d <? Millisecond)%Z then formatDur d = format_int (d / 1000) ++ B ".00µs"
  else ∃ h, formatDur d = format_int (h / 100) ++ B "." ++ two_digits (h mod 100) ++ B "ms" ∧
         (Z.abs (d / 1000 - 10 * h) ≤ 5)%Z.
Proof.
  intros Hd. unfold formatDur, Microseconds. rewrite Z.quot_div_nonneg by lia.
  destruct (Z.ltb_spec d Millisecond) as [|Hm]; [done|]. unfold Millisecond in Hm.
  eexists. split; [unfold fmt_2f; by rewrite <- !app_assoc|]. apply formatDur_nearest.
  split; [apply Z.div_le_lower_bound; lia|apply Z.div_lt_upper_bound; lia].
Qed.
Lemma formatDur_spec_witness : ∃ h,
  formatDur 12345678901 = format_int (h / 100) ++ B "." ++ two_digits (h mod 100) ++ B "ms" ∧
  (Z.abs (12345678 - 10 * h) ≤ 5)%Z.
Proof. apply (formatDur_spec 12345678901). lia. Defined.

(** An id is always 32 lower-case hexadecimal digits, and distinct random bytes give
    distinct ids. *)
Lemma newRequestID_shape rand :
  (∀ b, rand = Some b → length b = 16) → length (newRequestID rand) = 32.
Proof. intros Hr. destruct rand as [b|]; [|done]. simpl. rewrite hex_bytes_length, (Hr b); done. Qed.
Lemma newRequestID_inj b b' : newRequestID (Some b) = newRequestID (Some b') → b = b'.
Proof. simpl. intros H. apply (f_equal unhex) in H. rewrite !unhex_hex_bytes in H. congruence. Qed.

(** 1.005 ms is printed as 1.00: the nearest double is below it. *)
Example dur_1005 : formatDur 1005000 = B "1.00ms".
Proof. vm_compute. reflexivity. Qed.
Example dur_1015 : formatDur 1015000 = B "1.01ms".
Proof. vm_compute. reflexivity. Qed.
(** 0.125 is a double: the tie goes to the even digit. *)
Example dur_1125 : formatDur 1125000 = B "1.12ms" ∧ formatDur 1375000 = B "1.38ms".
Proof. vm_compute. by split. Qed.
Example dur_small : formatDur 999999 = B "999.00µs" ∧ formatDur 12345678901 = B "12345.68ms".
Proof. vm_compute. by split. Qed.
