(* ===== verification/Json.v ===== *)
(** * JSON documents

    The trees the documentation generator's texts stand for, the compact text of a
    tree with strings written by [%q], and a parser of RFC 8259 (white space, numbers,
    escapes) that decides which tree a text denotes. [parse_render] is the round trip;
    duplicate member names are kept, a reader takes the last one. *)

From S2P Require Import Prelude GoStrings Quote.

(** A number is kept as its text. *)
Inductive json :=
  | JNull
  | JBool (b : bool)
  | JNum (text : bytes)
  | JStr (s : bytes)
  | JArr (l : list json)
  | JObj (m : list (bytes * json)).

(** ** Numbers *)

Definition is_dec (c : byte) : bool := between 48 57 (code c).
Definition is_num_char (c : byte) : bool :=
  is_dec c || existsb (Ascii.eqb c) (B "+-.eE").

Fixpoint span (p : byte → bool) (s : bytes) : bytes * bytes :=
  match s with
  | [] => ([], [])
  | c :: r => if p c then let '(a, b) := span p r in (c :: a, b) else ([], s)
  end.

(** [exp]: nothing, or [e], a sign, digits. *)
Definition is_exp (s : bytes) : bool :=
  match s with
  | [] => true
  | e :: s =>
      existsb (Ascii.eqb e) (B "eE") &&
      match s with
      | c :: (_ :: _) as s' =>
          if existsb (Ascii.eqb c) (B "+-") then forallb is_dec (drop 1 s) else forallb is_dec s
      | [c] => is_dec c
      | [] => false
      end
  end.
Definition is_frac_exp (s : bytes) : bool :=
  match s with
  | "."%char :: s =>
      let '(d, r) := span is_dec s in negb (length d =? 0) && is_exp r
  | _ => is_exp s
  end.
Definition is_unsigned (s : bytes) : bool :=
  let '(d, r) := span is_dec s in
  match d with
  | [] => false
  | ["0"%char] => is_frac_exp r
  | "0"%char :: _ => false
  | _ => is_frac_exp r
  end.
Definition is_number (s : bytes) : bool :=
  match s with "-"%char :: s => is_unsigned s | _ => is_unsigned s end.

(** ** The parser *)

Definition is_ws (c : byte) : bool :=
  let z := code c in (z =? 32)%Z || (z =? 9)%Z || (z =? 10)%Z || (z =? 13)%Z.
Definition skip_ws (s : bytes) : bytes := drop_while is_ws s.

(** The next token must be this character. *)
Definition expect (c : byte) (s : bytes) : option bytes :=
  match skip_ws s with
  | d :: r => if Ascii.eqb d c then Some r else None
  | [] => None
  end.

Definition literal (s : bytes) : option (json * bytes) :=
  if HasPrefix s (B "null") then Some (JNull, drop 4 s)
  else if HasPrefix s (B "true") then Some (JBool true, drop 4 s)
  else if HasPrefix s (B "false") then Some (JBool false, drop 5 s)
  else let '(n, r) := span is_num_char s in
       if is_number n then Some (JNum n, r) else None.

(** A string literal, white space skipped. *)
Definition parse_string (s : bytes) : option (bytes * bytes) :=
  r ← expect dquote s; unquote r.

(** One value; the elements of an array after ['[']; the members of an object after
    ['{']: each with the text that follows. The fuel bounds the calls. *)
Fixpoint parse_value (n : nat) (s : bytes) : option (json * bytes) :=
  match n with
  | 0 => None
  | S n =>
      match expect "[" s, expect "{" s, expect dquote s with
      | Some r, _, _ =>
          match expect "]" r with
          | Some r => Some (JArr [], r)
          | None => prod_map JArr id <$> parse_elems n r
          end
      | None, Some r, _ =>
          match expect "}" r with
          | Some r => Some (JObj [], r)
          | None => prod_map JObj id <$> parse_members n r
          end
      | None, None, Some r => prod_map JStr id <$> unquote r
      | None, None, None => literal (skip_ws s)
      end
  end
with parse_elems (n : nat) (s : bytes) : option (list json * bytes) :=
  match n with
  | 0 => None
  | S n =>
      x ← parse_value n s;
      match expect "," x.2, expect "]" x.2 with
      | Some r, _ => prod_map (cons x.1) id <$> parse_elems n r
      | None, Some r => Some ([x.1], r)
      | None, None => None
      end
  end
with parse_members (n : nat) (s : bytes) : option (list (bytes * json) * bytes) :=
  match n with
  | 0 => None
  | S n =>
      k ← parse_string s;
      r ← expect ":" k.2;
      x ← parse_value n r;
      match expect "," x.2, expect "}" x.2 with
      | Some r, _ => prod_map (cons (k.1, x.1)) id <$> parse_members n r
      | None, Some r => Some ([(k.1, x.1)], r)
      | None, None => None
      end
  end.

(** The document a text denotes, if it is JSON. *)
Definition parse_json (s : bytes) : option json :=
  match parse_value (S (length s)) s with
  | Some (j, r) => match skip_ws r with [] => Some j | _ => None end
  | None => None
  end.

(** ** The text of a document *)

Section render.
Context `{U : Unicode}.

Definition member (kv : bytes * bytes) : bytes := Quote kv.1 ++ B ":" ++ kv.2.
Definition object (m : list (bytes * bytes)) : bytes :=
  B "{" ++ Join (member <$> m) (B ",") ++ B "}".
Definition array (l : list bytes) : bytes := B "[" ++ Join l (B ",") ++ B "]".

Fixpoint render (j : json) : bytes :=
  match j with
  | JNull => B "null"
  | JBool true => B "true"
  | JBool false => B "false"
  | JNum t => t
  | JStr s => Quote s
  | JArr l => array (render <$> l)
  | JObj m => object ((λ kv, (kv.1, render kv.2)) <$> m)
  end.

(** Every string can be written by [%q], every number is one. *)
Fixpoint wf_json (j : json) : bool :=
  match j with
  | JNull | JBool _ => true
  | JNum t => is_number t
  | JStr s => json_safe s
  | JArr l => forallb wf_json l
  | JObj m => forallb (λ kv, json_safe kv.1 && wf_json kv.2) m
  end.
End render.

(** ** Lemmas *)

(** Induction over a tree, the sub-trees of arrays and objects included. *)
Lemma json_nested_ind (P : json → Prop) :
  P JNull → (∀ b, P (JBool b)) → (∀ t, P (JNum t)) → (∀ s, P (JStr s)) →
  (∀ l, Forall P l → P (JArr l)) → (∀ m, Forall (λ kv, P kv.2) m → P (JObj m)) →
  ∀ j, P j.
Proof.
  intros Hn Hb Hnum Hs Ha Ho. fix go 1. intros [|b|t|s|l|m]; [done|auto..| |].
  - apply Ha. induction l as [|x l IH]; constructor; [apply go|apply IH].
  - apply Ho. induction m as [|[k x] m IH]; constructor; [apply go|apply IH].
Qed.

Lemma span_app p a t :
  forallb p a = true → (∀ c, head t = Some c → p c = false) → span p (a ++ t) = (a, t).
Proof.
  intros Ha Ht. induction a as [|c a IH]; simpl in *.
  - destruct t as [|c t]; [done|]. simpl. by rewrite (Ht c).
  - apply andb_true_iff in Ha as [-> Ha]. by rewrite IH.
Qed.

Lemma span_spec p s a t : span p s = (a, t) → s = a ++ t ∧ forallb p a = true.
Proof.
  revert a t. induction s as [|c s IH]; intros a t H; simpl in H; [by simplify_eq|].
  destruct (p c) eqn:Hp; [|by simplify_eq].
  destruct (span p s) as [a' t'] eqn:E. simplify_eq. destruct (IH _ _ eq_refl) as [-> Ha].
  simpl. by rewrite Hp, Ha.
Qed.

(** *** The characters of a number *)

Lemma dec_num_char c : is_dec c = true → is_num_char c = true.
Proof. unfold is_num_char. by intros ->. Qed.
Lemma decs_num_char s : forallb is_dec s = true → forallb is_num_char s = true.
Proof. rewrite !forallb_forall. intros H c Hc. apply dec_num_char. auto. Qed.

Lemma existsb_eqb_In c l : existsb (Ascii.eqb c) l = true ↔ In c l.
Proof.
  rewrite existsb_exists. split; [by intros (d & Hd & ->%Ascii.eqb_eq)|].
  intros Hc. exists c. by rewrite Ascii.eqb_refl.
Qed.

Lemma exp_chars s : is_exp s = true → forallb is_num_char s = true.
Proof.
  destruct s as [|e s]; [done|]. unfold is_exp. rewrite andb_true_iff. intros [He Hs].
  assert (is_num_char e = true) as He'.
  { apply existsb_eqb_In in He. destruct He as [<-|[<-|[]]]; reflexivity. }
  cbn [forallb]. rewrite He'. clear He He'.
  destruct s as [|c [|d s]]; [done| |].
  - cbn [forallb]. by rewrite dec_num_char.
  - destruct (existsb (Ascii.eqb c) (B "+-")) eqn:Hc; [|by apply decs_num_char].
    assert (is_num_char c = true) as Hc'.
    { apply existsb_eqb_In in Hc. destruct Hc as [<-|[<-|[]]]; reflexivity. }
    cbn [drop] in Hs. cbn [forallb]. rewrite Hc'. by apply (decs_num_char (d :: s)).
Qed.

Lemma frac_exp_chars s : is_frac_exp s = true → forallb is_num_char s = true.
Proof.
  destruct s as [|c s]; [done|]. unfold is_frac_exp. 
  destruct (Ascii.eqb_spec c ".") as [->|Hc].
  - destruct (span is_dec s) as [d r] eqn:E. apply span_spec in E as [-> Hd].
    rewrite andb_true_iff. intros [_ Hr%exp_chars]. change (forallb is_num_char (d ++ r) = true).
    rewrite forallb_app, Hr. by rewrite decs_num_char.
  - intros H. apply exp_chars. revert H. destruct c as [[] [] [] [] [] [] [] []]; try done.
Qed.

Lemma unsigned_chars s :
  is_unsigned s = true → forallb is_num_char s = true ∧ ∃ c, head s = Some c ∧ is_dec c = true.
Proof.
  unfold is_unsigned. destruct (span is_dec s) as [d r] eqn:E. apply span_spec in E as [-> Hd].
  destruct d as [|c d]; [done|]. intros H.
  assert (is_frac_exp r = true) as Hr.
  { destruct c as [[] [] [] [] [] [] [] []], d; done. }
  rewrite forallb_app, (frac_exp_chars r Hr), decs_num_char by done. split; [done|].
  exists c. simpl in *. by apply andb_true_iff in Hd as [-> _].
Qed.

Lemma number_chars s :
  is_number s = true →
  forallb is_num_char s = true ∧
  ∃ c, head s = Some c ∧ (c = "-"%char ∨ is_dec c = true).
Proof.
  destruct s as [|c s]; [done|]. unfold is_number.
  destruct (Ascii.eqb_spec c "-") as [->|Hc].
  - intros [Hs _]%unsigned_chars. cbn [forallb]. rewrite Hs. eauto.
  - intros H. destruct (unsigned_chars (c :: s)) as (Hs & d & Hd & Hdd).
    { revert H. destruct c as [[] [] [] [] [] [] [] []]; done. }
    split; [done|]. eauto.
Qed.

(** *** Tokens *)

Lemma skip_ws_cons c s : is_ws c = false → skip_ws (c :: s) = c :: s.
Proof. intros H. unfold skip_ws. simpl. by rewrite H. Qed.
Lemma expect_cons c d s : is_ws d = false → expect c (d :: s) = if Ascii.eqb d c then Some s else None.
Proof. intros H. unfold expect. by rewrite skip_ws_cons. Qed.

(** A text that does not continue a number. *)
Definition ends (t : bytes) : Prop := ∀ c, head t = Some c → is_num_char c = false.

Section round_trip.
Context `{U : Unicode}.

Lemma array_app l t : array l ++ t = "["%char :: Join l (B ",") ++ "]"%char :: t.
Proof. unfold array. rewrite <- !app_assoc. reflexivity. Qed.
Lemma object_app m t : object m ++ t = "{"%char :: Join (member <$> m) (B ",") ++ "}"%char :: t.
Proof. unfold object. rewrite <- !app_assoc. reflexivity. Qed.
Lemma member_app kv t : member kv ++ t = Quote kv.1 ++ ":"%char :: kv.2 ++ t.
Proof. unfold member. rewrite <- !app_assoc. reflexivity. Qed.
Lemma Join_cons2 (x y : bytes) l :
  Join (x :: y :: l) (B ",") = x ++ ","%char :: Join (y :: l) (B ",").
Proof. reflexivity. Qed.

(** The first character of a value. *)
Definition starts (c : byte) : bool :=
  negb (is_ws c) && negb (existsb (Ascii.eqb c) (B "]}")).

Lemma number_starts c : c = "-"%char ∨ is_dec c = true →
  starts c = true ∧ Ascii.eqb c "[" = false ∧ Ascii.eqb c "{" = false ∧
  Ascii.eqb c dquote = false ∧ Ascii.eqb c "n" = false ∧ Ascii.eqb c "t" = false ∧
  Ascii.eqb c "f" = false.
Proof.
  intros [->|H]; [by split_and!|].
  destruct c as [[] [] [] [] [] [] [] []]; try discriminate H; by split_and!.
Qed.

Lemma render_starts j :
  wf_json j = true → ∃ c r, render j = c :: r ∧ starts c = true.
Proof.
  destruct j as [|[]|t|s|l|m]; intros Hj; try (eexists _, _; split; [reflexivity|reflexivity]).
  destruct (number_chars t Hj) as (_ & c & Hc & Hcc). destruct t as [|d t]; [done|].
  simplify_eq/=. exists c, t. split; [done|]. by apply number_starts.
Qed.

Lemma render_nonempty j : wf_json j = true → 1 ≤ length (render j).
Proof. intros (c & r & -> & _)%render_starts. simpl. lia. Qed.

Lemma expect_render c j t :
  wf_json j = true → In c (B "]}") → expect c (render j ++ t) = None.
Proof.
  intros (d & r & -> & Hd)%render_starts Hc. unfold starts in Hd.
  apply andb_true_iff in Hd as [Hw Hd]. apply negb_true_iff in Hw, Hd.
  simpl. rewrite expect_cons by done. destruct (Ascii.eqb_spec d c) as [->|]; [|done].
  apply existsb_eqb_In in Hc. congruence.
Qed.

Lemma parse_string_Quote s t :
  json_safe s = true → parse_string (Quote s ++ t) = Some (s, t).
Proof.
  intros Hs. rewrite Quote_cons. unfold parse_string.
  change (expect dquote (dquote :: ?x)) with (Some x). simpl. by apply unquote_Quote.
Qed.

Lemma literal_number t r :
  is_number t = true → ends r → literal (t ++ r) = Some (JNum t, r).
Proof.
  intros Ht Hr. destruct (number_chars t Ht) as (Hc & c & Hh & Hs%number_starts).
  destruct t as [|d t]; [done|]. injection Hh as ->.
  cbn [app]. unfold literal. change (B "null") with ("n" :: B "ull")%char.
  change (B "true") with ("t" :: B "rue")%char. change (B "false") with ("f" :: B "alse")%char.
  destruct Hs as (_ & _ & _ & _ & H1 & H2 & H3). cbn [HasPrefix]. rewrite H1, H2, H3. simpl andb.
  cbv iota. change (c :: t ++ r) with ((c :: t) ++ r).
  rewrite (span_app is_num_char (c :: t)) by done. by rewrite Ht.
Qed.

Definition parses (j : json) : Prop :=
  ∀ n t, wf_json j = true → length (render j) ≤ n → ends t →
    parse_value n (render j ++ t) = Some (j, t).

Lemma ends_cons c t : is_num_char c = false → ends (c :: t).
Proof. intros H d [= <-]. done. Qed.

Lemma parse_elems_render x l n t :
  Forall parses (x :: l) → forallb wf_json (x :: l) = true →
  length (Join (render <$> x :: l) (B ",")) < n →
  parse_elems n (Join (render <$> x :: l) (B ",") ++ "]"%char :: t) = Some (x :: l, t).
Proof.
  revert x n. induction l as [|y l IH]; intros x n Hp Hw Hn;
    (destruct n as [|n]; [lia|]); apply Forall_cons in Hp as [Hx Hp];
    cbn [forallb] in Hw; apply andb_true_iff in Hw as [Hwx Hw]; cbn [parse_elems].
  - change (Join (render <$> [x]) (B ",")) with (render x) in *.
    rewrite Hx by (done || lia || by apply ends_cons). reflexivity.
  - change (render <$> x :: y :: l) with (render x :: render y :: (render <$> l)) in *.
    rewrite Join_cons2 in *. rewrite length_app in Hn. cbn [length] in Hn.
    rewrite <- app_assoc. cbn [app]. rewrite Hx by (done || lia || by apply ends_cons).
    cbn [mbind option_bind fst snd]. rewrite expect_cons by reflexivity.
    change (Ascii.eqb "," ",") with true. cbv iota.
    change (render y :: (render <$> l)) with (render <$> y :: l) in *.
    rewrite IH by (done || lia). reflexivity.
Qed.

(** The members of an object, as [render] writes them. *)
Definition texts (m : list (bytes * json)) : list bytes :=
  member <$> ((λ kv, (kv.1, render kv.2)) <$> m).

Lemma parse_members_render kv m n t :
  Forall (λ kv, parses kv.2) (kv :: m) →
  forallb (λ kv, json_safe kv.1 && wf_json kv.2) (kv :: m) = true →
  length (Join (texts (kv :: m)) (B ",")) < n →
  parse_members n (Join (texts (kv :: m)) (B ",") ++ "}"%char :: t) = Some (kv :: m, t).
Proof.
  revert kv n. induction m as [|kv' m IH]; intros [k x] n Hp Hw Hn;
    (destruct n as [|n]; [lia|]); apply Forall_cons in Hp as [Hx Hp];
    cbn [forallb fst snd] in Hw; apply andb_true_iff in Hw as [[Hk Hwx]%andb_true_iff Hw];
    cbn [parse_members snd] in *.
  - change (Join (texts [(k, x)]) (B ",")) with (member (k, render x)) in *.
    assert (length (render x) ≤ n).
    { revert Hn. unfold member. rewrite !length_app. cbn [fst snd]. lia. }
    rewrite member_app. cbn [fst snd]. rewrite parse_string_Quote by done.
    cbn [mbind option_bind fst snd]. rewrite expect_cons by reflexivity.
    change (Ascii.eqb ":" ":") with true. cbv iota. cbn [mbind option_bind fst snd].
    rewrite Hx by (done || by apply ends_cons). reflexivity.
  - change (texts ((k, x) :: kv' :: m))
      with (member (k, render x) :: member (kv'.1, render kv'.2) :: texts m) in *.
    rewrite Join_cons2 in *. rewrite length_app in Hn. cbn [length] in Hn.
    assert (length (render x) ≤ n).
    { revert Hn. unfold member at 1. rewrite !length_app. cbn [fst snd]. lia. }
    rewrite <- app_assoc. cbn [app]. rewrite member_app. cbn [fst snd].
    rewrite parse_string_Quote by done.
    cbn [mbind option_bind fst snd]. rewrite expect_cons by reflexivity.
    change (Ascii.eqb ":" ":") with true. cbv iota. cbn [mbind option_bind fst snd].
    rewrite Hx by (done || by apply ends_cons).
    cbn [mbind option_bind fst snd]. rewrite expect_cons by reflexivity.
    change (Ascii.eqb "," ",") with true. cbv iota.
    change (member (kv'.1, render kv'.2) :: texts m) with (texts (kv' :: m)) in *.
    rewrite IH by (done || lia). reflexivity.
Qed.

Lemma expect_members c kv m t :
  In c (B "]}") → expect c (Join (texts (kv :: m)) (B ",") ++ t) = None.
Proof.
  intros Hc. assert (∃ r, Join (texts (kv :: m)) (B ",") ++ t = dquote :: r) as [r ->].
  { destruct m as [|kv' m].
    - change (Join (texts [kv]) (B ",")) with (member (kv.1, render kv.2)).
      rewrite member_app, Quote_cons. eauto.
    - change (texts (kv :: kv' :: m)) with
        (member (kv.1, render kv.2) :: member (kv'.1, render kv'.2) :: texts m).
      rewrite Join_cons2, <- app_assoc, member_app, Quote_cons. eauto. }
  rewrite expect_cons by done. destruct Hc as [<-|[<-|[]]]; reflexivity.
Qed.

Lemma parse_value_render j : parses j.
Proof.
  induction j as [|b|t0|s|l IH|m IH] using json_nested_ind; intros n t Hw Hn Ht;
    (destruct n as [|n]; [apply render_nonempty in Hw; lia|]).
  - reflexivity.
  - by destruct b.
  - cbn [render wf_json] in *. destruct (number_chars t0 Hw) as (_ & c & Hh & Hs%number_starts).
    destruct t0 as [|d t0]; [done|]. injection Hh as ->.
    destruct Hs as (Hs & H1 & H2 & H3 & _).
    apply andb_true_iff in Hs as [Hs _]. apply negb_true_iff in Hs.
    cbn [parse_value app]. rewrite !expect_cons, H1, H2, H3, skip_ws_cons by done.
    by apply (literal_number (c :: t0)).
  - cbn [render wf_json] in *. rewrite Quote_cons. cbn [parse_value].
    rewrite !expect_cons by reflexivity.
    change (Ascii.eqb dquote "[") with false. change (Ascii.eqb dquote "{") with false.
    change (Ascii.eqb dquote dquote) with true. cbv iota. by rewrite unquote_Quote.
  - cbn [render wf_json] in *. rewrite array_app. cbn [parse_value].
    rewrite expect_cons by reflexivity. change (Ascii.eqb "[" "[") with true. cbv iota.
    destruct l as [|x l]; [reflexivity|].
    assert (expect "]" (Join (render <$> x :: l) (B ",") ++ "]"%char :: t) = None) as ->.
    { cbn [forallb] in Hw. apply andb_true_iff in Hw as [Hx _].
      destruct l as [|y l]; [apply (expect_render _ x); [done|by left]|].
      change (render <$> x :: y :: l) with (render x :: render y :: (render <$> l)).
      rewrite Join_cons2, <- app_assoc. apply expect_render; [done|by left]. }
    revert Hn. unfold array. rewrite !length_app. change (length (B "[")) with 1.
    change (length (B "]")) with 1. intros Hn.
    rewrite parse_elems_render by (done || lia). reflexivity.
  - cbn [render wf_json] in *. rewrite object_app. cbn [parse_value].
    rewrite !expect_cons by reflexivity. change (Ascii.eqb "{" "[") with false.
    change (Ascii.eqb "{" "{") with true. cbv iota.
    destruct m as [|kv m]; [reflexivity|].
    change (member <$> ((λ kv, (kv.1, render kv.2)) <$> kv :: m)) with (texts (kv :: m)).
    rewrite expect_members by (right; by left).
    revert Hn. unfold object. rewrite !length_app. change (length (B "{")) with 1.
    change (length (B "}")) with 1.
    change (member <$> ((λ kv, (kv.1, render kv.2)) <$> kv :: m)) with (texts (kv :: m)). intros Hn.
    rewrite parse_members_render by (done || lia). reflexivity.
Qed.

(** The text of a document denotes it. *)
Lemma parse_render j : wf_json j = true → parse_json (render j) = Some j.
Proof.
  intros Hj. unfold parse_json. rewrite <- (app_nil_r (render j)) at 2.
  rewrite parse_value_render; [done|done|lia|by intros c].
Qed.
End round_trip.
