(* ===== verification/OpenApi.v ===== *)
(** * OpenAPI generation ([openapi/generator.go])

    The generator walks Go types by reflection and writes JSON text. A [reflect.Type]
    is a pointer to a run-time descriptor: here a [tid], and [types] maps it to its
    descriptor, so that types may refer to each other and to themselves as Go types do.
    The walk follows the types and may not end: the functions carry fuel, [None] is a
    walk that did not finish (in Go, a stack overflow). *)

From S2P Require Import Prelude GoStrings Quote Json.

(** ** Types and values, as [reflect] shows them *)

Definition tid := nat.

(** [reflect.StructField] with the tags the generator reads. *)
Record sfield := mkSField {
  sf_Name : bytes;
  sf_Type : tid;
  sf_Anonymous : bool;
  tag_header : bytes;
  tag_query : bytes;
  tag_param : bytes;
  tag_json : bytes;
  tag_validate : bytes;
  tag_desc : bytes;
}.

(** [TOther]: the kinds the generator has no case for (unsigned integers, arrays,
    interfaces, channels, functions, complex numbers). *)
Inductive rtype :=
  | TString (Name : bytes)
  | TBool
  | TInt
  | TFloat
  | TPtr (Elem : tid)
  | TSlice (Elem : tid)
  | TMap (string_key : bool) (Elem : tid)
  | TStruct (Fields : list sfield)
  | TOther.

(** A [float64] and the text [%g] gives it. *)
Class GoFloat := {
  float : Type;
  fzero : float;
  fmt_g : float → bytes;
}.

(** [GZero] is the zero value [reflect.New(t).Elem()]; a map is the list of its
    entries in the order it is ranged over. *)
Inductive gvalue `{GoFloat} :=
  | GZero
  | GString (s : bytes)
  | GBool (b : bool)
  | GInt (n : Z)
  | GFloat (f : float)
  | GPtr (p : option gvalue)
  | GMap (m : list (bytes * gvalue))
  | GStruct (l : list gvalue)
  | GOther.

Section values.
Context `{GoFloat}.

(** [v.Field(i)], [v.Elem()], [v.String()], [v.Bool()], [v.Int()], [v.Float()] *)
Definition v_Field (v : gvalue) (i : nat) : gvalue :=
  match v with GStruct l => nth i l GZero | _ => GZero end.
Definition v_String (v : gvalue) : bytes := match v with GString s => s | _ => [] end.
Definition v_Bool (v : gvalue) : bool := match v with GBool b => b | _ => false end.
Definition v_Int (v : gvalue) : Z := match v with GInt n => n | _ => 0%Z end.
Definition v_Float (v : gvalue) : float := match v with GFloat f => f | _ => fzero end.
Definition v_entries (v : gvalue) : list (bytes * gvalue) :=
  match v with GMap m => m | _ => [] end.
End values.

(** [for i, x := range l { acc = f(i, x, acc) }] where a step may not return. *)
Section loop.
Context {X A : Type} (f : nat → X → A → option A).

Fixpoint loop (i : nat) (l : list X) (a : A) : option A :=
  match l with
  | [] => Some a
  | x :: l => match f i x a with Some a => loop (S i) l a | None => None end
  end.
End loop.

(** ** Tags and names *)

Definition nonempty (s : bytes) : bool := match s with [] => false | _ => true end.

(** [strings.Split(s, ",")[0]] *)
Definition before_comma (s : bytes) : bytes :=
  match Split s "," with x :: _ => x | [] => [] end.
Definition jsonName (f : sfield) : bytes :=
  match tag_json f with [] => sf_Name f | t => before_comma t end.
(** Fields that are request metadata, and fields [json] leaves out. *)
Definition is_meta (f : sfield) : bool :=
  nonempty (tag_header f) || nonempty (tag_query f) || nonempty (tag_param f).
Definition is_required (f : sfield) : bool := Contains (tag_validate f) (B "required").

Definition exampleStringFor (name : bytes) : bytes :=
  if beqb name (B "email") then B "user@example.com"
  else if beqb name (B "name") then B "kurosaki ichigo"
  else if beqb name (B "password") then B "••••••••"
  else if beqb name (B "phone") then B "+66812345678"
  else if beqb name (B "url") || beqb name (B "image") || beqb name (B "avatar")
       then B "https://example.com/image.png"
  else if beqb name (B "token") then B "eyJhbGciOiJIUzI1NiIsInR5cCI6IkpXVCJ9..."
  else B "string".

(** [SecurityScheme] *)
Definition SecurityNone : bytes := [].
Definition SecurityBearer : bytes := B "bearer".
Definition SecurityAPIKey : bytes := B "apikey".
Definition SecurityBasic : bytes := B "basic".

Definition buildSecuritySchemes (s : bytes) : bytes :=
  if beqb s SecurityBearer then Q "'bearer':{'type':'http','scheme':'bearer','bearerFormat':'JWT'}"
  else if beqb s SecurityAPIKey then Q "'apikey':{'type':'apiKey','in':'header','name':'X-API-Key'}"
  else if beqb s SecurityBasic then Q "'basic':{'type':'http','scheme':'basic'}"
  else [].

(** ** Paths *)

(** The name in a segment that is a parameter or a catch-all. *)
Definition segment_param (p : bytes) : option bytes :=
  if HasPrefix p (B ":") then Some (drop 1 p)
  else if HasPrefix p (B "*") then Some (drop 1 p)
  else None.

Definition extractPathParams (path : bytes) : list bytes :=
  omap segment_param (Split path "/").
Definition toOpenAPIPath (path : bytes) : bytes :=
  Join ((λ p, match segment_param p with Some x => B "{" ++ x ++ B "}" | None => p end)
          <$> Split path "/") (B "/").

(** ** The documentation page *)

Definition ScalarHTML (pageTitle specURL : bytes) (darkMode : bool) (jsURL : bytes) : bytes :=
  let jsURL := match jsURL with
               | [] => B "https://cdn.jsdelivr.net/npm/@scalar/api-reference@latest/dist/browser/standalone.js"
               | u => u
               end in
  let cssURL := Replace1 jsURL (B ".js") (B ".css") in
  let darkConfig := if darkMode then B " data-configuration='" ++ Q "{'darkMode':true}" ++ B "'"
                    else [] in
  Q "<!doctype html>
<html>
  <head>
    <title>" ++ pageTitle ++ Q "</title>
    <meta charset='utf-8' />
    <meta name='viewport' content='width=device-width, initial-scale=1' />
    <link rel='stylesheet' href='" ++ cssURL ++ Q "' />
  </head>
  <body>
    <script id='api-reference' data-url='" ++ specURL ++ Q "'" ++ darkConfig ++ Q "></script>
    <script src='" ++ jsURL ++ Q "'></script>
  </body>
</html>".

Section generator.
Context `{U : Unicode} `{Fl : GoFloat} (types : tid → rtype).

(** ** Models *)

(** Appended-to slices of [reflectStructRecursive]: the members of the schema and of
    the example, the required names. *)
Record props := mkProps {
  schemaProps : list bytes;
  exampleProps : list bytes;
  required : list bytes;
}.

(** [reflectStruct] once its fields are collected. *)
Definition reflectStruct (ps : props) : bytes * bytes :=
  let req := match required ps with
             | [] => []
             | r => Q ",'required':[" ++ Join r (B ",") ++ B "]"
             end in
  (Q "{'type':'object','properties':{" ++ Join (schemaProps ps) (B ",") ++ B "}" ++ req ++ B "}",
   B "{" ++ Join (exampleProps ps) (B ",") ++ B "}").

(** [if t.Kind() == reflect.Ptr { t = t.Elem(); v = v.Elem() or a new zero value }] *)
Definition indirect (t : tid) (v : gvalue) : tid * gvalue :=
  match types t with
  | TPtr e => (e, match v with GPtr (Some w) => w | _ => GZero end)
  | _ => (t, v)
  end.

(** [field.Anonymous && field.Type.Kind() == reflect.Struct]: the fields embedded. *)
Definition embedded (f : sfield) : option (list sfield) :=
  if sf_Anonymous f then match types (sf_Type f) with TStruct fields => Some fields | _ => None end
  else None.

Definition fmt_bool (b : bool) : bytes := if b then B "true" else B "false".

(** The schema and the example of a field; [reflectStructRecursive] on the fields of
    a struct. *)
Fixpoint reflectField (n : nat) (t : tid) (v : gvalue) (desc : bytes) : option (bytes * bytes) :=
  match n with
  | 0 => None
  | S n =>
      let '(t, v) := indirect t v in
      let descPart := match desc with [] => [] | _ => Q ",'description':" ++ Quote desc end in
      match types t with
      | TString name =>
          let val := match v_String v with
                     | [] => exampleStringFor (ToLower name)
                     | s => s
                     end in
          Some (Q "{'type':'string'" ++ descPart ++ B "}", Quote val)
      | TBool => Some (Q "{'type':'boolean'" ++ descPart ++ B "}", fmt_bool (v_Bool v))
      | TInt => Some (Q "{'type':'integer'" ++ descPart ++ B "}", format_int (v_Int v))
      | TFloat => Some (Q "{'type':'number'" ++ descPart ++ B "}", fmt_g (v_Float v))
      | TSlice itemT =>
          item ← reflectField n itemT GZero [];
          Some (Q "{'type':'array','items':" ++ item.1 ++ descPart ++ B "}",
                B "[" ++ item.2 ++ B "]")
      | TStruct fields => reflectStruct <$> reflectStructRecursive n fields v (mkProps [] [] [])
      | TMap string_key itemT =>
          item ← reflectField n itemT GZero [];
          let schema := Q "{'type':'object','additionalProperties':" ++ item.1 ++ descPart ++ B "}" in
          match v_entries v with
          | [] => Some (schema, Q "{'key':" ++ item.2 ++ B "}")
          | m =>
              parts ← loop (λ _ kv parts,
                        if string_key then
                          x ← reflectField n itemT kv.2 [];
                          Some (parts ++ [Quote kv.1 ++ B ":" ++ x.2])
                        else Some parts) 0 m [];
              Some (schema, B "{" ++ Join parts (B ",") ++ B "}")
          end
      | TPtr _ | TOther => Some (Q "{'type':'string'" ++ descPart ++ B "}", Q "''")
      end
  end
with reflectStructRecursive (n : nat) (fields : list sfield) (v : gvalue) (ps : props) : option props :=
  match n with
  | 0 => None
  | S n =>
      loop (λ i field ps,
        let fv := v_Field v i in
        match embedded field with
        | Some fields => reflectStructRecursive n fields fv ps
        | None =>
            if is_meta field then Some ps
            else
              let jsonName := jsonName field in
              if beqb jsonName (B "-") then Some ps
              else
                let required := if is_required field then required ps ++ [Quote jsonName]
                                else required ps in
                x ← reflectField n (sf_Type field) fv (tag_desc field);
                Some (mkProps (schemaProps ps ++ [Quote jsonName ++ B ":" ++ x.1])
                              (exampleProps ps ++ [Quote jsonName ++ B ":" ++ x.2])
                              required)
        end) 0 fields ps
  end.

(** A model is the dynamic type and value of an [any]; [None] is [nil]. *)
Definition model := option (tid * gvalue).

Definition reflectModel (n : nat) (m : model) : option (bytes * bytes) :=
  match m with
  | None => Some (Q "{'type':'object'}", B "{}")
  | Some (t, v) => reflectField n t v []
  end.

(** ** Header and query parameters *)

Definition param_text (name : bytes) (place : bytes) (required : bool) (desc : bytes) : bytes :=
  Q "{'name':" ++ Quote name ++ Q ",'in':'" ++ place ++ Q "','required':" ++ fmt_bool required ++
  Q ",'description':" ++ Quote desc ++ Q ",'schema':{'type':'string'}}".

Definition header_params (f : sfield) : list bytes :=
  match tag_header f with
  | [] => []
  | h => [param_text h (B "header") (is_required f)
            (match tag_desc f with [] => h ++ B " header" | d => d end)]
  end.
Definition query_params (f : sfield) : list bytes :=
  match tag_query f with
  | [] => []
  | q => [param_text q (B "query") (is_required f)
            (match tag_desc f with [] => q ++ B " parameter" | d => d end)]
  end.

(** A skipped header ends the iteration, its query tag included. *)
Fixpoint reflectHeaderParamsRecursive (n : nat) (fields : list sfield) (skip : list bytes)
    (params : list bytes) : option (list bytes) :=
  match n with
  | 0 => None
  | S n =>
      loop (λ _ field params,
        match embedded field with
        | Some fields => reflectHeaderParamsRecursive n fields skip params
        | None =>
            if nonempty (tag_header field) && existsb (beqb (tag_header field)) skip
            then Some params
            else Some (params ++ header_params field ++ query_params field)
        end) 0 fields params
  end.

Definition elem_if (elem : rtype → option tid) (t : tid) : tid := default t (elem (types t)).
Definition ptr_elem (k : rtype) : option tid := match k with TPtr e => Some e | _ => None end.
Definition slice_elem (k : rtype) : option tid := match k with TSlice e => Some e | _ => None end.

Definition reflectHeaderParams (n : nat) (m : model) (skip : list bytes) : option bytes :=
  match m with
  | None => Some []
  | Some (t, _) =>
      let t := elem_if ptr_elem t in
      let t := match types t with TSlice e => elem_if ptr_elem e | _ => t end in
      match types t with
      | TStruct fields =>
          params ← reflectHeaderParamsRecursive n fields skip [];
          Some (Join params (B ","))
      | _ => Some []
      end
  end.

(** ** The document *)

(** [type RouteInfo struct] of this package. *)
Record RouteDoc := mkRouteDoc {
  rd_Method : bytes;
  rd_Path : bytes;
  rd_Summary : bytes;
  rd_Tags : list bytes;
  rd_ResponseModel : model;
  rd_RequestModel : model;
  rd_NoAuth : bool;
  rd_HideDoc : bool;
  rd_ContentType : bytes;
}.

Definition responses_text (n : nat) (r : RouteDoc) : option bytes :=
  match rd_ResponseModel r with
  | Some _ =>
      x ← reflectModel n (rd_ResponseModel r);
      Some (Q "'responses':{'200':{'description':'OK','content':{'application/json':{'schema':" ++
            x.1 ++ Q ",'example':" ++ x.2 ++ Q "}}}}")
  | None => Some (Q "'responses':{'200':{'description':'OK'}}")
  end.

Definition skipHeaders (security : bytes) : list bytes :=
  (if beqb security SecurityBearer || beqb security SecurityBasic then [B "Authorization"] else []) ++
  (if beqb security SecurityAPIKey then [B "X-API-Key"] else []).

(** [requestBlock] and the parameters of the request model. *)
Definition request_text (n : nat) (security : bytes) (r : RouteDoc) : option (bytes * bytes) :=
  match rd_RequestModel r with
  | Some _ =>
      x ← reflectModel n (rd_RequestModel r);
      let contentType := match rd_ContentType r with [] => B "application/json" | c => c end in
      ps ← reflectHeaderParams n (rd_RequestModel r) (skipHeaders security);
      Some (Q ",'requestBody':{'required':true,'content':{" ++ Quote contentType ++
            Q ":{'schema':" ++ x.1 ++ Q ",'example':" ++ x.2 ++ Q "}}}", ps)
  | None => Some ([], [])
  end.

(** [for _, param := range pathParams { .. }] *)
Definition add_path_params (pathParams : list bytes) (parametersBlock : bytes) : bytes :=
  fold_left (λ parametersBlock param,
    let pathParam := param_text param (B "path") true (param ++ B " path parameter") in
    match parametersBlock with
    | [] => pathParam
    | _ => parametersBlock ++ B "," ++ pathParam
    end) pathParams parametersBlock.

Definition tags_text (tags : list bytes) : bytes :=
  match tags with
  | [] => Q "['default']"
  | _ => B "[" ++ Join ((λ t, Q "'" ++ t ++ Q "'") <$> tags) (B ",") ++ B "]"
  end.

(** The body of the loop over the routes: one operation. *)
Definition operation (n : nat) (security : bytes) (r : RouteDoc) : option bytes :=
  responsesBlock ← responses_text n r;
  let securityReq :=
    if rd_NoAuth r then Q ",'security':[]"
    else match security with [] => [] | _ => Q ",'security':[{'" ++ security ++ Q "':[]}]" end in
  request ← request_text n security r;
  let parametersBlock := add_path_params (extractPathParams (rd_Path r)) request.2 in
  let parametersBlock := match parametersBlock with
                         | [] => []
                         | p => Q ",'parameters':[" ++ p ++ B "]"
                         end in
  let summary := match rd_Summary r with
                 | [] => ToUpper (rd_Method r) ++ B " " ++ rd_Path r
                 | s => s
                 end in
  Some (Quote (ToLower (rd_Method r)) ++ Q ":{'summary':" ++ Quote summary ++ Q ",'tags':" ++
        tags_text (rd_Tags r) ++ parametersBlock ++ B "," ++ responsesBlock ++ request.1 ++
        securityReq ++ B "}").

(** [order] and [grouped]: the paths in the order they first appear, and the
    operations of each. *)
Definition add_operation (openapiPath op : bytes) (g : list bytes * gmap bytes (list bytes))
  : list bytes * gmap bytes (list bytes) :=
  let '(order, grouped) := g in
  (match grouped !! openapiPath with
   | Some _ => order
   | None => order ++ [openapiPath]
   end,
   <[openapiPath := default [] (grouped !! openapiPath) ++ [op]]> grouped).

Definition GenerateSchema (n : nat) (title description : bytes) (routes : list RouteDoc)
    (security : bytes) : option bytes :=
  g ← loop (λ _ r g,
        op ← operation n security r;
        Some (add_operation (toOpenAPIPath (rd_Path r)) op g)) 0 routes ([], ∅);
  let '(order, grouped) := g in
  let pathItems := (λ path, Quote path ++ B ":{" ++ Join (default [] (grouped !! path)) (B ",") ++
                            B "}") <$> order in
  let securitySchemes := buildSecuritySchemes security in
  let components := match securitySchemes with
                    | [] => []
                    | s => Q ",'components':{'securitySchemes':{" ++ s ++ B "}}"
                    end in
  let desc := match description with [] => [] | _ => Q ",'description':" ++ Quote description end in
  Some (Q "{
  'openapi':'3.0.0',
  'info':{'title':" ++ Quote title ++ desc ++ Q ",'version':'1.0.0'},
  'paths':{" ++ Join pathItems (B ",") ++ B "}" ++ components ++ Q "
}").
End generator.
