(* ===== verification/OpenApiTheory.v ===== *)
(** * The documents behind the generated text

    [fieldDoc] and [structDoc] are [reflectField] and [reflectStructRecursive] with
    JSON trees where the code has text: the code's texts are the printed trees
    ([reflectField_render]). On trees one can say what the generator promises: the
    trees print as valid JSON ([wf_json]), and the example conforms to the schema
    ([Conforms], the fragment of JSON Schema the generator emits). *)

From S2P Require Import Prelude GoStrings Quote Json OpenApi.

(** ** JSON Schema *)

(** The member a reader sees: the last one of that name. *)
Definition lookup_last (k : bytes) (m : list (bytes * json)) : option json :=
  fold_left (λ r kv, if beqb kv.1 k then Some kv.2 else r) m None.

Definition has_type (m : list (bytes * json)) (t : bytes) : Prop :=
  lookup_last (B "type") m = Some (JStr t).

Definition is_integer (t : bytes) : bool :=
  is_number t && forallb (λ c, is_dec c || Ascii.eqb c "-") t.

Inductive Conforms : json → json → Prop :=
  | conf_string m s : has_type m (B "string") → Conforms (JObj m) (JStr s)
  | conf_boolean m b : has_type m (B "boolean") → Conforms (JObj m) (JBool b)
  | conf_integer m t :
      has_type m (B "integer") → is_integer t = true → Conforms (JObj m) (JNum t)
  | conf_number m t : has_type m (B "number") → Conforms (JObj m) (JNum t)
  | conf_array m item l :
      has_type m (B "array") → lookup_last (B "items") m = Some item →
      (∀ x, In x l → Conforms item x) → Conforms (JObj m) (JArr l)
  | conf_object m o :
      has_type m (B "object") →
      (∀ ps k s x, lookup_last (B "properties") m = Some (JObj ps) →
                   lookup_last k ps = Some s → lookup_last k o = Some x → Conforms s x) →
      (∀ l k, lookup_last (B "required") m = Some (JArr l) → In (JStr k) l →
              is_Some (lookup_last k o)) →
      (∀ s k x, lookup_last (B "additionalProperties") m = Some s →
                lookup_last k o = Some x → Conforms s x) →
      Conforms (JObj m) (JObj o).

(** ** Trees *)

Section documents.
Context `{U : Unicode} `{Fl : GoFloat} (types : tid → rtype).

Definition typed (t : bytes) : bytes * json := (B "type", JStr t).
Definition desc_member (desc : bytes) : list (bytes * json) :=
  match desc with [] => [] | _ => [(B "description", JStr desc)] end.

(** What [reflectStructRecursive] collects. *)
Record docs := mkDocs {
  d_schema : list (bytes * json);
  d_example : list (bytes * json);
  d_required : list bytes;
}.
Definition required_member (r : list bytes) : list (bytes * json) :=
  match r with [] => [] | _ => [(B "required", JArr (JStr <$> r))] end.
Definition struct_doc (ds : docs) : json * json :=
  (JObj ([typed (B "object"); (B "properties", JObj (d_schema ds))] ++
         required_member (d_required ds)),
   JObj (d_example ds)).

(** One unfolding of the two functions, the recursive calls as arguments. *)
Definition fieldDoc_step (field : tid → gvalue → bytes → option (json * json))
    (struct : list sfield → gvalue → docs → option docs)
    (t : tid) (v : gvalue) (desc : bytes) : option (json * json) :=
  let '(t, v) := indirect types t v in
  let scalar ty := JObj (typed ty :: desc_member desc) in
  match types t with
  | TString name =>
      Some (scalar (B "string"),
            JStr (match v_String v with [] => exampleStringFor (ToLower name) | s => s end))
  | TBool => Some (scalar (B "boolean"), JBool (v_Bool v))
  | TInt => Some (scalar (B "integer"), JNum (format_int (v_Int v)))
  | TFloat => Some (scalar (B "number"), JNum (fmt_g (v_Float v)))
  | TSlice e =>
      item ← field e GZero [];
      Some (JObj (typed (B "array") :: (B "items", item.1) :: desc_member desc),
            JArr [item.2])
  | TStruct fields => struct_doc <$> struct fields v (mkDocs [] [] [])
  | TMap string_key e =>
      item ← field e GZero [];
      let schema :=
        JObj (typed (B "object") :: (B "additionalProperties", item.1) :: desc_member desc) in
      match v_entries v with
      | [] => Some (schema, JObj [(B "key", item.2)])
      | m =>
          parts ← loop (λ _ kv parts,
                    if string_key then
                      x ← field e kv.2 []; Some (parts ++ [(kv.1, x.2)])
                    else Some parts) 0 m [];
          Some (schema, JObj parts)
      end
  | TPtr _ | TOther => Some (scalar (B "string"), JStr [])
  end.

Definition structDoc_step (field : tid → gvalue → bytes → option (json * json))
    (struct : list sfield → gvalue → docs → option docs)
    (fields : list sfield) (v : gvalue) (ds : docs) : option docs :=
  loop (λ i f ds,
    match embedded types f with
    | Some fields => struct fields (v_Field v i) ds
    | None =>
        if is_meta f then Some ds
        else if beqb (jsonName f) (B "-") then Some ds
        else
          x ← field (sf_Type f) (v_Field v i) (tag_desc f);
          Some (mkDocs (d_schema ds ++ [(jsonName f, x.1)])
                       (d_example ds ++ [(jsonName f, x.2)])
                       (if is_required f then d_required ds ++ [jsonName f]
                        else d_required ds))
    end) 0 fields ds.

Fixpoint fieldDoc (n : nat) : tid → gvalue → bytes → option (json * json) :=
  match n with
  | 0 => λ _ _ _, None
  | S n => fieldDoc_step (fieldDoc n) (structDoc n)
  end
with structDoc (n : nat) : list sfield → gvalue → docs → option docs :=
  match n with
  | 0 => λ _ _ _, None
  | S n => structDoc_step (fieldDoc n) (structDoc n)
  end.

Lemma fieldDoc_S n : fieldDoc (S n) = fieldDoc_step (fieldDoc n) (structDoc n).
Proof. reflexivity. Qed.
Lemma structDoc_S n : structDoc (S n) = structDoc_step (fieldDoc n) (structDoc n).
Proof. reflexivity. Qed.

Definition modelDoc (n : nat) (m : model) : option (json * json) :=
  match m with
  | None => Some (JObj [typed (B "object")], JObj [])
  | Some (t, v) => fieldDoc n t v []
  end.

(** ** The text of the generator is the printed tree *)

Definition texts2 (d : json * json) : bytes * bytes := (render d.1, render d.2).
Definition text_props (ds : docs) : props :=
  mkProps (texts (d_schema ds)) (texts (d_example ds)) (Quote <$> d_required ds).

Lemma loop_render {X A A'} (g : A' → A) (f : nat → X → A → option A) f' i l a :
  (∀ i x a, f i x (g a) = g <$> f' i x a) → loop f i l (g a) = g <$> loop f' i l a.
Proof.
  intros Hf. revert i a. induction l as [|x l IH]; intros i a; simpl; [done|].
  rewrite Hf. destruct (f' i x a); simpl; [apply IH|done].
Qed.

Lemma texts_snoc l k x : texts (l ++ [(k, x)]) = texts l ++ [Quote k ++ B ":" ++ render x].
Proof. unfold texts. by rewrite !fmap_app. Qed.

Lemma render_object m : render (JObj m) = B "{" ++ Join (texts m) (B ",") ++ B "}".
Proof. reflexivity. Qed.

Lemma render_strings l : render (JArr (JStr <$> l)) = B "[" ++ Join (Quote <$> l) (B ",") ++ B "]".
Proof. cbn [render]. unfold array. by rewrite <- list_fmap_compose. Qed.

Lemma texts_cons k x l : texts ((k, x) :: l) = (Quote k ++ B ":" ++ render x) :: texts l.
Proof. reflexivity. Qed.

End documents.

(** Unfolds the text of a tree whose members are known. *)
Ltac spell :=
  unfold typed, texts2; cbn [fst snd desc_member];
  repeat first [rewrite render_strings|rewrite render_object|rewrite texts_cons];
  change (texts []) with (@nil bytes); cbn [Join fst snd]; rewrite <- ?app_assoc; reflexivity.

Section rendering.
Context `{U : Unicode} `{Fl : GoFloat} (types : tid → rtype).

Lemma reflectStruct_render ds : reflectStruct (text_props ds) = texts2 (struct_doc ds).
Proof.
  unfold reflectStruct, struct_doc, texts2, text_props. cbn [schemaProps exampleProps OpenApi.required fst snd].
  f_equal. destruct (d_required ds) as [|r l].
  - unfold required_member. rewrite app_nil_r. spell.
  - unfold required_member. cbn [app]. 
    change (Quote <$> r :: l) with (Quote r :: (Quote <$> l)). cbv iota.
    change (Quote r :: (Quote <$> l)) with (Quote <$> r :: l). spell.
Qed.

Ltac pair_up := apply (f_equal Some), (f_equal2 pair).

(** The main simulation, for fields and for structs at once. *)
Lemma reflect_render n :
  (∀ t v desc, reflectField types n t v desc = texts2 <$> fieldDoc types n t v desc) ∧
  (∀ fields v ds, reflectStructRecursive types n fields v (text_props ds) =
                  text_props <$> structDoc types n fields v ds).
Proof.
  induction n as [|n [IHf IHs]]; [done|]. split.
  - intros t v desc. cbn [reflectField]. rewrite fieldDoc_S. unfold fieldDoc_step.
    destruct (indirect types t v) as [t' v'].
    destruct (types t') as [name| | | |e|e|sk e|fields|].
    + pair_up; [by destruct desc; spell|by destruct (v_String v')].
    + pair_up; [by destruct desc; spell|by destruct (v_Bool v')].
    + pair_up; [by destruct desc; spell|done].
    + pair_up; [by destruct desc; spell|done].
    + pair_up; [by destruct desc; spell|done].
    + rewrite IHf. destruct (fieldDoc types n e GZero []) as [[s x]|]; [|done].
      pair_up; [by destruct desc; spell|done].
    + rewrite IHf. destruct (fieldDoc types n e GZero []) as [[s x]|]; [|done]. cbn [mbind option_bind].
      destruct (v_entries v') as [|kv m]; [pair_up; [by destruct desc; spell|spell]|].
      change (@nil bytes) with (texts []) at 2.
      rewrite (loop_render texts _ (λ _ kv parts,
                 if sk then x ← fieldDoc types n e kv.2 []; Some (parts ++ [(kv.1, x.2)])
                 else Some parts)).
      * destruct (loop _ 0 (kv :: m) []) as [parts|]; [|done].
        pair_up; [by destruct desc; spell|spell].
      * intros _ kv' parts. destruct sk; [|done]. rewrite IHf.
        destruct (fieldDoc types n e kv'.2 []) as [[s' x']|]; [|done]. cbn [mbind option_bind fmap option_fmap option_map].
        by rewrite texts_snoc.
    + change (mkProps [] [] []) with (text_props (mkDocs [] [] [])). rewrite IHs.
      destruct (structDoc types n fields v' (mkDocs [] [] [])) as [ds|]; [|done].
      cbn [fmap option_fmap option_map]. by rewrite reflectStruct_render.
    + pair_up; [by destruct desc; spell|done].
  - intros fields v ds. cbn [reflectStructRecursive]. rewrite structDoc_S. unfold structDoc_step. apply loop_render.
    intros i f ds'.
    destruct (embedded types f); [apply IHs|].
    destruct (is_meta f); [done|]. destruct (beqb (jsonName f) (B "-")); [done|].
    rewrite IHf. destruct (fieldDoc types n (sf_Type f) (v_Field v i) (tag_desc f)) as [[s x]|]; [|done].
    cbn [mbind option_bind fmap option_fmap option_map fst snd]. unfold text_props.
    cbn [d_schema d_example d_required texts2 fst snd schemaProps exampleProps required].
    rewrite !texts_snoc. destruct (is_required f); [|done]. by rewrite fmap_app.
Qed.
End rendering.

(** ** Safe names and values

    What the program hands the generator is safe when [%q] writes it as JSON; the
    numbers are numbers when the floats are finite. *)

Section safety.
Context `{U : Unicode} `{Fl : GoFloat} (types : tid → rtype).

Definition safe_field (f : sfield) : Prop :=
  json_safe (jsonName f) = true ∧ json_safe (tag_desc f) = true ∧
  plain (tag_header f) = true ∧ plain (tag_query f) = true.
Definition safe_types : Prop :=
  ∀ t fields, types t = TStruct fields → Forall safe_field fields.

Fixpoint safe_value (v : gvalue) : bool :=
  match v with
  | GString s => json_safe s
  | GInt n => between (- 2 ^ 63) (2 ^ 63 - 1) n
  | GFloat f => is_number (fmt_g f)
  | GPtr (Some v) => safe_value v
  | GMap m => forallb (λ kv, json_safe kv.1 && safe_value kv.2) m
  | GStruct l => forallb safe_value l
  | _ => true
  end.

(** *** [%d] *)

Lemma digit_is_dec m : m < 10 → is_dec (ascii_of_nat (48 + m)) = true.
Proof.
  intros Hm. unfold is_dec, code. rewrite nat_ascii_embedding by lia. apply between_spec. lia.
Qed.

Lemma decimal_spec k n :
  (Z.of_nat n < 10 ^ Z.of_nat k)%Z → 0 < k →
  forallb is_dec (decimal k n) = true ∧
  ∃ c r, decimal k n = c :: r ∧ (n = 0 → r = []) ∧ (0 < n → c ≠ "0"%char).
Proof.
  revert n. induction k as [|k IH]; intros n Hn Hk; [lia|]. cbn [decimal].
  pose proof (Nat.mod_upper_bound n 10) as Hm.
  destruct (Nat.ltb_spec n 10) as [Hlt|Hge].
  - rewrite Nat.mod_small by done. cbn [app forallb]. rewrite digit_is_dec by done.
    split; [done|]. eexists _, _. split; [done|]. split; [done|].
    intros Hpos Hc. apply (f_equal nat_of_ascii) in Hc. rewrite nat_ascii_embedding in Hc by lia.
    change (nat_of_ascii "0") with 48 in Hc. lia.
  - assert (k ≠ 0) by (intros ->; simpl in Hn; lia).
    rewrite Nat2Z.inj_succ, Z.pow_succ_r in Hn by lia.
    destruct (IH (n / 10)) as (Hd & c & r & Heq & _ & Hc); [|lia|].
    { rewrite Nat2Z.inj_div. apply Z.div_lt_upper_bound; lia. }
    rewrite forallb_app, Hd. cbn [forallb]. rewrite digit_is_dec by lia. split; [done|].
    rewrite Heq. eexists c, _. split; [done|]. split; [lia|].
    intros _. apply Hc. apply Nat.div_str_pos. lia.
Qed.

Lemma decimal_unsigned k n :
  (Z.of_nat n < 10 ^ Z.of_nat k)%Z → 0 < k → is_unsigned (decimal k n) = true.
Proof.
  intros Hn Hk. destruct (decimal_spec k n Hn Hk) as (Hd & c & r & Heq & H0 & Hpos).
  unfold is_unsigned. rewrite <- (app_nil_r (decimal k n)), (span_app is_dec) by done.
  rewrite Heq. destruct (Nat.eq_dec n 0) as [->|Hne].
  - rewrite H0 by done. by destruct c as [[] [] [] [] [] [] [] []].
  - assert (c ≠ "0"%char) by (apply Hpos; lia).
    destruct c as [[] [] [] [] [] [] [] []]; done.
Qed.

Lemma format_int_integer z : (- 2 ^ 63 <= z < 2 ^ 63)%Z → is_integer (format_int z) = true.
Proof.
  intros Hz. unfold is_integer, format_int.
  assert (∀ n, (Z.of_nat n <= 2 ^ 63)%Z →
    is_unsigned (decimal 20 n) = true ∧ forallb is_dec (decimal 20 n) = true) as Hu.
  { intros n Hn. assert (Z.of_nat n < 10 ^ Z.of_nat 20)%Z by (change (10 ^ Z.of_nat 20)%Z with 100000000000000000000%Z; lia).
    split; [apply decimal_unsigned; [done|lia]|by apply decimal_spec; [|lia]]. }
  assert (∀ s, forallb is_dec s = true → forallb (λ c, is_dec c || Ascii.eqb c "-") s = true) as Hi.
  { intros s. rewrite !forallb_forall. intros Hs c Hc. by rewrite Hs. }
  destruct (Z.ltb_spec z 0).
  - destruct (Hu (Z.to_nat (- z))) as [H1 H2]; [lia|].
    change (B "-" ++ decimal 20 (Z.to_nat (- z))) with ("-"%char :: decimal 20 (Z.to_nat (- z))).
    cbn [forallb]. rewrite Hi by done. cbn [is_number]. by rewrite H1.
  - destruct (Hu (Z.to_nat z)) as [H1 H2]; [lia|]. rewrite Hi, andb_true_r by done.
    revert H1. generalize (decimal 20 (Z.to_nat z)). intros [|c s]; [done|].
    intros Hs. destruct (unsigned_chars _ Hs) as (_ & d & [= <-] & Hd).
    destruct c as [[] [] [] [] [] [] [] []]; done.
Qed.
(** *** The trees of safe models are well formed and conform *)

Lemma in_map_iff' {A C} (f : A → C) (l : list A) y : In y (f <$> l) → ∃ x, y = f x ∧ In x l.
Proof. intros (x & <- & Hx)%in_map_iff. eauto. Qed.

Lemma lookup_last_snoc k m k' x :
  lookup_last k (m ++ [(k', x)]) = if beqb k' k then Some x else lookup_last k m.
Proof. unfold lookup_last. by rewrite fold_left_app. Qed.

Lemma lookup_last_in k m x : lookup_last k m = Some x → In (k, x) m.
Proof.
  induction m as [|[k' y] m IH] using rev_ind; [done|]. rewrite lookup_last_snoc, in_app_iff.
  destruct (beqb k' k) eqn:E; [|auto]. apply beqb_eq in E as ->. intros [= ->]. right. by left.
Qed.

Lemma loop_inv {X A} (I : A → Prop) (f : nat → X → A → option A) i l a a' :
  (∀ i x a a', In x l → f i x a = Some a' → I a → I a') →
  loop f i l a = Some a' → I a → I a'.
Proof.
  revert i a. induction l as [|x l IH]; intros i a Hf; simpl; [by intros [= ->]|].
  destruct (f i x a) as [b|] eqn:E; [|done]. intros Hl Ha. apply (IH (S i) b); [|done|].
  - intros j y c c' Hy. apply Hf. by right.
  - eapply Hf; [by left|done|done].
Qed.

(** What holds of the members collected so far. *)
Record good (ds : docs) : Prop := mkGood {
  good_wf_schema : wf_json (JObj (d_schema ds)) = true;
  good_wf_example : wf_json (JObj (d_example ds)) = true;
  good_wf_required : forallb json_safe (d_required ds) = true;
  good_conforms k s x :
    lookup_last k (d_schema ds) = Some s → lookup_last k (d_example ds) = Some x → Conforms s x;
  good_required k : In k (d_required ds) → is_Some (lookup_last k (d_example ds));
}.

Lemma wf_object_snoc m k x :
  wf_json (JObj (m ++ [(k, x)])) = wf_json (JObj m) && (json_safe k && wf_json x).
Proof. cbn [wf_json]. rewrite forallb_app. cbn [forallb fst snd]. by rewrite andb_true_r. Qed.

Lemma good_empty : good (mkDocs [] [] []).
Proof. by split. Qed.

Lemma good_snoc ds k s x req :
  good ds → json_safe k = true → wf_json s = true → wf_json x = true → Conforms s x →
  good (mkDocs (d_schema ds ++ [(k, s)]) (d_example ds ++ [(k, x)])
          (if req : bool then d_required ds ++ [k] else d_required ds)).
Proof.
  intros [H1 H2 H3 H4 H5] Hk Hs Hx Hc. split; cbn [d_schema d_example d_required].
  - by rewrite wf_object_snoc, H1, Hk, Hs.
  - by rewrite wf_object_snoc, H2, Hk, Hx.
  - destruct req; [|done]. rewrite forallb_app, H3. cbn [forallb]. by rewrite Hk.
  - intros k' s' x'. rewrite !lookup_last_snoc. destruct (beqb k k'); [|apply H4].
    by intros [= <-] [= <-].
  - intros k' Hk'. rewrite lookup_last_snoc. destruct (beqb k k') eqn:E; [done|].
    apply H5. destruct req; [|done]. apply in_app_iff in Hk' as [?|[->|[]]]; [done|].
    by rewrite beqb_refl in E.
Qed.

Definition fine (d : json * json) : Prop :=
  wf_json d.1 = true ∧ wf_json d.2 = true ∧ Conforms d.1 d.2.

Lemma good_struct ds : good ds → fine (struct_doc ds).
Proof.
  intros [H1 H2 H3 H4 H5]. unfold struct_doc, fine. cbn [fst snd].
  assert (∀ l, lookup_last (B "required") ([typed (B "object"); (B "properties", JObj (d_schema ds))] ++
            required_member (d_required ds)) = Some (JArr l) → l = JStr <$> d_required ds) as Hreq.
  { intros l. destruct (d_required ds); [done|]. by intros [= <-]. }
  assert (lookup_last (B "properties") ([typed (B "object"); (B "properties", JObj (d_schema ds))] ++
            required_member (d_required ds)) = Some (JObj (d_schema ds))) as Hprops.
  { by destruct (d_required ds). }
  assert (lookup_last (B "additionalProperties")
           ([typed (B "object"); (B "properties", JObj (d_schema ds))] ++
            required_member (d_required ds)) = None) as Hadd.
  { by destruct (d_required ds). }
  split_and!; [|done|].
  - cbn [wf_json app forallb fst snd typed] in *. rewrite H1. 
    destruct (d_required ds) as [|r l]; [reflexivity|]. unfold required_member. cbn [forallb fst snd].
    cbn [wf_json]. rewrite forallb_forall in H3.
    assert (forallb wf_json (JStr <$> r :: l) = true) as ->; [|reflexivity].
    apply forallb_forall. intros j (y & -> & Hy)%in_map_iff'. by apply H3.
  - apply conf_object.
    + by destruct (d_required ds).
    + intros ps k s x. rewrite Hprops. intros [= <-]. apply H4.
    + intros l k ->%Hreq (k' & [= ->] & Hk)%in_map_iff'. by apply H5.
    + intros s k x. by rewrite Hadd.
Qed.
End safety.

Section conforming.
Context `{U : Unicode} `{Fl : GoFloat} (types : tid → rtype).

(** *** The schema depends on the type alone *)

Lemma loop_rel {X A} (R : A → A → Prop) (f g : nat → X → A → option A) i l a b a' b' :
  (∀ i x a b a' b', R a b → f i x a = Some a' → g i x b = Some b' → R a' b') →
  R a b → loop f i l a = Some a' → loop g i l b = Some b' → R a' b'.
Proof.
  intros Hfg. revert i a b. induction l as [|x l IH]; intros i a b Hab; simpl;
    [by intros [= <-] [= <-]|].
  destruct (f i x a) as [a1|] eqn:E1; [|done]. destruct (g i x b) as [b1|] eqn:E2; [|done].
  apply IH. eauto.
Qed.

Definition same_schema (a b : docs) : Prop :=
  d_schema a = d_schema b ∧ d_required a = d_required b.

Lemma same_schema_doc a b : same_schema a b → (struct_doc a).1 = (struct_doc b).1.
Proof. intros [H1 H2]. unfold struct_doc. cbn [fst]. by rewrite H1, H2. Qed.

Lemma indirect_type t v v' : (indirect types t v).1 = (indirect types t v').1.
Proof. unfold indirect. by destruct (types t). Qed.

Lemma schema_unique n :
  (∀ t v v' desc d d', fieldDoc types n t v desc = Some d → fieldDoc types n t v' desc = Some d' →
                       d.1 = d'.1) ∧
  (∀ fields v v' a b a' b', same_schema a b → structDoc types n fields v a = Some a' →
                            structDoc types n fields v' b = Some b' → same_schema a' b').
Proof.
  induction n as [|n [IHf IHs]]; [done|]. split.
  - intros t v v' desc d d'. rewrite !fieldDoc_S. unfold fieldDoc_step.
    pose proof (indirect_type t v v') as Ht.
    destruct (indirect types t v) as [t1 w], (indirect types t v') as [t2 w'].
    cbn [fst] in Ht. subst t2.
    destruct (types t1) as [name| | | |e|e|sk e|fields|]; try (by intros [= <-] [= <-]).
    + destruct (fieldDoc types n e GZero []) as [item|]; [|done]. by intros [= <-] [= <-].
    + destruct (fieldDoc types n e GZero []) as [item|]; [|done]. cbn [mbind option_bind].
      intros H1 H2. transitivity (JObj (typed (B "object") :: (B "additionalProperties", item.1) ::
                                          desc_member desc)).
      * clear H2. revert H1. destruct (v_entries w); [by intros [= <-]|].
        by destruct (loop _ 0 _ []); [intros [= <-]|].
      * clear H1. revert H2. destruct (v_entries w'); [by intros [= <-]|].
        by destruct (loop _ 0 _ []); [intros [= <-]|].
    + destruct (structDoc types n fields w (mkDocs [] [] [])) as [a|] eqn:E1; [|done].
      destruct (structDoc types n fields w' (mkDocs [] [] [])) as [b|] eqn:E2; [|done].
      intros [= <-] [= <-]. apply same_schema_doc. eapply IHs; [|done|done]. by split.
  - intros fields v v' a b a' b' Hab. rewrite !structDoc_S. unfold structDoc_step. apply loop_rel; [|done].
    clear a b a' b' Hab. intros i f a b a' b' Hab.
    destruct (embedded types f) as [fs|].
    + by apply IHs.
    + destruct (is_meta f); [by intros [= <-] [= <-]|].
      destruct (beqb (jsonName f) (B "-")); [by intros [= <-] [= <-]|].
      destruct (fieldDoc types n (sf_Type f) (v_Field v i) (tag_desc f)) as [[s x]|] eqn:E1; [|done].
      destruct (fieldDoc types n (sf_Type f) (v_Field v' i) (tag_desc f)) as [[s' x']|] eqn:E2; [|done].
      pose proof (IHf _ _ _ _ _ _ E1 E2) as Hs. cbn [fst] in Hs. subst s'.
      destruct Hab as [H1 H2].
      intros [= <-] [= <-]. split; cbn [d_schema d_required fst snd]; rewrite ?H1, ?H2; done.
Qed.
(** *** Every tree the generator builds *)

Hypothesis types_safe : safe_types types.
Hypothesis zero_number : is_number (fmt_g fzero) = true.

Lemma indirect_safe t v : safe_value v = true → safe_value (indirect types t v).2 = true.
Proof. unfold indirect. destruct (types t), v as [| | | | |[]| | |]; try done. Qed.
Lemma v_Field_safe v i : safe_value v = true → safe_value (v_Field v i) = true.
Proof.
  destruct v as [| | | | | | |l|]; try done. simpl. rewrite forallb_forall. intros Hl.
  destruct (nth_in_or_default i l GZero) as [Hin| ->]; [by apply Hl|done].
Qed.
Lemma v_String_safe v : safe_value v = true → json_safe (v_String v) = true.
Proof. by destruct v. Qed.
Lemma v_Int_safe v : safe_value v = true → is_integer (format_int (v_Int v)) = true.
Proof.
  destruct v; simpl; intros Hv; apply format_int_integer; try lia. apply between_spec in Hv. lia.
Qed.
Lemma v_Float_safe v : safe_value v = true → is_number (fmt_g (v_Float v)) = true.
Proof. by destruct v. Qed.
Lemma v_entries_safe v kv :
  safe_value v = true → In kv (v_entries v) → json_safe kv.1 = true ∧ safe_value kv.2 = true.
Proof.
  destruct v as [| | | | | |m| |]; try done. simpl. rewrite forallb_forall.
  intros Hm Hkv. by apply andb_true_iff, Hm.
Qed.

Lemma example_safe name : json_safe (exampleStringFor name) = true.
Proof. unfold exampleStringFor. repeat case_match; reflexivity. Qed.

Lemma wf_typed ty m :
  json_safe ty = true → wf_json (JObj (typed ty :: m)) = wf_json (JObj m).
Proof. intros H. cbn [wf_json forallb typed fst snd]. by rewrite H. Qed.
Lemma wf_desc desc : json_safe desc = true → wf_json (JObj (desc_member desc)) = true.
Proof. destruct desc as [|c d]; [done|]. intros H. cbn [wf_json desc_member forallb fst snd]. by rewrite H. Qed.
Lemma wf_cons k x m :
  json_safe k = true → wf_json x = true → wf_json (JObj m) = true → wf_json (JObj ((k, x) :: m)) = true.
Proof. intros Hk Hx Hm. cbn [wf_json forallb fst snd] in *. by rewrite Hk, Hx. Qed.
Lemma has_type_typed ty desc : has_type (typed ty :: desc_member desc) ty.
Proof. by destruct desc. Qed.
Lemma has_type_typed2 ty k x desc :
  k ≠ B "type" → has_type (typed ty :: (k, x) :: desc_member desc) ty.
Proof.
  intros Hk%beqb_neq. unfold has_type, lookup_last. destruct desc; cbn [desc_member fold_left fst snd typed];
    rewrite Hk; done.
Qed.
Lemma lookup_second ty k x desc :
  beqb k (B "description") = false → lookup_last k (typed ty :: (k, x) :: desc_member desc) = Some x.
Proof.
  intros Hk. unfold lookup_last. destruct desc; cbn [desc_member fold_left fst snd typed];
    rewrite beqb_refl; [done|]. destruct (beqb (B "description") k) eqn:E; [|done].
  apply beqb_eq in E as <-. by rewrite beqb_refl in Hk.
Qed.

Lemma scalar_fine ty desc x :
  json_safe ty = true → json_safe desc = true → wf_json x = true →
  Conforms (JObj (typed ty :: desc_member desc)) x → fine (JObj (typed ty :: desc_member desc), x).
Proof. intros Ht Hd Hx Hc. split_and!; [|done|done]. cbn [fst]. rewrite wf_typed by done. by apply wf_desc. Qed.

Lemma map_fine item_s desc m :
  wf_json item_s = true → json_safe desc = true →
  wf_json (JObj m) = true → (∀ k x, lookup_last k m = Some x → Conforms item_s x) →
  fine (JObj (typed (B "object") :: (B "additionalProperties", item_s) :: desc_member desc), JObj m).
Proof.
  intros Hi Hd Hm Hc. split_and!; [|done|].
  - cbn [fst]. rewrite wf_typed by reflexivity. apply wf_cons; [reflexivity|done|by apply wf_desc].
  - apply conf_object.
    + by apply has_type_typed2.
    + intros ps k s x. by destruct desc.
    + intros l k. by destruct desc.
    + intros s k x. rewrite lookup_second by reflexivity. intros [= <-]. apply Hc.
Qed.

Lemma fieldDoc_fine n :
  (∀ t v desc d, fieldDoc types n t v desc = Some d →
     safe_value v = true → json_safe desc = true → fine d) ∧
  (∀ fields v ds ds', structDoc types n fields v ds = Some ds' →
     Forall safe_field fields → safe_value v = true → good ds → good ds').
Proof.
  induction n as [|n [IHf IHs]]; [done|]. split.
  - intros t v desc d. rewrite fieldDoc_S. unfold fieldDoc_step.
    pose proof (indirect_safe t v) as Hsv.
    destruct (indirect types t v) as [t' v']. cbn [snd] in Hsv.
    intros Hd Hv%Hsv Hdesc. clear Hsv v. revert Hd.
    destruct (types t') as [name| | | |e|e|sk e|fields|] eqn:Ht.
    + intros [= <-]. apply scalar_fine; [reflexivity|done| |by apply conf_string, has_type_typed].
      cbn [wf_json]. destruct (v_String v') eqn:E; [apply example_safe|].
      rewrite <- E. by apply v_String_safe.
    + intros [= <-]. apply scalar_fine; [reflexivity|done|done|apply conf_boolean, has_type_typed].
    + intros [= <-]. pose proof (v_Int_safe v' Hv) as Hi.
      apply scalar_fine; [reflexivity|done| |apply conf_integer; [apply has_type_typed|done]].
      by apply andb_true_iff in Hi as [Hi _].
    + intros [= <-]. apply scalar_fine; [reflexivity|done| |apply conf_number, has_type_typed].
      by apply v_Float_safe.
    + intros [= <-]. apply scalar_fine; [reflexivity|done|done|apply conf_string, has_type_typed].
    + destruct (fieldDoc types n e GZero []) as [[s x]|] eqn:E; [|done]. intros [= <-].
      destruct (IHf _ _ _ _ E) as (Hs & Hx & Hc); [done|done|]. cbn [fst snd] in *. split_and!.
      * cbn [fst]. rewrite wf_typed by reflexivity. apply wf_cons; [reflexivity|done|by apply wf_desc].
      * cbn [snd wf_json forallb]. by rewrite Hx.
      * eapply conf_array; [by apply has_type_typed2|by apply lookup_second|]. by intros y [<-|[]].
    + destruct (fieldDoc types n e GZero []) as [[s x]|] eqn:E; [|done]. cbn [mbind option_bind fst snd].
      destruct (IHf _ _ _ _ E) as (Hs & Hx & Hc); [done|done|]. cbn [fst snd] in *.
      pose proof (v_entries_safe v') as Hes.
      destruct (v_entries v') as [|kv m].
      { intros [= <-]. apply map_fine; [done|done|by apply wf_cons|].
        intros k y [[= _ <-]|[]]%lookup_last_in. done. }
      destruct (loop _ 0 (kv :: m) []) as [parts|] eqn:El; [|done]. intros [= <-].
      assert (wf_json (JObj parts) = true ∧ ∀ k y, lookup_last k parts = Some y → Conforms s y) as [H1 H2].
      { refine (loop_inv (λ parts, wf_json (JObj parts) = true ∧
          ∀ k y, lookup_last k parts = Some y → Conforms s y) _ _ _ _ _ _ El _); [|by split].
        intros _ kv' p p' Hin Hp [Hp1 Hp2]. destruct sk; [|by simplify_eq].
        destruct (fieldDoc types n e kv'.2 []) as [[s' x']|] eqn:E'; [|done].
        injection Hp as <-.
        destruct (Hes kv' Hv Hin) as [Hk Hv'].
        destruct (IHf _ _ _ _ E' Hv') as (_ & Hx' & Hc'); [done|]. cbn [fst snd] in *.
        pose proof (proj1 (schema_unique n) _ _ _ _ _ _ E E') as Hss. cbn [fst] in Hss. subst s'.
        split; [by rewrite wf_object_snoc, Hp1, Hk, Hx'|].
        intros k y. rewrite lookup_last_snoc. destruct (beqb kv'.1 k); [by intros [= <-]|apply Hp2]. }
      by apply map_fine.
    + destruct (structDoc types n fields v' (mkDocs [] [] [])) as [ds|] eqn:E; [|done]. intros [= <-].
      apply good_struct. eapply IHs; [done|by eapply types_safe|done|apply good_empty].
    + intros [= <-]. apply scalar_fine; [reflexivity|done|done|apply conf_string, has_type_typed].
  - intros fields v ds ds' Hl Hf Hv. rewrite structDoc_S in Hl. revert Hl. apply loop_inv.
    intros i f a a' Hin Ha Hgood. rewrite Forall_forall in Hf.
    assert (safe_field f) as (Hn & Hd & _) by (apply Hf, list_elem_of_In, Hin).
    destruct (embedded types f) as [fs|] eqn:Hemb.
    + eapply IHs; [done| |by apply v_Field_safe|done].
      unfold embedded in Hemb. destruct (sf_Anonymous f); [|done].
      destruct (types (sf_Type f)) eqn:Et; simplify_eq. by eapply types_safe.
    + destruct (is_meta f); [by simplify_eq|]. destruct (beqb (jsonName f) (B "-")); [by simplify_eq|].
      destruct (fieldDoc types n (sf_Type f) (v_Field v i) (tag_desc f)) as [[s x]|] eqn:E; [|done].
      simplify_eq/=. destruct (IHf _ _ _ _ E) as (Hs & Hx & Hc); [by apply v_Field_safe|done|].
      by apply good_snoc.
Qed.
End conforming.
