(* ===== verification/OpenApiDoc.v ===== *)
(** * The OpenAPI document

    [document] is the tree of the whole document: the operations of the routes,
    grouped by path in the order the paths first appear. [GenerateSchema_denotes]: the
    text the generator writes parses to it, whenever the names are safe. *)

From S2P Require Import Prelude GoStrings Quote Json OpenApi OpenApiTheory.

Section document.
Context `{U : Unicode} `{Fl : GoFloat} (types : tid → rtype).

(** ** Parameters *)

Definition paramDoc (name place : bytes) (required : bool) (desc : bytes) : json :=
  JObj [(B "name", JStr name); (B "in", JStr place); (B "required", JBool required);
        (B "description", JStr desc); (B "schema", JObj [typed (B "string")])].

(** The fields of a struct, those of embedded structs in place. *)
Fixpoint flatten (n : nat) (fields : list sfield) : option (list sfield) :=
  match n with
  | 0 => None
  | S n =>
      loop (λ _ f acc,
        match embedded types f with
        | Some fs => app acc <$> flatten n fs
        | None => Some (acc ++ [f])
        end) 0 fields []
  end.

(** The parameters one field is documented as. *)
Definition field_params (skip : list bytes) (f : sfield) : list json :=
  if nonempty (tag_header f) && existsb (beqb (tag_header f)) skip then []
  else
    match tag_header f with
    | [] => []
    | h => [paramDoc h (B "header") (is_required f)
              (match tag_desc f with [] => h ++ B " header" | d => d end)]
    end ++
    match tag_query f with
    | [] => []
    | q => [paramDoc q (B "query") (is_required f)
              (match tag_desc f with [] => q ++ B " parameter" | d => d end)]
    end.

(** The struct a request model is, a pointer or a slice of it followed. *)
Definition model_fields (m : model) : option (list sfield) :=
  match m with
  | None => None
  | Some (t, _) =>
      let t := elem_if types ptr_elem t in
      let t := match types t with TSlice e => elem_if types ptr_elem e | _ => t end in
      match types t with TStruct fields => Some fields | _ => None end
  end.
Definition metaDocs (n : nat) (m : model) (skip : list bytes) : option (list json) :=
  match model_fields m with
  | None => Some []
  | Some fields => (λ fs, mjoin (field_params skip <$> fs)) <$> flatten n fields
  end.

Definition pathDoc (p : bytes) : json :=
  paramDoc p (B "path") true (p ++ B " path parameter").

(** ** One operation *)

Definition contentDoc (ctype : bytes) (x : json * json) : bytes * json :=
  (B "content", JObj [(ctype, JObj [(B "schema", x.1); (B "example", x.2)])]).

Definition responsesDoc (n : nat) (r : RouteDoc) : option json :=
  match rd_ResponseModel r with
  | None => Some (JObj [(B "200", JObj [(B "description", JStr (B "OK"))])])
  | m => x ← modelDoc types n m;
         Some (JObj [(B "200", JObj [(B "description", JStr (B "OK"));
                                     contentDoc (B "application/json") x])])
  end.

(** The [requestBody] member and the parameters of the request model. *)
Definition requestDoc (n : nat) (security : bytes) (r : RouteDoc)
  : option (list (bytes * json) * list json) :=
  match rd_RequestModel r with
  | None => Some ([], [])
  | m =>
      x ← modelDoc types n m;
      ps ← metaDocs n m (skipHeaders security);
      Some ([(B "requestBody",
              JObj [(B "required", JBool true);
                    contentDoc (match rd_ContentType r with
                                | [] => B "application/json"
                                | c => c
                                end) x])], ps)
  end.

Definition summary_of (r : RouteDoc) : bytes :=
  match rd_Summary r with [] => ToUpper (rd_Method r) ++ B " " ++ rd_Path r | s => s end.
Definition tags_of (r : RouteDoc) : list bytes :=
  match rd_Tags r with [] => [B "default"] | l => l end.
Definition securityDoc (security : bytes) (r : RouteDoc) : list (bytes * json) :=
  if rd_NoAuth r then [(B "security", JArr [])]
  else match security with
       | [] => []
       | s => [(B "security", JArr [JObj [(s, JArr [])]])]
       end.

Definition operationDoc (n : nat) (security : bytes) (r : RouteDoc) : option (bytes * json) :=
  responses ← responsesDoc n r;
  request ← requestDoc n security r;
  let parameters := request.2 ++ (pathDoc <$> extractPathParams (rd_Path r)) in
  Some (ToLower (rd_Method r),
        JObj ([(B "summary", JStr (summary_of r)); (B "tags", JArr (JStr <$> tags_of r))] ++
              match parameters with [] => [] | ps => [(B "parameters", JArr ps)] end ++
              [(B "responses", responses)] ++ request.1 ++ securityDoc security r)).

(** ** The whole *)

(** The keys of a list of pairs, each once, in the order they first appear. *)
Fixpoint first_keys {X} (seen : list bytes) (l : list (bytes * X)) : list bytes :=
  match l with
  | [] => []
  | (k, _) :: l => if existsb (beqb k) seen then first_keys seen l
                   else k :: first_keys (seen ++ [k]) l
  end.
(** What a list of pairs gives a key. *)
Definition values_of {X} (k : bytes) (l : list (bytes * X)) : list X :=
  omap (λ kx, if beqb kx.1 k then Some kx.2 else None) l.
Definition group {X} (l : list (bytes * X)) : list (bytes * list X) :=
  (λ k, (k, values_of k l)) <$> first_keys [] l.

Fixpoint operations (n : nat) (security : bytes) (routes : list RouteDoc)
  : option (list (bytes * (bytes * json))) :=
  match routes with
  | [] => Some []
  | r :: routes =>
      op ← operationDoc n security r;
      ops ← operations n security routes;
      Some ((toOpenAPIPath (rd_Path r), op) :: ops)
  end.

Definition scheme_of (security : bytes) : option json :=
  if beqb security SecurityBearer then
    Some (JObj [(B "type", JStr (B "http")); (B "scheme", JStr (B "bearer"));
                (B "bearerFormat", JStr (B "JWT"))])
  else if beqb security SecurityAPIKey then
    Some (JObj [(B "type", JStr (B "apiKey")); (B "in", JStr (B "header"));
                (B "name", JStr (B "X-API-Key"))])
  else if beqb security SecurityBasic then
    Some (JObj [(B "type", JStr (B "http")); (B "scheme", JStr (B "basic"))])
  else None.

Definition componentsDoc (security : bytes) : list (bytes * json) :=
  match scheme_of security with
  | Some s => [(B "components", JObj [(B "securitySchemes", JObj [(security, s)])])]
  | None => []
  end.

Definition pathsDoc (ops : list (bytes * (bytes * json))) : json :=
  JObj ((λ kv, (kv.1, JObj kv.2)) <$> group ops).

Definition document (n : nat) (title description : bytes) (routes : list RouteDoc)
    (security : bytes) : option json :=
  ops ← operations n security routes;
  Some (JObj ([(B "openapi", JStr (B "3.0.0"));
               (B "info", JObj ([(B "title", JStr title)] ++ desc_member description ++
                                [(B "version", JStr (B "1.0.0"))]));
               (B "paths", pathsDoc ops)] ++ componentsDoc security)).

(** ** The text of an operation is the printed tree *)

(** Text the code puts between quotes itself. *)
Definition quoted (s : bytes) : Prop := Quote s = Q "'" ++ s ++ Q "'".

Lemma param_text_render name place req desc :
  quoted place → param_text name place req desc = render (paramDoc name place req desc).
Proof.
  intros Hp. unfold param_text, paramDoc. rewrite render_object, !texts_cons.
  change (render (JStr place)) with (Quote place). rewrite Hp. cbn [Join texts].
  change (texts []) with (@nil bytes). cbn [Join]. rewrite <- !app_assoc. by destruct req.
Qed.

Lemma field_params_render skip f :
  (if nonempty (tag_header f) && existsb (beqb (tag_header f)) skip then []
   else header_params f ++ query_params f) = render <$> field_params skip f.
Proof.
  unfold field_params. destruct (nonempty (tag_header f) && _); [done|].
  rewrite fmap_app. unfold header_params, query_params.
  f_equal; [destruct (tag_header f)|destruct (tag_query f)]; try done;
    cbn [fmap list_fmap]; by rewrite param_text_render.
Qed.

Definition params_of (skip : list bytes) (fs : list sfield) : list json :=
  mjoin (field_params skip <$> fs).

Lemma params_of_app skip a b : params_of skip (a ++ b) = params_of skip a ++ params_of skip b.
Proof. unfold params_of. by rewrite fmap_app, join_app. Qed.

Lemma reflectHeaderParams_flatten n skip fields params :
  reflectHeaderParamsRecursive types n fields skip params =
  (λ fs, params ++ (render <$> params_of skip fs)) <$> flatten n fields.
Proof.
  revert fields params. induction n as [|n IH]; intros fields params; [done|].
  cbn [reflectHeaderParamsRecursive flatten].
  rewrite <- (app_nil_r params) at 1. change (@nil bytes) with (render <$> params_of skip []).
  apply (loop_render (λ fs, params ++ (render <$> params_of skip fs))).
  intros _ f a. destruct (embedded types f) as [fs|].
  - rewrite IH. destruct (flatten n fs) as [b|]; [|done]. 
    cbn [fmap option_fmap option_map]. by rewrite params_of_app, fmap_app, app_assoc.
  - cbn [fmap option_fmap option_map]. rewrite params_of_app, fmap_app, app_assoc.
    change (params_of skip [f]) with (field_params skip f ++ []). rewrite app_nil_r.
    rewrite <- field_params_render. destruct (nonempty (tag_header f) && _); [by rewrite app_nil_r|].
    by rewrite !app_assoc.
Qed.

Lemma reflectHeaderParams_render n m skip :
  reflectHeaderParams types n m skip = (λ ps, Join (render <$> ps) (B ",")) <$> metaDocs n m skip.
Proof.
  unfold reflectHeaderParams, metaDocs, model_fields. destruct m as [[t v]|]; [|done].
  set (t1 := elem_if types ptr_elem t). 
  set (t2 := match types t1 with TSlice e => elem_if types ptr_elem e | _ => t1 end).
  destruct (types t2) as [| | | | | | |fields|]; try done.
  rewrite reflectHeaderParams_flatten. by destruct (flatten n fields).
Qed.

(** Every parameter is an object: its text is not empty. *)
Definition is_object (j : json) : Prop := ∃ m, j = JObj m.

Lemma Join_objects_nil ps : Forall is_object ps → Join (render <$> ps) (B ",") = [] → ps = [].
Proof.
  destruct ps as [|j ps]; [done|]. intros [[m ->] _]%Forall_cons. 
  destruct ps; [done|]. done.
Qed.

Lemma Join_snoc (l : list bytes) x :
  l ≠ [] → Join (l ++ [x]) (B ",") = Join l (B ",") ++ B "," ++ x.
Proof.
  induction l as [|y l IH]; [done|]. intros _. destruct l as [|z l]; [done|].
  change (Join ((y :: z :: l) ++ [x]) (B ",")) with (y ++ B "," ++ Join ((z :: l) ++ [x]) (B ",")).
  rewrite IH by done. change (Join (y :: z :: l) (B ",")) with (y ++ B "," ++ Join (z :: l) (B ",")).
  by rewrite <- !app_assoc.
Qed.

Lemma add_path_params_render l ps :
  Forall is_object ps →
  add_path_params l (Join (render <$> ps) (B ",")) = Join (render <$> ps ++ (pathDoc <$> l)) (B ",").
Proof.
  revert ps. induction l as [|p l IH]; intros ps Hps; [by rewrite app_nil_r|].
  assert (Forall is_object (ps ++ [pathDoc p])) as Hps'.
  { apply Forall_app. split; [done|]. constructor; [by eexists|constructor]. }
  specialize (IH _ Hps'). rewrite <- app_assoc in IH. rewrite fmap_cons.
  change (add_path_params l (match Join (render <$> ps) (B ",") with
            | [] => param_text p (B "path") true (p ++ B " path parameter")
            | _ => Join (render <$> ps) (B ",") ++ B "," ++
                   param_text p (B "path") true (p ++ B " path parameter")
            end) = Join (render <$> ps ++ [pathDoc p] ++ (pathDoc <$> l)) (B ",")).
  rewrite <- IH. f_equal. rewrite param_text_render by done. fold (pathDoc p).
  destruct (Join (render <$> ps) (B ",")) as [|c s] eqn:E.
  - apply Join_objects_nil in E as ->; done.
  - rewrite fmap_app. cbn [fmap list_fmap]. rewrite Join_snoc; [by rewrite E|].
    by destruct ps.
Qed.

Lemma reflectModel_render n m : reflectModel types n m = texts2 <$> modelDoc types n m.
Proof. destruct m as [[t v]|]; [apply reflect_render|done]. Qed.

Lemma tags_text_render tags :
  Forall quoted tags → tags_text tags = render (JArr (JStr <$> match tags with [] => [B "default"] | l => l end)).
Proof.
  intros Ht. rewrite render_strings. destruct tags as [|x tags]; [done|].
  unfold tags_text. f_equal. f_equal. f_equal.
  induction Ht as [|y l Hy Hl IH]; [done|]. rewrite !fmap_cons. by rewrite IH, Hy.
Qed.

Lemma content_render ctype x :
  Q "'content':{" ++ Quote ctype ++ Q ":{'schema':" ++ render x.1 ++ Q ",'example':" ++
    render x.2 ++ Q "}}" = Join (texts [contentDoc ctype x]) (B ",").
Proof. unfold contentDoc. spell. Qed.

Lemma responses_render n r :
  responses_text types n r = (λ j, Q "'responses':" ++ render j) <$> responsesDoc n r.
Proof.
  unfold responses_text, responsesDoc. destruct (rd_ResponseModel r) as [m|]; [|done].
  rewrite reflectModel_render. destruct (modelDoc types n (Some m)) as [x|]; [|done].
  cbn [fmap option_fmap option_map mbind option_bind]. f_equal. unfold contentDoc. spell.
Qed.

Lemma request_render n security r :
  request_text types n security r =
  (λ x, (mjoin ((λ kv, B "," ++ member (kv.1, render kv.2)) <$> x.1), Join (render <$> x.2) (B ",")))
    <$> requestDoc n security r.
Proof.
  unfold request_text, requestDoc. destruct (rd_RequestModel r) as [m|]; [|done].
  rewrite reflectModel_render. destruct (modelDoc types n (Some m)) as [x|]; [|done].
  cbn [fmap option_fmap option_map mbind option_bind].
  rewrite reflectHeaderParams_render. destruct (metaDocs n (Some m) _) as [ps|]; [|done].
  cbn [fmap option_fmap option_map mbind option_bind fst snd]. f_equal. f_equal.
  rewrite mjoin_fmap_cons. cbn [fmap list_fmap mjoin list_join]. rewrite app_nil_r.
  unfold member, contentDoc. cbn [fst snd].
  set (c := match rd_ContentType r with [] => _ | _ => _ end). spell.
Qed.

Lemma metaDocs_objects n m skip ps : metaDocs n m skip = Some ps → Forall is_object ps.
Proof.
  unfold metaDocs. destruct (model_fields m); [|by intros [= <-]].
  destruct (flatten n l) as [fs|]; [|done]. intros [= <-].
  induction fs as [|f fs IH]; [done|]. rewrite mjoin_fmap_cons. apply Forall_app. split; [|done].
  unfold field_params. destruct (nonempty (tag_header f) && _); [done|].
  apply Forall_app. split; [destruct (tag_header f)|destruct (tag_query f)]; repeat constructor; by eexists.
Qed.

(** Members appended to an object one by one, each with its comma. *)
Definition commas (m : list (bytes * json)) : bytes :=
  mjoin ((λ kv, B "," ++ member (kv.1, render kv.2)) <$> m).

Lemma Join_texts_app a m :
  a ≠ [] → Join (texts (a ++ m)) (B ",") = Join (texts a) (B ",") ++ commas m.
Proof.
  intros Ha. revert a Ha. induction m as [|[k x] m IH]; intros a Ha; [by rewrite !app_nil_r|].
  change (a ++ (k, x) :: m) with (a ++ [(k, x)] ++ m). rewrite app_assoc, IH by (by destruct a).
  rewrite texts_snoc, Join_snoc by (by destruct a). unfold commas at 2. rewrite mjoin_fmap_cons.
  unfold commas, member. cbn [fst snd]. by rewrite <- !app_assoc.
Qed.

Lemma commas_app a b : commas (a ++ b) = commas a ++ commas b.
Proof. unfold commas. by rewrite fmap_app, join_app. Qed.

Definition safe_tags (r : RouteDoc) : Prop := Forall quoted (rd_Tags r).

Lemma operation_render n security r :
  quoted security → safe_tags r →
  operation types n security r =
  (λ op, member (op.1, render op.2)) <$> operationDoc n security r.
Proof.
  intros Hsec Htags. unfold operation, operationDoc. rewrite responses_render.
  destruct (responsesDoc n r) as [resp|]; [|done]. cbn [fmap option_fmap option_map mbind option_bind].
  rewrite request_render. unfold requestDoc.
  assert (∀ x, requestDoc n security r = Some x → Forall is_object x.2) as Hobj.
  { intros x. unfold requestDoc. destruct (rd_RequestModel r); [|by intros [= <-]].
    destruct (modelDoc _ _ _); [|done]. cbn [mbind option_bind].
    destruct (metaDocs _ _ _) eqn:E; [|done]. intros [= <-]. by eapply metaDocs_objects. }
  fold (requestDoc n security r). 
  destruct (requestDoc n security r) as [[req ps]|]; [|done]. specialize (Hobj _ eq_refl).
  cbn [fmap option_fmap option_map mbind option_bind fst snd] in *. f_equal.
  fold (commas req). rewrite add_path_params_render by done. rewrite tags_text_render by done.
  unfold member. cbn [fst snd].
  rewrite render_object, !Join_texts_app, !commas_app by done.
  fold (tags_of r). fold (summary_of r).
  assert (match Join (render <$> ps ++ (pathDoc <$> extractPathParams (rd_Path r))) (B ",") with
          | [] => []
          | _ => Q ",'parameters':[" ++
                 Join (render <$> ps ++ (pathDoc <$> extractPathParams (rd_Path r))) (B ",") ++ B "]"
          end = commas (match ps ++ (pathDoc <$> extractPathParams (rd_Path r)) with
                        | [] => []
                        | _ => [(B "parameters",
                                 JArr (ps ++ (pathDoc <$> extractPathParams (rd_Path r))))]
                        end)) as ->.
  { assert (Forall is_object (ps ++ (pathDoc <$> extractPathParams (rd_Path r)))) as Ho.
    { apply Forall_app. split; [done|]. apply Forall_fmap, Forall_true. intros p. by eexists. }
    pose proof (Join_objects_nil _ Ho) as Hn. destruct (ps ++ _) as [|p l]; [done|].
    destruct (Join (render <$> p :: l) (B ",")) as [|c s] eqn:E; [by specialize (Hn eq_refl)|].
    unfold commas, member. cbn [fmap list_fmap mjoin list_join fst snd]. cbn [render]. unfold array.
    change (render p :: (fix go l := match l with [] => [] | x :: l => render x :: go l end) l)
      with (render <$> p :: l). rewrite E, app_nil_r. rewrite <- ?app_assoc. reflexivity. }
  assert (commas (securityDoc security r) =
          (if rd_NoAuth r then Q ",'security':[]"
           else match security with [] => [] | _ => Q ",'security':[{'" ++ security ++ Q "':[]}]" end)) as ->.
  { unfold securityDoc. destruct (rd_NoAuth r); [done|]. destruct security as [|c s]; [done|].
    unfold commas, member. cbn [fmap list_fmap mjoin list_join fst snd]. rewrite app_nil_r.
    change (render (JArr [JObj [(c :: s, JArr [])]])) with
      (B "[" ++ (B "{" ++ (Quote (c :: s) ++ B ":" ++ B "[]") ++ B "}") ++ B "]").
    rewrite Hsec. rewrite <- ?app_assoc. reflexivity. }
  change (commas [(B "responses", resp)]) with (B "," ++ (Quote (B "responses") ++ B ":" ++ render resp) ++ []).
  rewrite app_nil_r, !texts_cons. change (texts []) with (@nil bytes). cbn [Join].
  change (render (JStr (summary_of r))) with (Quote (summary_of r)).
  assert (match rd_Tags r with [] => [B "default"] | _ => rd_Tags r end = tags_of r) as ->
    by (unfold tags_of; by destruct (rd_Tags r)).
  generalize (commas (match ps ++ (pathDoc <$> extractPathParams (rd_Path r)) with
                      | [] => []
                      | _ => [(B "parameters",
                               JArr (ps ++ (pathDoc <$> extractPathParams (rd_Path r))))]
                      end)).
  generalize (render (JArr (JStr <$> tags_of r))), (Quote (summary_of r)), (render resp), (commas req).
  intros. rewrite <- ?app_assoc. reflexivity.
Qed.

(** ** Grouping by path *)

Lemma existsb_beqb_In k l : existsb (beqb k) l = true ↔ In k l.
Proof.
  rewrite existsb_exists. split; [by intros (x & Hx & ->%beqb_eq)|].
  intros Hk. exists k. by rewrite beqb_refl.
Qed.

Lemma first_keys_snoc {X} seen (l : list (bytes * X)) k x :
  first_keys seen (l ++ [(k, x)]) =
  first_keys seen l ++ if existsb (beqb k) (seen ++ l.*1) then [] else [k].
Proof.
  revert seen. induction l as [|[k' y] l IH]; intros seen; cbn [app first_keys fmap list_fmap].
  - rewrite app_nil_r. by destruct (existsb (beqb k) seen).
  - destruct (existsb (beqb k') seen) eqn:Hk'.
    + rewrite IH. f_equal. 
      assert (existsb (beqb k) (seen ++ l.*1) = existsb (beqb k) (seen ++ k' :: l.*1)) as ->; [|done].
      apply eq_true_iff_eq. rewrite !existsb_beqb_In, !in_app_iff. apply existsb_beqb_In in Hk'.
      split; [intros [?|?]; [by left|right; by right]|]. intros [?|[->|?]]; auto.
    + rewrite IH. cbn [app]. by rewrite <- app_assoc.
Qed.

Lemma values_of_snoc {X} k (l : list (bytes * X)) k' x :
  values_of k (l ++ [(k', x)]) = values_of k l ++ if beqb k' k then [x] else [].
Proof. unfold values_of. rewrite omap_app. f_equal. simpl. by destruct (beqb k' k). Qed.

Definition op_text (op : bytes * json) : bytes := member (op.1, render op.2).

(** The code's [order] and [grouped], for the operations written so far. *)
Definition grouped_as (ops : list (bytes * (bytes * json)))
    (g : list bytes * gmap bytes (list bytes)) : Prop :=
  g.1 = first_keys [] ops ∧
  (∀ k, is_Some (g.2 !! k) ↔ In k ops.*1) ∧
  (∀ k, default [] (g.2 !! k) = op_text <$> values_of k ops).

Lemma grouped_as_nil : grouped_as [] ([], ∅).
Proof.
  split_and!; [done| |done]. intros k. cbn [snd]. rewrite lookup_empty.
  split; [by intros [? ?]|done].
Qed.

Lemma grouped_as_snoc ops g path op :
  grouped_as ops g → grouped_as (ops ++ [(path, op)]) (add_operation path (op_text op) g).
Proof.
  destruct g as [order grouped]. intros (Ho & Hk & Hv). cbn [fst snd] in *.
  unfold add_operation. split_and!; cbn [fst snd].
  - rewrite first_keys_snoc. cbn [app].
    destruct (grouped !! path) eqn:E; destruct (existsb (beqb path) ops.*1) eqn:E'.
    + by rewrite app_nil_r.
    + assert (In path ops.*1) as Hin by (apply Hk; by rewrite E).
      apply existsb_beqb_In in Hin. congruence.
    + apply existsb_beqb_In, Hk in E'. rewrite E in E'. by destruct E'.
    + by rewrite Ho.
  - intros k. rewrite fmap_app, in_app_iff. cbn [fmap list_fmap fst In].
    destruct (decide (path = k)) as [->|Hne].
    + rewrite lookup_insert_eq. split; [by right; left|by eexists].
    + rewrite lookup_insert_ne by done. rewrite Hk. naive_solver.
  - intros k. rewrite values_of_snoc, fmap_app. destruct (decide (path = k)) as [->|Hne].
    + rewrite lookup_insert_eq, beqb_refl. cbn [default]. by rewrite Hv.
    + rewrite lookup_insert_ne by done. apply beqb_neq in Hne. rewrite Hne, Hv. by rewrite app_nil_r.
Qed.

Lemma generate_loop n security routes i ops g :
  quoted security → Forall safe_tags routes → grouped_as ops g →
  let l := loop (λ _ r g, op ← operation types n security r;
                          Some (add_operation (toOpenAPIPath (rd_Path r)) op g)) i routes g in
  match operations n security routes with
  | Some ops' => ∃ g', l = Some g' ∧ grouped_as (ops ++ ops') g'
  | None => l = None
  end.
Proof.
  intros Hsec Ht. revert i ops g. induction Ht as [|r routes Hr Hrs IH]; intros i ops g Hg; cbn zeta.
  - exists g. by rewrite app_nil_r.
  - cbn [operations loop]. rewrite operation_render by done.
    destruct (operationDoc n security r) as [op|]; [|done].
    cbn [mbind option_bind fmap option_fmap option_map].
    specialize (IH (S i) _ _ (grouped_as_snoc _ _ (toOpenAPIPath (rd_Path r)) op Hg)).
    cbn zeta in IH. destruct (operations n security routes) as [ops'|]; [|done].
    cbn [mbind option_bind]. destruct IH as (g' & Hl & Hg'). exists g'. split; [done|].
    by rewrite <- app_assoc in Hg'.
Qed.

Lemma paths_render ops g :
  grouped_as ops g →
  render (pathsDoc ops) =
  B "{" ++ Join ((λ path, Quote path ++ B ":{" ++ Join (default [] (g.2 !! path)) (B ",") ++ B "}")
                   <$> g.1) (B ",") ++ B "}".
Proof.
  intros (Ho & _ & Hv). unfold pathsDoc. rewrite render_object. f_equal. f_equal. f_equal.
  unfold group, texts. rewrite Ho, <- !list_fmap_compose. apply list_fmap_ext. intros _ k _.
  unfold compose, member. cbn [fst snd]. rewrite Hv, render_object.
  change (texts (values_of k ops)) with (member <$> ((λ kv, (kv.1, render kv.2)) <$> values_of k ops)).
  rewrite <- list_fmap_compose. reflexivity.
Qed.

(** ** The text of the document *)

Definition infoDoc (title description : bytes) : json :=
  JObj ([(B "title", JStr title)] ++ desc_member description ++ [(B "version", JStr (B "1.0.0"))]).

Definition outer (info paths : json) (components : list (bytes * json)) : bytes :=
  Q "{
  'openapi':'3.0.0',
  'info':" ++ render info ++ Q ",
  'paths':" ++ render paths ++ commas components ++ Q "
}".

Lemma components_render security :
  match buildSecuritySchemes security with
  | [] => []
  | _ => Q ",'components':{'securitySchemes':{" ++ buildSecuritySchemes security ++ B "}}"
  end = commas (componentsDoc security).
Proof.
  unfold buildSecuritySchemes, componentsDoc, scheme_of.
  destruct (beqb security SecurityBearer) eqn:E1; [apply beqb_eq in E1 as ->; reflexivity|].
  destruct (beqb security SecurityAPIKey) eqn:E2; [apply beqb_eq in E2 as ->; reflexivity|].
  destruct (beqb security SecurityBasic) eqn:E3; [apply beqb_eq in E3 as ->; reflexivity|].
  reflexivity.
Qed.

Lemma GenerateSchema_render n title description routes security :
  quoted security → Forall safe_tags routes →
  GenerateSchema types n title description routes security =
  (λ ops, outer (infoDoc title description) (pathsDoc ops) (componentsDoc security))
    <$> operations n security routes.
Proof.
  intros Hsec Ht. unfold GenerateSchema.
  pose proof (generate_loop n security routes 0 [] ([], ∅) Hsec Ht grouped_as_nil) as Hl. cbn zeta in Hl.
  destruct (operations n security routes) as [ops|].
  - destruct Hl as (g & -> & Hg).
    cbn [mbind option_bind fmap option_fmap option_map app] in *. destruct g as [order grouped].
    f_equal. unfold outer. rewrite (paths_render _ _ Hg). cbn [fst snd].
    rewrite components_render.
    assert (render (infoDoc title description) =
      Q "{'title':" ++ Quote title ++
      match description with [] => [] | _ => Q ",'description':" ++ Quote description end ++
      Q ",'version':'1.0.0'}") as ->; [|by rewrite <- !app_assoc].
    unfold infoDoc. destruct description; cbn [desc_member app]; spell.
  - by rewrite Hl.
Qed.

(** ** The text parses *)

Definition space : bytes := Q "
  ".
Definition newline : bytes := Q "
".

Lemma expect_space c w s : forallb is_ws w = true → expect c (w ++ s) = expect c s.
Proof.
  intros Hw. unfold expect, skip_ws. assert (drop_while is_ws (w ++ s) = drop_while is_ws s) as ->; [|done].
  induction w as [|d w IH]; [done|]. cbn [forallb] in Hw. apply andb_true_iff in Hw as [Hd Hw].
  cbn [app drop_while]. rewrite Hd. by apply IH.
Qed.

(** One member of an object, white space before it. *)
Lemma parse_member n w k v t :
  forallb is_ws w = true → json_safe k = true → wf_json v = true → length (render v) ≤ n → ends t →
  parse_members (S n) (w ++ member (k, render v) ++ t) =
  match expect "," t, expect "}" t with
  | Some r, _ => prod_map (cons (k, v)) id <$> parse_members n r
  | None, Some r => Some ([(k, v)], r)
  | None, None => None
  end.
Proof.
  intros Hw Hk Hv Hn Ht. cbn [parse_members]. unfold parse_string. rewrite expect_space by done.
  rewrite member_app. cbn [fst snd]. fold (parse_string (Quote k ++ ":"%char :: render v ++ t)).
  rewrite parse_string_Quote by done. cbn [mbind option_bind fst snd].
  rewrite expect_cons by reflexivity. change (Ascii.eqb ":" ":") with true. cbv iota.
  cbn [mbind option_bind fst snd]. rewrite parse_value_render by done. reflexivity.
Qed.

Lemma outer_members info paths components :
  outer info paths components =
  "{"%char :: space ++ member (B "openapi", render (JStr (B "3.0.0"))) ++
  ","%char :: space ++ member (B "info", render info) ++
  ","%char :: space ++ member (B "paths", render paths) ++ commas components ++ newline ++ B "}".
Proof. unfold outer, member. cbn [fst snd]. rewrite <- ?app_assoc. reflexivity. Qed.

Lemma outer_denotes info paths components :
  wf_json (JObj ([(B "openapi", JStr (B "3.0.0")); (B "info", info); (B "paths", paths)] ++
                 components)) = true →
  (components = [] ∨ ∃ kv, components = [kv]) →
  parse_json (outer info paths components) =
  Some (JObj ([(B "openapi", JStr (B "3.0.0")); (B "info", info); (B "paths", paths)] ++ components)).
Proof.
  intros Hw Hcomp. cbn [wf_json app forallb fst snd] in Hw.
  repeat (apply andb_true_iff in Hw as [?Hm Hw]).
  apply andb_true_iff in Hm0 as [_ Hi], Hm1 as [_ Hp].
  rewrite outer_members. unfold parse_json.
  set (rest := commas components ++ newline ++ B "}").
  set (text := space ++ member (B "openapi", render (JStr (B "3.0.0"))) ++
               ","%char :: space ++ member (B "info", render info) ++
               ","%char :: space ++ member (B "paths", render paths) ++ rest).
  assert (10 + length (render info) + length (render paths) + length rest ≤ length text) as Hlen.
  { unfold text, member. rewrite !length_app. cbn [length fst snd]. rewrite !length_app.
    change (length space) with 3. cbn [length]. rewrite ?length_app.
    change (length space) with 3. lia. }
  cbn [length parse_value]. rewrite !expect_cons by reflexivity.
  change (Ascii.eqb "{" "[") with false. change (Ascii.eqb "{" "{") with true. cbv iota.
  assert (expect "}" text = None) as -> by reflexivity.
  remember (length text) as n eqn:Hn. clear Hn. unfold text.
  do 5 (destruct n as [|n]; [lia|]).
  rewrite parse_member by (reflexivity || (simpl; lia) || by apply ends_cons).
  rewrite !expect_cons by reflexivity. change (Ascii.eqb "," ",") with true. cbv iota.
  rewrite parse_member by (reflexivity || done || lia || by apply ends_cons).
  rewrite !expect_cons by reflexivity. change (Ascii.eqb "," ",") with true. cbv iota.
  assert (ends rest) as Hends.
  { unfold rest. destruct Hcomp as [->|[kv ->]]; by intros c [= <-]. }
  rewrite parse_member by (reflexivity || done || lia).
  unfold rest in *. clear rest text. destruct Hcomp as [->|[[k v] ->]].
  - reflexivity.
  - assert (commas [(k, v)] ++ newline ++ B "}" = ","%char :: [] ++ member (k, render v) ++ newline ++ B "}") as ->.
    { unfold commas. cbn [fmap list_fmap mjoin list_join fst snd]. rewrite app_nil_r. by rewrite <- app_assoc. }
    rewrite !expect_cons by reflexivity. change (Ascii.eqb "," ",") with true. cbv iota.
    cbn [forallb fst snd] in Hw. rewrite andb_true_r in Hw. apply andb_true_iff in Hw as [Hk Hv].
    rewrite parse_member; [reflexivity|done|done|done| |by intros c [= <-]].
    revert Hlen. unfold commas. cbn [fmap list_fmap mjoin list_join fst snd]. unfold member.
    rewrite !length_app. cbn [fst snd]. lia.
Qed.

(** ** Well-formedness *)

(** What a route must be for its documentation to be JSON: an ASCII path and method,
    names [%q] writes as JSON, tags it would leave alone. *)
Definition safe_model (m : model) : bool :=
  match m with None => true | Some (_, v) => safe_value v end.
Record safe_route (r : RouteDoc) : Prop := mkSafeRoute {
  safe_Method : plain (rd_Method r) = true;
  safe_Path : plain (rd_Path r) = true;
  safe_Summary : json_safe (rd_Summary r) = true;
  safe_Tags : Forall (λ t, quoted t ∧ json_safe t = true) (rd_Tags r);
  safe_ContentType : json_safe (rd_ContentType r) = true;
  safe_Response : safe_model (rd_ResponseModel r) = true;
  safe_Request : safe_model (rd_RequestModel r) = true;
}.

Lemma safe_route_tags r : safe_route r → safe_tags r.
Proof. intros Hr. eapply Forall_impl; [apply (safe_Tags _ Hr)|]. by intros t [? _]. Qed.

Lemma plain_map (f : byte → byte) s :
  (∀ c, (32 <= code c <= 126)%Z → (32 <= code (f c) <= 126)%Z) → plain s = true → plain (f <$> s) = true.
Proof.
  intros Hf Hs. apply forallb_forall. intros c (d & -> & Hd)%in_map_iff'.
  apply between_spec, Hf. by apply (plain_In s).
Qed.
Lemma plain_ToLower s : plain s = true → plain (ToLower s) = true.
Proof.
  apply plain_map. intros c Hc. unfold to_lower, code in *.
  destruct ((65 <=? nat_of_ascii c) && (nat_of_ascii c <=? 90)) eqn:E; [|done].
  apply andb_true_iff in E as [H1%Nat.leb_le H2%Nat.leb_le]. rewrite nat_ascii_embedding; lia.
Qed.
Lemma plain_ToUpper s : plain s = true → plain (ToUpper s) = true.
Proof.
  apply plain_map. intros c Hc. unfold to_upper, code in *.
  destruct ((97 <=? nat_of_ascii c) && (nat_of_ascii c <=? 122)) eqn:E; [|done].
  apply andb_true_iff in E as [H1%Nat.leb_le H2%Nat.leb_le]. rewrite nat_ascii_embedding; lia.
Qed.

Lemma Split_In p s sep c : In p (Split s sep) → In c p → In c s.
Proof.
  revert p. induction s as [|d s IH]; intros p; simpl; [by intros [<-|[]]|].
  destruct (Ascii.eqb d sep); [intros [<-|Hp] Hc; [done|right; by eapply IH]|].
  destruct (Split s sep) as [|x l] eqn:E; [by intros [<-|[]] [->|[]]; left|].
  intros [<-|Hp]; [intros [->|Hc]; [by left|right; apply (IH x); [by left|done]]|].
  intros Hc. right. apply (IH p); [by right|done].
Qed.
Lemma plain_segments s p : plain s = true → In p (Split s "/") → plain p = true.
Proof. intros Hs Hp. eapply plain_incl; [done|]. intros c. by apply (Split_In p s "/"). Qed.

Lemma segment_param_incl p x c : segment_param p = Some x → In c x → In c p.
Proof.
  unfold segment_param. intros Hx Hc.
  assert (x = drop 1 p) as ->.
  { destruct (HasPrefix p (B ":")); [by simplify_eq|]. by destruct (HasPrefix p (B "*")); simplify_eq. }
  destruct p; [done|by right].
Qed.

Lemma plain_params s p : plain s = true → In p (extractPathParams s) → plain p = true.
Proof.
  intros Hs Hp%list_elem_of_In. apply list_elem_of_omap in Hp as (q & Hq%list_elem_of_In & Hqp).
  eapply plain_incl; [by eapply plain_segments|]. intros c. by apply segment_param_incl.
Qed.

Lemma plain_Join l sep :
  plain sep = true → (∀ p, In p l → plain p = true) → plain (Join l sep) = true.
Proof.
  intros Hsep. induction l as [|x l IH]; intros Hl; [done|]. destruct l as [|y l]; [apply Hl; by left|].
  change (Join (x :: y :: l) sep) with (x ++ sep ++ Join (y :: l) sep).
  rewrite !plain_app, Hsep, IH, Hl; [done|by left|]. intros p Hp. apply Hl. by right.
Qed.

Lemma plain_toOpenAPIPath s : plain s = true → plain (toOpenAPIPath s) = true.
Proof.
  intros Hs. apply plain_Join; [reflexivity|]. intros p (q & -> & Hq)%in_map_iff'.
  pose proof (plain_segments s q Hs Hq) as Hqp.
  destruct (segment_param q) as [x|] eqn:E; [|done].
  rewrite !plain_app. cbn [andb]. rewrite andb_true_r. 
  eapply plain_incl; [done|]. intros c. by apply segment_param_incl.
Qed.

Hypothesis types_safe : safe_types types.
Hypothesis zero_number : is_number (fmt_g fzero) = true.

Lemma paramDoc_wf name place req desc :
  json_safe name = true → json_safe place = true → json_safe desc = true →
  wf_json (paramDoc name place req desc) = true.
Proof. intros H1 H2 H3. cbn [paramDoc wf_json forallb fst snd typed]. by rewrite H1, H2, H3. Qed.

Lemma pathDoc_wf p : plain p = true → wf_json (pathDoc p) = true.
Proof.
  intros Hp. apply paramDoc_wf; [by apply plain_safe|reflexivity|].
  apply plain_safe. by rewrite plain_app, Hp.
Qed.

Lemma field_params_wf skip f j : safe_field f → In j (field_params skip f) → wf_json j = true.
Proof.
  intros (_ & Hd & Hh & Hq). unfold field_params.
  destruct (nonempty (tag_header f) && _); [done|]. rewrite in_app_iff.
  intros [Hj|Hj].
  - destruct (tag_header f) as [|c h]; [done|]. destruct Hj as [<-|[]].
    apply paramDoc_wf; [by apply plain_safe|reflexivity|]. destruct (tag_desc f); [|done].
    apply plain_safe. by rewrite plain_app, Hh.
  - destruct (tag_query f) as [|c h]; [done|]. destruct Hj as [<-|[]].
    apply paramDoc_wf; [by apply plain_safe|reflexivity|]. destruct (tag_desc f); [|done].
    apply plain_safe. by rewrite plain_app, Hq.
Qed.

Lemma flatten_safe n fields fs :
  Forall safe_field fields → flatten n fields = Some fs → Forall safe_field fs.
Proof.
  revert fields fs. induction n as [|n IH]; intros fields fs Hf; [done|]. cbn [flatten]. intros Hl.
  refine (loop_inv (Forall safe_field) _ _ _ _ _ _ Hl _); [|done].
  intros _ f a a' Hin Ha Hacc. destruct (embedded types f) as [fs'|] eqn:E.
  - destruct (flatten n fs') as [b|] eqn:Eb; [|done]. injection Ha as <-.
    apply Forall_app. split; [done|]. eapply IH; [|done]. unfold embedded in E.
    destruct (sf_Anonymous f); [|done]. destruct (types (sf_Type f)) eqn:Et; try done.
    injection E as <-. by eapply types_safe.
  - injection Ha as <-. apply Forall_app. split; [done|]. constructor; [|done].
    rewrite Forall_forall in Hf. by apply Hf, list_elem_of_In.
Qed.

Lemma metaDocs_wf n m skip ps :
  metaDocs n m skip = Some ps → forallb wf_json ps = true.
Proof.
  unfold metaDocs. destruct (model_fields m) as [fields|] eqn:Em; [|by intros [= <-]].
  destruct (flatten n fields) as [fs|] eqn:Ef; [|done]. intros [= <-].
  assert (Forall safe_field fields) as Hs.
  { unfold model_fields in Em. destruct m as [[t v]|]; [|done].
    match type of Em with match types ?t with _ => _ end = _ => destruct (types t) eqn:Et end; try done.
    injection Em as <-. by eapply types_safe. }
  apply (flatten_safe n) in Ef; [|done]. apply forallb_forall. intros j Hj.
  induction Ef as [|f fs Hf Hfs IH]; [done|]. rewrite mjoin_fmap_cons, in_app_iff in Hj.
  destruct Hj; [by eapply field_params_wf|by apply IH].
Qed.

Lemma modelDoc_fine n m d : modelDoc types n m = Some d → safe_model m = true → fine d.
Proof.
  destruct m as [[t v]|]; simpl.
  - intros Hd Hv. by eapply (fieldDoc_fine types types_safe zero_number n).
  - intros [= <-] _. split_and!; [reflexivity|reflexivity|].
    apply conf_object; [reflexivity| | |]; done.
Qed.

Lemma content_wf ctype x :
  json_safe ctype = true → fine x → wf_json (JObj [contentDoc ctype x]) = true.
Proof.
  intros Hc (Hs & He & _). cbn [wf_json contentDoc forallb fst snd]. by rewrite Hc, Hs, He.
Qed.

Lemma responsesDoc_wf n r j :
  safe_route r → responsesDoc n r = Some j → wf_json j = true.
Proof.
  intros Hr. unfold responsesDoc. pose proof (safe_Response _ Hr) as Hm.
  destruct (rd_ResponseModel r) as [m|]; [|by intros [= <-]].
  destruct (modelDoc types n (Some m)) as [x|] eqn:E; [|done]. intros [= <-].
  pose proof (content_wf (B "application/json") x eq_refl (modelDoc_fine _ _ _ E Hm)) as Hc.
  cbn [wf_json forallb fst snd] in *. by rewrite Hc.
Qed.

Lemma requestDoc_wf n security r x :
  safe_route r → requestDoc n security r = Some x →
  wf_json (JObj x.1) = true ∧ forallb wf_json x.2 = true.
Proof.
  intros Hr. unfold requestDoc. pose proof (safe_Request _ Hr) as Hm.
  pose proof (safe_ContentType _ Hr) as Hct.
  destruct (rd_RequestModel r) as [m|]; [|by intros [= <-]].
  destruct (modelDoc types n (Some m)) as [d|] eqn:E; [|done]. cbn [mbind option_bind].
  destruct (metaDocs n (Some m) _) as [ps|] eqn:Eps; [|done]. intros [= <-]. cbn [fst snd].
  split; [|by eapply metaDocs_wf].
  assert (json_safe (match rd_ContentType r with [] => B "application/json" | _ => rd_ContentType r end) = true)
    as Hc' by by destruct (rd_ContentType r).
  pose proof (content_wf _ d Hc' (modelDoc_fine _ _ _ E Hm)) as Hc.
  destruct (rd_ContentType r); cbn [wf_json forallb fst snd] in *; by rewrite Hc.
Qed.

Lemma wf_object_app a b : wf_json (JObj (a ++ b)) = wf_json (JObj a) && wf_json (JObj b).
Proof. apply forallb_app. Qed.

Lemma operationDoc_wf n security r op :
  json_safe security = true → safe_route r → operationDoc n security r = Some op →
  json_safe op.1 = true ∧ wf_json op.2 = true.
Proof.
  intros Hsec Hr. unfold operationDoc.
  destruct (responsesDoc n r) as [resp|] eqn:E1; [|done]. cbn [mbind option_bind].
  destruct (requestDoc n security r) as [x|] eqn:E2; [|done]. intros [= <-].
  pose proof (responsesDoc_wf _ _ _ Hr E1) as H1. destruct (requestDoc_wf _ _ _ _ Hr E2) as [H2 H3].
  split; [by apply plain_safe, plain_ToLower, safe_Method|]. cbn [snd].
  assert (json_safe (summary_of r) = true) as Hsum.
  { unfold summary_of. pose proof (safe_Summary _ Hr). destruct (rd_Summary r); [|done].
    apply plain_safe. rewrite !plain_app, plain_ToUpper, safe_Path; [done|done|by apply safe_Method]. }
  assert (wf_json (JArr (JStr <$> tags_of r)) = true) as Htags.
  { apply forallb_forall. intros j (t & -> & Ht)%in_map_iff'. unfold tags_of in Ht.
    pose proof (safe_Tags _ Hr) as Hs. rewrite Forall_forall in Hs. 
    destruct (rd_Tags r) as [|t0 l]; [by destruct Ht as [<-|[]]|]. by apply Hs, list_elem_of_In. }
  assert (forallb wf_json (x.2 ++ (pathDoc <$> extractPathParams (rd_Path r))) = true) as Hps.
  { rewrite forallb_app, H3. apply forallb_forall. intros j (p & -> & Hp)%in_map_iff'.
    apply pathDoc_wf. eapply plain_params; [|done]. by apply safe_Path. }
  assert (wf_json (JObj (securityDoc security r)) = true) as Hs.
  { unfold securityDoc. destruct (rd_NoAuth r); [reflexivity|]. destruct security as [|c s]; [done|].
    cbn [wf_json forallb fst snd]. by rewrite Hsec. }
  assert (wf_json (JObj ([(B "summary", JStr (summary_of r)); (B "tags", JArr (JStr <$> tags_of r))] ++
            match x.2 ++ (pathDoc <$> extractPathParams (rd_Path r)) with
            | [] => []
            | _ => [(B "parameters", JArr (x.2 ++ (pathDoc <$> extractPathParams (rd_Path r))))]
            end ++ [(B "responses", resp)] ++ x.1 ++ securityDoc security r)) = true) as Hall; [|exact Hall].
  rewrite !wf_object_app, H2, Hs, !andb_true_r, !andb_true_iff. split_and!.
  - cbn [wf_json forallb fst snd] in *. by rewrite Hsum, Htags.
  - destruct (x.2 ++ _) as [|p ps]; [done|]. cbn [wf_json forallb fst snd] in *. by rewrite Hps.
  - cbn [wf_json forallb fst snd]. by rewrite H1.
Qed.

Definition safe_op (x : bytes * (bytes * json)) : Prop :=
  json_safe x.1 = true ∧ json_safe x.2.1 = true ∧ wf_json x.2.2 = true.

Lemma operations_safe n security routes ops :
  json_safe security = true → Forall safe_route routes → operations n security routes = Some ops →
  Forall safe_op ops.
Proof.
  intros Hsec Hr. revert ops. induction Hr as [|r routes Hr Hrs IH]; intros ops; cbn [operations];
    [by intros [= <-]|].
  destruct (operationDoc n security r) as [op|] eqn:E; [|done]. cbn [mbind option_bind].
  destruct (operations n security routes) as [ops'|]; [|done]. intros [= <-].
  constructor; [|by apply IH]. destruct (operationDoc_wf _ _ _ _ Hsec Hr E) as [H1 H2].
  split_and!; [|done|done]. by apply plain_safe, plain_toOpenAPIPath, safe_Path.
Qed.

Lemma first_keys_In {X} seen (l : list (bytes * X)) k : In k (first_keys seen l) → In k l.*1.
Proof.
  revert seen. induction l as [|[k' x] l IH]; intros seen; [done|]. cbn [first_keys fmap list_fmap fst].
  destruct (existsb (beqb k') seen); [intros Hk; right; by eapply IH|].
  intros [<-|Hk]; [by left|right; by eapply IH].
Qed.
Lemma values_of_In {X} k (l : list (bytes * X)) x : In x (values_of k l) ↔ In (k, x) l.
Proof.
  unfold values_of. rewrite <- !list_elem_of_In, list_elem_of_omap. split.
  - intros ([k' y] & Hin & Hy). cbn [fst snd] in Hy. destruct (beqb k' k) eqn:E; [|done].
    apply beqb_eq in E as ->. by injection Hy as ->.
  - intros Hin. exists (k, x). cbn [fst snd]. by rewrite beqb_refl.
Qed.

Lemma pathsDoc_wf ops : Forall safe_op ops → wf_json (pathsDoc ops) = true.
Proof.
  rewrite Forall_forall. intros Hops. unfold pathsDoc, group. apply forallb_forall.
  intros kv (kl & -> & Hkl)%in_map_iff'. apply in_map_iff' in Hkl as (k & -> & Hk). cbn [fst snd].
  apply andb_true_iff. split.
  - apply first_keys_In, in_map_iff in Hk as ([k' op] & <- & Hin). by apply (Hops _), list_elem_of_In.
  - apply forallb_forall. intros op Hop%values_of_In%list_elem_of_In%Hops.
    destruct Hop as (_ & H1 & H2). cbn [fst snd] in *. by rewrite H1.
Qed.

Lemma components_wf security :
  json_safe security = true → wf_json (JObj (componentsDoc security)) = true.
Proof.
  intros Hs. unfold componentsDoc, scheme_of.
  destruct (beqb security SecurityBearer), (beqb security SecurityAPIKey), (beqb security SecurityBasic);
    try done; cbn [wf_json forallb fst snd]; by rewrite Hs.
Qed.

(** The generator's text denotes the document, and is produced exactly when the
    document is. *)
Lemma GenerateSchema_denotes n title description routes security :
  json_safe title = true → json_safe description = true →
  quoted security → json_safe security = true → Forall safe_route routes →
  parse_json <$> GenerateSchema types n title description routes security =
  Some <$> document n title description routes security.
Proof.
  intros Ht Hd Hq Hs Hr. rewrite GenerateSchema_render; [|done|].
  2: { eapply Forall_impl; [done|]. intros r. apply safe_route_tags. }
  unfold document. destruct (operations n security routes) as [ops|] eqn:E; [|done].
  cbn [fmap option_fmap option_map mbind option_bind]. f_equal. apply (outer_denotes (infoDoc title description)).
  - assert (wf_json (infoDoc title description) = true) as Hi.
    { unfold infoDoc. rewrite !wf_object_app. cbn [wf_json forallb fst snd]. rewrite Ht.
      destruct description; [done|]. cbn [desc_member forallb fst snd wf_json]. by rewrite Hd. }
    rewrite wf_object_app, components_wf, andb_true_r by done.
    cbn [wf_json forallb fst snd]. rewrite Hi.
    by rewrite pathsDoc_wf by (by eapply operations_safe).
  - unfold componentsDoc. destruct (scheme_of security); [right; by eexists|by left].
Qed.
End document.
