(* ===== verification/OpenApiProps.v ===== *)
(** * Properties of the OpenAPI generator *)

From S2P Require Import Prelude GoStrings Node Pattern Quote Json OpenApi OpenApiTheory OpenApiDoc.

(** ** Loops that may not return *)

Section loops.
Context {X A : Type}.

Lemma loop_total (f : nat → X → A → option A) i l a :
  (∀ i x a, In x l → is_Some (f i x a)) → is_Some (loop f i l a).
Proof.
  revert i a. induction l as [|x l IH]; intros i a Hf; simpl; [by eexists|].
  destruct (Hf i x a) as [b ->]; [by left|]. apply IH. intros j y c Hy. apply Hf. by right.
Qed.

Lemma loop_each (f : nat → X → A → option A) i l a x :
  is_Some (loop f i l a) → In x l → ∃ j b, is_Some (f j x b).
Proof.
  revert i a. induction l as [|y l IH]; intros i a Hl; [done|]. simpl in Hl.
  destruct (f i y a) as [b|] eqn:E; [|by destruct Hl].
  intros [->|Hx]; [exists i, a; by rewrite E|]. by eapply IH.
Qed.

Lemma loop_mono (f g : nat → X → A → option A) i l a r :
  (∀ i x a b, f i x a = Some b → g i x a = Some b) → loop f i l a = Some r → loop g i l a = Some r.
Proof.
  intros Hfg. revert i a. induction l as [|x l IH]; intros i a; simpl; [done|].
  destruct (f i x a) as [b|] eqn:E; [|done]. rewrite (Hfg _ _ _ _ E). apply IH.
Qed.

(** One bound for the elements of a list. *)
Lemma list_bound (P : X → nat → Prop) l :
  (∀ x, In x l → ∃ n, ∀ m, n ≤ m → P x m) → ∃ n, ∀ x m, In x l → n ≤ m → P x m.
Proof.
  induction l as [|x l IH]; intros Hl; [by exists 0|].
  destruct (Hl x) as [n Hn]; [by left|]. destruct IH as [k Hk]; [intros y Hy; apply Hl; by right|].
  exists (Nat.max n k). intros y m [<-|Hy] Hm; [apply Hn; lia|apply Hk; [done|lia]].
Qed.
End loops.

(** ** When the generator returns *)

Section termination.
Context `{U : Unicode} `{Fl : GoFloat} (types : tid → rtype).

(** The types a description of [t] goes on to describe: the element of a slice or map,
    the types of the documented fields, the embedded structs; one pointer is followed. *)
Definition base (t : tid) : tid := elem_if types ptr_elem t.
Definition documented (f : sfield) : Prop := is_meta f = false ∧ jsonName f ≠ B "-".

Inductive visits (t : tid) : tid → Prop :=
  | visits_slice e : types (base t) = TSlice e → visits t e
  | visits_map sk e : types (base t) = TMap sk e → visits t e
  | visits_field fs f :
      types (base t) = TStruct fs → In f fs → embedded types f = None → documented f →
      visits t (sf_Type f)
  | visits_embedded fs f fs' :
      types (base t) = TStruct fs → In f fs → embedded types f = Some fs' → visits t (sf_Type f).

(** No infinite chain of visits starts from [t]. *)
Definition well_founded_type (t : tid) : Prop := Acc (λ u t, visits t u) t.

Lemma indirect_base t v : (indirect types t v).1 = base t.
Proof. unfold indirect, base, elem_if. by destruct (types t). Qed.

Lemma embedded_base f fs :
  embedded types f = Some fs → types (base (sf_Type f)) = TStruct fs.
Proof.
  unfold embedded, base, elem_if. destruct (sf_Anonymous f); [|done].
  destruct (types (sf_Type f)) eqn:E; try done. intros [= <-]. simpl. by rewrite E.
Qed.

(** The loop of [reflectStructRecursive], the recursive calls folded. *)
Lemma reflectStructRecursive_S n fs v ps :
  reflectStructRecursive types (S n) fs v ps =
  loop (λ i f ps,
    match embedded types f with
    | Some fs => reflectStructRecursive types n fs (v_Field v i) ps
    | None =>
        if is_meta f then Some ps
        else if beqb (jsonName f) (B "-") then Some ps
        else
          x ← reflectField types n (sf_Type f) (v_Field v i) (tag_desc f);
          Some (mkProps (schemaProps ps ++ [Quote (jsonName f) ++ B ":" ++ x.1])
                        (exampleProps ps ++ [Quote (jsonName f) ++ B ":" ++ x.2])
                        (if is_required f then required ps ++ [Quote (jsonName f)]
                         else required ps))
    end) 0 fs ps.
Proof. reflexivity. Qed.

Lemma reflect_mono n :
  (∀ t v d r m, n ≤ m → reflectField types n t v d = Some r → reflectField types m t v d = Some r) ∧
  (∀ fs v ps r m, n ≤ m → reflectStructRecursive types n fs v ps = Some r →
                  reflectStructRecursive types m fs v ps = Some r).
Proof.
  induction n as [|n [IHf IHs]]; [done|]. split.
  - intros t v d r [|m] Hm; [lia|]. cbn [reflectField].
    destruct (indirect types t v) as [t' v']. destruct (types t') as [| | | | |e|sk e|fs|]; try done.
    + destruct (reflectField types n e GZero []) as [x|] eqn:E; [|done].
      rewrite (IHf e GZero [] x m) by (done || lia). done.
    + destruct (reflectField types n e GZero []) as [x|] eqn:E; [|done].
      rewrite (IHf e GZero [] x m) by (done || lia). cbn [mbind option_bind].
      destruct (v_entries v') as [|kv l]; [done|].
      destruct (loop _ 0 (kv :: l) []) as [parts|] eqn:El; [|done]. cbn [mbind option_bind].
      intros [= <-].
      match goal with |- (loop ?g _ _ _ ≫= _) = _ =>
        assert (loop g 0 (kv :: l) [] = Some parts) as ->; [|done] end.
      refine (loop_mono _ _ _ _ _ _ _ El). intros ? kv' a b. destruct sk; [|done].
      destruct (reflectField types n e kv'.2 []) as [y|] eqn:E'; [|done].
      by rewrite (IHf e kv'.2 [] y m) by (done || lia).
    + change (reflectStruct <$> reflectStructRecursive types n fs v' (mkProps [] [] []) = Some r →
              reflectStruct <$> reflectStructRecursive types m fs v' (mkProps [] [] []) = Some r).
      destruct (reflectStructRecursive types n fs v' (mkProps [] [] [])) as [ps|] eqn:E; [|done].
      rewrite (IHs fs v' _ ps m) by (done || lia). done.
  - intros fs v ps r [|m] Hm; [lia|]. rewrite !reflectStructRecursive_S. apply loop_mono.
    intros i f a b. destruct (embedded types f); [apply IHs; lia|].
    destruct (is_meta f); [done|]. destruct (beqb (jsonName f) (B "-")); [done|].
    destruct (reflectField types n (sf_Type f) (v_Field v i) (tag_desc f)) as [y|] eqn:E'; [|done].
    by rewrite (IHf _ _ _ y m) by (done || lia).
Qed.

(** Enough fuel for a type whose visits end, whatever the value. *)
Definition enough (t : tid) (m : nat) : Prop :=
  (∀ v d, is_Some (reflectField types m t v d)) ∧
  (∀ fs v ps, types (base t) = TStruct fs → is_Some (reflectStructRecursive types m fs v ps)).

Definition relevant (f : sfield) : Prop := is_Some (embedded types f) ∨ documented f.

Lemma visits_relevant t fs f :
  types (base t) = TStruct fs → In f fs → relevant f → visits t (sf_Type f).
Proof.
  intros Ht Hf Hr. destruct (embedded types f) eqn:E; [by eapply visits_embedded|].
  destruct Hr as [Hr|Hr]; [by rewrite E in Hr; destruct Hr|]. by eapply visits_field.
Qed.

Lemma enough_struct t fs m :
  types (base t) = TStruct fs → (∀ f, In f fs → relevant f → enough (sf_Type f) m) →
  ∀ v ps, is_Some (reflectStructRecursive types (S m) fs v ps).
Proof.
  intros Ht Hf v ps. rewrite reflectStructRecursive_S. apply loop_total. intros i f a Hin.
  destruct (embedded types f) as [fs'|] eqn:He.
  - apply (Hf f Hin); [left; by eexists|]. by apply embedded_base.
  - destruct (is_meta f) eqn:Hm; [by eexists|].
    destruct (beqb (jsonName f) (B "-")) eqn:Hj; [by eexists|]. apply beqb_neq in Hj.
    destruct (Hf f Hin) as [Hf' _]; [by right|].
    destruct (Hf' (v_Field v i) (tag_desc f)) as [x ->]. by eexists.
Qed.

Lemma enough_fuel t : well_founded_type t → ∃ n, ∀ m, n ≤ m → enough t m.
Proof.
  induction 1 as [t _ IH].
  assert (∃ n, ∀ m, n ≤ m →
    match types (base t) with
    | TStruct fs => ∀ f, In f fs → relevant f → enough (sf_Type f) m
    | TSlice e | TMap _ e => enough e m
    | _ => True
    end) as [n Hn].
  { destruct (types (base t)) as [| | | | |e|sk e|fs|] eqn:Ht; try by exists 0.
    - apply IH. by apply visits_slice.
    - apply IH. by eapply visits_map.
    - destruct (list_bound (λ f m, relevant f → enough (sf_Type f) m) fs) as [n Hn].
      + intros f Hf. destruct (embedded types f) eqn:He; [|destruct (is_meta f) eqn:Hm;
          [|destruct (beqb (jsonName f) (B "-")) eqn:Hj]].
        * destruct (IH (sf_Type f)) as [k Hk]; [by eapply visits_embedded|]. exists k. auto.
        * exists 0. intros m _ [[? ?]|[? ?]]; congruence.
        * apply beqb_eq in Hj. exists 0. intros m _ [[? ?]|[? ?]]; congruence.
        * apply beqb_neq in Hj.
          destruct (IH (sf_Type f)) as [k Hk]; [by eapply visits_field|]. exists k. auto.
      + exists n. intros m Hm f Hf. by apply Hn. }
  exists (S (S n)). intros [|m] Hm; [lia|]. split.
  - intros v d. cbn [reflectField]. pose proof (indirect_base t v) as Hb.
    destruct (indirect types t v) as [t' v']. cbn [fst] in Hb. subst t'.
    destruct (types (base t)) as [| | | | |e|sk e|fs|] eqn:Ht; try by eexists.
    + destruct (Hn m) as [He _]; [lia|]. destruct (He GZero []) as [x ->]. by eexists.
    + destruct (Hn m) as [He _]; [lia|]. destruct (He GZero []) as [x ->].
      cbn [mbind option_bind]. destruct (v_entries v') as [|kv l]; [by eexists|].
      assert (∀ a, is_Some (loop (λ _ kv parts,
                if sk then x ← reflectField types m e kv.2 [];
                           Some (parts ++ [Quote kv.1 ++ B ":" ++ x.2])
                else Some parts) 0 (kv :: l) a)) as Hl.
      { intros a. apply loop_total. intros _ kv' b _. destruct sk; [|by eexists].
        destruct (He kv'.2 []) as [y ->]. by eexists. }
      destruct (Hl []) as [y ->]. by eexists.
    + destruct m as [|m]; [lia|]. destruct (enough_struct t fs m Ht) with (v := v') (ps := mkProps [] [] []) as [x Hx];
        [apply Hn; lia|].
      change (is_Some (reflectStruct <$> reflectStructRecursive types (S m) fs v' (mkProps [] [] []))).
      rewrite Hx. by eexists.
  - intros fs v ps Ht. specialize (Hn m). rewrite Ht in Hn.
    eapply enough_struct; [done|]. apply Hn. lia.
Qed.

Lemma returns_well_founded n :
  (∀ t v d, is_Some (reflectField types n t v d) → well_founded_type t) ∧
  (∀ t fs v ps, types (base t) = TStruct fs → is_Some (reflectStructRecursive types n fs v ps) →
                well_founded_type t).
Proof.
  induction n as [|n [IHf IHs]]; [split; [intros t v d [x [=]]|intros t fs v ps _ [x [=]]]|]. split.
  - intros t v d. cbn [reflectField]. pose proof (indirect_base t v) as Hb.
    destruct (indirect types t v) as [t' v']. cbn [fst] in Hb. subst t'. intros Hr. 
    destruct (types (base t)) as [| | | | |e|sk e|fs|] eqn:Ht;
      try (constructor; intros u Hu; inversion Hu; congruence).
    + destruct (reflectField types n e GZero []) as [x|] eqn:E; [|by destruct Hr].
      assert (well_founded_type e) as He by (apply (IHf e GZero []); by rewrite E).
      constructor. intros u Hu. inversion Hu; subst; try congruence.
      by assert (u = e) as -> by congruence.
    + destruct (reflectField types n e GZero []) as [x|] eqn:E; [|by destruct Hr].
      assert (well_founded_type e) as He by (apply (IHf e GZero []); by rewrite E).
      constructor. intros u Hu. inversion Hu; subst; try congruence.
      by assert (u = e) as -> by congruence.
    + change (is_Some (reflectStruct <$> reflectStructRecursive types n fs v' (mkProps [] [] []))) in Hr.
      eapply (IHs t fs v' (mkProps [] [] [])); [done|].
      by destruct (reflectStructRecursive types n fs v' (mkProps [] [] [])); [|destruct Hr].
  - intros t fs v ps Ht. rewrite reflectStructRecursive_S. intros Hl. constructor.
    intros u Hu. 
    inversion Hu as [e He|sk e He|fs' f He Hf Hemb [Hm Hj]|fs' f fs'' He Hf Hemb]; try congruence;
      rewrite Ht in He; injection He as <-; destruct (loop_each _ _ _ _ _ Hl Hf) as (j & a & Hfa).
    + rewrite Hemb, Hm in Hfa. apply beqb_neq in Hj. rewrite Hj in Hfa.
      destruct (reflectField types n (sf_Type f) (v_Field v j) (tag_desc f)) as [x|] eqn:E;
        [|by destruct Hfa]. apply (IHf _ (v_Field v j) (tag_desc f)). by rewrite E.
    + rewrite Hemb in Hfa. eapply IHs; [by apply embedded_base|done].
Qed.
End termination.

(** ** What the generator promises *)

Section props.
Context `{U : Unicode} `{Fl : GoFloat} (types : tid → rtype).

(** C30 Describing a model ends exactly when its type does not lead back to itself
    through the elements, fields and embedded structs the generator describes; then
    the answer does not depend on the fuel. Otherwise no amount of it is enough: in Go
    the recursion exhausts the stack. *)
Theorem reflectModel_terminates_iff t v :
  (∃ n r, ∀ m, n ≤ m → reflectModel types m (Some (t, v)) = Some r) ↔ well_founded_type types t.
Proof.
  split.
  - intros (n & r & Hn). eapply (proj1 (returns_well_founded types n) t v []).
    exists r. by apply (Hn n).
  - intros (n & Hn)%enough_fuel. destruct (Hn n) as [Hf _]; [lia|]. destruct (Hf v []) as [r Hr].
    exists n, r. intros m Hm. by eapply (proj1 (reflect_mono types n)).
Qed.

(** C29 The schema and the example the generator writes for a model are JSON, and the
    example conforms to the schema: types, required members, array items and map
    values, at every depth. This is so for models whose field names, descriptions, map keys
    and strings are text that [%q] writes as JSON does, that is without control characters
    JSON has no escape for, invalid UTF-8 and unprintable runes beyond 16 bits, whose tags
    for headers and queries are printable ASCII, and whose numbers, the zero
    float among them, [%g] and [%d] write as JSON numbers, not as NaN or an infinity. *)
Theorem example_conforms n m schema example :
  safe_types types → is_number (fmt_g fzero) = true → safe_model m = true →
  reflectModel types n m = Some (schema, example) →
  ∃ s x, parse_json schema = Some s ∧ parse_json example = Some x ∧ Conforms s x.
Proof.
  intros Ht Hz Hm Hr. rewrite reflectModel_render in Hr.
  destruct (modelDoc types n m) as [[s x]|] eqn:E; [|done]. injection Hr as <- <-.
  destruct (modelDoc_fine types Ht Hz _ _ _ E Hm) as (Hs & Hx & Hc). 
  exists s, x. by rewrite !parse_render.
Qed.

(** C28 The text of [GenerateSchema] denotes the OpenAPI document of the routes, and the
    generator returns exactly when that document exists. This is so for routes that can be
    written: paths and methods of printable ASCII, tags and a security scheme
    that need no escape, since the generator puts quotes around them itself, title,
    description, summaries and content types that [%q] writes as JSON does, and models as
    in [example_conforms]. *)
Theorem GenerateSchema_document n title description routes security :
  safe_types types → is_number (fmt_g fzero) = true →
  json_safe title = true → json_safe description = true →
  quoted security → json_safe security = true → Forall safe_route routes →
  parse_json <$> GenerateSchema types n title description routes security =
  Some <$> document types n title description routes security.
Proof. intros. by apply GenerateSchema_denotes. Qed.

(** *** The routes of the document *)

Lemma first_keys_NoDup {X} seen (l : list (bytes * X)) :
  NoDup (first_keys seen l) ∧ ∀ k, In k (first_keys seen l) ↔ In k l.*1 ∧ ¬ In k seen.
Proof.
  revert seen. induction l as [|[k x] l IH]; intros seen; cbn [first_keys fmap list_fmap fst].
  { split; [constructor|]. simpl. naive_solver. }
  destruct (existsb (beqb k) seen) eqn:E.
  - apply existsb_beqb_In in E. destruct (IH seen) as [Hn Hi]. split; [done|].
    intros k'. rewrite Hi. simpl. split; [naive_solver|]. intros [[<-|?] ?]; done.
  - assert (¬ In k seen) as Hk by (intros H%existsb_beqb_In; congruence).
    destruct (IH (seen ++ [k])) as [Hn Hi]. split.
    + constructor; [|done]. rewrite list_elem_of_In, Hi, in_app_iff. simpl. naive_solver.
    + intros k'. simpl. rewrite Hi, in_app_iff. simpl.
      destruct (decide (k = k')); naive_solver.
Qed.

Lemma operations_In n security routes ops p op :
  operations types n security routes = Some ops →
  In (p, op) ops ↔ ∃ r, In r routes ∧ toOpenAPIPath (rd_Path r) = p ∧
                        operationDoc types n security r = Some op.
Proof.
  revert ops. induction routes as [|r routes IH]; intros ops; cbn [operations].
  { intros [= <-]. simpl. naive_solver. }
  destruct (operationDoc types n security r) as [op'|] eqn:E; [|done]. cbn [mbind option_bind].
  destruct (operations types n security routes) as [ops'|]; [|done]. intros [= <-].
  simpl. rewrite IH by done. split.
  - intros [[= <- <-]|(r' & ? & ? & ?)]; [exists r; auto|exists r'; auto].
  - intros (r' & [<-|Hin] & Hp & Hop); [left; by simplify_eq|right; eauto].
Qed.

(** The document lists each path once, under it exactly the operations of the routes
    of that path: nothing is dropped, nothing is made up. *)
Theorem document_lists_routes n title description routes security doc :
  document types n title description routes security = Some (JObj doc) →
  ∃ paths, lookup_last (B "paths") doc = Some (JObj paths) ∧ NoDup paths.*1 ∧
    ∀ p op, (∃ ops, In (p, JObj ops) paths ∧ In op ops) ↔
            ∃ r, In r routes ∧ toOpenAPIPath (rd_Path r) = p ∧
                 operationDoc types n security r = Some op.
Proof.
  unfold document. destruct (operations types n security routes) as [ops|] eqn:E; [|done].
  intros [= <-]. exists ((λ kv, (kv.1, JObj kv.2)) <$> group ops). split_and!.
  - unfold componentsDoc. by destruct (scheme_of security).
  - unfold group. rewrite <- !list_fmap_compose.
    change (NoDup (id <$> first_keys [] ops)). rewrite list_fmap_id. apply first_keys_NoDup.
  - intros p op. rewrite <- (operations_In _ _ _ _ p op E). split.
    + intros (l & Hl & Hop). apply in_map_iff' in Hl as ([k l'] & [= -> ->] & Hk).
      apply in_map_iff' in Hk as (k' & [= -> ->] & _). by apply values_of_In.
    + intros Hin. exists (values_of p ops). split; [|by apply values_of_In].
      apply in_map_iff. exists (p, values_of p ops). split; [done|]. apply in_map_iff.
      exists p. split; [done|]. apply first_keys_NoDup. split; [|intros []].
      apply in_map_iff. by exists (p, op).
Qed.

Lemma lookup_last_app k a b :
  lookup_last k (a ++ b) = match lookup_last k b with Some x => Some x | None => lookup_last k a end.
Proof.
  induction b as [|[k' x] b IH] using rev_ind; [by rewrite app_nil_r|].
  rewrite app_assoc, !lookup_last_snoc. by destruct (beqb k' k).
Qed.

Definition members (j : json) : list (bytes * json) := match j with JObj m => m | _ => [] end.

(** What an operation says of its route: a route marked [NoAuth] asks for no scheme,
    any other for the configured one; the parameters of the path are declared. *)
Theorem operation_security n security r m op :
  operationDoc types n security r = Some (m, JObj op) →
  m = ToLower (rd_Method r) ∧
  lookup_last (B "security") op =
    (if rd_NoAuth r then Some (JArr [])
     else match security with [] => None | s => Some (JArr [JObj [(s, JArr [])]]) end) ∧
  (∀ p, In p (extractPathParams (rd_Path r)) →
     ∃ ps, lookup_last (B "parameters") op = Some (JArr ps) ∧ In (pathDoc p) ps).
Proof.
  unfold operationDoc. destruct (responsesDoc types n r) as [resp|]; [|done]. cbn [mbind option_bind].
  destruct (requestDoc types n security r) as [x|] eqn:Ex; [|done]. intros Heq%Some_inj.
  pose proof (f_equal fst Heq) as Hm. pose proof (f_equal (members ∘ snd) Heq) as Ho.
  unfold compose in Ho. cbn [fst snd members] in Hm, Ho. rewrite <- Hm, <- Ho. clear Heq Hm Ho.
  assert (∀ k, k = B "security" ∨ k = B "parameters" → lookup_last k x.1 = None) as Hreq.
  { unfold requestDoc in Ex. destruct (rd_RequestModel r); [|injection Ex as <-; done].
    destruct (modelDoc _ _ _); [|done]. cbn [mbind option_bind] in Ex.
    destruct (metaDocs _ _ _ _); [|done]. injection Ex as <-. by intros k [->| ->]. }
  split; [done|]. rewrite !lookup_last_app. split.
  - rewrite (Hreq (B "security")) by auto. unfold securityDoc.
    destruct (rd_NoAuth r); [done|]. destruct security; [|done]. by destruct (x.2 ++ _).
  - intros p Hp. exists (x.2 ++ (pathDoc <$> extractPathParams (rd_Path r))).
    assert (In (pathDoc p) (x.2 ++ (pathDoc <$> extractPathParams (rd_Path r)))) as Hin.
    { apply in_app_iff. right. by apply in_map. }
    split; [|done]. rewrite (Hreq (B "parameters")) by auto.
    assert (lookup_last (B "parameters") (securityDoc security r) = None) as ->.
    { unfold securityDoc. destruct (rd_NoAuth r); [done|]. by destruct security. }
    by destruct (x.2 ++ _).
Qed.
End props.

(** ** Documented and captured parameters

    The router reads a pattern character by character, the generator segment by
    segment. They see the same names when a parameter is a whole segment and a
    catch-all the last one. *)

(** The names a pattern binds, in order. *)
Definition keys (ts : list tok) : list bytes :=
  omap (λ t, match t with TParam k | TCatch k => Some k | TLit _ => None end) ts.

Definition literal_segment (s : bytes) : bool :=
  forallb (λ c, negb (Ascii.eqb c ":" || Ascii.eqb c "*")) s.
Fixpoint whole_segments (l : list bytes) : bool :=
  match l with
  | [] => true
  | s :: l =>
      (if HasPrefix s (B ":") then true
       else if HasPrefix s (B "*") then match l with [] => true | _ => false end
       else literal_segment s) && whole_segments l
  end.

Lemma literal_lit s : literal_segment s = true → lit s.
Proof.
  intros Hs c Hc%list_elem_of_In. unfold literal_segment in Hs. rewrite forallb_forall in Hs.
  specialize (Hs c Hc). apply negb_true_iff, orb_false_iff in Hs as [H1 H2].
  by apply Ascii.eqb_neq in H1, H2.
Qed.

Definition no_slash (s : bytes) : Prop := ∀ c, In c s → c ≠ "/"%char.

Lemma no_slash_cons c s : no_slash (c :: s) → c ≠ "/"%char ∧ no_slash s.
Proof. intros Hs. split; [apply Hs; by left|intros d Hd; apply Hs; by right]. Qed.

Lemma seg_app s r :
  no_slash s → take_seg (s ++ "/"%char :: r) = s ∧ drop_seg (s ++ "/"%char :: r) = "/"%char :: r.
Proof.
  induction s as [|c s IH]; [done|]. intros [Hc Hs]%no_slash_cons. simpl.
  apply Ascii.eqb_neq in Hc. rewrite Hc. destruct (IH Hs) as [-> ->]. done.
Qed.
Lemma seg_end s : no_slash s → take_seg s = s ∧ drop_seg s = [].
Proof.
  induction s as [|c s IH]; [done|]. intros [Hc Hs]%no_slash_cons. simpl.
  apply Ascii.eqb_neq in Hc. rewrite Hc. destruct (IH Hs) as [-> ->]. done.
Qed.

Lemma keys_app a b : keys (a ++ b) = keys a ++ keys b.
Proof. apply omap_app. Qed.
Lemma keys_lits s : keys (TLit <$> s) = [].
Proof. by induction s. Qed.

Lemma segment_cases s :
  (∃ x, s = ":"%char :: x ∧ segment_param s = Some x) ∨
  (∃ x, s = "*"%char :: x ∧ segment_param s = Some x) ∨
  (HasPrefix s (B ":") = false ∧ HasPrefix s (B "*") = false ∧ segment_param s = None).
Proof.
  unfold segment_param. destruct (HasPrefix s (B ":")) eqn:E1; [|destruct (HasPrefix s (B "*")) eqn:E2].
  - apply HasPrefix_spec in E1 as [x ->]. left. by exists x.
  - apply HasPrefix_spec in E2 as [x ->]. right. left. by exists x.
  - by right; right.
Qed.

Lemma pattern_keys l :
  l ≠ [] → Forall no_slash l → whole_segments l = true →
  keys (pattern (Join l (B "/"))) = omap segment_param l.
Proof.
  induction l as [|s l IH]; [done|]. intros _ [Hs Hl]%Forall_cons Hw. cbn [whole_segments] in Hw.
  apply andb_true_iff in Hw as [Hseg Hw].
  assert (∀ r, keys (pattern ("/"%char :: r)) = keys (pattern r)) as Hslash by done.
  change (omap segment_param (s :: l)) with
    (match segment_param s with Some x => x :: omap segment_param l | None => omap segment_param l end).
  destruct (segment_cases s) as [(x & -> & ->)|[(x & -> & ->)|(H1 & H2 & ->)]].
  - apply no_slash_cons in Hs as [_ Hs]. destruct l as [|s2 l].
    + change (Join [":"%char :: x] (B "/")) with (":"%char :: x). rewrite pattern_param.
      by destruct (seg_end x Hs) as [-> ->].
    + change (Join ((":"%char :: x) :: s2 :: l) (B "/")) with
        (":"%char :: (x ++ "/"%char :: Join (s2 :: l) (B "/"))).
      rewrite pattern_param. destruct (seg_app x (Join (s2 :: l) (B "/")) Hs) as [-> ->].
      change (keys (TParam x :: pattern ("/"%char :: Join (s2 :: l) (B "/"))))
        with (x :: keys (pattern ("/"%char :: Join (s2 :: l) (B "/")))).
      by rewrite Hslash, IH.
  - cbn in Hseg. destruct l; done.
  - rewrite H1, H2 in Hseg. apply literal_lit in Hseg. destruct l as [|s2 l].
    + change (Join [s] (B "/")) with s. rewrite <- (app_nil_r s), pattern_lit by done.
      by rewrite keys_app, keys_lits.
    + change (Join (s :: s2 :: l) (B "/")) with (s ++ "/"%char :: Join (s2 :: l) (B "/")).
      rewrite pattern_lit, keys_app, keys_lits by done. cbn [app]. by rewrite Hslash, IH.
Qed.

Lemma Split_no_slash s : Forall no_slash (Split s "/").
Proof.
  induction s as [|c s IH]; simpl; [repeat constructor; by intros c|].
  destruct (Ascii.eqb_spec c "/") as [->|Hc]; [constructor; [by intros d|done]|].
  destruct (Split s "/") as [|x l]; [repeat constructor; by intros d [<-|[]]|].
  apply Forall_cons in IH as [Hx Hl]. constructor; [|done]. intros d [<-|Hd]; [done|by apply Hx].
Qed.

(** A catch-all ends a pattern, so a match binds every name of it. *)
Fixpoint catch_last (ts : list tok) : Prop :=
  match ts with
  | [] => True
  | TCatch _ :: ts => ts = []
  | _ :: ts => catch_last ts
  end.
Lemma tokens_catch_last path skip : catch_last (parse skip path).
Proof.
  revert skip. induction path as [|c p IH]; intros skip; [done|]. simpl.
  destruct (skip && _); [apply IH|]. destruct (Ascii.eqb c ":"); [apply IH|].
  destruct (Ascii.eqb c "*"); [done|apply IH].
Qed.
Lemma tmatch_keys ci ts req caps :
  catch_last ts → tmatch ci ts req = Some caps → cap_key <$> caps = keys ts.
Proof.
  revert req caps. induction ts as [|[c|k|k] ts IH]; intros req caps Hc Hm; simpl in Hm.
  - destruct req; simplify_eq. done.
  - destruct req as [|x req]; [done|]. destruct (Ascii.eqb _ _); [|done]. by eapply IH.
  - destruct (take_seg req); [done|]. destruct (tmatch ci ts (drop_seg req)) as [vals|] eqn:E; [|done].
    simplify_eq/=. f_equal. by eapply IH.
  - simpl in Hc. subst. by simplify_eq.
Qed.

(** The names documented as path parameters are the names the router's pattern binds:
    whatever request matches, its captured values carry exactly these names, in this
    order. *)
Theorem documented_params path :
  whole_segments (Split path "/") = true →
  keys (pattern path) = extractPathParams path ∧
  ∀ ci req caps, tmatch ci (pattern path) req = Some caps →
    cap_key <$> caps = extractPathParams path.
Proof.
  intros Hw. assert (keys (pattern path) = extractPathParams path) as Hk.
  { rewrite <- (Join_Split path "/") at 1. change ["/"%char] with (B "/").
    apply pattern_keys; [apply Split_nonempty|apply Split_no_slash|done]. }
  split; [done|]. intros ci req caps Hm. rewrite <- Hk. eapply tmatch_keys; [|done].
  apply tokens_catch_last.
Qed.

(** ** Witnesses and examples *)

Module Demo.
#[global] Instance unicode : Unicode := {| uni_IsPrint := λ _, true |}.
#[global] Instance floats : GoFloat := {| float := Z; fzero := 0%Z; fmt_g := format_int |}.

(** [type User struct { Name string `json:"name" validate:"required" desc:"full name"`;
    Scores []int; Friends map[string]*Friend; Trace string `header:"X-Trace"` }],
    [type Friend struct { Email Email; Age uint }], [type Node struct { Next *Node }]. *)
Definition user_fields : list sfield :=
  [mkSField (B "Name") 0 false [] [] [] (B "name") (B "required") (B "full name");
   mkSField (B "Scores") 2 false [] [] [] [] [] [];
   mkSField (B "Friends") 4 false [] [] [] (B "friends,omitempty") [] [];
   mkSField (B "Trace") 0 false (B "X-Trace") [] [] [] [] []].
Definition next : sfield := mkSField (B "Next") 10 false [] [] [] [] [] [].
Definition types (t : tid) : rtype :=
  match t with
  | 0 => TString (B "string")
  | 1 => TInt
  | 2 => TSlice 1
  | 3 => TStruct user_fields
  | 4 => TMap true 5
  | 5 => TPtr 6
  | 6 => TStruct [mkSField (B "Email") 7 false [] [] [] (B ",omitempty") [] [];
                  mkSField (B "Age") 8 false [] [] [] [] [] (B "in years")]
  | 7 => TString (B "Email")
  | 9 => TStruct [next]
  | 10 => TPtr 9
  | _ => TOther
  end.
Definition user : gvalue :=
  GStruct [GString (B "Zangetsu"); GZero; GMap [(B "renji", GPtr None)]; GZero].

Definition route : RouteDoc :=
  mkRouteDoc (B "GET") (B "/users/:id") [] [B "users"] (Some (3, user)) None true false [].
Definition upload : RouteDoc :=
  mkRouteDoc (B "PUT") (B "/users/:id") (B "Rename") [] None (Some (3, user)) false false [].
Definition spec (tags : list bytes) : option bytes :=
  GenerateSchema types 10 (B "Users") []
    [mkRouteDoc (B "GET") (B "/users/:id") [] tags (Some (3, user)) None true false []; upload]
    SecurityBearer.

Lemma types_safe : safe_types types.
Proof.
  intros t fields Ht. do 11 (destruct t as [|t]; [simplify_eq/=; repeat constructor|]). done.
Qed.

(** All that a type visits, one type at a time. *)
Ltac visit :=
  constructor; intros ? Hv; inversion Hv; simplify_eq/=;
  repeat match goal with
         | H : _ ∨ _ |- _ => destruct H; simplify_eq/=
         | H : False |- _ => destruct H
         | H : documented _ |- _ => destruct H; simplify_eq/=
         end; clear.
Lemma user_well_founded : well_founded_type types 3.
Proof. do 5 try visit. Qed.

Definition user_text : bytes * bytes :=
  default ([], []) (reflectModel types 10 (Some (3, user))).
Definition user_doc : list (bytes * json) :=
  members (default JNull (document types 10 (B "Users") [] [route; upload] SecurityBearer)).

Lemma route_safe : safe_route route.
Proof. split; try reflexivity. repeat constructor. Qed.
Lemma upload_safe : safe_route upload.
Proof. split; try reflexivity. constructor. Qed.
End Demo.

Lemma example_conforms_witness :
  ∃ s x, parse_json Demo.user_text.1 = Some s ∧ parse_json Demo.user_text.2 = Some x ∧ Conforms s x.
Proof.
  apply (example_conforms Demo.types 10 (Some (3, Demo.user)));
    [exact Demo.types_safe|reflexivity|reflexivity|vm_compute; reflexivity].
Defined.

Lemma GenerateSchema_document_witness :
  let routes := [Demo.route; Demo.upload] in
  parse_json <$> GenerateSchema Demo.types 10 (B "Users") [] routes SecurityBearer =
  Some <$> document Demo.types 10 (B "Users") [] routes SecurityBearer.
Proof.
  intros routes. apply (GenerateSchema_document Demo.types 10 (B "Users") [] routes SecurityBearer);
    [exact Demo.types_safe|reflexivity|reflexivity|reflexivity|reflexivity|reflexivity|].
  constructor; [exact Demo.route_safe|]. constructor; [exact Demo.upload_safe|constructor].
Defined.

Lemma document_lists_routes_witness :
  ∃ paths, lookup_last (B "paths") Demo.user_doc = Some (JObj paths) ∧ NoDup paths.*1 ∧
    ∀ p op, (∃ ops, In (p, JObj ops) paths ∧ In op ops) ↔
            ∃ r, In r [Demo.route; Demo.upload] ∧ toOpenAPIPath (rd_Path r) = p ∧
                 operationDoc Demo.types 10 SecurityBearer r = Some op.
Proof.
  apply (document_lists_routes Demo.types 10 (B "Users") [] [Demo.route; Demo.upload] SecurityBearer
           Demo.user_doc). vm_compute. reflexivity.
Defined.

Lemma documented_params_witness :
  keys (pattern (B "/users/:id/files/*rest")) = extractPathParams (B "/users/:id/files/*rest") ∧
  ∀ ci req caps, tmatch ci (pattern (B "/users/:id/files/*rest")) req = Some caps →
    cap_key <$> caps = [B "id"; B "rest"].
Proof. apply (documented_params (B "/users/:id/files/*rest")). reflexivity. Defined.

(** A struct that points to itself, like a tree node: the generator never returns. *)
Example recursive_model_diverges n v : reflectModel Demo.types n (Some (9, v)) = None.
Proof.
  destruct (reflectModel Demo.types n (Some (9, v))) as [r|] eqn:E; [|done].
  exfalso. assert (well_founded_type Demo.types 9) as Hw.
  { apply reflectModel_terminates_iff with (v := v). exists n, r. intros m Hm.
    by eapply (proj1 (reflect_mono Demo.types n)). }
  assert (∀ t, Demo.types (base Demo.types t) = TStruct [Demo.next] → visits Demo.types t 10) as Hv.
  { intros t Ht. by apply (visits_field Demo.types t _ Demo.next Ht); [left|..|split]. }
  pose proof (Hv 9 eq_refl) as H1. pose proof (Hv 10 eq_refl) as H2.
  assert (∀ k, Acc (λ u t, visits Demo.types t u) k → k ≠ 10) as Hk.
  { induction 1 as [k _ IH]. intros ->. by apply (IH 10). }
  by apply (Hk 10); [apply (Acc_inv Hw)|].
Qed.

(** A json tag that only sets an option leaves the name to the field for
    encoding/json; here the property is called [""]. *)
Example option_only_tag_is_nameless :
  jsonName (mkSField (B "Email") 7 false [] [] [] (B ",omitempty") [] []) = [].
Proof. reflexivity. Qed.

(** The replacement hits the host name: the style sheet is asked from another domain. *)
Example default_css_host :
  ScalarHTML (B "t") (B "/x") false [] =
  Q "<!doctype html>
<html>
  <head>
    <title>t</title>
    <meta charset='utf-8' />
    <meta name='viewport' content='width=device-width, initial-scale=1' />
    <link rel='stylesheet' href='https://cdn.cssdelivr.net/npm/@scalar/api-reference@latest/dist/browser/standalone.js' />
  </head>
  <body>
    <script id='api-reference' data-url='/x'></script>
    <script src='https://cdn.jsdelivr.net/npm/@scalar/api-reference@latest/dist/browser/standalone.js'></script>
  </body>
</html>".
Proof. vm_compute. reflexivity. Qed.

(** Tags are put between quotes without escaping: one with a quote in it breaks the
    whole document; so does a control character in a title, which [%q] writes as
    ['\x01']. *)
Example quoted_tag_breaks_the_document : parse_json <$> Demo.spec [Q "a'b"] = Some None.
Proof. vm_compute. reflexivity. Qed.
Example control_character_breaks_the_document :
  parse_json <$> GenerateSchema Demo.types 10 [byte_of 1] [] [] SecurityNone = Some None.
Proof. vm_compute. reflexivity. Qed.

(** A parameter inside a segment is captured by the router and not documented. *)
Example inner_param_undocumented :
  keys (pattern (B "/files/v:version")) = [B "version"] ∧
  extractPathParams (B "/files/v:version") = [] ∧
  toOpenAPIPath (B "/files/v:version") = B "/files/v:version".
Proof. vm_compute. auto. Qed.

(** The sample strings are chosen by the name of the type, not of the field. *)
Example email_field_is_a_string :
  reflectModel Demo.types 3 (Some (0, GZero)) = Some (Q "{'type':'string'}", Q "'string'") ∧
  reflectModel Demo.types 3 (Some (7, GZero)) = Some (Q "{'type':'string'}", Q "'user@example.com'").
Proof. vm_compute. auto. Qed.

(** Unsigned numbers are described as strings. *)
Example unsigned_is_a_string :
  reflectModel Demo.types 3 (Some (8, GOther)) = Some (Q "{'type':'string'}", Q "''").
Proof. vm_compute. auto. Qed.
