(* ===== verification/Protocol.v ===== *)
(** * What the protocol servers share ([protocol/base.go], [protocol/extensions.go])

    The configuration every protocol embeds, [fasthttp.RequestHandler]s, and the
    interface of the servers that take part in unified authentication. *)

From S2P Require Import Prelude GoStrings Effects FastHTTP Core Middleware Jwt.

(** [type ProtocolConfig struct] *)
Record ProtocolConfig := mkProtocolConfig {
  Enabled : bool;
  Port : Z;
  Address : bytes;
  TLSCertFile : bytes;
  TLSKeyFile : bytes;
}.
Definition TLSEnabled (c : ProtocolConfig) : bool :=
  negb (beqb (TLSCertFile c) []) && negb (beqb (TLSKeyFile c) []).

(** The two lines every [SetDefaults] starts with, for the default port [p]. *)
Definition base_defaults (p : Z) (c : ProtocolConfig) : ProtocolConfig :=
  mkProtocolConfig (Enabled c) (if (Port c =? 0)%Z then p else Port c)
    (match Address c with [] => B "0.0.0.0" | a => a end) (TLSCertFile c) (TLSKeyFile c).

(** [if x == 0 { x = d }] *)
Definition or_default (x d : Z) : Z := if (x =? 0)%Z then d else x.

(** [fasthttp.RequestHandler] over the shared state. *)
Abbreviation RequestHandler St := (M (RequestCtx * St) unit).

Section handlers.
Context `{F : FastHTTP} {St : Type}.

Definition rh_response (f : Response → Response) : RequestHandler St :=
  modify (λ s, (on_response f s.1, s.2)).
(** [ctx.Error(msg, code)] *)
Definition ctx_Error (msg : bytes) (code : Z) : RequestHandler St :=
  rh_response (res_Error msg code).
(** [&core.Context{RequestCtx: ctx}] *)
Definition fresh_ctx (ctx : RequestCtx) : Ctx := mkCtx _ ctx None None None None.
End handlers.

(** The interface [protocol.AuthAware]. *)
Class AuthAware (H : Type) := {
  set_secret : bytes → H → H;
  set_lookup : bytes → H → H;
  get_secret : H → bytes;
  get_lookup : H → bytes;
  get_set_secret s h : get_secret (set_secret s h) = s;
  get_set_lookup l h : get_lookup (set_lookup l h) = l;
  get_secret_lookup l h : get_secret (set_lookup l h) = get_secret h;
}.

Section auth.
Context `{AuthAware H}.

(** [aa.SetAuthSecret(s); aa.SetAuthLookup(l)] *)
Definition set_auth (s l : bytes) (h : H) : H := set_lookup l (set_secret s h).
Definition has_auth (s l : bytes) (h : H) : Prop := get_secret h = s ∧ get_lookup h = l.

Lemma set_auth_has s l h : has_auth s l (set_auth s l h).
Proof. split; unfold set_auth; by rewrite ?get_secret_lookup, ?get_set_secret, ?get_set_lookup. Qed.
End auth.

Section token.
Context `{F : FastHTTP} `{L : JWTLib}.

(** The request carries, where [lookup] says, a token that [secret] vouches for. *)
Definition carries_token (t : Z) (lookup secret : bytes) (ctx : RequestCtx) : Prop :=
  ∃ c, authentic t (ExtractToken (fresh_ctx ctx) lookup) secret c.

Lemma ValidateJWT_carries `{!JWTLaws L} t lookup secret ctx :
  (∃ c, ValidateJWT t (ExtractToken (fresh_ctx ctx) lookup) secret = inl c) ↔
  carries_token t lookup secret ctx.
Proof. unfold carries_token. by setoid_rewrite ValidateJWT_inl. Qed.
#[export] Instance carries_token_dec `{!JWTLaws L} t lookup secret ctx : Decision (carries_token t lookup secret ctx).
Proof.
  destruct (ValidateJWT t (ExtractToken (fresh_ctx ctx) lookup) secret) as [c|msg] eqn:Hv.
  - left. apply ValidateJWT_carries. by exists c.
  - right. intros [c Hc]%ValidateJWT_carries. congruence.
Defined.
End token.
