(* ===== verification/Mcp.v ===== *)
(** * The MCP server ([protocol/mcp/server.go], [config.go])

    JSON-RPC over TCP: the size cap on what a request may read, the registries, the
    life cycle, and the requests of one connection. The listener, JSON decoding and
    the time are arguments. *)

From S2P Require Import Prelude GoStrings Effects FastHTTP Core Middleware Jwt Protocol.

(** ** [limitedReader] *)

Record limitedReader := mkLimited { lr_n : Z; lr_max : Z }.

Inductive read_error := RequestTooLarge | Underlying (e : error).

(** [Read(p)] with [len p]: [r] answers the underlying read for the length it is
    offered. *)
Definition Read (r : Z → Z * option error) (len : Z) (l : limitedReader)
  : (Z * option read_error) * limitedReader :=
  if (lr_max l <=? lr_n l)%Z then ((0%Z, Some RequestTooLarge), l)
  else
    let len := if (lr_max l - lr_n l <? len)%Z then (lr_max l - lr_n l)%Z else len in
    let '(n, err) := r len in
    ((n, Underlying <$> err), mkLimited (lr_n l + n) (lr_max l)).
Definition reset (l : limitedReader) : limitedReader := mkLimited 0 (lr_max l).

(** The bytes consumed by a sequence of reads. *)
Fixpoint consume (rs : list ((Z → Z * option error) * Z)) (l : limitedReader) : Z * limitedReader :=
  match rs with
  | [] => (0%Z, l)
  | (r, len) :: rs =>
      let '((n, _), l1) := Read r len l in
      let '(total, l2) := consume rs l1 in
      ((n + total)%Z, l2)
  end.

(** The contract of [io.Reader]. *)
Definition reader_ok (r : Z → Z * option error) : Prop := ∀ len, (0 ≤ len → 0 ≤ (r len).1 ≤ len)%Z.

(** ** The server *)

(** [type MCPConfig struct] and its defaults. *)
Record MCPConfig := mkMCPConfig {
  mcp_base : ProtocolConfig;
  MaxToolCount : Z;
  MaxResourceCount : Z;
  mcp_Timeout : Z;
  MaxRequestBytes : Z;
  mcp_RequireAuth : bool;
}.
Definition MCP_SetDefaults (c : MCPConfig) : MCPConfig :=
  mkMCPConfig (base_defaults 8083 (mcp_base c))
    (or_default (MaxToolCount c) 100) (or_default (MaxResourceCount c) 100)
    (or_default (mcp_Timeout c) 30)
    (if (MaxRequestBytes c <=? 0)%Z then 2 ^ 20 else MaxRequestBytes c)%Z
    (mcp_RequireAuth c).

(** A tool's handler is the application's: it may also panic. *)
Record Tool := mkTool {
  tool_Name : bytes;
  tool_Description : bytes;
  InputSchema : any;
  tool_Handler : any → outcome (any + error);
}.
Record Resource := mkResource {
  res_URI : bytes; res_Name : bytes; res_Description : bytes; MimeType : bytes; Content : any }.
Record PromptArgument := mkPromptArgument {
  pa_Name : bytes; pa_Description : bytes; Required : bool }.
Record Prompt := mkPrompt {
  prompt_Name : bytes;
  prompt_Description : bytes;
  Arguments_ : list PromptArgument;
  prompt_Handler : any → bytes + error;
}.

(** [type MCPSession struct]: whether its connection was closed, and whether it
    authenticated. *)
Record MCPSession := mkSession { conn_closed : bool; authenticated : bool }.

Definition listener_id := nat.

(** [type MCPServer struct]; [done_closed] is the state of the channel [done]. *)
Record MCPServer := mkMCPServer {
  ms_config : MCPConfig;
  ms_listener : option listener_id;
  ms_isRunning : bool;
  tools : gmap bytes Tool;
  resources : gmap bytes Resource;
  prompts : gmap bytes Prompt;
  sessions : gmap bytes MCPSession;
  done_closed : bool;
  authSecret : bytes;
  authLookup : bytes;
}.

Definition NewMCPServer (c : MCPConfig) : MCPServer :=
  mkMCPServer (MCP_SetDefaults c) None false ∅ ∅ ∅ ∅ false [] [].
Definition SetAuthSecret (s : bytes) (ms : MCPServer) : MCPServer :=
  mkMCPServer (ms_config ms) (ms_listener ms) (ms_isRunning ms) (tools ms) (resources ms)
    (prompts ms) (sessions ms) (done_closed ms) s (authLookup ms).
Definition SetAuthLookup (l : bytes) (ms : MCPServer) : MCPServer :=
  mkMCPServer (ms_config ms) (ms_listener ms) (ms_isRunning ms) (tools ms) (resources ms)
    (prompts ms) (sessions ms) (done_closed ms) (authSecret ms) l.
Definition SetListener (ln : listener_id) (ms : MCPServer) : MCPServer :=
  mkMCPServer (ms_config ms) (Some ln) (ms_isRunning ms) (tools ms) (resources ms)
    (prompts ms) (sessions ms) (done_closed ms) (authSecret ms) (authLookup ms).
Definition set_sessions (ss : gmap bytes MCPSession) (ms : MCPServer) : MCPServer :=
  mkMCPServer (ms_config ms) (ms_listener ms) (ms_isRunning ms) (tools ms) (resources ms)
    (prompts ms) ss (done_closed ms) (authSecret ms) (authLookup ms).

(** What [handleConnection] does to the table of sessions when a connection from
    [addr] starts and when it ends. *)
Definition session_id (addr : bytes) : bytes := B "session-" ++ addr.
Definition open_session (addr : bytes) (ms : MCPServer) : MCPServer :=
  set_sessions (<[session_id addr := mkSession false false]> (sessions ms)) ms.
Definition close_session (addr : bytes) (ms : MCPServer) : MCPServer :=
  set_sessions (delete (session_id addr) (sessions ms)) ms.

#[export] Instance mcp_auth : AuthAware MCPServer.
Proof.
  by refine {| set_secret := SetAuthSecret; set_lookup := SetAuthLookup;
               get_secret := authSecret; get_lookup := authLookup |}.
Defined.

Definition RegisterTool (t : Tool) (ms : MCPServer) : option error * MCPServer :=
  if (MaxToolCount (ms_config ms) <=? Z.of_nat (size (tools ms)))%Z then
    (Some (Err (B "maximum tool count (" ++ format_int (MaxToolCount (ms_config ms)) ++
                B ") reached")), ms)
  else
    (None, mkMCPServer (ms_config ms) (ms_listener ms) (ms_isRunning ms)
             (<[tool_Name t := t]> (tools ms)) (resources ms) (prompts ms) (sessions ms)
             (done_closed ms) (authSecret ms) (authLookup ms)).
Definition RegisterResource (r : Resource) (ms : MCPServer) : option error * MCPServer :=
  if (MaxResourceCount (ms_config ms) <=? Z.of_nat (size (resources ms)))%Z then
    (Some (Err (B "maximum resource count (" ++ format_int (MaxResourceCount (ms_config ms)) ++
                B ") reached")), ms)
  else
    (None, mkMCPServer (ms_config ms) (ms_listener ms) (ms_isRunning ms) (tools ms)
             (<[res_URI r := r]> (resources ms)) (prompts ms) (sessions ms) (done_closed ms)
             (authSecret ms) (authLookup ms)).
Definition RegisterPrompt (p : Prompt) (ms : MCPServer) : MCPServer :=
  mkMCPServer (ms_config ms) (ms_listener ms) (ms_isRunning ms) (tools ms) (resources ms)
    (<[prompt_Name p := p]> (prompts ms)) (sessions ms) (done_closed ms) (authSecret ms)
    (authLookup ms).

(** [Start]: [ln] is what [net.Listen] answers, [cert] whether the key pair loads;
    with the listeners it closes. *)
Definition MCP_Start (ln : listener_id + error) (cert : option error) (ms : MCPServer)
  : (option error * list listener_id) * MCPServer :=
  if ms_isRunning ms then ((None, []), ms)
  else if negb (Enabled (mcp_base (ms_config ms))) then ((None, []), ms)
  else
    match ln with
    | inr e => ((Some e, []), ms)
    | inl l =>
        let running := mkMCPServer (ms_config ms) (Some l) true (tools ms) (resources ms)
                         (prompts ms) (sessions ms) (done_closed ms) (authSecret ms)
                         (authLookup ms) in
        if TLSEnabled (mcp_base (ms_config ms)) then
          match cert with
          | Some e => ((Some (Err (B "mcp tls: " ++ err_Error e)), [l]), ms)
          | None => ((None, []), running)
          end
        else ((None, []), running)
    end.

(** [Stop] closes the connections, the listener and [done]; closing [done] twice
    panics. *)
Definition MCP_Stop (ms : MCPServer) : (outcome (option error) * list listener_id) * MCPServer :=
  if negb (ms_isRunning ms) then ((Ret None, []), ms)
  else
    let closed := match ms_listener ms with Some l => [l] | None => [] end in
    let stopped :=
      mkMCPServer (ms_config ms) (ms_listener ms) false (tools ms) (resources ms) (prompts ms)
        ((λ s, mkSession true (authenticated s)) <$> sessions ms) true (authSecret ms)
        (authLookup ms) in
    if done_closed ms then ((Panic (VString (B "close of closed channel")), closed), stopped)
    else ((Ret None, closed), stopped).

Definition ExecuteTool (ms : MCPServer) (name : bytes) (args : any) : outcome (any + error) :=
  match tools ms !! name with
  | None => Ret (inr (Err (B "tool not found")))
  | Some t => tool_Handler t args
  end.

Definition ms_GetInfo (ms : MCPServer) : bytes :=
  B "MCP AI Agent Protocol (Port " ++ format_int (Port (mcp_base (ms_config ms))) ++ B ")".
Definition ms_GetName : bytes := B "mcp".
Definition ms_GetPaths : list bytes := [].
Definition ms_IsRunning (s : MCPServer) : bool := ms_isRunning s.

(** [acceptConnections]: the addresses of the connections served, and whether the loop
    returned; [done k] is whether the channel [done] is closed when the k-th error is
    looked at. *)
Fixpoint acceptConnections (done : nat → bool) (k : nat) (accepts : list (bytes + error))
  : list bytes * bool :=
  match accepts with
  | [] => ([], false)
  | inl addr :: accepts =>
      let '(served, returned) := acceptConnections done (S k) accepts in (addr :: served, returned)
  | inr _ :: accepts => if done k then ([], true) else acceptConnections done (S k) accepts
  end.

(** [GetSessions], [GetTools], [GetResources], [GetPrompts]: the first is a copy, the
    others hand out the server's own maps. *)
Definition GetSessions (ms : MCPServer) : gmap bytes MCPSession := sessions ms.
Definition GetTools (ms : MCPServer) : gmap bytes Tool := tools ms.
Definition GetResources (ms : MCPServer) : gmap bytes Resource := resources ms.
Definition GetPrompts (ms : MCPServer) : gmap bytes Prompt := prompts ms.

(** ** Requests *)

Record JSONRPCRequest := mkRequest {
  rq_JSONRPC : bytes; rq_ID : any; rq_Method : bytes; rq_Params : bytes }.

(** The results the server answers with; a list holds the registered values in the
    order Go happens to visit the map. *)
Inductive rpc_result :=
  | RNil
  | RValue (v : any)
  | RTools (ts : list Tool)
  | RResources (rs : list Resource)
  | RPrompts (ps : list Prompt).

Record JSONRPCResponse := mkResponse {
  rs_JSONRPC : bytes;
  rs_ID : any;
  rs_Result : rpc_result;
  rs_Error : option (Z * bytes);
}.

Definition initialize_result : any :=
  VMap [(B "protocolVersion", VString (B "2024-11-05"));
        (B "capabilities", VMap
           [(B "tools", VMap [(B "listChanged", VBool true)]);
            (B "resources", VMap [(B "subscribe", VBool true); (B "listChanged", VBool true)]);
            (B "prompts", VMap [(B "listChanged", VBool true)])]);
        (B "serverInfo", VMap
           [(B "name", VString (B "Goichi MCP Server")); (B "version", VString (B "1.0.0"))])].

Section handle.
Context `{L : JWTLib}.
(** [json.Unmarshal] into the token struct (a failure leaves it empty) and into
    the call struct. *)
Context (token_of : bytes → bytes) (call_of : bytes → option (bytes * any)).

(** [handleRequest] at time [t]. *)
Definition handleRequest (t : Z) (ms : MCPServer) (session : MCPSession) (req : JSONRPCRequest)
  : outcome JSONRPCResponse * MCPSession :=
  let result r := Ret (mkResponse (B "2.0") (rq_ID req) r None) in
  let fail code msg := Ret (mkResponse (B "2.0") (rq_ID req) RNil (Some (code, msg))) in
  let secret := authSecret ms in
  let authNeeded := negb (beqb secret []) || mcp_RequireAuth (ms_config ms) in
  if beqb (rq_Method req) (B "initialize") then
    if authNeeded then
      if beqb secret [] then (fail (-32001)%Z (B "auth not configured"), session)
      else
        match ValidateJWT t (token_of (rq_Params req)) secret with
        | inr _ => (fail (-32001)%Z (B "unauthorized"), session)
        | inl _ => (result (RValue initialize_result), mkSession (conn_closed session) true)
        end
    else (result (RValue initialize_result), session)
  else if authNeeded && negb (authenticated session) then
    (fail (-32001)%Z (B "unauthorized"), session)
  else
    (if beqb (rq_Method req) (B "tools/list") then
       result (RTools (map_to_list (tools ms)).*2)
     else if beqb (rq_Method req) (B "resources/list") then
       result (RResources (map_to_list (resources ms)).*2)
     else if beqb (rq_Method req) (B "prompts/list") then
       result (RPrompts (map_to_list (prompts ms)).*2)
     else if beqb (rq_Method req) (B "tools/call") then
       match call_of (rq_Params req) with
       | None => fail (-32602)%Z (B "Invalid params")
       | Some (name, args) =>
           match tools ms !! name with
           | None => fail (-32601)%Z (B "Tool not found")
           | Some tool =>
               match tool_Handler tool args with
               | Panic v => Panic v
               | Crash v => Crash v
               | Ret (inr e) => fail (-32000)%Z (err_Error e)
               | Ret (inl r) => result (RValue r)
               end
           end
       end
     else fail (-32601)%Z (B "Method not found"), session).

(** One turn of the loop of [handleConnection]: the time, the state of the server
    then, what [Decode] answers, and whether the reply could be written. *)
Record exchange := mkExchange {
  ex_time : Z;
  ex_server : MCPServer;
  ex_request : option JSONRPCRequest;
  ex_written : bool;
}.

(** The replies of a connection, which has a goroutine of its own: a panic of a tool ends
    the process. *)
Fixpoint serve (session : MCPSession) (es : list exchange) : list (outcome JSONRPCResponse) :=
  match es with
  | [] => []
  | e :: es =>
      match ex_request e with
      | None => []
      | Some req =>
          let '(resp, session) := handleRequest (ex_time e) (ex_server e) session req in
          match resp with
          | Panic v | Crash v => [Crash v]
          | Ret r => Ret r :: (if ex_written e then serve session es else [])
          end
      end
  end.

Definition handleConnection (es : list exchange) : list (outcome JSONRPCResponse) :=
  serve (mkSession false false) es.

(** The reply of a request turned away for lack of authentication. *)
Definition unauthorized (r : outcome JSONRPCResponse) : Prop :=
  match r with
  | Ret r => rs_Error r = Some ((-32001)%Z, B "unauthorized") ∧ rs_Result r = RNil
  | _ => False
  end.

(** An [initialize] request whose token the server's secret vouches for. *)
Definition logs_in (e : exchange) : Prop :=
  ∃ req, ex_request e = Some req ∧ rq_Method req = B "initialize" ∧
  ∃ c, authentic (ex_time e) (token_of (rq_Params req)) (authSecret (ex_server e)) c.

Definition auth_needed (ms : MCPServer) : Prop :=
  authSecret ms ≠ [] ∨ mcp_RequireAuth (ms_config ms) = true.

Lemma auth_needed_true ms :
  auth_needed ms → negb (beqb (authSecret ms) []) || mcp_RequireAuth (ms_config ms) = true.
Proof.
  intros [Hs%beqb_neq|Hr]; [by rewrite Hs|]. rewrite Hr. by rewrite orb_true_r.
Qed.

(** A session only becomes authenticated by logging in. *)
Lemma handleRequest_login `{!JWTSound L} e req s :
  ex_request e = Some req →
  authenticated (handleRequest (ex_time e) (ex_server e) s req).2 = true →
  authenticated s = true ∨ logs_in e.
Proof.
  intros Hreq. unfold handleRequest, logs_in.
  destruct (beqb (rq_Method req) (B "initialize")) eqn:Hi.
  - apply beqb_eq in Hi. destruct (negb (beqb (authSecret (ex_server e)) []) || _); [|by left].
    destruct (beqb (authSecret (ex_server e)) []); [by left|].
    destruct (ValidateJWT _ _ _) as [c|msg] eqn:Hv; [|by left]. intros _. right.
    exists req. split_and!; [done..|]. exists c. by apply ValidateJWT_sound.
  - destruct (_ && _); by left.
Qed.

Lemma handleRequest_unauth t ms s req :
  auth_needed ms → authenticated s = false → rq_Method req ≠ B "initialize" →
  unauthorized (handleRequest t ms s req).1.
Proof.
  intros Hn%auth_needed_true Hs Hm%beqb_neq. unfold handleRequest. by rewrite Hm, Hn, Hs.
Qed.

Lemma serve_auth `{!JWTSound L} es s :
  ∀ i e req resp, es !! i = Some e → serve s es !! i = Some resp →
    ex_request e = Some req → rq_Method req ≠ B "initialize" →
    auth_needed (ex_server e) →
    unauthorized resp ∨ authenticated s = true ∨
    ∃ j e', j < i ∧ es !! j = Some e' ∧ logs_in e'.
Proof.
  revert s. induction es as [|e0 es IH]; intros s i e req resp He Hr Hreq Hm Hn; [done|].
  simpl in Hr. destruct (ex_request e0) as [req0|] eqn:Hreq0; [|done].
  destruct (authenticated s) eqn:Hs; [by right; left|].
  destruct (handleRequest (ex_time e0) (ex_server e0) s req0) as [resp0 s'] eqn:Hh.
  destruct i as [|i]; simpl in He.
  { left. injection He as ->. rewrite Hreq in Hreq0. injection Hreq0 as ->.
    pose proof (handleRequest_unauth (ex_time e) (ex_server e) s req0 Hn Hs Hm) as Hun.
    rewrite Hh in Hun. destruct resp0; simpl in Hr; by simplify_eq. }
  destruct resp0 as [r0|v|v]; [|done..]. simpl in Hr. destruct (ex_written e0); [|done].
  destruct (IH s' i e req resp He Hr Hreq Hm Hn) as [Hu|[Ha|(j & e' & Hj & He' & Hl)]];
    [by left| |]; right; right.
  - destruct (handleRequest_login e0 req0 s Hreq0) as [?|Hl]; [by rewrite Hh|congruence|].
    exists 0, e0. split_and!; [lia|done|done].
  - exists (S j), e'. split_and!; [lia|done|done].
Qed.
End handle.

(** ** Lemmas *)

Lemma consume_bound rs l :
  Forall (λ r, reader_ok r.1 ∧ (0 ≤ r.2)%Z) rs → (0 ≤ lr_n l ≤ lr_max l)%Z →
  lr_n (consume rs l).2 = (lr_n l + (consume rs l).1)%Z ∧
  lr_max (consume rs l).2 = lr_max l ∧
  (lr_n l ≤ lr_n (consume rs l).2 ≤ lr_max l)%Z.
Proof.
  revert l. induction rs as [|[r len] rs IH]; intros l Hall Hl; [simpl; lia|].
  apply Forall_cons in Hall as [[Hr Hlen] Hall]. simpl in *. unfold Read.
  destruct (Z.leb_spec (lr_max l) (lr_n l)) as [Hfull|Hroom].
  { specialize (IH l Hall Hl). destruct (consume rs l) as [total l2]. simpl in *. lia. }
  set (len' := if (lr_max l - lr_n l <? len)%Z then _ else len).
  assert (0 ≤ len' ≤ lr_max l - lr_n l)%Z as Hlen'.
  { unfold len'. destruct (Z.ltb_spec (lr_max l - lr_n l) len); lia. }
  destruct (Hr len') as [Hn1 Hn2]; [lia|]. destruct (r len') as [n err]. simpl in *.
  specialize (IH (mkLimited (lr_n l + n) (lr_max l)) Hall). simpl in IH.
  destruct (consume rs _) as [total l2]. simpl in *. lia.
Qed.

(** *** The registries *)

Inductive reg_call := CallTool (t : Tool) | CallResource (r : Resource) | CallPrompt (p : Prompt).
Definition reg_apply (c : reg_call) (ms : MCPServer) : MCPServer :=
  match c with
  | CallTool t => (RegisterTool t ms).2
  | CallResource r => (RegisterResource r ms).2
  | CallPrompt p => RegisterPrompt p ms
  end.
Definition reg_run (cs : list reg_call) (ms : MCPServer) : MCPServer :=
  fold_left (λ ms c, reg_apply c ms) cs ms.

Definition within_caps (ms : MCPServer) : Prop :=
  (Z.of_nat (size (tools ms)) ≤ MaxToolCount (ms_config ms))%Z ∧
  (Z.of_nat (size (resources ms)) ≤ MaxResourceCount (ms_config ms))%Z.

Lemma size_insert_lt {A} (m : gmap bytes A) k x c :
  (Z.of_nat (size m) < c → Z.of_nat (size (<[k := x]> m)) ≤ c)%Z.
Proof. intros Hlt. rewrite map_size_insert. case_match; unfold id; lia. Qed.

Lemma reg_apply_caps c ms :
  within_caps ms → within_caps (reg_apply c ms) ∧ ms_config (reg_apply c ms) = ms_config ms.
Proof.
  intros [Ht Hr]. destruct c as [t|r|p]; simpl; [| |done].
  - unfold RegisterTool. destruct (Z.leb_spec (MaxToolCount (ms_config ms)) (Z.of_nat (size (tools ms)))); [done|].
    split; [|done]. split; [by apply size_insert_lt|done].
  - unfold RegisterResource.
    destruct (Z.leb_spec (MaxResourceCount (ms_config ms)) (Z.of_nat (size (resources ms)))); [done|].
    split; [|done]. split; [done|by apply size_insert_lt].
Qed.

Lemma reg_run_caps cs ms :
  within_caps ms → within_caps (reg_run cs ms) ∧ ms_config (reg_run cs ms) = ms_config ms.
Proof.
  revert ms. induction cs as [|c cs IH]; intros ms Hms; [done|]. simpl.
  destruct (reg_apply_caps c ms Hms) as [Hc Hcfg]. destruct (IH _ Hc) as [H1 H2].
  split; [done|]. by rewrite H2.
Qed.
