(* ===== verification/Mqtt.v ===== *)
(** * The MQTT broker and client ([protocol/mqtt/broker.go], [server.go], [config.go])

    The embedded broker ([github.com/mochi-mqtt/server]) is a parameter: what it
    does with the inline subscriptions it is handed. *)

From S2P Require Import Prelude GoStrings Effects FastHTTP Core Middleware Jwt Protocol.

(** ** The library *)

(** What [AddListener] is given: an address of its own or an injected listener, and
    whether it is wrapped in TLS. *)
Inductive listener_arg := TCPListener (addr : bytes) (tls : bool) | Injected (ln : nat) (tls : bool).

Class MQTTLib (Hd : Type) := {
  server : Type;
  srv_AddListener : listener_arg → server → option error * server;
  srv_Close : server → option error * server;
  (** [Subscribe(filter, id, handler)], [Unsubscribe(filter, id)] of the inline client *)
  srv_Subscribe : bytes → Z → Hd → server → option error * server;
  srv_Unsubscribe : bytes → Z → server → option error * server;
  (** [Publish(topic, payload, retain, qos)], [Info.ClientsConnected] *)
  srv_Publish : bytes → bytes → bool → Z → server → option error * server;
  srv_clients : server → Z;
  (** the handler the server runs for messages matching a filter, under an id *)
  inline_sub : server → bytes → Z → option Hd;
  valid_filter : bytes → bool;
}.

Class MQTTLaws {Hd} (L : MQTTLib Hd) := {
  subscribe_valid f id h s : (srv_Subscribe f id h s).1 = None ↔ valid_filter f = true;
  subscribe_sub f id h s f' id' :
    inline_sub (srv_Subscribe f id h s).2 f' id' =
    if decide (valid_filter f = true ∧ f' = f ∧ id' = id) then Some h else inline_sub s f' id';
  unsubscribe_valid f id s : (srv_Unsubscribe f id s).1 = None ↔ valid_filter f = true;
  unsubscribe_sub f id s f' id' :
    inline_sub (srv_Unsubscribe f id s).2 f' id' =
    if decide (valid_filter f = true ∧ f' = f ∧ id' = id) then None else inline_sub s f' id';
}.

(** ** The broker *)

(** [type MQTTConfig struct] and its defaults. *)
Record MQTTConfig := mkMQTTConfig {
  mqtt_base : ProtocolConfig;
  BrokerPath : bytes;
  MaxMessageSize : Z;
  KeepAlive : Z;
  MaxQueuedMessages : Z;
  PersistencePath : bytes;
  AuthEnabled : bool;
  AllowAnonymous : bool;
  mqtt_MaxConnections : Z;
}.
Definition MQTT_SetDefaults (c : MQTTConfig) : MQTTConfig :=
  mkMQTTConfig (base_defaults 1883 (mqtt_base c))
    (match BrokerPath c with [] => B "/mqtt" | p => p end)
    (or_default (MaxMessageSize c) (256 * 1024)) (or_default (KeepAlive c) 60)
    (or_default (MaxQueuedMessages c) 1000) (PersistencePath c) (AuthEnabled c)
    (if AuthEnabled c then AllowAnonymous c else true)
    (or_default (mqtt_MaxConnections c) 5000).

Section broker.
Context {Hd : Type} `{Lib : MQTTLib Hd}.
(** [%q] of [fmt] *)
Context (quote : bytes → bytes).

(** [type MQTTBroker struct] *)
Record MQTTBroker := mkMQTTBroker {
  mb_config : MQTTConfig;
  mb_server : server;
  mb_isRunning : bool;
  mb_listener : option nat;
  mb_secret : bytes;
  mb_lookup : bytes;
  subs : gmap bytes Z;
  subSeq : Z;
}.

(** [NewMQTTBroker]; [srv] is the server [mqtt.New] makes. *)
Definition NewMQTTBroker (srv : server) (c : MQTTConfig) : MQTTBroker :=
  mkMQTTBroker (MQTT_SetDefaults c) srv false None [] [] ∅ 0.

Definition mqtt_SetListener (ln : nat) (mb : MQTTBroker) : MQTTBroker :=
  mkMQTTBroker (mb_config mb) (mb_server mb) (mb_isRunning mb) (Some ln) (mb_secret mb)
    (mb_lookup mb) (subs mb) (subSeq mb).
Definition mqtt_SetAuthSecret (s : bytes) (mb : MQTTBroker) : MQTTBroker :=
  mkMQTTBroker (mb_config mb) (mb_server mb) (mb_isRunning mb) (mb_listener mb) s
    (mb_lookup mb) (subs mb) (subSeq mb).
Definition mqtt_SetAuthLookup (l : bytes) (mb : MQTTBroker) : MQTTBroker :=
  mkMQTTBroker (mb_config mb) (mb_server mb) (mb_isRunning mb) (mb_listener mb) (mb_secret mb)
    l (subs mb) (subSeq mb).

#[export] Instance mqtt_auth : AuthAware MQTTBroker.
Proof.
  by refine {| set_secret := mqtt_SetAuthSecret; set_lookup := mqtt_SetAuthLookup;
               get_secret := mb_secret; get_lookup := mb_lookup |}.
Defined.

Definition authState (mb : MQTTBroker) : bytes * bool :=
  (mb_secret mb, AllowAnonymous (mb_config mb) && negb (AuthEnabled (mb_config mb))).

(** [authHook.OnConnectAuthenticate] with the CONNECT packet's password. *)
Definition OnConnectAuthenticate `{JWTLib} (t : Z) (password : bytes) (mb : MQTTBroker) : bool :=
  let '(secret, allowAnon) := authState mb in
  if beqb secret [] then allowAnon
  else match ValidateJWT t password secret with inl _ => true | inr _ => false end.

Definition OnACLCheck (topic : bytes) (write : bool) : bool := true.

(** [authHook.Provides]: the hooks the server asks it for, by their numbers. *)
Definition Provides (OnConnectAuthenticate OnACLCheck : Z) (b : Z) : bool :=
  existsb (Z.eqb b) [OnConnectAuthenticate; OnACLCheck].

Definition authHook_ID : bytes := B "goichi-auth".

(** [type injectedListener struct], over a listener with an address, and what its
    [Close] does: to close the listener, then to call [onClose] with the id. *)
Record injectedListener (Ln : Type) := mkInjectedListener { il_id : bytes; il_ln : Ln }.
Definition il_ID {Ln} (l : injectedListener Ln) : bytes := il_id _ l.
Definition il_Address {Ln} (addr : Ln → bytes) (l : injectedListener Ln) : bytes := addr (il_ln _ l).
Definition il_Protocol {Ln} (l : injectedListener Ln) : bytes := B "tcp".
Definition il_Init {Ln} (l : injectedListener Ln) : option error := None.
Definition il_Close {Ln St} (close : Ln → St → St) (onClose : bytes → St → St)
    (l : injectedListener Ln) : St → St := λ st, onClose (il_id _ l) (close (il_ln _ l) st).

(** [injectedListener.Serve]: the connections established, from what [Accept] answers;
    any error ends it. *)
Fixpoint serve_injected {C : Type} (accepts : list (C + error)) : list C :=
  match accepts with
  | inl c :: accepts => c :: serve_injected accepts
  | _ => []
  end.

Definition set_server (srv : server) (run : bool) (mb : MQTTBroker) : MQTTBroker :=
  mkMQTTBroker (mb_config mb) srv run (mb_listener mb) (mb_secret mb) (mb_lookup mb)
    (subs mb) (subSeq mb).

(** [Start]; [cert] is what loading the key pair answers. *)
Definition mqtt_Start (cert : option error) (mb : MQTTBroker) : option error * MQTTBroker :=
  let base := mqtt_base (mb_config mb) in
  if mb_isRunning mb then (None, mb)
  else if negb (Enabled base) then (None, mb)
  else
    match (if TLSEnabled base then cert else None) with
    | Some e => (Some (Err (B "mqtt tls: " ++ err_Error e)), mb)
    | None =>
        let arg :=
          match mb_listener mb with
          | None => TCPListener (Address base ++ B ":" ++ format_int (Port base)) (TLSEnabled base)
          | Some ln => Injected ln (TLSEnabled base)
          end in
        match srv_AddListener arg (mb_server mb) with
        | (Some e, srv) => (Some e, set_server srv false mb)
        | (None, srv) => (None, set_server srv true mb)
        end
    end.

Definition mqtt_Stop (mb : MQTTBroker) : option error * MQTTBroker :=
  if negb (mb_isRunning mb) then (None, mb)
  else let '(err, srv) := srv_Close (mb_server mb) in (err, set_server srv false mb).

Definition set_subs (ss : gmap bytes Z) (seq : Z) (mb : MQTTBroker) : MQTTBroker :=
  mkMQTTBroker (mb_config mb) (mb_server mb) (mb_isRunning mb) (mb_listener mb) (mb_secret mb)
    (mb_lookup mb) ss seq.
Definition with_server (r : option error * server) (mb : MQTTBroker) : option error * MQTTBroker :=
  (r.1, set_server r.2 (mb_isRunning mb) mb).

(** [Subscribe(topic, handler)]; a nil handler is refused. *)
Definition Subscribe (topic : bytes) (handler : option Hd) (mb : MQTTBroker)
  : option error * MQTTBroker :=
  match handler with
  | None => (Some (Err (B "mqtt: subscribe " ++ quote topic ++ B ": handler is nil")), mb)
  | Some h =>
      match subs mb !! topic with
      | Some id =>
          let srv := (srv_Unsubscribe topic id (mb_server mb)).2 in
          with_server (srv_Subscribe topic id h srv) mb
      | None =>
          let id := wrap_i64 (subSeq mb + 1) in
          with_server (srv_Subscribe topic id h (mb_server mb))
            (set_subs (<[topic := id]> (subs mb)) id mb)
      end
  end.

Definition Unsubscribe (topic : bytes) (mb : MQTTBroker) : option error * MQTTBroker :=
  let mb' := set_subs (delete topic (subs mb)) (subSeq mb) mb in
  match subs mb !! topic with
  | None => (None, mb')
  | Some id => with_server (srv_Unsubscribe topic id (mb_server mb)) mb'
  end.

Definition mb_GetInfo (mb : MQTTBroker) : bytes :=
  B "MQTT Broker (Port " ++ format_int (Port (mqtt_base (mb_config mb))) ++ B ")".
Definition mb_GetName : bytes := B "mqtt".
Definition mb_GetPaths : list bytes := [].
Definition mb_IsRunning (s : MQTTBroker) : bool := mb_isRunning s.

Definition mqtt_Publish (topic payload : bytes) (qos : Z) (retain : bool) (mb : MQTTBroker)
  : option error * MQTTBroker :=
  with_server (srv_Publish topic payload retain qos (mb_server mb)) mb.
Definition GetClientCount (mb : MQTTBroker) : Z := srv_clients (mb_server mb).
End broker.
Arguments MQTTBroker {Hd} Lib.

(** ** Lemmas: the subscription table *)

Section table.
Context {Hd : Type} `{Lib : MQTTLib Hd} `{!MQTTLaws Lib} (quote : bytes → bytes).

Inductive sub_call := CallSubscribe (f : bytes) (h : option Hd) | CallUnsubscribe (f : bytes).
Definition sub_apply (c : sub_call) (mb : MQTTBroker Lib) : MQTTBroker Lib :=
  match c with
  | CallSubscribe f h => (Subscribe quote f h mb).2
  | CallUnsubscribe f => (Unsubscribe f mb).2
  end.
Definition sub_run (cs : list sub_call) (mb : MQTTBroker Lib) : MQTTBroker Lib :=
  fold_left (λ mb c, sub_apply c mb) cs mb.

(** The abstract table: one handler per filter. *)
Definition spec_apply (c : sub_call) (m : gmap bytes Hd) : gmap bytes Hd :=
  match c with
  | CallSubscribe f (Some h) => if valid_filter f then <[f := h]> m else m
  | CallSubscribe f None => m
  | CallUnsubscribe f => delete f m
  end.
Definition spec_run (cs : list sub_call) (m : gmap bytes Hd) : gmap bytes Hd :=
  fold_left (λ m c, spec_apply c m) cs m.

(** The broker's table and the server's subscriptions implement [m]: every id in
  use is recorded for its filter, ids are positive, distinct and not yet due. *)
Record implements (mb : MQTTBroker Lib) (m : gmap bytes Hd) : Prop := {
  imp_seq : (0 ≤ subSeq mb)%Z;
  imp_range f id : subs mb !! f = Some id → (0 < id ≤ subSeq mb)%Z;
  imp_distinct f f' id : subs mb !! f = Some id → subs mb !! f' = Some id → f = f';
  imp_sub f id : inline_sub (mb_server mb) f id =
    if decide (subs mb !! f = Some id) then m !! f else None;
  imp_dom f : subs mb !! f = None → m !! f = None;
  imp_valid f h : m !! f = Some h → valid_filter f = true;
}.

Lemma implements_subscribe f h mb m :
  implements mb m → (subSeq mb + 1 < 2 ^ 63)%Z →
  implements (Subscribe quote f h mb).2 (spec_apply (CallSubscribe f h) m) ∧
  (subSeq (Subscribe quote f h mb).2 ≤ subSeq mb + 1)%Z.
Proof.
  intros [Hs Hr Hd' Hi Hdom Hval] Hov. destruct h as [h|]; simpl; [|split; [by split|lia]].
  destruct (subs mb !! f) as [id|] eqn:Hf; (split; [|simpl; rewrite ?wrap_i64_small; lia]).
  - split; simpl; try done.
    + intros g id'. rewrite subscribe_sub, unsubscribe_sub, Hi.
      destruct (valid_filter f) eqn:Hv.
      * destruct (decide (g = f)) as [->|Hne].
        { rewrite Hf, lookup_insert_eq. repeat case_decide; naive_solver. }
        rewrite lookup_insert_ne by done. repeat case_decide; naive_solver.
      * repeat case_decide; naive_solver.
    + intros g Hg. destruct (valid_filter f); [|by apply Hdom].
      rewrite lookup_insert_ne by congruence. by apply Hdom.
    + intros g h'. destruct (valid_filter f) eqn:Hv; [|apply Hval].
      intros [[<- _]|[_ Hg]]%lookup_insert_Some; [done|by eapply Hval].
  - rewrite wrap_i64_small by lia. set (id := (subSeq mb + 1)%Z).
    split; simpl; [unfold id; lia|..].
    + intros g id' [[<- <-]|[Hne Hg]]%lookup_insert_Some; [unfold id; lia|].
      specialize (Hr _ _ Hg). unfold id. lia.
    + intros g g' id' [[<- <-]|[Hne Hg]]%lookup_insert_Some
        [[<- Hid]|[Hne' Hg']]%lookup_insert_Some; try done.
      * specialize (Hr _ _ Hg'). unfold id in *. lia.
      * specialize (Hr _ _ Hg). unfold id in *. lia.
      * by eapply Hd'.
    + intros g id'. rewrite subscribe_sub, Hi.
      destruct (decide (g = f)) as [->|Hne].
      * rewrite Hf, lookup_insert_eq. specialize (Hdom _ Hf).
        destruct (valid_filter f) eqn:Hv; [rewrite lookup_insert_eq|rewrite Hdom];
          repeat case_decide; naive_solver.
      * rewrite lookup_insert_ne by done.
        destruct (valid_filter f); rewrite ?lookup_insert_ne by done;
          repeat case_decide; naive_solver.
    + intros g [Hg Hne]%lookup_insert_None.
      destruct (valid_filter f); rewrite ?lookup_insert_ne by done; by apply Hdom.
    + intros g h'. destruct (valid_filter f) eqn:Hv; [|apply Hval].
      intros [[<- _]|[_ Hg]]%lookup_insert_Some; [done|by eapply Hval].
Qed.

Lemma implements_unsubscribe f mb m :
  implements mb m →
  implements (Unsubscribe f mb).2 (delete f m) ∧ subSeq (Unsubscribe f mb).2 = subSeq mb.
Proof.
  intros [Hs Hr Hd' Hi Hdom Hval]. unfold Unsubscribe.
  assert (∀ srv, (∀ g id, inline_sub srv g id =
                   if decide (g = f) then None else inline_sub (mb_server mb) g id) →
    implements (set_server srv (mb_isRunning mb)
                  (set_subs (delete f (subs mb)) (subSeq mb) mb)) (delete f m)) as Himp.
  { intros srv Hsrv. split; simpl; [done|..].
    - intros g id [_ Hg]%lookup_delete_Some. by eapply Hr.
    - intros g g' id [_ Hg]%lookup_delete_Some [_ Hg']%lookup_delete_Some. by eapply Hd'.
    - intros g id. rewrite Hsrv, Hi. destruct (decide (g = f)) as [->|Hne].
      + rewrite !lookup_delete_eq. by case_decide.
      + by rewrite !lookup_delete_ne by done.
    - intros g. destruct (decide (g = f)) as [->|Hne]; [by rewrite !lookup_delete_eq|].
      rewrite !lookup_delete_ne by done. apply Hdom.
    - intros g h [_ Hg]%lookup_delete_Some. by eapply Hval. }
  destruct (subs mb !! f) as [id|] eqn:Hf; (split; [|done]).
  - apply Himp. intros g id'. rewrite unsubscribe_sub.
    destruct (decide (g = f)) as [->|Hne]; [|by rewrite decide_False by naive_solver].
    rewrite Hi, Hf. destruct (valid_filter f) eqn:Hv.
    + repeat case_decide; naive_solver.
    + destruct (m !! f) eqn:Hm; [by rewrite (Hval _ _ Hm) in Hv|].
      repeat case_decide; naive_solver.
  - destruct mb as [cfg srv run ln s l ss seq]. apply (Himp srv). intros g id. simpl in *.
    destruct (decide (g = f)) as [->|]; [|done]. rewrite Hi, Hf. by case_decide.
Qed.

Lemma implements_apply c mb m :
  implements mb m → (subSeq mb + 1 < 2 ^ 63)%Z →
  implements (sub_apply c mb) (spec_apply c m) ∧
  (subSeq (sub_apply c mb) ≤ subSeq mb + 1)%Z.
Proof.
  intros Hi Hov. destruct c as [f h|f]; [by apply implements_subscribe|].
  destruct (implements_unsubscribe f mb m Hi) as [H1 H2]. simpl. split; [done|lia].
Qed.

Lemma implements_run cs mb m :
  implements mb m → (subSeq mb + Z.of_nat (length cs) < 2 ^ 63)%Z →
  implements (sub_run cs mb) (spec_run cs m).
Proof.
  revert mb m. induction cs as [|c cs IH]; intros mb m Hi Hov; [done|]. simpl in *.
  destruct (implements_apply c mb m Hi) as [H1 H2]; [lia|]. apply IH; [done|lia].
Qed.

Lemma implements_new srv c :
  (∀ f id, inline_sub srv f id = None) → implements (NewMQTTBroker srv c) ∅.
Proof. intros Hs. by split. Qed.
End table.

(** ** A concrete library *)

Module SimpleMQTT.
#[export] Instance simple_mqtt : MQTTLib nat := {
  server := gmap (bytes * Z) nat;
  srv_AddListener _ s := (None, s);
  srv_Close s := (None, s);
  srv_Publish _ _ _ _ s := (None, s);
  srv_clients _ := 0%Z;
  srv_Subscribe f id h s :=
    if negb (beqb f []) then (None, <[(f, id) := h]> s)
    else (Some (Err (B "given filter is invalid")), s);
  srv_Unsubscribe f id s :=
    if negb (beqb f []) then (None, delete (f, id) s)
    else (Some (Err (B "given filter is invalid")), s);
  inline_sub s f id := s !! (f, id);
  valid_filter f := negb (beqb f []);
}.

#[export] Instance simple_mqtt_laws : MQTTLaws simple_mqtt.
Proof.
  split; simpl; intros; destruct (negb (beqb f [])) eqn:Hv; simpl; try naive_solver.
  - case_decide as Hd; [destruct Hd as (_ & -> & ->); by rewrite lookup_insert_eq|].
    rewrite lookup_insert_ne; naive_solver.
  - case_decide as Hd; [destruct Hd as (_ & -> & ->); by rewrite lookup_delete_eq|].
    rewrite lookup_delete_ne; naive_solver.
Qed.
End SimpleMQTT.

(** ** The client ([protocol/mqtt/server.go])

    The paho client is a parameter: what it answers, once the token has been waited
    for. *)

Class PahoLib := {
  paho : Type;
  paho_Connect : paho → option error * paho;
  paho_Disconnect : Z → paho → paho;
  paho_Publish : bytes → Z → bool → any → paho → option error * paho;
  paho_Subscribe : bytes → Z → nat → paho → option error * paho;
  paho_Unsubscribe : bytes → paho → option error * paho;
  (** whether [Connect] succeeded since the last [Disconnect] *)
  paho_open : paho → bool;
}.
Class PahoLaws (P : PahoLib) := {
  connect_open c : paho_open (paho_Connect c).2 =
    match (paho_Connect c).1 with None => true | Some _ => paho_open c end;
  disconnect_open n c : paho_open (paho_Disconnect n c) = false;
  publish_open a b d e c : paho_open (paho_Publish a b d e c).2 = paho_open c;
  subscribe_open a b h c : paho_open (paho_Subscribe a b h c).2 = paho_open c;
  unsubscribe_open a c : paho_open (paho_Unsubscribe a c).2 = paho_open c;
}.

Section client.
Context `{P : PahoLib}.

(** What [NewMQTTServer] sets in the client's options. *)
Record ClientOptions := mkClientOptions {
  opt_Broker : bytes;
  opt_ClientID : bytes;
  opt_KeepAlive : Z;
  opt_AutoReconnect : bool;
}.
Definition client_options (now : Z) (c : MQTTConfig) : ClientOptions :=
  mkClientOptions
    (B "tcp://" ++ Address (mqtt_base c) ++ B ":" ++ format_int (Port (mqtt_base c)))
    (B "goichi-server-" ++ format_int now) (wrap_i64 (KeepAlive c * 1000000000)) true.

(** [type MQTTServer struct] *)
Record MQTTServer := mkMQTTServer { mc_config : MQTTConfig; mc_client : paho; mc_isRunning : bool }.
Definition NewMQTTServer (NewClient : ClientOptions → paho) (now : Z) (c : MQTTConfig) : MQTTServer :=
  let c := MQTT_SetDefaults c in mkMQTTServer c (NewClient (client_options now c)) false.

Definition mc_GetInfo (m : MQTTServer) : bytes :=
  B "MQTT Client connected to " ++ Address (mqtt_base (mc_config m)) ++ B ":" ++
  format_int (Port (mqtt_base (mc_config m))).
(** [SetListener] does nothing. *)
Definition mc_SetListener (ln : nat) (m : MQTTServer) : MQTTServer := m.
Definition mc_GetName : bytes := B "mqtt-server".
Definition mc_GetPaths : list bytes := [].
Definition mc_IsRunning (s : MQTTServer) : bool := mc_isRunning s.

Definition mc_Start (m : MQTTServer) : option error * MQTTServer :=
  if mc_isRunning m then (None, m)
  else if negb (Enabled (mqtt_base (mc_config m))) then (None, m)
  else
    let '(err, c) := paho_Connect (mc_client m) in
    match err with
    | Some e => (Some e, mkMQTTServer (mc_config m) c false)
    | None => (None, mkMQTTServer (mc_config m) c true)
    end.
Definition mc_Stop (m : MQTTServer) : option error * MQTTServer :=
  if negb (mc_isRunning m) then (None, m)
  else (None, mkMQTTServer (mc_config m) (paho_Disconnect 250 (mc_client m)) false).
Definition with_client (m : MQTTServer) (r : option error * paho) : option error * MQTTServer :=
  (r.1, mkMQTTServer (mc_config m) r.2 (mc_isRunning m)).
Definition mc_Publish (topic : bytes) (qos : Z) (retained : bool) (payload : any) (m : MQTTServer) :=
  with_client m (paho_Publish topic qos retained payload (mc_client m)).
Definition mc_Subscribe (topic : bytes) (qos : Z) (callback : nat) (m : MQTTServer) :=
  with_client m (paho_Subscribe topic qos callback (mc_client m)).
Definition mc_Unsubscribe (topic : bytes) (m : MQTTServer) :=
  with_client m (paho_Unsubscribe topic (mc_client m)).

Inductive client_call :=
  | ClientStart
  | ClientStop
  | ClientPublish (topic : bytes) (qos : Z) (retained : bool) (payload : any)
  | ClientSubscribe (topic : bytes) (qos : Z) (callback : nat)
  | ClientUnsubscribe (topic : bytes).
Definition client_apply (c : client_call) (m : MQTTServer) : option error * MQTTServer :=
  match c with
  | ClientStart => mc_Start m
  | ClientStop => mc_Stop m
  | ClientPublish topic qos retained payload => mc_Publish topic qos retained payload m
  | ClientSubscribe topic qos callback => mc_Subscribe topic qos callback m
  | ClientUnsubscribe topic => mc_Unsubscribe topic m
  end.
Definition client_run (cs : list client_call) (m : MQTTServer) : MQTTServer :=
  fold_left (λ m c, (client_apply c m).2) cs m.

(** The server says it is running exactly while its client is connected: no call
    leaves a connection open that [Stop] would not close, or fails to notice one. *)
Lemma client_running_iff_open `{!PahoLaws P} NewClient now c cs :
  (∀ o, paho_open (NewClient o) = false) →
  let m := client_run cs (NewMQTTServer NewClient now c) in
  mc_isRunning m = paho_open (mc_client m).
Proof.
  intros Hnew. unfold client_run.
  assert (mc_isRunning (NewMQTTServer NewClient now c)
          = paho_open (mc_client (NewMQTTServer NewClient now c))) as Hm by (symmetry; apply Hnew).
  revert Hm. generalize (NewMQTTServer NewClient now c) as m.
  induction cs as [|x cs IH]; intros m Hm; [done|]. simpl. apply IH. clear IH.
  destruct x; simpl; rewrite ?publish_open, ?subscribe_open, ?unsubscribe_open; [| |done..].
  - unfold mc_Start. destruct (mc_isRunning m) eqn:Hr; [simpl; congruence|].
    destruct (negb _); [simpl; congruence|].
    pose proof (connect_open (mc_client m)) as Ho.
    destruct (paho_Connect (mc_client m)) as [[e|] c']; simpl in *; congruence.
  - unfold mc_Stop. destruct (mc_isRunning m) eqn:Hr; simpl; [by rewrite disconnect_open|congruence].
Qed.
End client.
