(* ===== verification/WebSocket.v ===== *)
(** * The WebSocket server ([protocol/websocket/server.go], [config.go])

    The upgrader ([github.com/fasthttp/websocket]) is a parameter: [Upgrade chk]
    runs [chk] on the request and, if it likes it, takes the connection over. *)

From S2P Require Import Prelude GoStrings Fold Effects FastHTTP Core Middleware Jwt Protocol Mcp.

(** [type WebSocketConfig struct] and its defaults. *)
Record WebSocketConfig := mkWebSocketConfig {
  ws_base : ProtocolConfig;
  ws_Path : bytes;
  ws_MaxConnections : Z;
  ReadBufferSize : Z;
  WriteBufferSize : Z;
  HandshakeTimeout : Z;
  PingInterval : Z;
  PongWait : Z;
  AllowedOrigins : list bytes;
  ws_RequireAuth : bool;
}.
Definition WS_SetDefaults (c : WebSocketConfig) : WebSocketConfig :=
  let pong := or_default (PongWait c) 60 in
  mkWebSocketConfig (base_defaults 8080 (ws_base c))
    (match ws_Path c with [] => B "/ws" | p => p end)
    (or_default (ws_MaxConnections c) 1000) (or_default (ReadBufferSize c) 1024)
    (or_default (WriteBufferSize c) 1024) (or_default (HandshakeTimeout c) 5)
    (or_default (PingInterval c) (Z.quot (wrap_i64 (pong * 9)) 10)) pong
    (AllowedOrigins c) (ws_RequireAuth c).

(** The callbacks that are set. *)
Record callbacks := mkCallbacks {
  has_OnConnect : bool; has_OnMessage : bool; has_OnDisconnect : bool }.

(** [type WebSocketServer struct]; the keys of [connections] are the connection ids,
    [outerMW] tells whether the app installed its wrapper. *)
Record WebSocketServer := mkWebSocketServer {
  ws_config : WebSocketConfig;
  ws_isRunning : bool;
  connections : gset bytes;
  ws_done_closed : bool;
  ws_outerMW : bool;
  ws_callbacks : callbacks;
  ws_secret : bytes;
  ws_lookup : bytes;
}.

Definition NewWebSocketServer (c : WebSocketConfig) (cb : callbacks) : WebSocketServer :=
  mkWebSocketServer (WS_SetDefaults c) false ∅ false false cb [] [].

Definition ws_SetAuthSecret (s : bytes) (w : WebSocketServer) : WebSocketServer :=
  mkWebSocketServer (ws_config w) (ws_isRunning w) (connections w) (ws_done_closed w)
    (ws_outerMW w) (ws_callbacks w) s (ws_lookup w).
Definition ws_SetAuthLookup (l : bytes) (w : WebSocketServer) : WebSocketServer :=
  mkWebSocketServer (ws_config w) (ws_isRunning w) (connections w) (ws_done_closed w)
    (ws_outerMW w) (ws_callbacks w) (ws_secret w) l.
Definition ws_SetFastHTTPOuterMiddleware (w : WebSocketServer) : WebSocketServer :=
  mkWebSocketServer (ws_config w) (ws_isRunning w) (connections w) (ws_done_closed w)
    true (ws_callbacks w) (ws_secret w) (ws_lookup w).
Definition set_connections (cs : gset bytes) (w : WebSocketServer) : WebSocketServer :=
  mkWebSocketServer (ws_config w) (ws_isRunning w) cs (ws_done_closed w)
    (ws_outerMW w) (ws_callbacks w) (ws_secret w) (ws_lookup w).
Definition ws_set_running (run closed : bool) (w : WebSocketServer) : WebSocketServer :=
  mkWebSocketServer (ws_config w) run (connections w) closed
    (ws_outerMW w) (ws_callbacks w) (ws_secret w) (ws_lookup w).

(** [SetListener] does nothing. *)
Definition ws_SetListener (ln : listener_id) (w : WebSocketServer) : WebSocketServer := w.

#[export] Instance ws_auth : AuthAware WebSocketServer.
Proof.
  by refine {| set_secret := ws_SetAuthSecret; set_lookup := ws_SetAuthLookup;
               get_secret := ws_secret; get_lookup := ws_lookup |}.
Defined.

Definition ws_GetInfo (w : WebSocketServer) : bytes :=
  B "Path: " ++ ws_Path (ws_config w) ++ B " (Port " ++ format_int (Port (ws_base (ws_config w))) ++ B ")".
Definition ws_GetName : bytes := B "websocket".
Definition ws_GetPaths (w : WebSocketServer) : list bytes := [ws_Path (ws_config w)].
Definition ws_IsRunning (s : WebSocketServer) : bool := ws_isRunning s.

(** [Stop]; closing [done] twice panics, after [isRunning] was reset. *)
Definition ws_Stop (w : WebSocketServer) : outcome (option error) * WebSocketServer :=
  if negb (ws_isRunning w) then (Ret None, w)
  else if ws_done_closed w then
    (Panic (VString (B "close of closed channel")), ws_set_running false true w)
  else (Ret None, ws_set_running false true w).

(** ** Admission *)

Definition originHost (origin : bytes) : bytes :=
  match Index origin (B "://") with Some i => drop (i + 3) origin | None => origin end.

Section admission.
Context `{F : FastHTTP} `{L : JWTLib} `{Cf : CaseFold} {St : Type} `{!Clock St}.
(** [live_ws] is the server a handler finds when it runs. *)
Context (Upgrade : (RequestCtx → bool) → M (RequestCtx * St) bool)
        (live_ws : St → WebSocketServer).

Definition checkOrigin (ws : WebSocketServer) (ctx : RequestCtx) : bool :=
  let origin := TrimSpace (req_Peek (ctx_Request ctx) (B "Origin")) in
  let allowed := AllowedOrigins (ws_config ws) in
  if beqb origin [] then true
  else if existsb (λ o, beqb o (B "*") || EqualFold o origin) allowed then true
  else match allowed with
       | [] =>
           let oh := originHost origin in
           negb (beqb oh []) && EqualFold oh (req_Host (ctx_Request ctx))
       | _ => false
       end.

Definition checkAuth (t : Z) (ws : WebSocketServer) (ctx : RequestCtx) : bool :=
  if beqb (ws_secret ws) [] && negb (ws_RequireAuth (ws_config ws)) then true
  else if beqb (ws_secret ws) [] then false
  else
    match ValidateJWT t (ExtractToken (fresh_ctx ctx) (ws_lookup ws)) (ws_secret ws) with
    | inl _ => true
    | inr _ => false
    end.

(** [atCapacity := len(ws.connections) >= ws.config.MaxConnections] *)
Definition atCapacity (max : Z) (conns : gset bytes) : bool := (max <=? Z.of_nat (size conns))%Z.

(** [handleRequest]; the result tells whether the connection was taken over. *)
Definition ws_handleRequest : M (RequestCtx * St) bool :=
  ctx ← gets fst;
  ws ← gets (λ s, live_ws s.2);
  t ← gets (λ s, now s.2);
  if ws_isRunning ws && negb (beqb (ctx_Path ctx) (ws_Path (ws_config ws))) then
    ctx_Error (B "Not Found") 404;; mret false
  else if negb (checkAuth t ws ctx) then
    ctx_Error (B "Unauthorized") 401;; mret false
  else if atCapacity (ws_MaxConnections (ws_config ws)) (connections ws) then
    ctx_Error (B "Too Many Connections") 503;; mret false
  else Upgrade (checkOrigin ws).

(** [Handler()]: [wrap] is what the app's wrapper makes of a handler. *)
Definition ws_Handler (wrap : RequestHandler St → RequestHandler St) (ws : WebSocketServer)
  : RequestHandler St :=
  let h := ws_handleRequest;; mret tt in
  if ws_outerMW ws then wrap h else h.

(** [Start]: [ln] is what [net.Listen] answers, [cert] whether the key pair loads;
    with the listener the handler the server serves on it. *)
Definition ws_Start (wrap : RequestHandler St → RequestHandler St)
    (ln : listener_id + error) (cert : option error) (w : WebSocketServer)
  : (option error * option (listener_id * RequestHandler St)) * WebSocketServer :=
  if ws_isRunning w then ((None, None), w)
  else if negb (Enabled (ws_base (ws_config w))) then ((None, None), w)
  else
    let handler := ws_handleRequest;; mret tt in
    let handler := if ws_outerMW w then wrap handler else handler in
    match ln with
    | inr e => ((Some e, None), w)
    | inl l =>
        if TLSEnabled (ws_base (ws_config w)) then
          match cert with
          | Some e => ((Some (Err (B "websocket tls: " ++ err_Error e)), None), w)
          | None => ((None, Some (l, handler)), ws_set_running true (ws_done_closed w) w)
          end
        else ((None, Some (l, handler)), ws_set_running true (ws_done_closed w) w)
    end.
End admission.

(** ** Connections *)

(** What [ReadMessage] answers. *)
Inductive read := RMessage (ty : Z) (data : bytes) | RError (e : error).

(** The callbacks a connection makes. *)
Inductive ws_event :=
  | EvConnect (id : bytes)
  | EvMessage (id : bytes) (ty : Z) (data : bytes)
  | EvDisconnect (id : bytes) (err : option error).

Definition emit (has : bool) (e : ws_event) : list ws_event := if has then [e] else [].

(** The read loop; [true] when it returned. *)
Fixpoint read_loop (cb : callbacks) (id : bytes) (rs : list read) : list ws_event * bool :=
  match rs with
  | [] => ([], false)
  | RError e :: _ => (emit (has_OnDisconnect cb) (EvDisconnect id (Some e)), true)
  | RMessage ty data :: rs =>
      let '(es, ended) := read_loop cb id rs in
      (emit (has_OnMessage cb) (EvMessage id ty data) ++ es, ended)
  end.

(** The function [Upgrade] runs on the connection it took over, with the deferred
    cleanup once the loop returned. *)
Definition serve_conn (id : bytes) (rs : list read) (w : WebSocketServer)
  : list ws_event * WebSocketServer :=
  let cb := ws_callbacks w in
  let w := set_connections ({[id]} ∪ connections w) w in
  let '(es, ended) := read_loop cb id rs in
  let es := emit (has_OnConnect cb) (EvConnect id) ++ es in
  if ended : bool then
    (es ++ emit (has_OnDisconnect cb) (EvDisconnect id None),
     set_connections (connections w ∖ {[id]}) w)
  else (es, w).

(** [SendToClient]: [write] is [WriteMessage] on the connection. *)
Definition SendToClient (write : bytes → option error) (id : bytes) (w : WebSocketServer)
  : option error :=
  if decide (id ∈ connections w) then write id
  else Some (Err (B "client " ++ id ++ B " not found")).

(** [Broadcast]: the connections written to, in the order Go visits them. *)
Definition Broadcast (w : WebSocketServer) : list bytes := elements (connections w).

(** [GetConnections]: a copy of the table. *)
Definition GetConnections (w : WebSocketServer) : gset bytes := connections w.

(** ** Lemmas *)

Section lemmas.
Context `{F : FastHTTP} `{L : JWTLib} `{!JWTLaws L} `{Cf : CaseFold}.

Definition ws_open (ws : WebSocketServer) : Prop :=
  ws_secret ws = [] ∧ ws_RequireAuth (ws_config ws) = false.

Lemma checkAuth_spec t ws ctx :
  checkAuth t ws ctx = true ↔
  ws_open ws ∨ (ws_secret ws ≠ [] ∧ carries_token t (ws_lookup ws) (ws_secret ws) ctx).
Proof.
  unfold checkAuth, ws_open. rewrite <- ValidateJWT_carries.
  destruct (beqb (ws_secret ws) []) eqn:Hs.
  - apply beqb_eq in Hs. destruct (ws_RequireAuth (ws_config ws)); simpl; naive_solver.
  - apply beqb_neq in Hs. simpl. destruct (ValidateJWT _ _ _); naive_solver.
Qed.

(** The origins a server accepts. *)
Definition origin_allowed (ws : WebSocketServer) (ctx : RequestCtx) : Prop :=
  let origin := TrimSpace (req_Peek (ctx_Request ctx) (B "Origin")) in
  origin = [] ∨
  (∃ o, o ∈ AllowedOrigins (ws_config ws) ∧ (o = B "*" ∨ EqualFold o origin = true)) ∨
  (AllowedOrigins (ws_config ws) = [] ∧ originHost origin ≠ [] ∧
   EqualFold (originHost origin) (req_Host (ctx_Request ctx)) = true).

Lemma checkOrigin_spec ws ctx : checkOrigin ws ctx = true ↔ origin_allowed ws ctx.
Proof.
  unfold checkOrigin, origin_allowed. set (origin := TrimSpace _).
  destruct (beqb origin []) eqn:Ho; [apply beqb_eq in Ho; naive_solver|].
  apply beqb_neq in Ho.
  assert (existsb (λ o, beqb o (B "*") || EqualFold o origin) (AllowedOrigins (ws_config ws)) = true
    ↔ ∃ o, o ∈ AllowedOrigins (ws_config ws) ∧ (o = B "*" ∨ EqualFold o origin = true)) as Hex.
  { rewrite existsb_exists. setoid_rewrite <- list_elem_of_In. setoid_rewrite orb_true_iff.
    by setoid_rewrite beqb_eq. }
  destruct (existsb _ _) eqn:He; [split; [intros _; right; left; by apply Hex|done]|].
  destruct (AllowedOrigins (ws_config ws)) as [|o os] eqn:Ha.
  - rewrite andb_true_iff, negb_true_iff, beqb_neq. split; [naive_solver|].
    intros [?|[(? & []%elem_of_nil & _)|(_ & ?)]]; done.
  - split; [done|]. intros [?|[Hx|[? _]]]; [done| |done]. apply Hex in Hx. done.
Qed.
End lemmas.

(** ** Arrivals

    [handleRequest] releases the lock between its capacity check and the insertion
    into [connections]: a request that passed the check is [pending] until then, or until
    its upgrade fails. *)
Inductive ws_step :=
  | Arrive (id : bytes)
  | Failed (id : bytes)
  | Established (id : bytes)
  | Closed (id : bytes).

Record ws_net := mkWsNet { pending : list bytes; live : gset bytes }.

Definition others (id : bytes) (l : list bytes) : list bytes := List.filter (λ p, negb (beqb p id)) l.

Definition net_step (max : Z) (s : ws_step) (n : ws_net) : ws_net :=
  match s with
  | Arrive id => if atCapacity max (live n) then n else mkWsNet (id :: pending n) (live n)
  | Failed id => mkWsNet (others id (pending n)) (live n)
  | Established id =>
      if decide (id ∈ pending n) then mkWsNet (others id (pending n)) ({[id]} ∪ live n) else n
  | Closed id => mkWsNet (pending n) (live n ∖ {[id]})
  end.
Definition net_run (max : Z) (ss : list ws_step) (n : ws_net) : ws_net :=
  fold_left (λ n s, net_step max s n) ss n.
