(* ===== verification/Keepalive.v ===== *)
(** * Keeping WebSocket connections alive ([protocol/websocket/server.go])

    The function [Upgrade] runs on a connection sets a read deadline, moves it whenever a
    message or a pong is read, and starts a goroutine that sends a ping at every tick.
    [session] puts the two together with [serve_conn]: when a connection ends, what its
    callbacks have seen by then, and which pings were sent. Frames arrive at times the peer
    chooses and wait while [OnMessage] runs, which is called from the loop that reads; writes
    take no time. *)

From S2P Require Import Prelude GoStrings Effects FastHTTP Core Middleware Jwt Protocol Mcp Health WebSocket.

(** [timeout] is the error of a read whose deadline has passed. *)
Section keepalive.
Context (timeout : error).

(** What the peer sends; [took] is the time the callback spends on the message, and [Gone]
    is a connection that broke or was closed. Control frames other than pongs do not reach
    the code. *)
Inductive frame := Pong | Data (ty : Z) (data : bytes) (took : Z) | Gone (e : error).
Definition took (f : frame) : Z := match f with Data _ _ d => d | _ => 0 end.

(** When a frame arrives, and whether an earlier read took it from the socket already: then
    the deadline does not matter to it. *)
Record arrival := mkArrival { arrives : Z; buffered : bool; carried : frame }.

(** What [ReadMessage] returns, one call after the other, and the time of the error that
    ends the loop; the loop is [free] to read from then on. The pong handler runs inside of
    a read and moves the deadline. *)
Fixpoint reads (pongWait deadline free : Z) (fs : list arrival) : list read * Z :=
  match fs with
  | [] => ([RError timeout], Z.max deadline free)
  | mkArrival t buf f :: fs =>
      let u := Z.max t free in
      if (deadline <? u)%Z && negb buf then ([RError timeout], Z.max deadline free)
      else match f with
           | Pong => reads pongWait (u + pongWait) u fs
           | Data ty data d =>
               let '(rs, stop) := reads pongWait (u + pongWait) (u + d) fs in
               (RMessage ty data :: rs, stop)
           | Gone e => ([RError e], u)
           end
  end.

(** The ping goroutine, [n] ticks of it: it ends at [stop], when [connDone] or [done] is
    closed, or with the first write that fails. *)
Fixpoint pings (n : nat) (t interval stop : Z) (write : Z → option error) : list Z :=
  match n with
  | O => []
  | S n =>
      let t := (t + interval)%Z in
      if (t <? stop)%Z
      then t :: (if write t is None then pings n t interval stop write else [])
      else []
  end.

Definition pongWait (c : WebSocketConfig) : Z := wrap_i64 (PongWait c * Second).
Definition pingInterval (c : WebSocketConfig) : Z := wrap_i64 (PingInterval c * Second).

(** A connection whose first deadline is set at [t0], after [OnConnect]. [done_at] is when
    [Stop] closes [done], if it does before the connection ends. [time.NewTicker] panics in
    the ping goroutine, where nothing recovers, when the interval is not positive. *)
Record session_log := mkLog { s_events : list ws_event; s_end : Z; s_pings : list Z }.
Definition session (n : nat) (write : Z → option error) (done_at : option Z) (id : bytes) (t0 : Z)
    (fs : list arrival) (w : WebSocketServer) : outcome session_log * WebSocketServer :=
  let c := ws_config w in
  let '(rs, stop) := reads (pongWait c) (t0 + pongWait c) t0 fs in
  if (pingInterval c <=? 0)%Z then
    (Crash (VString (B "non-positive interval for NewTicker")), set_connections ({[id]} ∪ connections w) w)
  else
    let '(es, w') := serve_conn id rs w in
    let until := if ws_done_closed w then t0 else Z.min stop (default stop done_at) in
    (Ret (mkLog es stop (pings n t0 (pingInterval c) until write)), w').

(** ** When a connection ends *)

(** The peer does not close; no callback takes longer than [W]. *)
Definition stays (fs : list arrival) : Prop := Forall (λ a, ∀ e, carried a ≠ Gone e) fs.
Definition prompt (W : Z) (fs : list arrival) : Prop := Forall (λ a, 0 ≤ took (carried a) ≤ W)%Z fs.
(** Frames in the order they arrive, none before [t]. *)
Fixpoint ordered (t : Z) (fs : list arrival) : Prop :=
  match fs with [] => True | a :: fs => (t ≤ arrives a)%Z ∧ ordered (arrives a) fs end.

(** The data among the frames that arrived until [stop]. *)
Definition received (stop : Z) (fs : list arrival) : list (Z * bytes) :=
  omap (λ a, match carried a with
             | Data ty data _ => if (arrives a <=? stop)%Z then Some (ty, data) else None
             | _ => None
             end) fs.
(** When the last of the frames that arrived until [stop] was read, [l] if there is none. *)
Fixpoint last_read (stop l free : Z) (fs : list arrival) : Z :=
  match fs with
  | [] => l
  | a :: fs =>
      if (arrives a <=? stop)%Z then
        let u := Z.max (arrives a) free in last_read stop u (u + took (carried a)) fs
      else last_read stop l free fs
  end.

Lemma ordered_le t fs a : ordered t fs → a ∈ fs → (t ≤ arrives a)%Z.
Proof.
  revert t. induction fs as [|b fs IH]; intros t; [by intros _ []%elem_of_nil|].
  intros [Hle Ho] [->|Hin]%elem_of_cons; [done|]. specialize (IH (arrives b) Ho Hin). lia.
Qed.
Lemma late stop t l free fs :
  ordered t fs → (stop < t)%Z → received stop fs = [] ∧ last_read stop l free fs = l.
Proof.
  revert t. induction fs as [|a fs IH]; [done|]. intros t [Hle Ho] Ht. unfold received in *. simpl.
  rewrite (proj2 (Z.leb_gt (arrives a) stop)) by lia. destruct (carried a); by apply (IH (arrives a)); [|lia].
Qed.
Lemma last_read_ge stop l free fs :
  (l ≤ free)%Z → Forall (λ a, 0 ≤ took (carried a))%Z fs → (l ≤ last_read stop l free fs)%Z.
Proof.
  intros Hl Hf. revert l free Hl. induction Hf as [|a fs Ha _ IH]; intros l free Hl; simpl; [lia|].
  case_match; [|by apply IH]. specialize (IH (Z.max (arrives a) free)
    (Z.max (arrives a) free + took (carried a))%Z ltac:(lia)). lia.
Qed.
Lemma last_read_after stop l free fs a :
  (l ≤ free)%Z → Forall (λ a, 0 ≤ took (carried a))%Z fs → a ∈ fs → (arrives a ≤ stop)%Z →
  (arrives a ≤ last_read stop l free fs)%Z.
Proof.
  intros Hl Hf Hin Ha. revert l free Hl. induction Hf as [|b fs Hb Hf IH]; intros l free Hl;
    [by apply elem_of_nil in Hin|]. apply elem_of_cons in Hin as [->|Hin]; simpl.
  - rewrite (proj2 (Z.leb_le _ _) Ha). etrans; [|apply last_read_ge; [lia|done]]. lia.
  - case_match; apply IH; done || lia.
Qed.

Lemma prompt_nonneg W fs : prompt W fs → Forall (λ a, 0 ≤ took (carried a))%Z fs.
Proof. intros Hp. eapply Forall_impl; [exact Hp|]. simpl. lia. Qed.

Lemma reads_after W D free fs :
  Forall (λ a, 0 ≤ took (carried a))%Z fs → (free ≤ (reads W D free fs).2)%Z.
Proof.
  intros Hf. revert D free. induction Hf as [|[t buf f] fs Ht _ IH]; intros D free; [simpl; lia|].
  cbn [reads]. destruct (_ && _); [simpl; lia|]. destruct f as [|ty data d|e]; cbn [carried took] in Ht.
  - etrans; [|apply IH]. lia.
  - specialize (IH (Z.max t free + W)%Z (Z.max t free + d)%Z). destruct (reads _ _ _ _). simpl in *. lia.
  - simpl. lia.
Qed.

(** The connection ends [W] after the last frame it read, having delivered the data that
    arrived until then. *)
Lemma reads_spec W l free fs :
  (l ≤ free ≤ l + W)%Z → stays fs → prompt W fs → (∃ t, ordered t fs) →
  let stop := (reads W (l + W) free fs).2 in
  (reads W (l + W) free fs).1 = ((λ m, RMessage m.1 m.2) <$> received stop fs) ++ [RError timeout] ∧
  stop = (last_read stop l free fs + W)%Z.
Proof.
  revert l free. induction fs as [|[t buf f] fs IH]; intros l free Hl Hs Hp [t0 Ho].
  { split; [done|]. simpl. lia. }
  destruct Ho as [_ Ho]. cbn [arrives] in Ho. cbn [reads].
  apply Forall_cons in Hs as [Hf Hs]. apply Forall_cons in Hp as [Ht Hp]. cbn [carried] in Hf, Ht.
  destruct ((l + W <? Z.max t free)%Z && negb buf) eqn:Hlate.
  { apply andb_true_iff in Hlate as [Hlate%Z.ltb_lt _]. cbn [fst snd].
    destruct (late (Z.max (l + W) free) t l free (mkArrival t buf f :: fs)) as [-> ->];
      [by split; [simpl; lia|]|lia|]. split; [done|lia]. }
  clear Hlate. set (u := Z.max t free) in *. assert (t ≤ u)%Z as Hu by lia.
  assert (∀ free', (u ≤ free')%Z → (t <=? (reads W (u + W) free' fs).2)%Z = true) as Hin.
  { intros free' Hfree. apply Z.leb_le. etrans; [exact Hu|].
    etrans; [exact Hfree|]. apply reads_after. by eapply prompt_nonneg. }
  destruct f as [|ty data d|e]; [| |by destruct (Hf e)]; cbn [took carried] in *.
  - destruct (IH u u ltac:(lia) Hs Hp ltac:(by exists t)) as (IH1 & IH2). specialize (Hin u ltac:(lia)).
    set (stop := (reads W (u + W) u fs).2) in *.
    split; [exact IH1|]. cbn [last_read arrives took carried]. rewrite Hin. fold u. by rewrite Z.add_0_r.
  - destruct (IH u (u + d)%Z ltac:(lia) Hs Hp ltac:(by exists t)) as (IH1 & IH2).
    specialize (Hin (u + d)%Z ltac:(lia)). destruct (reads W (u + W) (u + d) fs) as [rs stop].
    cbn [fst snd] in *. unfold received in *. cbn [omap list_omap carried arrives last_read took].
    rewrite Hin. fold u. cbn [fmap list_fmap app]. split; [by rewrite IH1|exact IH2].
Qed.

Lemma pings_spec n t I stop j :
  (0 < I)%Z → 1 ≤ j ≤ n → (t + Z.of_nat j * I < stop)%Z →
  (t + Z.of_nat j * I)%Z ∈ pings n t I stop (λ _, None).
Proof.
  intros HI. revert t j. induction n as [|n IH]; intros t j Hj Hlt; [lia|]. simpl.
  rewrite (proj2 (Z.ltb_lt (t + I) stop)) by nia. destruct (decide (j = 1)) as [->|Hne].
  - rewrite Z.mul_1_l. by left.
  - right. specialize (IH (t + I)%Z (j - 1) ltac:(lia)).
    replace (t + Z.of_nat j * I)%Z with (t + I + Z.of_nat (j - 1) * I)%Z by lia. apply IH. lia.
Qed.

Lemma read_loop_messages cb id (ms : list (Z * bytes)) e :
  read_loop cb id (((λ m, RMessage m.1 m.2) <$> ms) ++ [RError e]) =
  ((ms ≫= λ m, emit (has_OnMessage cb) (EvMessage id m.1 m.2)) ++
   emit (has_OnDisconnect cb) (EvDisconnect id (Some e)), true).
Proof.
  induction ms as [|[ty data] ms IH]; [done|]. cbn [fmap list_fmap app read_loop]. rewrite IH.
  cbn [mbind list_bind fst snd]. by rewrite <- (assoc_L app).
Qed.

(** C23 A connection lives while the peer answers the pings. Take a server that is neither
    stopped nor was started before, pings that can be written at a positive interval shorter
    than [PongWait], a peer that does not close and an [OnMessage] that never takes longer
    than [PongWait]. The callbacks see the connection, every message that arrives until it
    ends, and the timeout; it ends [PongWait] after the last of the frames that arrived by
    then was read. If the peer answers each ping that is sent within a delay, and the
    interval of the pings and that delay fit in [PongWait], the connection outlives any
    number of intervals in which this goes on. *)
Theorem session_lives n d t0 id fs w :
  let c := ws_config w in
  let cb := ws_callbacks w in
  (0 < pingInterval c)%Z → (pingInterval c < pongWait c)%Z → (pingInterval c + d ≤ pongWait c)%Z →
  ws_done_closed w = false → stays fs → ordered t0 fs → prompt (pongWait c) fs →
  ∃ log w', session n (λ _, None) None id t0 fs w = (Ret log, w') ∧
    s_end log = (last_read (s_end log) t0 t0 fs + pongWait c)%Z ∧
    s_events log = emit (has_OnConnect cb) (EvConnect id) ++
      (received (s_end log) fs ≫= λ m, emit (has_OnMessage cb) (EvMessage id m.1 m.2)) ++
      emit (has_OnDisconnect cb) (EvDisconnect id (Some timeout)) ++
      emit (has_OnDisconnect cb) (EvDisconnect id None) ∧
    ((∀ p, p ∈ s_pings log → ∃ a, a ∈ fs ∧ (p ≤ arrives a ≤ p + d)%Z) →
     (t0 + Z.of_nat n * pingInterval c + pongWait c ≤ s_end log)%Z).
Proof.
  intros c cb HI HIW Hd Hdone Hs Ho Hp. unfold session. fold c.
  destruct (reads_spec (pongWait c) t0 t0 fs ltac:(lia) Hs Hp ltac:(by exists t0)) as (Hr & He).
  destruct (reads _ _ _ _) as [rs stop]. cbn [fst snd] in *. subst rs.
  rewrite (proj2 (Z.leb_gt (pingInterval c) 0)), Hdone by done.
  unfold serve_conn. rewrite read_loop_messages. eexists _, _. split; [reflexivity|].
  cbn [s_end s_events s_pings default]. split_and!; [done|by rewrite <- !(assoc_L app)|].
  rewrite Z.min_id. intros Hans. apply Z.nlt_ge. intros Hlt.
  pose proof (prompt_nonneg _ _ Hp) as Hnn. set (l := last_read stop t0 t0 fs) in *.
  assert (t0 ≤ l)%Z as Hl by (apply last_read_ge; [lia|done]).
  set (I := pingInterval c) in *. set (j := S (Z.to_nat ((l - t0) / I))).
  pose proof (Z.div_mod (l - t0) I ltac:(lia)) as Hdm. pose proof (Z.mod_pos_bound (l - t0) I HI) as Hmod.
  pose proof (Z.div_pos (l - t0) I ltac:(lia) HI) as Hpos.
  assert (Z.of_nat j = (l - t0) / I + 1)%Z as Hj by lia.
  destruct (Hans (t0 + Z.of_nat j * I)%Z) as (a & Hin & Hu).
  { apply pings_spec; [done|nia|nia]. }
  assert (arrives a ≤ l)%Z as Hh by (apply last_read_after; [lia|done|done|nia]). nia.
Qed.
End keepalive.

(** ** Configurations *)

(** With the default interval the pings fit in [PongWait] and leave a tenth of it to the
    answers, if [PongWait] is at least two seconds. *)
Lemma default_interval cfg cb :
  PingInterval cfg = 0%Z → (2 ≤ PongWait cfg < 2 ^ 59 / Second)%Z →
  let c := ws_config (NewWebSocketServer cfg cb) in
  (0 < pingInterval c)%Z ∧ (pingInterval c + PongWait cfg * (Second / 10) ≤ pongWait c)%Z.
Proof.
  intros HI HW. unfold NewWebSocketServer, WS_SetDefaults, pingInterval, pongWait. cbn [ws_config PingInterval PongWait].
  rewrite HI. unfold or_default. rewrite (proj2 (Z.eqb_neq (PongWait cfg) 0)) by lia. simpl Z.eqb. cbn iota.
  change (2 ^ 59 / Second)%Z with 576460752%Z in HW. unfold Second in *. change (1000000000 / 10)%Z with 100000000%Z.
  rewrite (wrap_i64_small (PongWait cfg * 9)) by lia.
  pose proof (Z.quot_div_nonneg (PongWait cfg * 9) 10 ltac:(lia) ltac:(lia)) as Hq. rewrite Hq.
  pose proof (Z.div_mod (PongWait cfg * 9) 10 ltac:(lia)). pose proof (Z.mod_pos_bound (PongWait cfg * 9) 10 ltac:(lia)).
  rewrite !wrap_i64_small by lia. lia.
Qed.

(** ** Runs *)

Definition idle_cfg (pong : Z) : WebSocketConfig :=
  mkWebSocketConfig (mkProtocolConfig true 0 [] [] []) [] 0 0 0 0 0 pong [] false.
Definition idle_server (pong : Z) : WebSocketServer :=
  NewWebSocketServer (idle_cfg pong) (mkCallbacks true true true).
Definition timed_out : error := Err (B "i/o timeout").
Definition at_ms (ms : Z) : Z := ms * 1000000.

(** Pings every nine seconds; the peer answers three of them and says something once. *)
Definition answers : list arrival :=
  [mkArrival (at_ms 9500) false Pong; mkArrival (at_ms 12000) false (Data 1 (B "hi") (at_ms 7000));
   mkArrival (at_ms 18200) false Pong; mkArrival (at_ms 27900) false Pong].

Lemma session_lives_witness :
  ∃ log w', session timed_out 3 (λ _, None) None (B "c") 0 answers (idle_server 10) = (Ret log, w') ∧
    (at_ms 37000 ≤ s_end log)%Z.
Proof.
  destruct (session_lives timed_out 3 (at_ms 1000) 0 (B "c") answers (idle_server 10))
    as (log & w' & Hs & _ & _ & Hlive);
    [done|done|done|done|by repeat constructor|repeat split; by vm_compute|repeat constructor; by vm_compute|].
  exists log, w'. split; [exact Hs|]. apply Hlive. clear Hlive.
  vm_compute in Hs. injection Hs as <- _. intros p Hp.
  repeat (apply elem_of_cons in Hp as [->|Hp]); [| | |by apply elem_of_nil in Hp].
  - exists (mkArrival (at_ms 9500) false Pong). split; [by left|by vm_compute].
  - exists (mkArrival (at_ms 18200) false Pong). split; [by right; right; left|by vm_compute].
  - exists (mkArrival (at_ms 27900) false Pong). split; [by right; right; right; left|by vm_compute].
Defined.

(** An [OnMessage] that takes longer than [PongWait] drops a peer that answered every ping:
    the answer waits in the socket while the deadline passes. *)
Example slow_handler_drops_peer :
  (session timed_out 5 (λ _, None) None (B "c") 0
     [mkArrival (at_ms 1000) false (Data 1 (B "work") (at_ms 12000)); mkArrival (at_ms 9100) false Pong]
     (idle_server 10)).1 =
  Ret (mkLog [EvConnect (B "c"); EvMessage (B "c") 1 (B "work"); EvDisconnect (B "c") (Some timed_out);
              EvDisconnect (B "c") None] (at_ms 13000) [at_ms 9000]).
Proof. vm_compute. reflexivity. Qed.

(** With a [PongWait] of one second the default interval is zero, and the first connection
    ends the process. *)
Example one_second_crashes :
  (session timed_out 1 (λ _, None) None (B "c") 0 [] (idle_server 1)).1 =
  Crash (VString (B "non-positive interval for NewTicker")).
Proof. reflexivity. Qed.

(** After a restart no connection is pinged, since [done] stays closed: a client that would
    answer every ping, but says nothing else, is dropped. *)
Example restarted_never_pings :
  let w := ws_set_running true true (ws_Stop (ws_set_running true false (idle_server 10))).2 in
  (session timed_out 5 (λ _, None) None (B "c") 0 [] w).1 =
  Ret (mkLog [EvConnect (B "c"); EvDisconnect (B "c") (Some timed_out); EvDisconnect (B "c") None]
         (at_ms 10000) []).
Proof. reflexivity. Qed.
