(* ===== verification/GraphQL.v ===== *)
(** * The GraphQL server ([protocol/graphql/server.go], [config.go])

    gqlgen's executor and its playground page are parameters: request handlers built
    from the schema and the limits. *)

From S2P Require Import Prelude GoStrings Effects FastHTTP Core Middleware Jwt Protocol Mcp.

(** [type GraphQLConfig struct] and its defaults. *)
Record GraphQLConfig := mkGraphQLConfig {
  gql_base : ProtocolConfig;
  QueryPath : bytes;
  PlaygroundPath : bytes;
  MaxQueryDepth : Z;
  gql_Timeout : Z;
  MaxComplexity : Z;
  EnablePlayground : bool;
  EnableIntrospection : bool;
  gql_RequireAuth : bool;
}.
Definition GQL_SetDefaults (c : GraphQLConfig) : GraphQLConfig :=
  let depth := or_default (MaxQueryDepth c) 10 in
  mkGraphQLConfig (base_defaults 8081 (gql_base c))
    (match QueryPath c with [] => B "/graphql" | p => p end)
    (match PlaygroundPath c with [] => B "/graphql/playground" | p => p end)
    depth (or_default (gql_Timeout c) 30)
    (or_default (MaxComplexity c) (wrap_i64 (depth * 100)))
    (EnablePlayground c) (if EnablePlayground c then true else EnableIntrospection c)
    (gql_RequireAuth c).

Section graphql.
Context `{F : FastHTTP} `{L : JWTLib} {St : Type} `{!Clock St}.
(** Schemas, the executor over one with a complexity limit (if any) and
    introspection on or off, and the playground page for a query path. *)
Context (Schema : Type) (executor : Schema → option Z → bool → RequestHandler St)
        (playground : bytes → RequestHandler St).

(** [type GraphQLServer struct] *)
Record GraphQLServer := mkGraphQLServer {
  gs_config : GraphQLConfig;
  gs_isRunning : bool;
  gs_outerMW : bool;
  gs_Schema : option Schema;
  gs_secret : bytes;
  gs_lookup : bytes;
}.

Definition NewGraphQLServer (c : GraphQLConfig) : GraphQLServer :=
  mkGraphQLServer (GQL_SetDefaults c) false false None [] [].
Definition gs_SetAuthSecret (s : bytes) (g : GraphQLServer) : GraphQLServer :=
  mkGraphQLServer (gs_config g) (gs_isRunning g) (gs_outerMW g) (gs_Schema g) s (gs_lookup g).
Definition gs_SetAuthLookup (l : bytes) (g : GraphQLServer) : GraphQLServer :=
  mkGraphQLServer (gs_config g) (gs_isRunning g) (gs_outerMW g) (gs_Schema g) (gs_secret g) l.
Definition gs_SetFastHTTPOuterMiddleware (g : GraphQLServer) : GraphQLServer :=
  mkGraphQLServer (gs_config g) (gs_isRunning g) true (gs_Schema g) (gs_secret g) (gs_lookup g).
Definition gs_set_running (run : bool) (g : GraphQLServer) : GraphQLServer :=
  mkGraphQLServer (gs_config g) run (gs_outerMW g) (gs_Schema g) (gs_secret g) (gs_lookup g).

#[export] Instance gql_auth : AuthAware GraphQLServer.
Proof.
  by refine {| set_secret := gs_SetAuthSecret; set_lookup := gs_SetAuthLookup;
               get_secret := gs_secret; get_lookup := gs_lookup |}.
Defined.

(** The response [withAuth] refuses with. *)
Definition gql_refuse (code : Z) (msg : bytes) : RequestHandler St :=
  rh_response (res_SetStatusCode code);;
  rh_response (res_SetContentType (B "application/json"));;
  rh_response (res_SetBody (Q "{'errors':[{'message':'" ++ msg ++ Q "'}]}")).

(** [gs.withAuth(next)]; [live] is the server the handler finds when it runs. *)
Definition withAuth (live : St → GraphQLServer) (next : RequestHandler St) : RequestHandler St :=
  ctx ← gets fst;
  g ← gets (λ s, live s.2);
  t ← gets (λ s, now s.2);
  if beqb (gs_secret g) [] && negb (gql_RequireAuth (gs_config g)) then next
  else if beqb (gs_secret g) [] then gql_refuse 500 (B "auth not configured")
  else
    match ValidateJWT t (ExtractToken (fresh_ctx ctx) (gs_lookup g)) (gs_secret g) with
    | inr _ => gql_refuse 401 (B "unauthorized")
    | inl _ => next
    end.

(** [buildGQLHandler]: over the schema the server has when the handler is built. *)
Definition buildGQLHandler (live : St → GraphQLServer) (g : GraphQLServer) : RequestHandler St :=
  let base :=
    match gs_Schema g with
    | None =>
        rh_response (res_SetContentType (B "application/json"));;
        rh_response (res_SetBody (Q "{'data':{'ping':'pong'}}"))
    | Some schema =>
        executor schema
          (if (0 <? MaxComplexity (gs_config g))%Z then Some (MaxComplexity (gs_config g)) else None)
          (EnableIntrospection (gs_config g))
    end in
  withAuth live base.

Definition serve_playground (g : GraphQLServer) : RequestHandler St :=
  if EnablePlayground (gs_config g) then playground (QueryPath (gs_config g))
  else ctx_Error (B "Not Found") 404.

(** [Handler()], before the app's wrapper. *)
Definition gql_routes (live : St → GraphQLServer) (g : GraphQLServer) : RequestHandler St :=
  ctx ← gets fst;
  let path := ctx_Path ctx in
  if beqb path (QueryPath (gs_config g)) then buildGQLHandler live g
  else if beqb path (PlaygroundPath (gs_config g)) then serve_playground g
  else if HasSuffix path (B "/query") || HasSuffix path (B "/graphql") then buildGQLHandler live g
  else ctx_Error (B "Not Found") 404.
Definition gql_Handler (wrap : RequestHandler St → RequestHandler St)
    (live : St → GraphQLServer) (g : GraphQLServer) : RequestHandler St :=
  if gs_outerMW g then wrap (gql_routes live g) else gql_routes live g.

(** The [router] of [Start]. *)
Definition gql_router (live : St → GraphQLServer) (g : GraphQLServer) : RequestHandler St :=
  ctx ← gets fst;
  let path := ctx_Path ctx in
  if beqb path (QueryPath (gs_config g)) then buildGQLHandler live g
  else if beqb path (PlaygroundPath (gs_config g)) then serve_playground g
  else ctx_Error (B "Not Found") 404.

(** [Start]: the handler it serves on the listener [net.Listen] answers. *)
Definition gql_Start (wrap : RequestHandler St → RequestHandler St)
    (live : St → GraphQLServer) (ln : listener_id + error) (cert : option error)
    (g : GraphQLServer)
  : (option error * option (listener_id * RequestHandler St)) * GraphQLServer :=
  if gs_isRunning g then ((None, None), g)
  else if negb (Enabled (gql_base (gs_config g))) then ((None, None), g)
  else
    let router := gql_router live g in
    let handler := if gs_outerMW g then wrap router else router in
    match ln with
    | inr e => ((Some e, None), g)
    | inl l =>
        if TLSEnabled (gql_base (gs_config g)) then
          match cert with
          | Some e => ((Some (Err (B "graphql tls: " ++ err_Error e)), None), g)
          | None => ((None, Some (l, handler)), gs_set_running true g)
          end
        else ((None, Some (l, handler)), gs_set_running true g)
    end.
Definition gs_GetInfo (g : GraphQLServer) : bytes :=
  B "Query: " ++ QueryPath (gs_config g) ++ B ", Playground: " ++ PlaygroundPath (gs_config g) ++
  B " (Port " ++ format_int (Port (gql_base (gs_config g))) ++ B ")".
(** [SetListener] does nothing. *)
Definition gs_SetListener (ln : listener_id) (g : GraphQLServer) : GraphQLServer := g.
Definition gs_GetName : bytes := B "graphql".
Definition gs_GetPaths (g : GraphQLServer) : list bytes :=
  [QueryPath (gs_config g); PlaygroundPath (gs_config g)].
Definition gs_IsRunning (s : GraphQLServer) : bool := gs_isRunning s.

Definition gql_Stop (g : GraphQLServer) : option error * GraphQLServer :=
  if negb (gs_isRunning g) then (None, g) else (None, gs_set_running false g).

(** ** Lemmas *)

(** A request the server must not execute. *)
Definition gql_barred (g : GraphQLServer) (t : Z) (ctx : RequestCtx) : Prop :=
  (gs_secret g ≠ [] ∨ gql_RequireAuth (gs_config g) = true) ∧
  ¬ (gs_secret g ≠ [] ∧ carries_token t (gs_lookup g) (gs_secret g) ctx).

(** A barred request gets the refusal, whatever handler stands behind. *)
Lemma withAuth_barred `{!JWTSound L} live next s :
  gql_barred (live s.2) (now s.2) s.1 →
  withAuth live next s =
    if beqb (gs_secret (live s.2)) [] then gql_refuse 500 (B "auth not configured") s
    else gql_refuse 401 (B "unauthorized") s.
Proof.
  intros [Hn Hno]. unfold withAuth, gets, mbind, M_bind. cbn [fst snd].
  destruct (beqb (gs_secret (live s.2)) []) eqn:Hs.
  - apply beqb_eq in Hs. destruct Hn as [?|Hr]; [done|]. by rewrite Hr.
  - cbn [andb]. apply beqb_neq in Hs. destruct (ValidateJWT _ _ _) as [c|msg] eqn:Hv; [|done].
    destruct Hno. split; [done|]. exists c. by apply ValidateJWT_sound.
Qed.

Lemma withAuth_admits `{!JWTLaws L} live next s :
  ¬ gql_barred (live s.2) (now s.2) s.1 → withAuth live next s = next s.
Proof.
  intros Hb. unfold gql_barred in Hb. unfold withAuth, gets, mbind, M_bind. cbn [fst snd].
  destruct (beqb (gs_secret (live s.2)) []) eqn:Hs.
  - apply beqb_eq in Hs. destruct (gql_RequireAuth (gs_config (live s.2))); [|done].
    destruct Hb. split; [by right|]. by intros [? _].
  - cbn [andb]. apply beqb_neq in Hs. destruct (ValidateJWT _ _ _) as [c|msg] eqn:Hv; [done|].
    destruct Hb. split; [by left|]. intros [_ [c Hc]%ValidateJWT_carries]. congruence.
Qed.
End graphql.
