(* ===== verification/Grpc.v ===== *)
(** * The gRPC and ConnectRPC servers ([protocol/grpc/server.go], [connect_server.go],
    [config.go])

    grpc-go is a parameter: the metadata of a call, and a server that runs the
    interceptors it was started with, the first one outermost. So are the services of
    ConnectRPC, seen through the adaptor fasthttp has for [net/http] handlers. *)

From S2P Require Import Prelude GoStrings Effects FastHTTP Core Middleware Jwt Quote Logging Protocol Mcp.

(** [type GRPCConfig struct] and its defaults. *)
Record GRPCConfig := mkGRPCConfig {
  grpc_base : ProtocolConfig;
  MaxConcurrentStreams : Z;
  MaxRecvMsgSize : Z;
  MaxSendMsgSize : Z;
  KeepaliveTime : Z;
}.
Definition GRPC_SetDefaults (c : GRPCConfig) : GRPCConfig :=
  mkGRPCConfig (base_defaults 8082 (grpc_base c))
    (or_default (MaxConcurrentStreams c) 100) (or_default (MaxRecvMsgSize c) (4 * 1024 * 1024))
    (or_default (MaxSendMsgSize c) (4 * 1024 * 1024)) (or_default (KeepaliveTime c) 7200).

(** What an interceptor reads of the call's context: the incoming metadata, when
    there is any, and the claims stored under [jwtClaimsCtxKey]. *)
Record call_ctx := mkCallCtx { md_Get : option (bytes → list bytes); claims_of : option claims }.

(** [status.Error(codes.Unauthenticated, msg)], [status.Errorf(codes.Internal, ..)] and
    other errors. *)
Inductive grpc_error := Unauthenticated (msg : bytes) | Internal (msg : bytes) | Other (e : error).

Section grpc.
Context `{L : JWTLib}.
(** Responses and messages of a stream; what a handler does, a panic included. *)
Context {R : Type}.

Abbreviation UnaryHandler := (call_ctx → outcome (R + grpc_error)).
Abbreviation UnaryInterceptor := (Z → call_ctx → UnaryHandler → outcome (R + grpc_error)).

(** A [grpc.ServerStream]: the call it belongs to and its context. *)
Record ServerStream := mkServerStream { ss_call : nat; ss_Context : call_ctx }.
(** The messages a stream handler sent and how it ended. *)
Record streamed := mkStreamed { sent : list R; ended : outcome (option grpc_error) }.
Abbreviation StreamHandler := (ServerStream → streamed).
Abbreviation StreamInterceptor := (Z → ServerStream → StreamHandler → streamed).

(** [strings.TrimPrefix(strings.TrimSpace(vals[0]), ...)] of the metadata. *)
Definition grpc_token (get : bytes → list bytes) : bytes :=
  let vals := match get (B "authorization") with
              | [] => get (B "Authorization")
              | vs => vs
              end in
  match vals with
  | [] => []
  | v :: _ => TrimPrefix (TrimSpace v) (B "Bearer ")
  end.

(** The checks both interceptors make on the metadata of a call, at time [t]. *)
Definition check_call (secret : bytes) (t : Z) (ctx : call_ctx) : claims + grpc_error :=
  match md_Get ctx with
  | None => inr (Unauthenticated (B "missing metadata"))
  | Some get =>
      let raw := grpc_token get in
      if beqb raw [] then inr (Unauthenticated (B "missing or empty token"))
      else
        match DecodeJWT t raw secret with
        | inr msg => inr (Unauthenticated msg)
        | inl c => inl c
        end
  end.
(** [context.WithValue(ctx, jwtClaimsCtxKey{}, claims)] *)
Definition with_claims (c : claims) (ctx : call_ctx) : call_ctx := mkCallCtx (md_Get ctx) (Some c).

(** [unifiedAuthInterceptor(secret)] *)
Definition unifiedAuthInterceptor (secret : bytes) : UnaryInterceptor := λ t ctx handler,
  match check_call secret t ctx with
  | inr e => Ret (inr e)
  | inl c => handler (with_claims c ctx)
  end.

(** [unifiedAuthStreamInterceptor(secret)]; [newWrappedServerStream] keeps the stream and
    replaces its context. *)
Definition unifiedAuthStreamInterceptor (secret : bytes) : StreamInterceptor := λ t ss handler,
  match check_call secret t (ss_Context ss) with
  | inr e => mkStreamed [] (Ret (Some e))
  | inl c => handler (mkServerStream (ss_call ss) (with_claims c (ss_Context ss)))
  end.

Definition GetClaims (ctx : call_ctx) : option claims := claims_of ctx.

(** [type GRPCServer struct]; [gr_chain] holds the unary and the stream interceptors of
    the server [Start] made, [unarySrc] and [streamSrc] tell whether a source of further
    ones is set. *)
Record GRPCServer := mkGRPCServer {
  gr_config : GRPCConfig;
  gr_isRunning : bool;
  gr_listener : option listener_id;
  unarySrc : bool;
  streamSrc : bool;
  gr_chain : option (list UnaryInterceptor * list StreamInterceptor);
  gr_secret : bytes;
  gr_lookup : bytes;
}.

Definition NewGRPCServer (c : GRPCConfig) : GRPCServer :=
  mkGRPCServer (GRPC_SetDefaults c) false None false false None [] [].
Definition gr_SetListener (l : listener_id) (g : GRPCServer) : GRPCServer :=
  mkGRPCServer (gr_config g) (gr_isRunning g) (Some l) (unarySrc g) (streamSrc g) (gr_chain g)
    (gr_secret g) (gr_lookup g).
Definition gr_SetAuthSecret (s : bytes) (g : GRPCServer) : GRPCServer :=
  mkGRPCServer (gr_config g) (gr_isRunning g) (gr_listener g) (unarySrc g) (streamSrc g) (gr_chain g)
    s (gr_lookup g).
Definition gr_SetAuthLookup (l : bytes) (g : GRPCServer) : GRPCServer :=
  mkGRPCServer (gr_config g) (gr_isRunning g) (gr_listener g) (unarySrc g) (streamSrc g) (gr_chain g)
    (gr_secret g) l.
Definition SetUnaryInterceptorSource (g : GRPCServer) : GRPCServer :=
  mkGRPCServer (gr_config g) (gr_isRunning g) (gr_listener g) true (streamSrc g) (gr_chain g)
    (gr_secret g) (gr_lookup g).

Definition SetStreamInterceptorSource (g : GRPCServer) : GRPCServer :=
  mkGRPCServer (gr_config g) (gr_isRunning g) (gr_listener g) (unarySrc g) true (gr_chain g)
    (gr_secret g) (gr_lookup g).

Definition gr_GetInfo (g : GRPCServer) : bytes :=
  B "gRPC Service (Port " ++ format_int (Port (grpc_base (gr_config g))) ++ B ")".
Definition gr_GetName : bytes := B "grpc".
Definition gr_GetPaths : list bytes := [].
Definition gr_IsRunning (s : GRPCServer) : bool := gr_isRunning s.

#[export] Instance grpc_auth : AuthAware GRPCServer.
Proof.
  by refine {| set_secret := gr_SetAuthSecret; set_lookup := gr_SetAuthLookup;
               get_secret := gr_secret; get_lookup := gr_lookup |}.
Defined.

(** The interceptors [Start] collects; [src] and [ssrc] are what the sources answer. *)
Definition collect (src : list UnaryInterceptor) (g : GRPCServer) : list UnaryInterceptor :=
  (if beqb (gr_secret g) [] then [] else [unifiedAuthInterceptor (gr_secret g)]) ++
  (if unarySrc g then src else []).
Definition collect_stream (ssrc : list StreamInterceptor) (g : GRPCServer) : list StreamInterceptor :=
  (if beqb (gr_secret g) [] then [] else [unifiedAuthStreamInterceptor (gr_secret g)]) ++
  (if streamSrc g then ssrc else []).

(** [Start]: [cert] and [ln] are what the key pair and [net.Listen] answer. The
    server object is made before the listener is. *)
Definition gr_Start (src : list UnaryInterceptor) (ssrc : list StreamInterceptor)
    (cert : option error) (ln : listener_id + error) (g : GRPCServer) : option error * GRPCServer :=
  if gr_isRunning g then (None, g)
  else if negb (Enabled (grpc_base (gr_config g))) then (None, g)
  else
    match (if TLSEnabled (grpc_base (gr_config g)) then cert else None) with
    | Some e => (Some (Err (B "grpc tls: " ++ err_Error e)), g)
    | None =>
        let made run := mkGRPCServer (gr_config g) run (gr_listener g) (unarySrc g) (streamSrc g)
                          (Some (collect src g, collect_stream ssrc g)) (gr_secret g) (gr_lookup g) in
        match gr_listener g, ln with
        | None, inr e => (Some e, made false)
        | _, _ => (None, made true)
        end
    end.
Definition gr_Stop (g : GRPCServer) : option error * GRPCServer :=
  if negb (gr_isRunning g) then (None, g)
  else (None, mkGRPCServer (gr_config g) false (gr_listener g) (unarySrc g) (streamSrc g) (gr_chain g)
                (gr_secret g) (gr_lookup g)).

(** [grpc.ChainUnaryInterceptor], [grpc.ChainStreamInterceptor]: what a call to a
    running server does. *)
Definition chain_unary (is_ : list UnaryInterceptor) (t : Z) (handler : UnaryHandler) : UnaryHandler :=
  fold_right (λ (i : UnaryInterceptor) h ctx, i t ctx h) handler is_.
Definition chain_stream (is_ : list StreamInterceptor) (t : Z) (handler : StreamHandler) : StreamHandler :=
  fold_right (λ (i : StreamInterceptor) h ss, i t ss h) handler is_.
Definition unary_call (g : GRPCServer) (t : Z) (handler : UnaryHandler) : UnaryHandler :=
  chain_unary (default [] (fst <$> gr_chain g)) t handler.
Definition stream_call (g : GRPCServer) (t : Z) (handler : StreamHandler) : StreamHandler :=
  chain_stream (default [] (snd <$> gr_chain g)) t handler.

(** ** [middleware/grpc_recover.go], [middleware/grpc_logger.go] *)

Definition panicked (fmt_v : any → bytes) (v : any) : grpc_error :=
  Internal (B "internal server error: " ++ fmt_v v).
Definition GRPCRecover (fmt_v : any → bytes) : UnaryInterceptor := λ _ ctx handler,
  match handler ctx with Panic v => Ret (inr (panicked fmt_v v)) | r => r end.
Definition GRPCStreamRecover (fmt_v : any → bytes) : StreamInterceptor := λ _ ss handler,
  let r := handler ss in
  match ended r with
  | Panic v => mkStreamed (sent r) (Ret (Some (panicked fmt_v v)))
  | _ => r
  end.

(** [status.FromError(err).Code()], printed with [%v]. *)
Definition code_text (err : option grpc_error) : bytes :=
  match err with
  | None => B "OK"
  | Some (Unauthenticated _) => B "Unauthenticated"
  | Some (Internal _) => B "Internal"
  | Some (Other _) => B "Unknown"
  end.
(** The line of a logger; [dur] is the text of the duration. *)
Definition grpc_log_line (tag method : bytes) (err : option grpc_error) (dur : bytes) : bytes :=
  tag ++ pad_right 30 method ++ B " " ++
  esc (match err with Some _ => B "[31m" | None => B "[32m" end) ++ code_text err ++
  esc (B "[0m") ++ B "  " ++ dur.
(** What the handler answered is handed on, with the lines written: none on a panic. *)
Definition GRPCLogger (method dur : bytes) (ctx : call_ctx) (handler : UnaryHandler)
  : outcome (R + grpc_error) * list bytes :=
  let r := handler ctx in
  (r, match r with
      | Ret x => [grpc_log_line (B "[gRPC] ") method (match x with inr e => Some e | _ => None end) dur]
      | _ => []
      end).
Definition GRPCStreamLogger (method dur : bytes) (ss : ServerStream) (handler : StreamHandler)
  : streamed * list bytes :=
  let r := handler ss in
  (r, match ended r with
      | Ret err => [grpc_log_line (B "[gRPC-Stream] ") method err dur]
      | _ => []
      end).

(** ** Lemmas *)

(** The credentials of a call vouched for by [secret]. *)
Definition call_vouched (t : Z) (secret : bytes) (ctx : call_ctx) (c : claims) : Prop :=
  ∃ get, md_Get ctx = Some get ∧ authentic t (grpc_token get) secret c.

Lemma check_call_inl `{!JWTLaws L} secret t ctx c :
  check_call secret t ctx = inl c ↔ call_vouched t secret ctx c.
Proof.
  unfold check_call, call_vouched, DecodeJWT. split.
  - destruct (md_Get ctx) as [get|]; [|done]. destruct (beqb _ _); [done|].
    destruct (ValidateJWT _ _ _) eqn:Hv; intros [= <-]. exists get. by split; [|apply ValidateJWT_inl].
  - intros (get & -> & Ha). assert (grpc_token get ≠ []) as ->%beqb_neq by apply Ha.
    by rewrite (proj2 (ValidateJWT_inl _ _ _ _) Ha).
Qed.
Lemma check_call_inr `{!JWTLaws L} secret t ctx :
  (¬ ∃ c, call_vouched t secret ctx c) → ∃ msg, check_call secret t ctx = inr (Unauthenticated msg).
Proof.
  intros Hno. destruct (check_call secret t ctx) as [c|e] eqn:Hc.
  { destruct Hno. exists c. by apply check_call_inl. }
  revert Hc. unfold check_call. destruct (md_Get ctx); [|intros [= <-]; by eexists].
  destruct (beqb _ _); [intros [= <-]; by eexists|].
  destruct (DecodeJWT _ _ _); intros [= <-]; by eexists.
Qed.

Lemma gr_Start_chain src ssrc cert ln g g' :
  gr_Start src ssrc cert ln g = (None, g') → gr_isRunning g = false → gr_isRunning g' = true →
  gr_chain g' = Some (collect src g, collect_stream ssrc g).
Proof.
  unfold gr_Start. intros Hs Hr Hr'. rewrite Hr in Hs.
  destruct (negb (Enabled _)); [simplify_eq; congruence|]. destruct (if TLSEnabled _ then _ else _); [done|].
  destruct (gr_listener g), ln; by simplify_eq.
Qed.
End grpc.
Arguments GRPCServer R : clear implicits.

(** ** [connect_server.go]

    ConnectRPC over [net/http]; what the app needs of it. *)

Record ConnectServer := mkConnectServer {
  cs_config : GRPCConfig;
  cs_isRunning : bool;
  cs_listener : option listener_id;
  cs_secret : bytes;
  cs_lookup : bytes;
}.
Definition NewConnectServer (c : GRPCConfig) : ConnectServer :=
  mkConnectServer (GRPC_SetDefaults c) false None [] [].
Definition cs_SetAuthSecret (s : bytes) (c : ConnectServer) : ConnectServer :=
  mkConnectServer (cs_config c) (cs_isRunning c) (cs_listener c) s (cs_lookup c).
Definition cs_SetAuthLookup (l : bytes) (c : ConnectServer) : ConnectServer :=
  mkConnectServer (cs_config c) (cs_isRunning c) (cs_listener c) (cs_secret c) l.
Definition cs_SetListener (ln : listener_id) (c : ConnectServer) : ConnectServer :=
  mkConnectServer (cs_config c) (cs_isRunning c) (Some ln) (cs_secret c) (cs_lookup c).

Definition cs_GetInfo (c : ConnectServer) : bytes :=
  B "ConnectRPC Service (Port " ++ format_int (Port (grpc_base (cs_config c))) ++ B ")".
Definition cs_GetName : bytes := B "connect".
Definition cs_GetPaths : list bytes := [].
Definition cs_IsRunning (s : ConnectServer) : bool := cs_isRunning s.

#[export] Instance connect_auth : AuthAware ConnectServer.
Proof.
  by refine {| set_secret := cs_SetAuthSecret; set_lookup := cs_SetAuthLookup;
               get_secret := cs_secret; get_lookup := cs_lookup |}.
Defined.

(** The verdict of [authMiddleware] on the request's [Authorization] header: whether
    [next] runs. *)
Definition connect_admits `{JWTLib} (t : Z) (authorization : bytes) (c : ConnectServer) : bool :=
  if negb (beqb (cs_secret c) []) then
    match ValidateJWT t (TrimSpace (TrimPrefix authorization (B "Bearer "))) (cs_secret c) with
    | inl _ => true
    | inr _ => false
    end
  else true.

(** [http.Handler]s, through fasthttp's adaptor: a handler reads the request of the
    context and writes its response. [cs.mux], with what [Register] put there, is such
    a handler. *)
Section connect.
Context `{F : FastHTTP} `{L : JWTLib} {St : Type} `{!Clock St}.

(** [http.Error(w, msg, code)] *)
Definition http_Error (msg : bytes) (code : Z) : RequestHandler St :=
  rh_response (res_Set (B "Content-Type") (B "text/plain; charset=utf-8"));;
  rh_response (res_Set (B "X-Content-Type-Options") (B "nosniff"));;
  rh_response (res_SetStatusCode code);;
  rh_response (res_SetBody (msg ++ [ascii_of_nat 10])).

(** [cs.authMiddleware(next)]; [live] is the server the handler finds when it runs. *)
Definition cs_authMiddleware (live : St → ConnectServer) (next : RequestHandler St)
  : RequestHandler St :=
  ctx ← gets fst;
  c ← gets (λ s, live s.2);
  t ← gets (λ s, now s.2);
  if connect_admits t (req_Peek (ctx_Request ctx) (B "Authorization")) c then next
  else http_Error (Q "{'error':'unauthorized'}") 401.
Definition cs_HTTPHandler (live : St → ConnectServer) (mux : RequestHandler St) : RequestHandler St :=
  cs_authMiddleware live mux.

(** A secret in force lets only requests with a valid token reach the services. *)
Lemma cs_HTTPHandler_spec live mux s :
  cs_HTTPHandler live mux s =
    if connect_admits (now s.2) (req_Peek (ctx_Request s.1) (B "Authorization")) (live s.2)
    then mux s else http_Error (Q "{'error':'unauthorized'}") 401 s.
Proof. unfold cs_HTTPHandler, cs_authMiddleware, gets, mbind, M_bind. cbn [fst snd]. by case_match. Qed.
Lemma connect_admits_spec `{!JWTLaws L} t authorization c :
  connect_admits t authorization c = true ↔
  (cs_secret c ≠ [] →
   ∃ cl, ValidateJWT t (TrimSpace (TrimPrefix authorization (B "Bearer "))) (cs_secret c) = inl cl).
Proof.
  unfold connect_admits. destruct (beqb (cs_secret c) []) eqn:Hs.
  - apply beqb_eq in Hs. split; [congruence|done].
  - apply beqb_neq in Hs. cbn [negb]. destruct (ValidateJWT _ _ _) as [cl|]; [by naive_solver|].
    split; [done|]. intros [? ?]; done.
Qed.
End connect.

(** [Start], which does not look at [Enabled]: the listener served is kept and used
    again by the next [Start]. *)
Definition cs_Start (ln : listener_id + error) (cert : option error) (c : ConnectServer)
  : option error * ConnectServer :=
  if cs_isRunning c then (None, c)
  else
    match (match cs_listener c with Some l => inl l | None => ln end) with
    | inr e => (Some e, c)
    | inl l =>
        match (if TLSEnabled (grpc_base (cs_config c)) then cert else None) with
        | Some e => (Some (Err (B "connect tls: " ++ err_Error e)), c)
        | None => (None, mkConnectServer (cs_config c) true (Some l) (cs_secret c) (cs_lookup c))
        end
    end.
(** [Stop]: [shutdown] is what [http.Server.Shutdown] answers, which closes the
    listener. *)
Definition cs_Stop (shutdown : option error) (c : ConnectServer) : option error * ConnectServer :=
  if negb (cs_isRunning c) then (None, c)
  else (shutdown, mkConnectServer (cs_config c) false (cs_listener c) (cs_secret c) (cs_lookup c)).

(** When the key pair does not load, the listener just opened is left open: nobody
    holds it. *)
Example connect_leaks_listener :
  let c := NewConnectServer (mkGRPCConfig (mkProtocolConfig true 0 [] (B "cert") (B "key")) 0 0 0 0) in
  let r := cs_Start (inl 7) (Some (Err (B "no such file"))) c in
  cs_isRunning r.2 = false ∧ cs_listener r.2 = None.
Proof. by split. Qed.

(** A disabled server starts all the same, and a restarted one serves the listener
    its last [Stop] closed. *)
Example connect_ignores_Enabled :
  let c := NewConnectServer (mkGRPCConfig (mkProtocolConfig false 0 [] [] []) 0 0 0 0) in
  let c1 := (cs_Start (inl 7) None c).2 in
  let c2 := (cs_Start (inl 8) None (cs_Stop None c1).2).2 in
  Enabled (grpc_base (cs_config c)) = false ∧ cs_isRunning c1 = true ∧ cs_listener c2 = Some 7.
Proof. repeat split. Qed.
