(* ===== verification/ProtocolProps.v ===== *)
(** * Properties of the protocol servers *)

From S2P Require Import Prelude GoStrings Fold Effects FastHTTP Core Middleware Jwt Protocol Mcp Mqtt WebSocket GraphQL Grpc.

(** ** MCP *)

Section mcp.
Context `{L : JWTLib} `{!JWTSound L}.
Context (token_of : bytes → bytes) (call_of : bytes → option (bytes * any)).

(** C19 A client of the MCP server gets nothing before it authenticates: on any
    connection, whatever requests arrive and however the server's credentials
    change between them, a request other than [initialize] that finds the server
    protected is answered with the [unauthorized] error unless an earlier
    [initialize] of the same connection carried a token the secret of that moment
    vouches for. *)
Theorem mcp_session_safety es i e req resp :
  es !! i = Some e → ex_request e = Some req → rq_Method req ≠ B "initialize" →
  auth_needed (ex_server e) →
  handleConnection token_of call_of es !! i = Some resp →
  unauthorized resp ∨ ∃ j e', j < i ∧ es !! j = Some e' ∧ logs_in token_of e'.
Proof.
  intros He Hreq Hm Hn Hr.
  by destruct (serve_auth token_of call_of es (mkSession false false) i e req resp)
    as [?|[?|?]]; auto.
Qed.
End mcp.

(** The memory a single MCP request can take is bounded: between two resets, a
    [limitedReader] hands out at most [MaxRequestBytes] bytes however many reads are
    made and whatever the connection answers, and the count it keeps is the number
    of bytes it handed out. *)
Theorem mcp_request_bounded rs max :
  (0 ≤ max)%Z → Forall (λ r, reader_ok r.1 ∧ (0 ≤ r.2)%Z) rs →
  let l := reset (mkLimited max max) in
  (0 ≤ (consume rs l).1 ≤ max)%Z ∧ lr_n (consume rs l).2 = (consume rs l).1.
Proof.
  intros Hmax Hrs l. destruct (consume_bound rs l Hrs) as (H1 & _ & H3); [simpl; lia|].
  simpl in *. lia.
Qed.

(** The MCP registries stay within their caps whatever is registered, and in
    whatever order: after any calls to [RegisterTool], [RegisterResource] and
    [RegisterPrompt] on a new server with non-negative limits, at most
    [MaxToolCount] tools and [MaxResourceCount] resources are there. *)
Theorem mcp_registries_capped c cs :
  (0 ≤ MaxToolCount c)%Z → (0 ≤ MaxResourceCount c)%Z →
  let ms := reg_run cs (NewMCPServer c) in
  (Z.of_nat (size (tools ms)) ≤ or_default (MaxToolCount c) 100)%Z ∧
  (Z.of_nat (size (resources ms)) ≤ or_default (MaxResourceCount c) 100)%Z.
Proof.
  intros Ht Hr ms.
  destruct (reg_run_caps cs (NewMCPServer c)) as [[H1 H2] Hcfg].
  - split; simpl; rewrite map_size_empty; unfold or_default; destruct (_ =? _)%Z; lia.
  - fold ms in H1, H2, Hcfg. rewrite Hcfg in H1, H2. by split.
Qed.

(** ** MQTT *)

Section mqtt.
Context {Hd : Type} `{Lib : MQTTLib Hd} `{!MQTTLaws Lib} (quote : bytes → bytes).

(** C20 The broker's inline subscriptions are one handler per filter: after any
    sequence of [Subscribe] and [Unsubscribe] calls on a new broker, the server
    runs, for each filter, the handler last subscribed to it and only that one,
    whatever ids were used; nothing is left for a filter that was unsubscribed, and
    a refused filter never has a handler. *)
Theorem mqtt_subscriptions_refine srv c cs :
  (∀ f id, inline_sub srv f id = None) → (Z.of_nat (length cs) < 2 ^ 63)%Z →
  let mb := sub_run quote cs (NewMQTTBroker srv c) in
  ∀ f, match spec_run cs ∅ !! f with
       | Some h => ∃ id, inline_sub (mb_server mb) f id = Some h ∧
                         ∀ id', id' ≠ id → inline_sub (mb_server mb) f id' = None
       | None => ∀ id, inline_sub (mb_server mb) f id = None
       end.
Proof.
  intros Hsrv Hlen mb f.
  assert (implements mb (spec_run cs ∅)) as [Hs Hr Hd' Hi Hdom Hval].
  { apply implements_run; [by apply implements_new|done]. }
  destruct (spec_run cs ∅ !! f) as [h|] eqn:Hf.
  - destruct (subs mb !! f) as [id|] eqn:Hid; [|by rewrite (Hdom _ Hid) in Hf].
    exists id. rewrite Hi, Hid, decide_True by done. split; [done|].
    intros id' Hne. rewrite Hi, Hid, decide_False by congruence. done.
  - intros id. rewrite Hi, Hf. by case_decide.
Qed.
End mqtt.

Section mqtt_auth.
Context {Hd : Type} `{Lib : MQTTLib Hd} `{L : JWTLib} `{!JWTLaws L}.

(** With a JWT secret configured, an MQTT client is admitted exactly when its
    CONNECT password is a token that secret vouches for: [AllowAnonymous] cannot
    override it. Without a secret, anonymous clients are admitted exactly when the
    configuration did not enable authentication. *)
Theorem mqtt_admission (srv : server) c t password s l :
  let mb := set_auth s l (NewMQTTBroker srv c) in
  OnConnectAuthenticate t password mb = true ↔
  (s ≠ [] ∧ ∃ cl, authentic t password s cl) ∨ (s = [] ∧ AuthEnabled c = false).
Proof.
  intros mb. unfold OnConnectAuthenticate. simpl. destruct (beqb s []) eqn:Hs.
  - apply beqb_eq in Hs. destruct (AuthEnabled c), (AllowAnonymous c); simpl; naive_solver.
  - apply beqb_neq in Hs. setoid_rewrite <- ValidateJWT_inl.
    destruct (ValidateJWT t password s); naive_solver.
Qed.
End mqtt_auth.

(** ** WebSocket *)

Section websocket.
Context `{F : FastHTTP} `{!FastHTTPLaws F} `{L : JWTLib} `{!JWTLaws L} `{Cf : CaseFold} {St : Type} `{!Clock St}.
Context (Upgrade : (RequestCtx → bool) → M (RequestCtx * St) bool)
        (live_ws : St → WebSocketServer).
(** The upgrader only takes over a request its check accepts. *)
Context (Upgrade_checks : ∀ chk s s', Upgrade chk s = (Ret true, s') → chk s.1 = true).

(** C21 A connection is upgraded only if the server is open or the request carries a
    token its secret vouches for, its origin is allowed, and the server is below
    its connection limit; a request without credentials is answered 401, one that
    finds the server full 503, one for another path 404, and then the upgrader is
    never called. *)
Theorem websocket_admission s o s' :
  let ws := live_ws s.2 in
  let wrong_path := ws_isRunning ws = true ∧ ctx_Path s.1 ≠ ws_Path (ws_config ws) in
  let vouched := ws_open ws ∨
    (ws_secret ws ≠ [] ∧ carries_token (now s.2) (ws_lookup ws) (ws_secret ws) s.1) in
  let full := (ws_MaxConnections (ws_config ws) ≤ Z.of_nat (size (connections ws)))%Z in
  ws_handleRequest Upgrade live_ws s = (o, s') →
  (o = Ret true → ¬ wrong_path ∧ vouched ∧ ¬ full ∧ origin_allowed ws s.1) ∧
  (wrong_path → o = Ret false ∧ res_StatusCode (ctx_Response s'.1) = 404%Z) ∧
  (¬ wrong_path → ¬ vouched → o = Ret false ∧ res_StatusCode (ctx_Response s'.1) = 401%Z) ∧
  (¬ wrong_path → vouched → full → o = Ret false ∧ res_StatusCode (ctx_Response s'.1) = 503%Z).
Proof.
  intros ws wrong_path vouched full Hh.
  assert (ws_isRunning ws && negb (beqb (ctx_Path s.1) (ws_Path (ws_config ws))) = true ↔ wrong_path)
    as Hwp by (by rewrite andb_true_iff, negb_true_iff, beqb_neq).
  pose proof (checkAuth_spec (now s.2) ws s.1) as Hau.
  assert (atCapacity (ws_MaxConnections (ws_config ws)) (connections ws) = true ↔ full)
    as Hfull by apply Z.leb_le.
  unfold ws_handleRequest, gets, mbind, M_bind in Hh. cbn [fst snd] in Hh. fold ws in Hh.
  assert (∀ msg code, (0 < code)%Z → (ctx_Error msg code;; mret false) s = (o, s') →
    o = Ret false ∧ res_StatusCode (ctx_Response s'.1) = code) as Herr.
  { intros msg code Hc. unfold ctx_Error, rh_response, modify, mbind, M_bind, mret, M_ret.
    intros Heq. injection Heq as <- <-. split; [done|]. by apply status_Error. }
  destruct (_ && _); [|destruct (checkAuth _ _ _); [destruct (atCapacity _ _)|]]; cbn [negb] in Hh.
  - apply Herr in Hh; [|lia]. naive_solver.
  - apply Herr in Hh; [|lia]. naive_solver.
  - split; [|naive_solver]. intros ->. apply Upgrade_checks, checkOrigin_spec in Hh. naive_solver.
  - apply Herr in Hh; [|lia]. naive_solver.
Qed.
End websocket.

(** *** Concurrent arrivals *)

Section arrivals.

Lemma filter_length_out {A} (f : A → bool) l x :
  x ∈ l → f x = false → length (List.filter f l) < length l.
Proof.
  induction l as [|y l IH]; [by intros ?%not_elem_of_nil|]. intros [<-|Hin]%elem_of_cons Hf; simpl.
  - rewrite Hf. pose proof (List.filter_length_le f l). lia.
  - specialize (IH Hin Hf). destruct (f y); simpl; lia.
Qed.

(** The connections and the admitted requests never exceed what one more request than
    the allowance of concurrent ones makes of the limit. *)
Lemma net_step_bound max k step n :
  (Z.of_nat (length (pending (net_step max step n))) ≤ k →
   Z.of_nat (size (live n) + length (pending n)) ≤ Z.max 0 (max - 1) + k →
   Z.of_nat (size (live (net_step max step n)) + length (pending (net_step max step n)))
     ≤ Z.max 0 (max - 1) + k)%Z.
Proof.
  destruct step as [id|id|id|id]; simpl.
  - unfold atCapacity. destruct (Z.leb_spec max (Z.of_nat (size (live n)))); simpl; lia.
  - pose proof (List.filter_length_le (λ p, negb (beqb p id)) (pending n)). unfold others. lia.
  - destruct (decide (id ∈ pending n)) as [Hin|]; simpl; [|lia]. intros _.
    assert (length (others id (pending n)) < length (pending n)) as Hlt
      by (apply (filter_length_out _ _ id Hin); by rewrite beqb_refl).
    assert (size ({[id]} ∪ live n) ≤ S (size (live n))) as Hs
      by (rewrite size_union_alt, size_singleton; apply le_n_S, subseteq_size; set_solver).
    lia.
  - assert (size (live n ∖ {[id]}) ≤ size (live n)) as Hs by (apply subseteq_size; set_solver). lia.
Qed.

(** C22 The capacity check of [handleRequest] ([atCapacity]) is not atomic with the
    insertion, but it is not void either: whatever requests arrive, fail to upgrade or end,
    if never more than [k] are between their check and their insertion, a server that
    admits [max] connections never has more than [max + k - 1]; so never more than its
    limit when requests come one at a time ([k = 1]). *)
Theorem capacity_overshoot max k steps :
  (0 < max)%Z →
  (∀ i, Z.of_nat (length (pending (net_run max (take i steps) (mkWsNet [] ∅)))) ≤ k)%Z →
  (Z.of_nat (size (live (net_run max steps (mkWsNet [] ∅)))) ≤ max + k - 1)%Z.
Proof.
  intros Hmax Hk.
  assert (∀ n, (Z.of_nat (size (live (net_run max (take n steps) (mkWsNet [] ∅))) +
                 length (pending (net_run max (take n steps) (mkWsNet [] ∅)))) ≤ Z.max 0 (max - 1) + k)%Z)
    as Hinv.
  { assert (0 ≤ k)%Z as Hk0 by exact (Hk 0).
    intros n. induction n as [|n IH]; [change (Z.of_nat 0 ≤ Z.max 0 (max - 1) + k)%Z; lia|].
    destruct (steps !! n) as [step|] eqn:E.
    - pose proof (Hk (S n)) as Hn. rewrite (take_S_r _ _ _ E) in *. unfold net_run in *.
      rewrite fold_left_app in *. cbn [fold_left] in *. by apply net_step_bound.
    - rewrite take_ge in IH |- * by (apply lookup_ge_None in E; lia). exact IH. }
  specialize (Hinv (length steps)). rewrite take_ge in Hinv by lia. lia.
Qed.
End arrivals.

(** ** GraphQL *)

Section graphql.
Context `{F : FastHTTP} `{L : JWTLib} `{!JWTSound L} {St : Type} `{!Clock St}.
Context (Schema : Type) (executor : Schema → option Z → bool → RequestHandler St)
        (playground : bytes → RequestHandler St).

Definition with_schema (sch : option Schema) (g : GraphQLServer Schema) : GraphQLServer Schema :=
  mkGraphQLServer _ (gs_config _ g) (gs_isRunning _ g) (gs_outerMW _ g) sch (gs_secret _ g)
    (gs_lookup _ g).

Lemma buildGQLHandler_barred live g sch s :
  gql_barred Schema (live s.2) (now s.2) s.1 →
  buildGQLHandler Schema executor live g s =
  buildGQLHandler Schema executor live (with_schema sch g) s.
Proof. intros Hb. unfold buildGQLHandler. by rewrite !withAuth_barred. Qed.

(** C38 A GraphQL request without credentials never reaches the schema: when the
    server has a secret or requires authentication and the request carries no token
    the secret vouches for, the answer does not depend on the schema, on any
    path, both on the server's own listener and mounted
    on the router. *)
Theorem graphql_gate live g sch s :
  gql_barred Schema (live s.2) (now s.2) s.1 →
  gql_routes Schema executor playground live g s =
  gql_routes Schema executor playground live (with_schema sch g) s ∧
  gql_router Schema executor playground live g s =
  gql_router Schema executor playground live (with_schema sch g) s.
Proof.
  intros Hb%(buildGQLHandler_barred live g sch). unfold gql_routes, gql_router, gets, mbind, M_bind.
  cbn [fst snd with_schema gs_config]. split; repeat (case_match; try done).
Qed.
End graphql.

(** ** gRPC *)

Section grpc.
Context `{L : JWTLib} `{!JWTLaws L} {R : Type}.

(** C39 Once the gRPC server started with a secret, a call, unary or streaming,
    reaches the interceptors behind and the service exactly when its metadata carry a
    token the secret vouches for, one that has not expired and whose [nbf] date, if it has
    one, has come; and then they see that token's claims and the same stream; otherwise it
    is refused as unauthenticated and no message is sent. *)
Theorem grpc_gate src ssrc cert ln (g g' : GRPCServer R) t :
  gr_secret g ≠ [] → gr_isRunning g = false →
  gr_Start src ssrc cert ln g = (None, g') → gr_isRunning g' = true →
  (∀ ctx handler,
    (∀ c, call_vouched t (gr_secret g) ctx c →
      unary_call g' t handler ctx =
      chain_unary (if unarySrc g then src else []) t handler (with_claims c ctx)) ∧
    ((¬ ∃ c, call_vouched t (gr_secret g) ctx c) →
      ∃ msg, unary_call g' t handler ctx = Ret (inr (Unauthenticated msg)))) ∧
  (∀ ss handler,
    (∀ c, call_vouched t (gr_secret g) (ss_Context ss) c →
      stream_call g' t handler ss =
      chain_stream (if streamSrc g then ssrc else []) t handler
        (mkServerStream (ss_call ss) (with_claims c (ss_Context ss)))) ∧
    ((¬ ∃ c, call_vouched t (gr_secret g) (ss_Context ss) c) →
      ∃ msg, stream_call g' t handler ss = mkStreamed [] (Ret (Some (Unauthenticated msg))))).
Proof.
  intros Hs%beqb_neq Hr Hst Hr'. unfold unary_call, stream_call.
  rewrite (gr_Start_chain _ _ _ _ _ _ Hst Hr Hr'). unfold collect, collect_stream. rewrite Hs. simpl.
  unfold unifiedAuthInterceptor, unifiedAuthStreamInterceptor.
  split; intros x handler; (split; [intros c Hc%check_call_inl; by rewrite Hc|]);
    intros [msg Hm]%check_call_inr; exists msg; by rewrite Hm.
Qed.

(** With the recovery interceptors first among the application's, no panic of a handler or
    of an interceptor behind them, on the call's goroutine, leaves a call: it is answered
    with an internal error, a stream keeping the messages it had sent, and a call that does
    not panic is not changed. *)
Theorem grpc_recover_contains fmt_v src
    (ssrc : list (Z → ServerStream → (ServerStream → @streamed R) → @streamed R)) t
    (handler : call_ctx → outcome (R + grpc_error)) (shandler : ServerStream → @streamed R) ctx ss :
  chain_unary (GRPCRecover fmt_v :: src) t handler ctx =
    match chain_unary src t handler ctx with
    | Ret r => Ret r
    | Panic v => Ret (inr (Internal (B "internal server error: " ++ fmt_v v)))
    | Crash v => Crash v
    end ∧
  let inner := chain_stream ssrc t shandler ss in
  let outer := chain_stream (GRPCStreamRecover fmt_v :: ssrc) t shandler ss in
  sent outer = sent inner ∧
  ended outer = match ended inner with
                | Ret e => Ret e
                | Panic v => Ret (Some (Internal (B "internal server error: " ++ fmt_v v)))
                | Crash v => Crash v
                end.
Proof.
  split.
  - cbn [chain_unary fold_right]. unfold GRPCRecover, panicked. fold (chain_unary src t handler ctx).
    by destruct (chain_unary src t handler ctx).
  - cbn [chain_stream fold_right]. unfold GRPCStreamRecover, panicked. fold (chain_stream ssrc t shandler ss).
    cbn zeta. destruct (chain_stream ssrc t shandler ss) as [l [e|v|v]]; by simpl.
Qed.
End grpc.

(** ** Witnesses *)

Section witnesses.
Definition tok_claims : claims := {[B "exp" := VInt 100]}.
Local Instance lib : JWTLib := SimpleJWT.lib [(B "tok", (B "key", tok_claims))].
Local Instance lib_laws : JWTLaws lib := SimpleJWT.lib_laws _.

Lemma tok_authentic : authentic 5 (B "tok") (B "key") tok_claims.
Proof. apply ValidateJWT_inl. vm_compute. reflexivity. Qed.

Definition mcp_cfg : MCPConfig := mkMCPConfig (mkProtocolConfig true 0 [] [] []) 2 2 0 64 false.
Definition mcp_server : MCPServer := SetAuthSecret (B "key") (NewMCPServer mcp_cfg).
Definition rpc (m params : bytes) : JSONRPCRequest := mkRequest (B "2.0") (VInt 1) m params.

Lemma mcp_session_safety_witness :
  let es := [mkExchange 5 mcp_server (Some (rpc (B "initialize") (B "tok"))) true;
             mkExchange 5 mcp_server (Some (rpc (B "tools/list") [])) true] in
  ∃ resp, handleConnection id (λ _, None) es !! 1 = Some resp ∧ ¬ unauthorized resp ∧
    (unauthorized resp ∨ ∃ j e', j < 1 ∧ es !! j = Some e' ∧ logs_in id e').
Proof.
  intros es. eexists. split; [reflexivity|]. split; [by intros [? _]|].
  apply (mcp_session_safety id (λ _, None) es 1
           (mkExchange 5 mcp_server (Some (rpc (B "tools/list") [])) true)
           (rpc (B "tools/list") [])); [reflexivity|reflexivity|done|by left|reflexivity].
Defined.

Lemma mcp_request_bounded_witness :
  let rs := [(λ len, (len, None), 5%Z); (λ len, (Z.min len 1, None), 5%Z); (λ len, (len, None), 5%Z)] in
  (0 ≤ (consume rs (reset (mkLimited 8 8))).1 ≤ 8)%Z.
Proof.
  intros rs. apply (mcp_request_bounded rs 8); [done|].
  unfold rs. rewrite !Forall_cons, Forall_nil. unfold reader_ok. simpl.
  split_and!; try done; intros len Hlen; lia.
Defined.

Definition echo (n : bytes) : Tool := mkTool n [] VNil (λ v, Ret (inl v)).
Definition three_tools : list reg_call :=
  [CallTool (echo (B "a")); CallTool (echo (B "b")); CallTool (echo (B "c"))].

Lemma mcp_registries_capped_witness :
  (Z.of_nat (size (tools (reg_run three_tools (NewMCPServer mcp_cfg)))) ≤ or_default 2 100)%Z.
Proof.
  destruct (mcp_registries_capped mcp_cfg three_tools) as [Hcap _]; [simpl; lia|simpl; lia|].
  exact Hcap.
Defined.

Definition mqtt_cfg : MQTTConfig :=
  mkMQTTConfig (mkProtocolConfig true 0 [] [] []) [] 0 0 0 [] true true 0.

Local Existing Instances SimpleMQTT.simple_mqtt SimpleMQTT.simple_mqtt_laws.
Definition mqtt_srv : @server nat SimpleMQTT.simple_mqtt := (∅ : gmap (bytes * Z) nat).
Definition mqtt_calls : list sub_call :=
  [CallSubscribe (B "a/#") (Some 1); CallSubscribe (B "b") (Some 2);
   CallSubscribe (B "a/#") (Some 3); CallUnsubscribe (B "b")].

Lemma mqtt_subscriptions_refine_witness :
  ∃ i, inline_sub (mb_server (sub_run id mqtt_calls (NewMQTTBroker mqtt_srv mqtt_cfg))) (B "a/#") i
       = Some 3.
Proof.
  destruct (mqtt_subscriptions_refine id mqtt_srv mqtt_cfg mqtt_calls (λ _ _, eq_refl) eq_refl
              (B "a/#")) as (i & Hi & _).
  by exists i.
Defined.

Lemma mqtt_admission_witness :
  OnConnectAuthenticate 5 (B "tok") (set_auth (B "key") [] (NewMQTTBroker mqtt_srv mqtt_cfg)) = true.
Proof.
  apply (mqtt_admission mqtt_srv mqtt_cfg 5 (B "tok")).
  left. split; [done|]. exists tok_claims. apply tok_authentic.
Defined.

Import Simple.
Local Existing Instance SimpleFold.ascii_fold.
Local Instance clock : Clock Z := id.
Definition get_ctx (path : bytes) (hs : headers) : RequestCtx :=
  mkRequestCtx simple_http (mkRequest (B "GET") path (B "example.com") [] hs [])
    (mkResponse 200 [] [] []) (B "192.0.2.1") false.

Definition ws_cfg : WebSocketConfig :=
  mkWebSocketConfig (mkProtocolConfig true 0 [] [] []) [] 1 0 0 0 0 0 [] false.
Definition ws_server : WebSocketServer :=
  set_auth (B "key") [] (NewWebSocketServer ws_cfg (mkCallbacks true true true)).
Definition simple_upgrade (chk : RequestCtx → bool) : M (RequestCtx * Z) bool :=
  λ s, (Ret (chk s.1), s).

Lemma simple_upgrade_checks chk s s' : simple_upgrade chk s = (Ret true, s') → chk s.1 = true.
Proof. unfold simple_upgrade. intros Heq. congruence. Qed.

Lemma websocket_admission_witness :
  let s := (get_ctx (B "/ws") [(B "Authorization", B "Bearer tok"); (B "Origin", B "http://example.com")], 5%Z) in
  origin_allowed ws_server s.1.
Proof.
  intros s.
  destruct (websocket_admission simple_upgrade (λ _, ws_server) simple_upgrade_checks s (Ret true) s)
    as [Hup _]; [reflexivity|]. by apply Hup.
Defined.

Lemma capacity_overshoot_witness :
  (Z.of_nat (size (live (net_run 2 [Arrive (B "a"); Established (B "a"); Arrive (B "b"); Failed (B "b");
      Arrive (B "c"); Established (B "c"); Arrive (B "d"); Closed (B "a")] (mkWsNet [] ∅)))) ≤ 2)%Z.
Proof.
  apply (capacity_overshoot 2 1); [done|].
  intros [|[|[|[|[|[|[|[|[|i]]]]]]]]]; vm_compute; discriminate.
Defined.

Definition gql_cfg : GraphQLConfig :=
  mkGraphQLConfig (mkProtocolConfig true 0 [] [] []) [] [] 0 0 0 false false true.
Definition gql_server : GraphQLServer unit :=
  mkGraphQLServer _ (GQL_SetDefaults gql_cfg) true false (Some tt) (B "key") [].
Definition gql_exec (x : unit) (c : option Z) (i : bool) : RequestHandler Z :=
  rh_response (res_SetBody (B "data")).

Lemma graphql_gate_witness :
  let s := (get_ctx (B "/graphql") [(B "Authorization", B "Bearer forged")], 5%Z) in
  gql_routes unit gql_exec (λ _, mret tt) (λ _, gql_server) gql_server s =
  gql_routes unit gql_exec (λ _, mret tt) (λ _, gql_server) (with_schema unit None gql_server) s.
Proof.
  intros s. apply (graphql_gate unit gql_exec (λ _, mret tt) (λ _, gql_server) gql_server None s).
  split; [by left|]. intros [_ [c Hc]]. apply ValidateJWT_inl in Hc. vm_compute in Hc. discriminate.
Defined.

Definition grpc_cfg : GRPCConfig := mkGRPCConfig (mkProtocolConfig true 0 [] [] []) 0 0 0 0.
Definition grpc_server : GRPCServer bytes := set_auth (B "key") [] (NewGRPCServer grpc_cfg).
Definition anonymous : call_ctx := mkCallCtx (Some (λ _, [])) None.

Lemma grpc_gate_witness :
  ∃ msg, stream_call (gr_Start [] [] None (inl 1) grpc_server).2 5
           (λ _, mkStreamed [B "secret"] (Ret None)) (mkServerStream 1 anonymous)
         = mkStreamed [] (Ret (Some (Unauthenticated msg))).
Proof.
  apply (grpc_gate [] [] None (inl 1) grpc_server (gr_Start [] [] None (inl 1) grpc_server).2);
    [done|done|reflexivity|reflexivity|].
  intros (c & get & Hget & Hne & _). simpl in Hget. injection Hget as <-. by apply Hne.
Defined.

(** ** What the model showed *)

(** A restarted MCP or WebSocket server panics when it is stopped again: [done] is
    closed once and for all. *)
Example restarted_servers_panic :
  let start ms := (MCP_Start (inl 1) None ms).2 in
  let start' ws := (ws_Start simple_upgrade (λ _, ws) id (inl 1) None ws).2 in
  (MCP_Stop (start (MCP_Stop (start mcp_server)).2)).1.1 = Panic (VString (B "close of closed channel")) ∧
  (ws_Stop (start' (ws_Stop (start' ws_server)).2)).1 = Panic (VString (B "close of closed channel")).
Proof. split; reflexivity. Qed.

(** Two requests that arrive together both pass the check of a server that admits one
    connection: the bound of [capacity_overshoot] is reached. *)
Example connection_cap_overshoots :
  size (live (net_run 1 [Arrive (B "a"); Arrive (B "b"); Established (B "a"); Established (B "b")]
                (mkWsNet [] ∅))) = 2.
Proof. reflexivity. Qed.

(** A listener that fails for good, a broken one or a process without file
    descriptors, makes the MCP server's accept loop spin: it never returns, never waits
    and serves nothing, while the injected listener of MQTT stops at the first error. *)
Example failing_accept_spins n e :
  acceptConnections (λ _, false) 0 (replicate n (inr e)) = ([], false) ∧
  serve_injected (C := bytes) (inr e :: replicate n (inl [])) = [].
Proof.
  split; [|done]. generalize 0 as k. induction n as [|n IH]; intros k; [done|]. apply IH.
Qed.

(** When its key pair does not load, the WebSocket server leaves the listener it
    opened open, the MCP server closes it. *)
Example websocket_leaks_listener :
  let tls := mkProtocolConfig true 0 [] (B "cert") (B "key") in
  let bad := Some (Err (B "no such file")) in
  let ws := NewWebSocketServer (mkWebSocketConfig tls [] 1 0 0 0 0 0 [] false) (mkCallbacks false false false) in
  let ms := NewMCPServer (mkMCPConfig tls 0 0 0 0 false) in
  (ws_Start simple_upgrade (λ _, ws) id (inl 1) bad ws).1.2 = None ∧ (MCP_Start (inl 1) bad ms).1.2 = [1].
Proof. split; reflexivity. Qed.

(** A client that goes away is reported twice. *)
Example disconnect_reported_twice :
  (serve_conn (B "c") [RMessage 1 (B "hi"); RError (Err (B "EOF"))] ws_server).1 =
  [EvConnect (B "c"); EvMessage (B "c") 1 (B "hi"); EvDisconnect (B "c") (Some (Err (B "EOF")));
   EvDisconnect (B "c") None].
Proof. reflexivity. Qed.

(** A secret set while the gRPC server runs does not protect it: the interceptors
    are those of its start. *)
Example grpc_secret_frozen_at_start :
  let g := (gr_Start [] [] None (inl 1) (NewGRPCServer grpc_cfg)).2 in
  unary_call (set_auth (B "key") [] g) 5 (λ _, Ret (inl (B "secret"))) anonymous = Ret (inl (B "secret")).
Proof. reflexivity. Qed.
End witnesses.
