(* ===== verification/App.v ===== *)
(** * The application ([app.go], [protocol.go], [protocol_middleware.go],
    [protocol/base.go], [validation.go])

    The configuration, the registry of protocol servers and what ties them to the
    router. Protocol servers are shared by pointer between the registry, the caller
    and the handlers mounted on the router: they live in the part [list handler] of
    the shared state, a pointer is a position in it. *)

From S2P Require Import Prelude GoStrings Fold Base64 Node Effects FastHTTP Core Router Middleware Jwt Protocol Mcp Mqtt WebSocket GraphQL Grpc.

(** ** Configuration *)


(** [type ServerConfig struct] *)
Record ServerConfig := mkServerConfig {
  AppName : bytes;
  Multiprocess : bool;
  NumChildren : Z;
  ShowStartup : option bool;
  StartupBanner : bytes;
  EnablePortMultiplexing : bool;
  ReadTimeout : Z;
  WriteTimeout : Z;
  IdleTimeout : Z;
  MaxRequestBodySize : Z;
  srv_CertFile : bytes;
  srv_KeyFile : bytes;
}.
Definition Server_TLSEnabled (c : ServerConfig) : bool :=
  negb (beqb (srv_CertFile c) []) && negb (beqb (srv_KeyFile c) []).
Definition Server_SetDefaults (c : ServerConfig) : ServerConfig :=
  mkServerConfig (match AppName c with [] => B "GoICHI" | n => n end) (Multiprocess c)
    (NumChildren c) (ShowStartup c) (StartupBanner c) (EnablePortMultiplexing c)
    (or_default (ReadTimeout c) (60 * Second)) (or_default (WriteTimeout c) (60 * Second))
    (or_default (IdleTimeout c) (120 * Second))
    (if (MaxRequestBodySize c <=? 0)%Z then 30 * 1024 * 1024 else MaxRequestBodySize c)%Z
    (srv_CertFile c) (srv_KeyFile c).
Definition set_ShowStartup (b : option bool) (c : ServerConfig) : ServerConfig :=
  mkServerConfig (AppName c) (Multiprocess c) (NumChildren c) b (StartupBanner c)
    (EnablePortMultiplexing c) (ReadTimeout c) (WriteTimeout c) (IdleTimeout c)
    (MaxRequestBodySize c) (srv_CertFile c) (srv_KeyFile c).

Record RoutingConfig := mkRoutingConfig { cfg_StrictSlash : bool; cfg_CaseSensitive : bool }.

(** [type DocsConfig struct]; a security scheme is a string. *)
Record DocsConfig := mkDocsConfig {
  docs_Enable : bool;
  docs_Path : bytes;
  docs_Title : bytes;
  docs_Desc : bytes;
  docs_PageTitle : bytes;
  docs_DarkMode : bool;
  docs_ScalarJSURL : bytes;
  docs_Security : bytes;
  docs_Filter : option (RouteInfo → bool);
}.

(** [if p == "" { p = def } else if p[0] != '/' { p = "/" + p }] *)
Definition rooted (p def : bytes) : bytes :=
  match p with
  | [] => def
  | c :: _ => if Ascii.eqb c "/" then p else B "/" ++ p
  end.
Definition or_title (t appName : bytes) : bytes :=
  match t with [] => appName ++ B " API Reference" | _ => t end.

(** What [New] and [AddDocs] fill in. *)
Definition docs_defaults (appName : bytes) (full : bool) (d : DocsConfig) : DocsConfig :=
  mkDocsConfig (docs_Enable d)
    (if full then rooted (docs_Path d) (B "/docs") else docs_Path d)
    (if full then or_title (docs_Title d) appName else docs_Title d)
    (docs_Desc d) (or_title (docs_PageTitle d) appName) (docs_DarkMode d) (docs_ScalarJSURL d)
    (docs_Security d) (docs_Filter d).

(** [displayHost(addr, tls)] *)
Definition displayHost (addr : bytes) (tls : bool) : bytes :=
  let scheme := if tls then B "https://" else B "http://" in
  match addr with
  | [] => scheme ++ B "localhost"
  | c :: _ => if Ascii.eqb c ":" then scheme ++ B "localhost" ++ addr else scheme ++ addr
  end.

Definition handler_ptr := nat.

Section app.
Context `{F : FastHTTP} `{L : JWTLib} `{Cf : CaseFold} {St : Type} `{!Clock St}.
Context {Schema R Hd : Type} `{Lib : MQTTLib Hd}.

(** ** Protocol servers *)

(** The protocol servers of the repository; [HOther] is one that implements none of
    the optional interfaces ([MQTTServer], the client). *)
Inductive handler :=
  | HMcp (h : MCPServer)
  | HMqtt (h : MQTTBroker Lib)
  | HWebSocket (h : WebSocketServer)
  | HGraphQL (h : GraphQLServer Schema)
  | HGrpc (h : GRPCServer R)
  | HConnect (h : ConnectServer)
  | HOther (name : bytes) (running : bool).

Definition GetName (h : handler) : bytes :=
  match h with
  | HMcp _ => ms_GetName
  | HMqtt _ => mb_GetName
  | HWebSocket _ => ws_GetName
  | HGraphQL _ => gs_GetName
  | HGrpc _ => gr_GetName
  | HConnect _ => cs_GetName
  | HOther n _ => n
  end.
Definition GetPaths (h : handler) : list bytes :=
  match h with
  | HMcp _ => ms_GetPaths
  | HMqtt _ => mb_GetPaths
  | HWebSocket w => ws_GetPaths w
  | HGraphQL g => gs_GetPaths _ g
  | HGrpc _ => gr_GetPaths
  | HConnect _ => cs_GetPaths
  | HOther _ _ => []
  end.

(** The type assertions [handler.(protocol.FastHTTPHandlerAware)] and
    [handler.(protocol.HTTPHandlerAware)]. *)
Definition FastHTTPHandlerAware (h : handler) : bool :=
  match h with HWebSocket _ | HGraphQL _ => true | _ => false end.
Definition HTTPHandlerAware (h : handler) : bool := match h with HConnect _ => true | _ => false end.

(** [if aa, ok := handler.(AuthAware); ok { .. }] *)
Definition apply_auth (s l : bytes) (h : handler) : handler :=
  match h with
  | HMcp h => HMcp (set_auth s l h)
  | HMqtt h => HMqtt (set_auth s l h)
  | HWebSocket h => HWebSocket (set_auth s l h)
  | HGraphQL h => HGraphQL (set_auth s l h)
  | HGrpc h => HGrpc (set_auth s l h)
  | HConnect h => HConnect (set_auth s l h)
  | HOther _ _ => h
  end.
(** [SetFastHTTPOuterMiddleware], [Set..InterceptorSource] where implemented. *)
Definition apply_hooks (h : handler) : handler :=
  match h with
  | HWebSocket w => HWebSocket (ws_SetFastHTTPOuterMiddleware w)
  | HGraphQL g => HGraphQL (gs_SetFastHTTPOuterMiddleware _ g)
  | HGrpc g => HGrpc (SetStreamInterceptorSource (SetUnaryInterceptorSource g))
  | h => h
  end.

Context `{!Has (list handler) St}.
(** The upgrader, the GraphQL executor and playground, and the services registered on
    each ConnectRPC server, behind fasthttp's adaptor. *)
Context (Upgrade : (RequestCtx → bool) → M (RequestCtx * St) bool)
        (executor : Schema → option Z → bool → RequestHandler St)
        (playground : bytes → RequestHandler St)
        (adapt : handler_ptr → RequestHandler St).

Definition deref (p : handler_ptr) (st : St) : option handler := (view st : list handler) !! p.
Definition update (p : handler_ptr) (f : handler → handler) (st : St) : St := over (alter f p) st.

(** ** The app *)

Record Config := mkConfig {
  Server : ServerConfig;
  Routing : RoutingConfig;
  Docs : DocsConfig;
  cfg_JWT : JWTConfig St;
  cfg_Security : bytes;
}.

Definition ProtocolMiddleware : Type := RequestHandler St → RequestHandler St.

(** Interceptors of the gRPC servers, and [type UnifiedMiddleware interface]. *)
Local Abbreviation UnaryInterceptor :=
  (Z → call_ctx → (call_ctx → outcome (R + grpc_error)) → outcome (R + grpc_error)).
Local Abbreviation StreamInterceptor :=
  (Z → ServerStream → (ServerStream → @streamed R) → @streamed R).
Record UnifiedMiddleware := mkUnified {
  ToHTTP : ProtocolMiddleware;
  ToGRPCUnary : UnaryInterceptor;
  ToGRPCStream : StreamInterceptor;
}.

(** [type App struct] *)
Record App := mkApp {
  app_Router : Router St;
  app_Config : Config;
  docsConfigs : list DocsConfig;
  onShutdown : list (St → St);
  protocolMiddlewares : list ProtocolMiddleware;
  jwtConfig : option (JWTConfig St);
  Registry : gmap bytes handler_ptr;
  grpcUnary : list UnaryInterceptor;
  grpcStream : list StreamInterceptor;
}.

Definition set_Router (r : Router St) (a : App) : App :=
  mkApp r (app_Config a) (docsConfigs a) (onShutdown a) (protocolMiddlewares a) (jwtConfig a)
    (Registry a) (grpcUnary a) (grpcStream a).
Definition set_jwtConfig (c : option (JWTConfig St)) (a : App) : App :=
  mkApp (app_Router a) (app_Config a) (docsConfigs a) (onShutdown a) (protocolMiddlewares a) c
    (Registry a) (grpcUnary a) (grpcStream a).
Definition NewProtocolRegistry : gmap bytes handler_ptr := ∅.
Definition set_Registry (g : gmap bytes handler_ptr) (a : App) : App :=
  mkApp (app_Router a) (app_Config a) (docsConfigs a) (onShutdown a) (protocolMiddlewares a)
    (jwtConfig a) g (grpcUnary a) (grpcStream a).

(** *** [protocol_middleware.go] *)

Definition UseProtocol (m : list ProtocolMiddleware) (a : App) : App :=
  mkApp (app_Router a) (app_Config a) (docsConfigs a) (onShutdown a)
    (protocolMiddlewares a ++ m) (jwtConfig a) (Registry a) (grpcUnary a) (grpcStream a).
Definition UseGRPCUnary (i : list UnaryInterceptor) (a : App) : App :=
  mkApp (app_Router a) (app_Config a) (docsConfigs a) (onShutdown a) (protocolMiddlewares a)
    (jwtConfig a) (Registry a) (grpcUnary a ++ i) (grpcStream a).
Definition UseGRPCStream (i : list StreamInterceptor) (a : App) : App :=
  mkApp (app_Router a) (app_Config a) (docsConfigs a) (onShutdown a) (protocolMiddlewares a)
    (jwtConfig a) (Registry a) (grpcUnary a) (grpcStream a ++ i).
Definition UseUnified (m : list UnifiedMiddleware) (a : App) : App :=
  fold_left (λ a um, UseGRPCStream [ToGRPCStream um] (UseGRPCUnary [ToGRPCUnary um]
                       (UseProtocol [ToHTTP um] a))) m a.

(** [for i := len(mws) - 1; i >= 0; i-- { next = mws[i](next) }] *)
Definition chainProtocolFastHTTP (mws : list ProtocolMiddleware) (next : RequestHandler St)
  : RequestHandler St := fold_right (λ mw next, mw next) next mws.
Definition wrapProtocolFastHTTP (a : App) (next : RequestHandler St) : RequestHandler St :=
  chainProtocolFastHTTP (protocolMiddlewares a) next.

(** The outcome of a handler that answers [nil]. *)
Definition no_error (o : outcome unit) : outcome (option error) :=
  match o with Ret _ => Ret None | Panic v => Panic v | Crash v => Crash v end.
(** [func(c *Context) error { next(c.RequestCtx); return nil }] *)
Definition lift (next : RequestHandler St) : hfn St := λ s,
  match next (c_RequestCtx s.1, s.2) with
  | (o, (x, st)) => (no_error o, (upd_RequestCtx (λ _, x) s.1, st))
  end.
(** [func(c *Context) error { next(ctx); return nil }] for a context [ctx] that was kept:
    it is the one of the connection even when [c] is over a copy. *)
Definition lift_kept (next : RequestHandler St) : hfn St := λ s,
  match c_outer s.1 with
  | None => lift next s
  | Some ctx =>
      match next (ctx, s.2) with
      | (o, (x, st)) =>
          let c := s.1 in
          (no_error o, (mkCtx _ (c_RequestCtx c) (Params c) (JWTClaims c) (Locals c) (Some x), st))
      end
  end.
(** A computation on [&Context{RequestCtx: ctx}], seen from [ctx]. *)
Definition on_fresh {A} (m : act St A) : M (RequestCtx * St) A := λ s,
  match m (fresh_ctx s.1, s.2) with (o, (c, st)) => (o, (c_RequestCtx c, st)) end.

Definition MiddlewareAsProtocol (m : Middleware St) : ProtocolMiddleware := λ next,
  let h := m (Some (lift_kept next)) in
  on_fresh (err ← call h;
            match err with
            | Some _ =>
                mod_response (res_SetStatusCode StatusInternalServerError);;
                WriteJSONError (B "internal server error");; mret tt
            | None => mret tt
            end).

(** *** [app.go] *)

Definition app_Use (m : list (Middleware St)) (a : App) : App :=
  set_Router (Use m (app_Router a)) a.
Definition UseAll (m : list (Middleware St)) (a : App) : App :=
  fold_left (λ a mw, UseProtocol [MiddlewareAsProtocol mw] a) m (app_Use m a).

(** [Registry.SetUnifiedAuth]: over the map, in the order Go happens to visit it. *)
Definition SetUnifiedAuth (s l : bytes) (a : App) (st : St) : St :=
  fold_left (λ st p, update p (apply_auth s l) st) (map_to_list (Registry a)).*2 st.

Definition SetJWTAuth (cfg : JWTConfig St) (a : App) (st : St) : App * St :=
  let cfg := match TokenLookup cfg with
             | [] => mkJWTConfig (Secret cfg) default_lookup (jwt_ErrorHandler cfg)
             | _ => cfg
             end in
  let a := set_jwtConfig (Some cfg) a in
  let a := set_Router (setAuthMiddleware (JWT cfg) (app_Router a)) a in
  (a, SetUnifiedAuth (Secret cfg) (TokenLookup cfg) a st).

Definition New (config : Config) (st : St) : App * St :=
  let server := Server_SetDefaults (Server config) in
  let docs := docs_defaults (AppName server) (docs_Enable (Docs config)) (Docs config) in
  let server := set_ShowStartup (Some (default true (ShowStartup server))) server in
  let config := mkConfig server (Routing config) docs (cfg_JWT config) (cfg_Security config) in
  let a := mkApp (NewRouter (cfg_StrictSlash (Routing config)) (cfg_CaseSensitive (Routing config)))
             config [] [] [] None NewProtocolRegistry [] [] in
  let a := app_Use [Recover] a in
  let a := UseProtocol [MiddlewareAsProtocol Recover] a in
  let a := UseAll [SecurityHeaders] a in
  match Secret (cfg_JWT config) with
  | [] => (a, st)
  | _ => SetJWTAuth (cfg_JWT config) a st
  end.

Definition AddDocs (d : DocsConfig) (a : App) : App :=
  mkApp (app_Router a) (app_Config a)
    (docsConfigs a ++ [docs_defaults (AppName (Server (app_Config a))) true d])
    (onShutdown a) (protocolMiddlewares a) (jwtConfig a) (Registry a)
    (grpcUnary a) (grpcStream a).

Definition SetErrorHandler (handler : ErrorHandler St) (a : App) : App :=
  let r := app_Router a in
  set_Router (mkRouter (trees r) (middlewares r) (authMiddleware r) (entries r) (Routes r) (Some handler)
                (StrictSlash r) (CaseSensitive r) (built r) (fallback r) (infos r)) a.

(** The methods that hand a route to the router. *)
Definition on_router {X} (f : Router St → Router St * X) (a : App) : App * X :=
  let '(r, x) := f (app_Router a) in (set_Router r a, x).
Definition app_GET (path : bytes) (h : Handler St) (m : list (Middleware St)) : App → App * info_ptr :=
  on_router (GET path h m).
Definition app_POST (path : bytes) (h : Handler St) (m : list (Middleware St)) : App → App * info_ptr :=
  on_router (POST path h m).
Definition app_PUT (path : bytes) (h : Handler St) (m : list (Middleware St)) : App → App * info_ptr :=
  on_router (PUT path h m).
Definition app_PATCH (path : bytes) (h : Handler St) (m : list (Middleware St)) : App → App * info_ptr :=
  on_router (PATCH path h m).
Definition app_DELETE (path : bytes) (h : Handler St) (m : list (Middleware St)) : App → App * info_ptr :=
  on_router (DELETE path h m).
Definition app_ANY (path : bytes) (h : Handler St) (m : list (Middleware St)) : App → App * list info_ptr :=
  on_router (ANY path h m).
Definition GetRoutes (a : App) : list info_ptr := Routes (app_Router a).
(** [IsMaster()]; [child] is [os.Getenv("GOICHI_CHILD")]. *)
Definition IsMaster (child : bytes) : bool := negb (beqb child (B "1")).

Definition app_Group (pfx : bytes) (m : list (Middleware St)) : Group St :=
  mkGroup (rooted pfx (B "/")) m.

Definition EnableHealthCheck (path : bytes) (a : App) : App :=
  let path := match path with [] => B "/health" | p => p end in
  let ok : hfn St :=
    mod_response (res_SetStatusCode StatusOK);; mod_response (res_SetBody (B "OK"));; mret None in
  let '(r, p) := GET path (Some ok) [] (app_Router a) in
  set_Router (Route_NoAuth p (Route_HideDoc p r)) a.

Definition OnShutdown (f : list (St → St)) (a : App) : App :=
  mkApp (app_Router a) (app_Config a) (docsConfigs a) (onShutdown a ++ f)
    (protocolMiddlewares a) (jwtConfig a) (Registry a) (grpcUnary a)
    (grpcStream a).
Definition runShutdownHooks (a : App) (st : St) : St := fold_left (λ st f, f st) (onShutdown a) st.

(** *** Registering a protocol *)

Definition live_ws (p : handler_ptr) (st : St) : WebSocketServer :=
  match deref p st with
  | Some (HWebSocket w) => w
  | _ => NewWebSocketServer
           (mkWebSocketConfig (mkProtocolConfig false 0 [] [] []) [] 0 0 0 0 0 0 [] false)
           (mkCallbacks false false false)
  end.
Definition live_gql (p : handler_ptr) (st : St) : GraphQLServer Schema :=
  match deref p st with
  | Some (HGraphQL g) => g
  | _ => NewGraphQLServer _
           (mkGraphQLConfig (mkProtocolConfig false 0 [] [] []) [] [] 0 0 0 false false false)
  end.

Definition live_connect (p : handler_ptr) (st : St) : ConnectServer :=
  match deref p st with
  | Some (HConnect c) => c
  | _ => NewConnectServer (mkGRPCConfig (mkProtocolConfig false 0 [] [] []) 0 0 0 0)
  end.

(** [fa.Handler()] or the adapted [ha.HTTPHandler()], as they are when called. *)
Definition mounted (p : handler_ptr) (a : App) (h : handler) : option (RequestHandler St) :=
  match h with
  | HWebSocket w => Some (ws_Handler Upgrade (live_ws p) (wrapProtocolFastHTTP a) w)
  | HGraphQL g =>
      Some (gql_Handler Schema executor playground (wrapProtocolFastHTTP a) (live_gql p) g)
  | HConnect _ => Some (cs_HTTPHandler (live_connect p) (adapt p))
  | _ => None
  end.

(** [a.Router.ANY(path, ..).HideDoc()] for each path, for ["/*path"] without any. *)
Definition mount_at (h : RequestHandler St) (r : Router St) (path : bytes) : Router St :=
  let x := ANY path (Some (lift h)) [] r in Routes_HideDoc x.2 x.1.
Definition mount (paths : list bytes) (h : RequestHandler St) (r : Router St) : Router St :=
  fold_left (mount_at h) (match paths with [] => [B "/*path"] | _ => paths end) r.

Definition registerProtocolHooks (p : handler_ptr) (a : App) (st : St) : App * St :=
  match deref p st with
  | None => (a, st)
  | Some h =>
      (if EnablePortMultiplexing (Server (app_Config a)) then
         match mounted p a h with
         | Some rh => set_Router (mount (GetPaths h) rh (app_Router a)) a
         | None => a
         end
       else a,
       update p apply_hooks st)
  end.

Definition Register (p : handler_ptr) (a : App) (st : St) : App :=
  match deref p st with
  | Some h => set_Registry (<[GetName h := p]> (Registry a)) a
  | None => a
  end.

Definition RegisterProtocol (p : handler_ptr) (a : App) (st : St) : App * St :=
  let a := Register p a st in
  let st := match jwtConfig a with
            | Some cfg => update p (apply_auth (Secret cfg) (TokenLookup cfg)) st
            | None => st
            end in
  registerProtocolHooks p a st.

(** ** Starting and stopping ([protocol.go], [protocol/base.go])

    Go visits the registry in some order, [ps]; [run] is one server's [Start] or
    [Stop]. The first error ends the walk. *)
Fixpoint walk (run : bytes → handler_ptr → St → option error * St)
    (ps : list (bytes * handler_ptr)) (st : St) : option error * St :=
  match ps with
  | [] => (None, st)
  | (n, p) :: ps =>
      match run n p st with
      | (Some e, st) => (Some e, st)
      | (None, st) => walk run ps st
      end
  end.

(** [ProtocolRegistry.StartAll] *)
Definition StartAll (start : handler_ptr → St → option error * St)
    (ps : list (bytes * handler_ptr)) (st : St) : option error * St :=
  walk (λ _ p st, start p st) ps st.
(** [ProtocolRegistry.GetAll] and [Get], and [App.GetProtocols]: the map itself. *)
Definition GetAll (r : gmap bytes handler_ptr) : gmap bytes handler_ptr := r.
Definition GetProtocols (a : App) : gmap bytes handler_ptr := Registry a.
Definition registry_Get (name : bytes) (a : App) : option handler_ptr := Registry a !! name.

Definition is_mounted (h : handler) : bool := FastHTTPHandlerAware h || HTTPHandlerAware h.

Definition StartAllProtocols (start : handler_ptr → St → option error * St)
    (ps : list (bytes * handler_ptr)) (a : App) (st : St) : option error * St :=
  walk (λ name p st,
          if EnablePortMultiplexing (Server (app_Config a)) &&
             match deref p st with Some h => is_mounted h | None => false end
          then (None, st)
          else match start p st with
               | (Some e, st) =>
                   (Some (Err (B "failed to start protocol " ++ name ++ B ": " ++ err_Error e)), st)
               | r => r
               end) ps st.

Definition isRunning (h : handler) : bool :=
  match h with
  | HMcp h => ms_IsRunning h
  | HMqtt h => mb_IsRunning h
  | HWebSocket h => ws_IsRunning h
  | HGraphQL h => gs_IsRunning _ h
  | HGrpc h => gr_IsRunning h
  | HConnect h => cs_IsRunning h
  | HOther _ r => r
  end.
Definition StopAll (stop : handler_ptr → St → option error * St)
    (ps : list (bytes * handler_ptr)) (st : St) : option error * St :=
  walk (λ _ p st, if match deref p st with Some h => isRunning h | None => false end
                  then stop p st else (None, st)) ps st.
(** [StopAllProtocols], over the registry in the order Go visits it. *)
Definition StopAllProtocols (order : gmap bytes handler_ptr → list (bytes * handler_ptr))
    (stop : handler_ptr → St → option error * St) (a : App) (st : St) : option error * St :=
  StopAll stop (order (GetProtocols a)) st.

(** ** [validation.go] *)

(** The errors [ValidateConfig] collects; an empty list is [nil]. *)
Definition ValidateConfig (a : App) : list bytes :=
  let c := app_Config a in
  let server := Server c in
  (if beqb (AppName server) [] then [B "appName is required"] else []) ++
  (if beqb (Secret (cfg_JWT c)) [] && negb (beqb (TokenLookup (cfg_JWT c)) [])
   then [B "jwt secret is required when jwt auth is configured"] else []) ++
  (if Multiprocess server && (NumChildren server <? 0)%Z
   then [B "numChildren cannot be negative"] else []) ++
  (if docs_Enable (Docs c) &&
      match docs_Path (Docs c) with [] => false | c :: _ => negb (Ascii.eqb c "/") end
   then [B "docs path must start with '/'"] else []) ++
  (if EnablePortMultiplexing server && bool_decide (Registry a = ∅)
   then [B "at least one protocol must be registered when port multiplexing is enabled"] else []).

(** ** Serving *)

(** [core.WriteJSONError(ctx, msg)] on the bare context. *)
Definition reply_error (msg : bytes) : RequestHandler St :=
  on_fresh (WriteJSONError msg;; mret tt).

(** [panicGuard(next)] *)
Definition panicGuard (next : RequestHandler St) : RequestHandler St :=
  recovering next
    (λ _, rh_response res_ResetBody;;
          rh_response (res_SetStatusCode StatusInternalServerError);;
          reply_error (B "internal server error")).

(** The handler of [newServer], on the route table [prepare] built. *)
Definition main_handler (a : App) : RequestHandler St :=
  panicGuard (λ s, (HandleRequest (app_Router a) s).2).

(** [registerFavicon] *)
Definition registerFavicon (a : App) : App :=
  let page : hfn St :=
    mod_response (res_SetContentType (B "image/svg+xml"));;
    mod_response (res_Set (B "Cache-Control") (B "public, max-age=86400"));;
    mod_response (res_SetBody faviconSVG);;
    mret None in
  let '(r, p) := GET (B "/favicon.ico") (Some page) [] (app_Router a) in
  set_Router (Route_NoAuth p (Route_HideDoc p r)) a.

(** [serve]: the key pair of [ServeTLS], or none for [Serve]. *)
Definition serve_mode (a : App) : option (bytes * bytes) :=
  let server := Server (app_Config a) in
  if Server_TLSEnabled server then Some (srv_CertFile server, srv_KeyFile server) else None.
End app.
