(* ===== verification/AppProps.v ===== *)
(** * Properties of the application *)

From S2P Require Import Prelude GoStrings Fold Node Effects FastHTTP Core Router Middleware Jwt Protocol Mcp Mqtt WebSocket GraphQL Grpc App.

Section props.
Context `{F : FastHTTP} `{L : JWTLib} `{Cf : CaseFold} {St : Type} `{!Clock St}.
Context {Schema R Hd : Type} `{Lib : MQTTLib Hd}.
Local Abbreviation handler := (@handler Schema R Hd Lib).
Context `{!Has (list handler) St}.
Context (Upgrade : (RequestCtx → bool) → M (RequestCtx * St) bool)
        (executor : Schema → option Z → bool → RequestHandler St)
        (playground : bytes → RequestHandler St)
        (adapt : handler_ptr → RequestHandler St).
Local Abbreviation App := (@App F St R).
Local Abbreviation RegisterProtocol := (RegisterProtocol Upgrade executor playground adapt).

(** ** The heap of protocol servers *)

Lemma deref_update p q f st :
  deref q (update p f st) = if decide (p = q) then f <$> (deref q st : option handler) else deref q st.
Proof.
  unfold deref, update. rewrite view_over. case_decide as Hpq; [subst|].
  - apply list_lookup_alter_eq.
  - by apply list_lookup_alter_ne.
Qed.

(** A server that carries the credentials [s] and [l], if it takes any. *)
Definition carries (s l : bytes) (h : handler) : Prop :=
  match h with
  | HMcp h => has_auth s l h
  | HMqtt h => has_auth s l h
  | HWebSocket h => has_auth s l h
  | HGraphQL h => has_auth s l h
  | HGrpc h => has_auth s l h
  | HConnect h => has_auth s l h
  | HOther _ _ => True
  end.

Lemma apply_auth_carries s l h : carries s l (apply_auth s l h).
Proof. destruct h; simpl; first [done|apply set_auth_has]. Qed.
Lemma apply_auth_name s l (h : handler) : GetName (apply_auth s l h) = GetName h.
Proof. by destruct h. Qed.
Lemma apply_hooks_carries s l h : carries s l h → carries s l (apply_hooks h).
Proof. by destruct h. Qed.
Lemma apply_hooks_name (h : handler) : GetName (apply_hooks h) = GetName h.
Proof. by destruct h. Qed.

Lemma deref_apply_all s l (ps : list handler_ptr) st p h :
  deref p (fold_left (λ st p, update p (apply_auth s l) st) ps st) = Some h →
  (∃ h0, deref p st = Some h0 ∧ GetName h = GetName h0) ∧ (p ∈ ps → carries s l h).
Proof.
  revert st. induction ps as [|q ps IH]; intros st; simpl.
  { intros Hh. split; [by exists h|]. by intros ?%not_elem_of_nil. }
  intros Hh. destruct (decide (p ∈ ps)) as [Hin|Hnin].
  - destruct (IH _ Hh) as [(h0 & Hdr & Hn) Hc]. split; [|by intros _; apply Hc].
    rewrite deref_update in Hdr. case_decide; [|by exists h0].
    apply fmap_Some in Hdr as (h1 & Hdr & ->). exists h1. by rewrite Hn, apply_auth_name.
  - assert (deref p (update q (apply_auth s l) st) = Some h) as Hdr.
    { clear IH. revert Hh. generalize (update q (apply_auth s l) st). induction ps as [|r ps IH]; intros st' Hh; [done|].
      apply not_elem_of_cons in Hnin as [Hne Hnin]. simpl in Hh. apply IH in Hh; [|done].
      rewrite deref_update, decide_False in Hh by done. done. }
    rewrite deref_update in Hdr. case_decide as Hqp.
    + apply fmap_Some in Hdr as (h1 & Hdr & ->). split; [exists h1; by rewrite apply_auth_name|].
      intros _. apply apply_auth_carries.
    + split; [by exists h|]. intros [?|?]%elem_of_cons; by subst.
Qed.

(** ** The configuration *)

Inductive app_call :=
  | CallUse (m : list (Middleware St))
  | CallUseAll (m : list (Middleware St))
  | CallUseProtocol (m : list (@ProtocolMiddleware F St))
  | CallJWT (cfg : JWTConfig St)
  | CallRegister (p : handler_ptr)
  | CallAddDocs (d : DocsConfig)
  | CallHealthCheck (path : bytes)
  | CallOnShutdown (f : list (St → St))
  | CallRoute (method path : bytes) (h : Handler St) (m : list (Middleware St))
  | CallRouteInfo (f : RouteInfo → RouteInfo) (ptr : info_ptr)
  | CallErrorHandler (eh : ErrorHandler St)
  | CallUseUnified (m : list (@UnifiedMiddleware F St R))
  | CallUseGRPCUnary (i : list (Z → call_ctx → (call_ctx → outcome (R + grpc_error)) → outcome (R + grpc_error)))
  | CallUseGRPCStream (i : list (Z → ServerStream → (ServerStream → @streamed R) → @streamed R)).

Definition app_apply (c : app_call) (x : App * St) : App * St :=
  match c with
  | CallUse m => (app_Use m x.1, x.2)
  | CallUseAll m => (UseAll m x.1, x.2)
  | CallUseProtocol m => (UseProtocol m x.1, x.2)
  | CallJWT cfg => SetJWTAuth cfg x.1 x.2
  | CallRegister p => RegisterProtocol p x.1 x.2
  | CallAddDocs d => (AddDocs d x.1, x.2)
  | CallHealthCheck path => (EnableHealthCheck path x.1, x.2)
  | CallOnShutdown f => (OnShutdown f x.1, x.2)
  | CallRoute method path h m => ((on_router (addRoute method path h m) x.1).1, x.2)
  | CallRouteInfo f ptr => (set_Router (upd_info f ptr (app_Router x.1)) x.1, x.2)
  | CallErrorHandler eh => (SetErrorHandler eh x.1, x.2)
  | CallUseUnified m => (UseUnified m x.1, x.2)
  | CallUseGRPCUnary i => (UseGRPCUnary i x.1, x.2)
  | CallUseGRPCStream i => (UseGRPCStream i x.1, x.2)
  end.
Definition app_run (cs : list app_call) (x : App * St) : App * St :=
  fold_left (λ x c, app_apply c x) cs x.

(** [SetJWTAuth]'s default for the lookup. *)
Definition effective (cfg : JWTConfig St) : JWTConfig St :=
  match TokenLookup cfg with
  | [] => mkJWTConfig (Secret cfg) default_lookup (jwt_ErrorHandler cfg)
  | _ => cfg
  end.
Definition initial_jwt (config : @Config F St) : option (JWTConfig St) :=
  match Secret (cfg_JWT config) with [] => None | _ => Some (effective (cfg_JWT config)) end.
Definition last_jwt (cs : list app_call) (j : option (JWTConfig St)) : option (JWTConfig St) :=
  fold_left (λ j c, match c with CallJWT cfg => Some (effective cfg) | _ => j end) cs j.

(** The router checks tokens, and every registered server carries the credentials,
    as [jwtConfig] says; a server is registered under its own name. *)
Definition configured (j : option (JWTConfig St)) (x : App * St) : Prop :=
  jwtConfig x.1 = j ∧ authMiddleware (app_Router x.1) = JWT <$> j ∧
  ∀ n p h, Registry x.1 !! n = Some p → deref p x.2 = Some h →
    GetName h = n ∧ ∀ cfg, j = Some cfg → carries (Secret cfg) (TokenLookup cfg) h.

Lemma UseAll_same m (a : App) :
  jwtConfig (UseAll m a) = jwtConfig a ∧ Registry (UseAll m a) = Registry a ∧
  authMiddleware (app_Router (UseAll m a)) = authMiddleware (app_Router a).
Proof.
  unfold UseAll. change (jwtConfig a) with (jwtConfig (app_Use m a)).
  change (Registry a) with (Registry (app_Use m a)).
  change (authMiddleware (app_Router a)) with (authMiddleware (app_Router (app_Use m a))).
  generalize (app_Use m a). clear a.
  induction m as [|mw m IH]; intros b; [done|]. simpl. apply (IH (UseProtocol _ b)).
Qed.

Lemma UseUnified_same m (a : App) :
  jwtConfig (UseUnified m a) = jwtConfig a ∧ Registry (UseUnified m a) = Registry a ∧
  authMiddleware (app_Router (UseUnified m a)) = authMiddleware (app_Router a) ∧
  grpcUnary (UseUnified m a) = grpcUnary a ++ (ToGRPCUnary <$> m) ∧
  grpcStream (UseUnified m a) = grpcStream a ++ (ToGRPCStream <$> m).
Proof.
  unfold UseUnified. revert a. induction m as [|um m IH]; intros a; [by rewrite !app_nil_r|].
  cbn [fold_left fmap list_fmap]. destruct (IH (UseGRPCStream [ToGRPCStream um] (UseGRPCUnary [ToGRPCUnary um]
    (UseProtocol [ToHTTP um] a)))) as (-> & -> & -> & -> & ->). simpl. by rewrite <- !app_assoc.
Qed.

Lemma ANY_authMiddleware path h m (r : Router St) :
  authMiddleware (ANY path h m r).1 = authMiddleware r.
Proof.
  unfold ANY. generalize anyMethods. intros ms. revert r.
  induction ms as [|x ms IH]; intros r; [done|]. simpl.
  specialize (IH (addRoute x path h m r).1).
  destruct (add_methods ms path h m _) as [r2 ps]. done.
Qed.

Lemma Routes_HideDoc_auth ps (r : Router St) :
  authMiddleware (Routes_HideDoc ps r) = authMiddleware r.
Proof. unfold Routes_HideDoc, Routes_each. by apply fold_left_same. Qed.

Lemma mount_at_auth h path (r : Router St) : authMiddleware (mount_at h r path) = authMiddleware r.
Proof. exact (eq_trans (Routes_HideDoc_auth _ _) (ANY_authMiddleware _ _ _ _)). Qed.

Lemma mount_auth paths h (r : Router St) : authMiddleware (mount paths h r) = authMiddleware r.
Proof. unfold mount. apply (fold_left_same authMiddleware). intros. apply mount_at_auth. Qed.

Lemma hooks_same p (a : App) st :
  let x := registerProtocolHooks Upgrade executor playground adapt p a st in
  jwtConfig x.1 = jwtConfig a ∧ Registry x.1 = Registry a ∧
  authMiddleware (app_Router x.1) = authMiddleware (app_Router a) ∧
  (∀ q h, deref q x.2 = Some h → ∃ h0, deref q st = Some h0 ∧ (h = h0 ∨ h = apply_hooks h0)).
Proof.
  unfold registerProtocolHooks. destruct (deref p st) as [h|] eqn:Hp; simpl; [|naive_solver].
  assert (∀ q h', deref q (update p apply_hooks st) = Some h' →
    ∃ h0, deref q st = Some h0 ∧ (h' = h0 ∨ h' = apply_hooks h0)) as Hup.
  { intros q h' Hq. rewrite deref_update in Hq. case_decide; [|naive_solver].
    apply fmap_Some in Hq as (h0 & ? & ->). naive_solver. }
  destruct (EnablePortMultiplexing _); [destruct (mounted _ _ _ _ _ _ _) as [rh|]|]; simpl;
    rewrite ?mount_auth; split_and!; done.
Qed.

Lemma configured_SetJWTAuth cfg j x :
  configured j x → configured (Some (effective cfg)) (SetJWTAuth cfg x.1 x.2).
Proof.
  intros (_ & _ & Hreg). unfold SetJWTAuth. fold (effective cfg). split_and!; [done|done|].
  simpl. intros n p h Hn Hh. apply deref_apply_all in Hh as [(h0 & Hdr & Hname) Hc]. split.
  - rewrite Hname. by eapply Hreg.
  - intros c Hj. simplify_eq. apply Hc. apply list_elem_of_fmap. exists (n, p).
    split; [done|]. by apply elem_of_map_to_list.
Qed.

Lemma configured_Register p j x : configured j x → configured j (RegisterProtocol p x.1 x.2).
Proof.
  intros (Hj & Ha & Hreg). unfold RegisterProtocol.
  assert (jwtConfig (Register p x.1 x.2) = j ∧
    authMiddleware (app_Router (Register p x.1 x.2)) = JWT <$> j) as [Hj1 Ha1]
    by (unfold Register; by destruct (deref p x.2)).
  rewrite Hj1.
  set (st1 := match j with Some cfg => _ | None => _ end).
  destruct (hooks_same p (Register p x.1 x.2) st1) as (Hj2 & Hr2 & Ha2 & Hd2).
  split; [congruence|]. split; [congruence|]. rewrite Hr2. intros n q h Hn Hh.
  apply Hd2 in Hh as (h1 & Hh1 & Hh).
  assert (GetName h1 = n ∧ ∀ cfg, j = Some cfg → carries (Secret cfg) (TokenLookup cfg) h1) as [Hn1 Hc1].
  { assert (∃ h0, deref q x.2 = Some h0 ∧ GetName h1 = GetName h0 ∧
      (p = q ∨ ∀ cfg, j = Some cfg → carries (Secret cfg) (TokenLookup cfg) h0 →
                      carries (Secret cfg) (TokenLookup cfg) h1) ∧
      (p = q → ∀ cfg, j = Some cfg → carries (Secret cfg) (TokenLookup cfg) h1))
      as (h0 & Hh0 & Hname & Hne & Heq).
    { unfold st1 in Hh1. destruct j as [cfg|]; [|naive_solver].
      rewrite deref_update in Hh1. case_decide as Hpq; [|naive_solver].
      apply fmap_Some in Hh1 as (h0 & Hh0 & ->). exists h0. rewrite apply_auth_name.
      split_and!; [done|done|by left|]. intros _ c [= <-]. apply apply_auth_carries. }
    rewrite Hname. unfold Register in Hn. destruct (deref p x.2) as [hp|] eqn:Hp.
    - simpl in Hn. apply lookup_insert_Some in Hn as [[<- <-]|[_ Hn]].
      + split; [congruence|]. by apply Heq.
      + destruct (Hreg n q h0 Hn Hh0) as [? Hc]. split; [done|].
        intros cfg Hcfg. destruct (decide (p = q)); [by eapply Heq|].
        destruct Hne as [|Hne]; [done|]. by eapply Hne, Hc.
    - destruct (Hreg n q h0 Hn Hh0) as [? Hc]. split; [done|].
      intros cfg Hcfg. destruct Hne as [->|Hne]; [congruence|]. by eapply Hne, Hc. }
  destruct Hh as [->| ->]; [done|]. rewrite apply_hooks_name. split; [done|].
  intros cfg Hcfg. by apply apply_hooks_carries, Hc1.
Qed.

Lemma configured_apply c j x :
  configured j x →
  configured (match c with CallJWT cfg => Some (effective cfg) | _ => j end) (app_apply c x).
Proof.
  intros Hx. destruct c as [m|m|m|cfg|p|d|path|f|method path h m|f ptr|eh|m|i|i]; simpl; try exact Hx;
    [|by eapply configured_SetJWTAuth|by apply configured_Register|].
  - destruct (UseAll_same m x.1) as (H1 & H2 & H3). unfold configured. simpl. by rewrite H1, H2, H3.
  - destruct (UseUnified_same m x.1) as (H1 & H2 & H3 & _). unfold configured. simpl. by rewrite H1, H2, H3.
Qed.

Lemma configured_run cs j x : configured j x → configured (last_jwt cs j) (app_run cs x).
Proof.
  revert j x. induction cs as [|c cs IH]; intros j x Hx; [done|]. simpl.
  by apply IH, configured_apply.
Qed.

Lemma New_configured config st : configured (initial_jwt config) (New config st).
Proof.
  unfold New, initial_jwt. simpl. set (a := UseProtocol _ _).
  assert (configured None (a, st)) as Ha by (split_and!; [done|done|by intros ? ? ?]).
  destruct (Secret (cfg_JWT config)) as [|x secret] eqn:Hs; [exact Ha|].
  by apply (configured_SetJWTAuth (cfg_JWT config) None (a, st)).
Qed.

(** C5 Authentication is unified: whatever an application configures, and in whatever
    order it registers servers and sets credentials, the router ends up checking
    tokens under the last JWT configuration set, every registered protocol server
    that takes credentials carries the secret and lookup of that configuration, and
    each server is registered under its own name. *)
Theorem unified_auth config st cs :
  let x := app_run cs (New config st) in
  let j := last_jwt cs (initial_jwt config) in
  authMiddleware (app_Router x.1) = JWT <$> j ∧
  ∀ n p h, Registry x.1 !! n = Some p → deref p x.2 = Some h →
    GetName h = n ∧ ∀ cfg, j = Some cfg → carries (Secret cfg) (TokenLookup cfg) h.
Proof. intros x j. apply (configured_run cs _ _ (New_configured config st)). Qed.

(** *** Interceptors of the gRPC servers *)

(** The server asks the application for its interceptors or its protocol middleware. *)
Definition hooked (h : handler) : Prop :=
  match h with
  | HGrpc g => unarySrc g = true ∧ streamSrc g = true
  | HWebSocket w => ws_outerMW w = true
  | HGraphQL g => gs_outerMW _ g = true
  | _ => True
  end.
Definition all_hooked (x : App * St) : Prop :=
  ∀ n p h, Registry x.1 !! n = Some p → deref p x.2 = Some h → hooked h.

Lemma apply_hooks_hooked (h : handler) : hooked (apply_hooks h).
Proof. by destruct h. Qed.
Lemma apply_auth_hooked s l h : hooked h → hooked (apply_auth s l h).
Proof. by destruct h. Qed.

Lemma deref_apply_all_hooked s l (ps : list handler_ptr) (st : St) p h :
  deref p (fold_left (λ st p, update p (apply_auth s l) st) ps st) = Some h →
  ∃ h0, deref p st = Some h0 ∧ (hooked h0 → hooked h).
Proof.
  revert st. induction ps as [|q ps IH]; intros st; simpl; [intros Hh; by exists h|].
  intros (h1 & Hdr & Hk)%IH. rewrite deref_update in Hdr. case_decide as Hq; [|by exists h1].
  apply fmap_Some in Hdr as (h0 & Hdr & ->). exists h0. split; [done|]. intros. by apply Hk, apply_auth_hooked.
Qed.

Lemma hooked_SetJWTAuth cfg x : all_hooked x → all_hooked (SetJWTAuth cfg x.1 x.2).
Proof.
  intros Hx n p h Hn Hh. apply deref_apply_all_hooked in Hh as (h0 & Hh0 & Hk).
  by eapply Hk, Hx.
Qed.
Lemma hooked_Register p x : all_hooked x → all_hooked (RegisterProtocol p x.1 x.2).
Proof.
  intros Hx n q h. unfold RegisterProtocol.
  set (st1 := match jwtConfig _ with Some cfg => _ | None => _ end).
  destruct (hooks_same p (Register p x.1 x.2) st1) as (_ & -> & _ & _). intros Hn Hh.
  assert (∀ r, p ≠ r → deref r st1 = (deref r x.2 : option handler)) as Hst1.
  { intros r Hne. unfold st1. destruct (jwtConfig _); [by rewrite deref_update, decide_False|done]. }
  unfold registerProtocolHooks in Hh. destruct (decide (p = q)) as [<-|Hne].
  - revert Hh. destruct (deref p st1) as [h1|] eqn:Hp; simpl; [|congruence].
    rewrite deref_update, decide_True, Hp by done. intros [= <-]. apply apply_hooks_hooked.
  - assert (Registry x.1 !! n = Some q) as Hn'.
    { unfold Register in Hn. destruct (deref p x.2); [|done]. simpl in Hn.
      apply lookup_insert_Some in Hn as [[_ ?]|[_ ?]]; [done|done]. }
    assert (deref q x.2 = Some h) as Hq; [|by eapply Hx].
    rewrite <- Hh. destruct (deref p st1); simpl; rewrite ?deref_update, ?decide_False by done;
      by rewrite Hst1.
Qed.
Lemma hooked_run cs x : all_hooked x → all_hooked (app_run cs x).
Proof.
  revert x. induction cs as [|c cs IH]; intros x Hx; [done|]. simpl. apply IH. clear IH.
  destruct c as [m|m|m|cfg|p|d|path|f|method path h m|f ptr|eh|m|i|i]; simpl; try exact Hx;
    [|by apply hooked_SetJWTAuth|by apply hooked_Register|].
  - destruct (UseAll_same m x.1) as (_ & H2 & _). unfold all_hooked. simpl. by rewrite H2.
  - destruct (UseUnified_same m x.1) as (_ & H2 & _). unfold all_hooked. simpl. by rewrite H2.
Qed.
Lemma New_hooked config st : all_hooked (New config st).
Proof.
  unfold New. set (a := UseAll _ _). assert (all_hooked (a, st)) as Ha by by intros ? ? ?.
  destruct (Secret _); [done|]. by apply (hooked_SetJWTAuth _ (a, st)).
Qed.

(** The interceptors a call adds. *)
Definition unary_of (c : app_call) :=
  match c with CallUseUnified m => ToGRPCUnary <$> m | CallUseGRPCUnary i => i | _ => [] end.
Definition stream_of (c : app_call) :=
  match c with CallUseUnified m => ToGRPCStream <$> m | CallUseGRPCStream i => i | _ => [] end.

Lemma UseAll_grpc m (a : App) :
  grpcUnary (UseAll m a) = grpcUnary a ∧ grpcStream (UseAll m a) = grpcStream a.
Proof.
  unfold UseAll. change (grpcUnary a) with (grpcUnary (app_Use m a)).
  change (grpcStream a) with (grpcStream (app_Use m a)). generalize (app_Use m a). clear a.
  induction m as [|mw m IH]; intros b; [done|]. simpl. apply (IH (UseProtocol _ b)).
Qed.
Lemma app_run_grpc cs x :
  grpcUnary (app_run cs x).1 = grpcUnary x.1 ++ mjoin (unary_of <$> cs) ∧
  grpcStream (app_run cs x).1 = grpcStream x.1 ++ mjoin (stream_of <$> cs).
Proof.
  revert x. induction cs as [|c cs IH]; intros x; [by rewrite !app_nil_r|].
  cbn [fmap list_fmap]. simpl. destruct (IH (app_apply c x)) as [-> ->]. rewrite !app_assoc.
  assert (grpcUnary (app_apply c x).1 = grpcUnary x.1 ++ unary_of c ∧
          grpcStream (app_apply c x).1 = grpcStream x.1 ++ stream_of c) as [-> ->]; [|done].
  destruct c as [m|m|m|cfg|p|d|path|f|method path h m|f ptr|eh|m|i|i]; simpl; rewrite ?app_nil_r; try done.
  - destruct (UseAll_grpc m x.1) as [-> ->]. done.
  - unfold RegisterProtocol, registerProtocolHooks, Register.
    repeat case_match; done.
  - by destruct (UseUnified_same m x.1) as (_ & _ & _ & -> & ->).
Qed.
Lemma New_grpc config st : grpcUnary (New config st).1 = [] ∧ grpcStream (New config st).1 = [].
Proof. unfold New. destruct (Secret _); done. Qed.

(** C10 A gRPC server of an application with a secret runs, in front of its services, the
    check of that secret and then every interceptor the application was given, by
    [UseGRPCUnary], [UseGRPCStream] or [UseUnified], in the order they were given,
    whether before the server was registered or after. *)
Theorem grpc_interceptors config st cs name p g g' cert ln cfg t :
  let x := app_run cs (New config st) in
  last_jwt cs (initial_jwt config) = Some cfg → Secret cfg ≠ [] →
  Registry x.1 !! name = Some p → deref p x.2 = Some (HGrpc g) → gr_isRunning g = false →
  gr_Start (grpcUnary x.1) (grpcStream x.1) cert ln g = (None, g') → gr_isRunning g' = true →
  (∀ handler ctx, unary_call g' t handler ctx =
     chain_unary (unifiedAuthInterceptor (Secret cfg) :: mjoin (unary_of <$> cs)) t handler ctx) ∧
  (∀ handler ss, stream_call g' t handler ss =
     chain_stream (unifiedAuthStreamInterceptor (Secret cfg) :: mjoin (stream_of <$> cs)) t handler ss).
Proof.
  intros x Hj Hs Hn Hp Hr Hst Hr'. unfold unary_call, stream_call.
  rewrite (gr_Start_chain _ _ _ _ _ _ Hst Hr Hr'). unfold collect, collect_stream.
  destruct (configured_run cs _ _ (New_configured config st)) as (_ & _ & Hc). fold x in Hc.
  destruct (Hc _ _ _ Hn Hp) as [_ Hcar]. destruct (Hcar cfg Hj) as [Hsec _]. simpl in Hsec.
  destruct (hooked_run cs _ (New_hooked config st) _ _ _ Hn Hp) as [-> ->].
  rewrite Hsec, (proj2 (beqb_neq _ _) Hs).
  destruct (app_run_grpc cs (New config st)) as [Hu Hss]. fold x in Hu, Hss.
  destruct (New_grpc config st) as [Hnu Hns]. rewrite Hnu in Hu. rewrite Hns in Hss.
  by rewrite Hu, Hss.
Qed.
End props.

(** ** Serving *)

Section serving.
Context `{F : FastHTTP} `{L : JWTLib} `{Cf : CaseFold} {St : Type} `{!Clock St}.
Context {Schema R Hd : Type} `{Lib : MQTTLib Hd}.
Context `{!Has (list (@handler Schema R Hd Lib)) St}.

(** The response [SecurityHeaders] prepares. *)
Definition secured (s : Ctx * St) : Ctx * St :=
  (upd_RequestCtx (on_response
     (λ r, fold_left (λ r kv, res_Set kv.1 kv.2 r) security_headers r)) s.1, s.2).

Lemma SecurityHeaders_call next (s : Ctx * St) : call (SecurityHeaders next) s = call next (secured s).
Proof. done. Qed.

Lemma Recover_ret next (s : Ctx * St) err s' :
  call next s = (Ret err, s') → call (Recover next) s = (Ret err, s').
Proof. intros Hn. cbn [Recover call]. unfold recovering. by rewrite Hn. Qed.

(** The chain of a route of an application as [New] leaves it. *)
Lemma New_chain config (st : St) (r : Router St) e :
  Secret (cfg_JWT config) ≠ [] →
  middlewares r = middlewares (app_Router (New config st).1) →
  authMiddleware r = authMiddleware (app_Router (New config st).1) →
  info_NoAuth r (e_info e) = false →
  entry_chain r e = [Recover; SecurityHeaders; JWT (effective (cfg_JWT config))] ++ e_mws e.
Proof.
  intros Hs Hm Ha Hn. unfold entry_chain. rewrite Hm, Ha, Hn. unfold New. simpl.
  destruct (Secret (cfg_JWT config)); [done|]. done.
Qed.

(** A request without a token the secret vouches for is answered by the chain of such a
    route alone, whatever stands behind. *)
Lemma guarded_reject `{!FastHTTPLaws F} `{!JWTSound L} (cfg : JWTConfig St) (r : Router St) params (s : RequestCtx * St) :
  jwt_ErrorHandler cfg = None → ¬ carries_token (now s.2) (jwt_lookup cfg) (Secret cfg) s.1 →
  ∃ reply, (∀ next, run r (apply_chain [Recover; SecurityHeaders; JWT cfg] next) params [] s = reply) ∧
    reply.1 = Ret tt ∧ reply.2.2 = s.2 ∧
    res_StatusCode (ctx_Response reply.2.1) = StatusUnauthorized ∧
    res_Peek (ctx_Response reply.2.1) (B "X-Frame-Options") = B "DENY".
Proof.
  intros Heh Hno. set (s1 := secured (mkCtx _ s.1 params None None None, s.2)).
  destruct (JWT_rejects cfg s1) as [msg Hmsg].
  { intros c Hc. apply Hno. exists c. rewrite (ExtractToken_request _ s1.1); [exact Hc|done]. }
  destruct (jwt_reject_status cfg msg s1 Heh) as [Hret Hst].
  exists (Ret tt, (c_RequestCtx (jwt_reject cfg msg s1).2.1, (jwt_reject cfg msg s1).2.2)). split_and!; [|done| |exact Hst|].
  - intros next. unfold run. cbn [apply_chain fold_right app]. unfold mbind, M_bind.
    rewrite (Recover_ret _ _ None (jwt_reject cfg msg s1).2).
    + by destruct (jwt_reject cfg msg s1) as [o [c' st']].
    + rewrite SecurityHeaders_call. fold s1. rewrite Hmsg.
      destruct (jwt_reject cfg msg s1); simpl in *; by rewrite Hret.
  - unfold jwt_reject. rewrite Heh. destruct (json_error_body msg) as [b Hb].
    unfold WriteJSONError, mod_response, mod_RequestCtx, modify, mbind, M_bind. cbn. by rewrite Hb.
  - unfold jwt_reject. rewrite Heh. destruct (json_error_body msg) as [b Hb].
    unfold WriteJSONError, mod_response, mod_RequestCtx, modify, mbind, M_bind. cbn. rewrite Hb. cbn.
    rewrite peek_SetBody, peek_SetContentType, peek_SetStatusCode by reflexivity.
    rewrite !peek_set_ne by reflexivity. by rewrite peek_set by reflexivity.
Qed.

(** A request with such a token reaches what stands behind, with the security headers set
    and the claims recorded. *)
Lemma guarded_admit `{!JWTLaws L} (cfg : JWTConfig St) (r : Router St) next params (s : RequestCtx * St) s' :
  carries_token (now s.2) (jwt_lookup cfg) (Secret cfg) s.1 →
  (∀ c, call next (SetJWT (Some c) (secured (mkCtx _ s.1 params None None None, s.2)).1, s.2) = (Ret None, s' c)) →
  ∃ c, run r (apply_chain [Recover; SecurityHeaders; JWT cfg] next) params [] s =
       (Ret tt, (c_RequestCtx (s' c).1, (s' c).2)).
Proof.
  intros [c Hc] Hn. set (s1 := secured (mkCtx _ s.1 params None None None, s.2)) in *. exists c.
  assert (authentic (now s1.2) (ExtractToken s1.1 (jwt_lookup cfg)) (Secret cfg) c) as Ha.
  { rewrite (ExtractToken_request s1.1 (fresh_ctx s.1)); [exact Hc|done]. }
  unfold run. cbn [apply_chain fold_right app]. unfold mbind, M_bind.
  rewrite (Recover_ret _ _ None (s' c)).
  - by destruct (s' c).
  - rewrite SecurityHeaders_call. fold s1. rewrite (JWT_admits cfg next s1 c Ha). apply Hn.
Qed.

(** C6 A route of an application made with a JWT secret is closed to strangers. As long as
    the middleware of the router is what [New] installed, with no later call of [Use],
    [UseAll] or [SetJWTAuth], and the [ErrorHandler] of the JWT configuration is the default
    one: when a request carries no token the secret vouches for, every route that is not
    marked [NoAuth] answers 401 with the security headers, changes nothing else, and
    answers the same whatever its handler and its own middleware are. *)
Theorem protected_route `{!FastHTTPLaws F} `{!JWTSound L} config (st : St) (r : Router St) e e'
    params (s : RequestCtx * St) :
  let cfg := effective (cfg_JWT config) in
  Secret cfg ≠ [] → jwt_ErrorHandler cfg = None →
  middlewares r = middlewares (app_Router (New config st).1) →
  authMiddleware r = authMiddleware (app_Router (New config st).1) →
  info_NoAuth r (e_info e) = false → info_NoAuth r (e_info e') = false →
  ¬ carries_token (now s.2) (jwt_lookup cfg) (Secret cfg) s.1 →
  let reply := run r (apply_chain (entry_chain r e) (e_handler e)) params [] s in
  reply = run r (apply_chain (entry_chain r e') (e_handler e')) params [] s ∧
  reply.1 = Ret tt ∧ reply.2.2 = s.2 ∧
  res_StatusCode (ctx_Response reply.2.1) = StatusUnauthorized ∧
  res_Peek (ctx_Response reply.2.1) (B "X-Frame-Options") = B "DENY".
Proof.
  intros cfg Hsec Heh Hm Ha Hn Hn' Hno.
  assert (Secret (cfg_JWT config) ≠ []) as Hsec'.
  { unfold cfg, effective in Hsec. by destruct (TokenLookup (cfg_JWT config)). }
  destruct (guarded_reject cfg r params s Heh Hno) as (reply & Hrun & Hret & Hst & Hcode & Hhdr).
  assert (∀ e0, info_NoAuth r (e_info e0) = false →
    run r (apply_chain (entry_chain r e0) (e_handler e0)) params [] s = reply) as He.
  { intros e0 He0. rewrite (New_chain config st r e0 Hsec' Hm Ha He0). unfold apply_chain.
    rewrite fold_right_app. apply Hrun. }
  cbn zeta. by rewrite (He e Hn), (He e' Hn').
Qed.

Lemma json_reply_body `{!FastHTTPLaws F} msg (s : RequestCtx * St) :
  ∃ b, json_Marshal (VMap [(B "error", VString msg)]) = Some b ∧
  reply_error msg s =
    (Ret tt, (on_response (λ r, res_SetBody b (res_SetContentType (B "application/json") r)) s.1, s.2)).
Proof.
  destruct (json_error_body msg) as [b Hb]. exists b. split; [done|].
  unfold reply_error, on_fresh, WriteJSONError, mod_response, mod_RequestCtx, modify, mbind, M_bind. cbn.
  rewrite Hb. done.
Qed.

(** C14 No panic of a request's own goroutine leaves the HTTP server: whatever the routes,
    the middleware and the request are, the main handler leaves a normal answer as it is,
    and turns a panic into status 500 with exactly the error object as body, whatever the
    handler had written before. What it cannot stop is a panic on a goroutine that the
    handler started and that recovers nothing, as [Timeout] starts one for the handlers
    behind it: that still ends the process. *)
Theorem main_handler_contains_panics `{!FastHTTPLaws F} (a : @App F St R) (s : RequestCtx * St) :
  let inner := (HandleRequest (app_Router a) s).2 in
  (∀ s', inner = (Ret tt, s') → main_handler a s = (Ret tt, s')) ∧
  (∀ v s', inner = (Panic v, s') →
    ∃ s'', main_handler a s = (Ret tt, s'') ∧ s''.2 = s'.2 ∧
      res_StatusCode (ctx_Response s''.1) = StatusInternalServerError ∧
      json_Marshal (VMap [(B "error", VString (B "internal server error"))]) =
        Some (res_Body (ctx_Response s''.1))) ∧
  (∀ v s', inner = (Crash v, s') → main_handler a s = (Crash v, s')).
Proof.
  intros inner. unfold main_handler, panicGuard, recovering. fold inner.
  split; [by intros s' ->|]. split; [|by intros v s' ->]. intros v s' ->.
  unfold rh_response, modify, mbind, M_bind. cbn [fst snd].
  match goal with |- context[reply_error _ ?x] =>
    destruct (json_reply_body (B "internal server error") x) as (b & Hb & ->) end.
  eexists. split; [reflexivity|]. split; [done|]. rewrite Hb. cbn [fst ctx_Response on_response].
  rewrite status_SetBody, status_SetContentType, body_set, status_set by done. done.
Qed.

(** The configuration [New] leaves is refused by [ValidateConfig] for exactly
    three reasons: a token lookup without a secret, a negative number of children in
    multiprocess mode, and port multiplexing without a registered protocol; the name
    and the documentation path were repaired. *)
Theorem validated_config config (st : St) (a : @App F St R) :
  app_Config a = app_Config (New config st).1 →
  ValidateConfig a = [] ↔
    (Secret (cfg_JWT config) = [] → TokenLookup (cfg_JWT config) = []) ∧
    (Multiprocess (Server config) = true → (0 ≤ NumChildren (Server config))%Z) ∧
    (EnablePortMultiplexing (Server config) = true → Registry a ≠ ∅).
Proof.
  intros Hcfg. unfold ValidateConfig. rewrite Hcfg.
  assert (app_Config (New config st).1 =
    mkConfig (set_ShowStartup (Some (default true (ShowStartup (Server_SetDefaults (Server config)))))
                (Server_SetDefaults (Server config)))
      (Routing config)
      (docs_defaults (AppName (Server_SetDefaults (Server config))) (docs_Enable (Docs config)) (Docs config))
      (cfg_JWT config) (cfg_Security config)) as ->.
  { unfold New. simpl. by destruct (Secret (cfg_JWT config)). }
  cbn [Server Docs cfg_JWT set_ShowStartup AppName Multiprocess NumChildren EnablePortMultiplexing].
  set (name := AppName (Server_SetDefaults (Server config))).
  assert (beqb name [] = false) as ->.
  { apply beqb_neq. unfold name. simpl. by destruct (AppName (Server config)). }
  assert (docs_Enable (docs_defaults name (docs_Enable (Docs config)) (Docs config)) &&
    match docs_Path (docs_defaults name (docs_Enable (Docs config)) (Docs config)) with
    | [] => false | c :: _ => negb (Ascii.eqb c "/") end = false) as ->.
  { simpl. destruct (docs_Enable (Docs config)); [|done]. unfold rooted. simpl.
    destruct (docs_Path (Docs config)) as [|c p]; [done|].
    destruct (Ascii.eqb c "/") eqn:Hc; [by rewrite Hc|done]. }
  simpl. rewrite !app_nil_iff. apply and_iff_compat_both; [|apply and_iff_compat_both].
  - destruct (beqb (Secret (cfg_JWT config)) []) eqn:Hs.
    + apply beqb_eq in Hs. destruct (beqb (TokenLookup (cfg_JWT config)) []) eqn:Ht; simpl.
      * apply beqb_eq in Ht. naive_solver.
      * apply beqb_neq in Ht. naive_solver.
    + apply beqb_neq in Hs. simpl. naive_solver.
  - destruct (Multiprocess (Server config)), (Z.ltb_spec (NumChildren (Server config)) 0); simpl;
      (split; [intros; first [done|lia]|intros Hc; first [done|specialize (Hc eq_refl); lia]]).
  - destruct (EnablePortMultiplexing (Server config)); simpl; [|naive_solver].
    case_bool_decide; naive_solver.
Qed.
End serving.

(** ** Witnesses *)

Section witnesses.
Local Existing Instances SimpleMQTT.simple_mqtt.
Import Simple.
Local Existing Instances simple_http simple_laws.
Local Existing Instance SimpleFold.ascii_fold.
Local Instance lib : JWTLib := SimpleJWT.lib [].
Local Instance lib_laws : JWTLaws lib := SimpleJWT.lib_laws _.

Definition server_heap : Type := list (@handler unit bytes nat SimpleMQTT.simple_mqtt).
Definition world : Type := server_heap * Z.
Local Instance world_heap : Has server_heap world.
Proof. by refine {| view := fst; over f x := (f x.1, x.2) |}. Defined.
Local Instance world_clock : Clock world := snd.

Definition base_server (mux : bool) : ServerConfig :=
  mkServerConfig [] false 0 None [] mux 0 0 0 0 [] [].
Definition no_docs : DocsConfig := mkDocsConfig false [] [] [] [] false [] [] None.
Definition config_with (mux : bool) (secret : bytes) : @Config simple_http world :=
  mkConfig (base_server mux) (mkRoutingConfig false false) no_docs (mkJWTConfig secret [] None) [].
Definition say (b : bytes) : Handler world :=
  Some (mod_response (res_SetBody b);; mret (None : option error)).
Definition get_request (path : bytes) : @RequestCtx simple_http * world :=
  (request_ctx (B "GET") path, (([] : server_heap), 5%Z)).

Definition a0 : @App simple_http world bytes := (New (config_with false (B "key")) (([] : server_heap), 5%Z)).1.
Definition secret_route : routeEntry world := mkEntry (B "GET") (B "/a") (say (B "secret")) [] 0.
Definition other_route : routeEntry world := mkEntry (B "GET") (B "/b") (say (B "other")) [] 1.

Lemma protected_route_witness :
  res_StatusCode (ctx_Response (run (app_Router a0)
    (apply_chain (entry_chain (app_Router a0) secret_route) (e_handler secret_route)) None []
    (get_request (B "/a"))).2.1) = StatusUnauthorized.
Proof.
  apply (protected_route (config_with false (B "key")) (([] : server_heap), 5%Z) (app_Router a0)
           secret_route other_route None (get_request (B "/a")));
    try reflexivity; try discriminate.
  intros [c (Hne & _)]. apply Hne. reflexivity.
Defined.

(** An application whose router has no [Recover]. *)
Definition crashing : @App simple_http world bytes :=
  set_Router (GET (B "/boom") (Some (throw VNil)) [] (NewRouter false false)).1 a0.

Lemma main_handler_contains_panics_witness :
  ∃ s'', main_handler crashing (get_request (B "/boom")) = (Ret tt, s'') ∧
    res_StatusCode (ctx_Response s''.1) = StatusInternalServerError.
Proof.
  destruct (main_handler_contains_panics crashing (get_request (B "/boom"))) as (_ & Hpanic & _).
  destruct (Hpanic VNil (HandleRequest (app_Router crashing) (get_request (B "/boom"))).2.2)
    as (s'' & Hm & _ & Hst & _); [reflexivity|].
  exists s''. by split.
Defined.

(** A gRPC server registered between two calls of [UseGRPCUnary]. *)
Definition grpc_heap : world :=
  ([HGrpc (NewGRPCServer (mkGRPCConfig (mkProtocolConfig true 0 [] [] []) 0 0 0 0))], 5%Z).
Definition tagging (b : bytes) (t : Z) (ctx : call_ctx) (h : call_ctx → outcome (bytes + grpc_error))
  : outcome (bytes + grpc_error) :=
  match h ctx with Ret (inl r) => Ret (inl (b ++ r)) | r => r end.
Definition grpc_calls : list (@app_call simple_http world bytes) :=
  [CallUseGRPCUnary [tagging (B "a")]; CallRegister 0; CallUseGRPCUnary [tagging (B "b")]].
Definition grpc_app :=
  app_run (λ _ s, (Ret false, s)) (λ _ _ _ s, (Ret tt, s)) (λ _ s, (Ret tt, s)) (λ _ s, (Ret tt, s))
    grpc_calls (New (config_with false (B "key")) grpc_heap).
Definition grpc_registered : GRPCServer bytes :=
  match deref (Schema := unit) (R := bytes) (Lib := SimpleMQTT.simple_mqtt) 0 grpc_app.2 with
  | Some (HGrpc g) => g
  | _ => NewGRPCServer (mkGRPCConfig (mkProtocolConfig true 0 [] [] []) 0 0 0 0)
  end.
Definition no_metadata : call_ctx := mkCallCtx None None.

Lemma grpc_interceptors_witness :
  unary_call (gr_Start (grpcUnary grpc_app.1) (grpcStream grpc_app.1) None (inl 1) grpc_registered).2 5
    (λ _, Ret (inl (B "hi"))) no_metadata
  = chain_unary [unifiedAuthInterceptor (B "key"); tagging (B "a"); tagging (B "b")] 5
      (λ _, Ret (inl (B "hi"))) no_metadata.
Proof.
  set (g' := (gr_Start (grpcUnary grpc_app.1) (grpcStream grpc_app.1) None (inl 1) grpc_registered).2).
  destruct (grpc_interceptors (Schema := unit) (R := bytes) (Lib := SimpleMQTT.simple_mqtt)
    (λ _ s, (Ret false, s)) (λ _ _ _ s, (Ret tt, s)) (λ _ s, (Ret tt, s)) (λ _ s, (Ret tt, s))
    (config_with false (B "key")) grpc_heap grpc_calls (B "grpc") 0 grpc_registered g' None (inl 1)
    (effective (mkJWTConfig (B "key") [] None)) 5) as [H _].
  - reflexivity.
  - discriminate.
  - reflexivity.
  - reflexivity.
  - reflexivity.
  - refine (eq_trans (surjective_pairing _) (f_equal (λ e, (e, g')) _)). reflexivity.
  - reflexivity.
  - exact (H (λ _, Ret (inl (B "hi"))) no_metadata).
Defined.

Lemma validated_config_witness : ValidateConfig a0 = [].
Proof.
  apply (validated_config (config_with false (B "key")) (([] : server_heap), 5%Z) a0);
    [reflexivity|]. by split_and!.
Defined.

(** ** What the model showed *)

(** A server mounted on the router when it is registered does not run the app's
    protocol middleware, whatever it is: the wrapper is installed afterwards. *)
Lemma mount_ignores_protocol_middleware Upgrade executor playground adapt p (ws : WebSocketServer)
    (ms : list (@ProtocolMiddleware simple_http world)) (a : @App simple_http world bytes) :
  ws_outerMW ws = false →
  mounted (Schema := unit) (R := bytes) (Lib := SimpleMQTT.simple_mqtt)
    Upgrade executor playground adapt p (UseProtocol ms a) (HWebSocket ws) =
  mounted Upgrade executor playground adapt p a (HWebSocket ws).
Proof. intros Ho. simpl. unfold ws_Handler. by rewrite Ho. Qed.

Definition no_clients : @server nat SimpleMQTT.simple_mqtt := (∅ : gmap (bytes * Z) nat).

(** [SetJWTAuth] without a secret passes validation; the routes then reject every
    request, while an MQTT broker stays open to anonymous clients. *)
Example empty_secret_opens_protocols :
  let broker := NewMQTTBroker no_clients
    (mkMQTTConfig (mkProtocolConfig true 0 [] [] []) [] 0 0 0 [] false false 0) in
  let a := (New (config_with false []) (([] : server_heap), 5%Z)).1 in
  let x := SetJWTAuth (mkJWTConfig [] [] None) a (([] : server_heap), 5%Z) in
  ValidateConfig x.1 = [] ∧ OnConnectAuthenticate 5 (B "anything") (set_auth [] default_lookup broker) = true.
Proof. split; reflexivity. Qed.
End witnesses.
