(* ===== verification/Docs.v ===== *)
(** * Documentation pages and the start of a server ([app.go])

    [prepare] runs before the listener is bound: it validates the configuration,
    registers the favicon and the documentation pages, and builds the route table.
    [reflect] gives the dynamic type and value of a model stored in an [any], [types]
    the type descriptors; [n] is the fuel of the generator. *)

From S2P Require Import Prelude GoStrings Node Effects FastHTTP Core Router Quote Json OpenApi Middleware Jwt Protocol Mcp Mqtt WebSocket GraphQL Grpc App.

Section docs.
Context `{F : FastHTTP} `{L : JWTLib} {St R : Type} `{!Clock St}.
Context `{U : Unicode} `{Fl : GoFloat} (types : tid → rtype) (reflect : any → model).

(** [a.Router.Routes] as the values the pointers refer to. *)
Definition route_infos (r : Router St) : list RouteInfo := omap (λ p, infos r !! p) (Routes r).

(** Which routes a page describes. *)
Definition doc_visible (config : DocsConfig) (i : RouteInfo) : bool :=
  negb (beqb (Path i) (B "/favicon.ico")) && negb (HideDoc i) &&
  match docs_Filter config with Some f => f i | None => true end.
Definition route_doc (i : RouteInfo) : RouteDoc :=
  mkRouteDoc (Method i) (Path i) (Summary i) (Tags i) (reflect (ResponseModel i))
    (reflect (RequestModel i)) (NoAuth i) (HideDoc i) (ContentType i).
Definition doc_routes (config : DocsConfig) (r : Router St) : list RouteDoc :=
  route_doc <$> List.filter (doc_visible config) (route_infos r).

(** [func(c *Context) error { SetContentType(..); SetBodyString(..); return nil }] *)
Definition page (ctype body : bytes) : hfn St :=
  mod_response (res_SetContentType ctype);; mod_response (res_SetBody body);; mret None.

(** [a.Router.GET(path, ..).HideDoc().NoAuth()] *)
Definition hidden_page (path : bytes) (h : hfn St) (r : Router St) : Router St :=
  let '(r, p) := GET path (Some h) [] r in Route_NoAuth p (Route_HideDoc p r).

Definition json_path (config : DocsConfig) : bytes := docs_Path config ++ B "/openapi.json".

Definition registerSingleDoc (n : nat) (config : DocsConfig) (r : Router St) : option (Router St) :=
  schema ← GenerateSchema types n (docs_Title config) (docs_Desc config) (doc_routes config r)
             (docs_Security config);
  let r := hidden_page (json_path config) (page (B "application/json") schema) r in
  let html := ScalarHTML (docs_PageTitle config) (json_path config) (docs_DarkMode config)
                (docs_ScalarJSURL config) in
  Some (hidden_page (docs_Path config) (page (B "text/html") html) r).

(** The pages [registerAllDocs] registers, in order. *)
Definition all_docs (a : @App F St R) : list DocsConfig :=
  let d := Docs (app_Config a) in
  (if docs_Enable d
   then [mkDocsConfig false (docs_Path d) (docs_Title d) (docs_Desc d) (docs_PageTitle d)
           (docs_DarkMode d) (docs_ScalarJSURL d) (cfg_Security (app_Config a)) None]
   else []) ++ docsConfigs a.

Definition registerAllDocs (n : nat) (a : @App F St R) : option App :=
  r ← loop (λ _ config r, registerSingleDoc n config r) 0 (all_docs a) (app_Router a);
  Some (set_Router r a).

(** [prepare]: the errors of the validation, or the app ready to serve. *)
Definition prepare (n : nat) (a : @App F St R) : option (list bytes + App) :=
  match ValidateConfig a with
  | [] =>
      a ← registerAllDocs n (registerFavicon a);
      Some (inr (set_Router (Build (app_Router a)) a))
  | errs => Some (inl errs)
  end.
End docs.
