(* ===== verification/DocsProps.v ===== *)
(** * Properties of the documentation pages and of [prepare] *)

From S2P Require Import Prelude GoStrings Node Effects FastHTTP Core Router Quote Json OpenApi OpenApiTheory OpenApiDoc OpenApiProps Middleware Jwt Protocol Mcp Mqtt WebSocket GraphQL Grpc App Docs.

Section docs_props.
Context `{F : FastHTTP} `{!FastHTTPLaws F} `{L : JWTLib} {St R : Type} `{!Clock St}.
Context `{U : Unicode} `{Fl : GoFloat} (types : tid → rtype) (reflect : any → model).

(** The path [addRoute] stores. *)
Definition slashed (path : bytes) : bytes :=
  let path := match path with [] => B "/" | _ => path end in
  match path with
  | c :: _ => if Ascii.eqb c "/" then path else "/"%char :: path
  | [] => path
  end.

(** A page of the application: a GET route without middleware of its own, exempt from
    authentication and left out of the documentation. *)
Definition served (r : Router St) (path : bytes) (h : hfn St) : Prop :=
  ∃ e i, In e (entries r) ∧ e_method e = B "GET" ∧ e_path e = slashed path ∧
         e_handler e = Some h ∧ e_mws e = [] ∧ infos r !! e_info e = Some i ∧
         NoAuth i = true ∧ HideDoc i = true.

(** [r'] is [r] with hidden pages added. *)
Record extends (r r' : Router St) : Prop := mkExtends {
  ext_entries : ∃ es, entries r' = entries r ++ es;
  ext_infos : ∃ js, infos r' = infos r ++ js ∧ Forall (λ i, HideDoc i = true ∧ NoAuth i = true) js;
  ext_Routes : ∃ ps, Routes r' = Routes r ++ ps ∧ Forall (λ p, length (infos r) ≤ p < length (infos r')) ps;
  ext_middlewares : middlewares r' = middlewares r;
  ext_auth : authMiddleware r' = authMiddleware r;
  ext_built : built r' = built r;
  ext_flags : StrictSlash r' = StrictSlash r ∧ CaseSensitive r' = CaseSensitive r;
}.

(** Every route handle points into the store. *)
Definition routes_valid (r : Router St) : Prop := Forall (λ p, p < length (infos r)) (Routes r).

Lemma extends_refl r : extends r r.
Proof. split; eauto using app_nil_r; exists []; by rewrite app_nil_r. Qed.

Lemma extends_trans r1 r2 r3 : extends r1 r2 → extends r2 r3 → extends r1 r3.
Proof.
  intros [[e1 E1] (i1 & I1 & F1) (p1 & P1 & G1) M1 A1 B1 [S1 C1]]
         [[e2 E2] (i2 & I2 & F2) (p2 & P2 & G2) M2 A2 B2 [S2 C2]].
  split; try congruence; [..|by split; congruence].
  - exists (e1 ++ e2). by rewrite E2, E1, app_assoc.
  - exists (i1 ++ i2). rewrite I2, I1, app_assoc. split; [done|by apply Forall_app].
  - exists (p1 ++ p2). rewrite P2, P1, app_assoc. split; [done|]. apply Forall_app. split.
    + eapply Forall_impl; [exact G1|]. intros p [??]. rewrite I2, length_app. simpl in *. lia.
    + eapply Forall_impl; [exact G2|]. intros p [??]. rewrite I1, length_app in *. simpl in *. lia.
Qed.

Lemma hidden_page_spec path h (r : Router St) :
  extends r (hidden_page path h r) ∧ served (hidden_page path h r) path h.
Proof.
  unfold hidden_page, GET, addRoute. fold (slashed path).
  set (i := mkRouteInfo (B "GET") (slashed path) [] [] VNil VNil true true []).
  set (e := mkEntry (B "GET") (slashed path) (Some h) [] (length (infos r))).
  unfold Route_NoAuth, Route_HideDoc, upd_info, set_infos. cbn [infos entries Routes].
  assert (∀ (l : list RouteInfo) (j : RouteInfo) f g,
    alter f (length l) (alter g (length l) (l ++ [j])) = l ++ [f (g j)]) as Halt.
  { intros l j f g. induction l as [|x l IH]; [done|]. simpl. f_equal. apply IH. }
  rewrite Halt. fold i. split.
  - split; cbn [entries infos Routes middlewares authMiddleware built]; try done.
    + by eexists.
    + exists [i]. split; [done|]. by repeat constructor.
    + exists [length (infos r)]. split; [done|]. repeat constructor. rewrite length_app. simpl. lia.
  - exists e, i. cbn [entries infos]. split_and!; try done.
    + apply in_app_iff. right. by left.
    + change (e_info e) with (length (infos r)). by rewrite lookup_app_r, Nat.sub_diag by lia.
Qed.

Lemma served_extends r r' path h : extends r r' → served r path h → served r' path h.
Proof.
  intros [[es He] (js & Hj & _) _ _ _ _ _] (e & i & Hin & Hm & Hp & Hh & Hw & Hi & Hn & Hd).
  exists e, i. split_and!; try done.
  - rewrite He. apply in_app_iff. by left.
  - rewrite Hj. by apply lookup_app_l_Some.
Qed.

Lemma routes_valid_extends r r' : extends r r' → routes_valid r → routes_valid r'.
Proof.
  intros [_ (js & Hj & _) (ps & Hp & Hps) _ _ _ _] Hv. unfold routes_valid. rewrite Hp.
  apply Forall_app. split.
  - eapply Forall_impl; [exact Hv|]. intros p Hlt. rewrite Hj, length_app. simpl in *. lia.
  - eapply Forall_impl; [exact Hps|]. by intros p [_ ?].
Qed.

(** Hidden pages do not appear in the documentation: every page describes the routes
    that were there before the first one. *)
Lemma doc_routes_extends config r r' :
  extends r r' → routes_valid r → doc_routes reflect config r' = doc_routes reflect config r.
Proof.
  intros [_ (js & Hj & Hjs) (ps & Hp & Hps) _ _ _ _] Hv. unfold doc_routes. f_equal.
  unfold route_infos. rewrite Hp, omap_app, List.filter_app.
  assert (omap (λ p, infos r' !! p) (Routes r) = omap (λ p, infos r !! p) (Routes r)) as ->.
  { clear Hp. induction Hv as [|p l Hlt _ IH]; [done|]. cbn [omap list_omap].
    rewrite Hj, lookup_app_l by done. rewrite <- Hj. by rewrite IH. }
  assert (List.filter (doc_visible config) (omap (λ p, infos r' !! p) ps) = []) as ->; [|by rewrite app_nil_r].
  clear Hp. induction Hps as [|p l [Hge Hlt] _ IH]; [done|]. cbn [omap list_omap].
  match goal with |- context [match ?x with Some _ => _ | None => _ end] =>
    change x with (infos r' !! p); destruct (infos r' !! p) as [i|] eqn:Ei end; [|exact IH].
  cbn [List.filter].
  rewrite Hj, lookup_app_r in Ei by done.
  assert (HideDoc i = true) as Hh.
  { rewrite Forall_forall in Hjs. by apply Hjs; eapply list_elem_of_lookup_2. }
  unfold doc_visible at 1. rewrite Hh, andb_false_r. simpl. apply IH.
Qed.

Lemma registerSingleDoc_spec n config (r r' : Router St) :
  registerSingleDoc types reflect n config r = Some r' →
  extends r r' ∧ ∃ schema,
    GenerateSchema types n (docs_Title config) (docs_Desc config) (doc_routes reflect config r)
      (docs_Security config) = Some schema ∧
    served r' (json_path config) (page (B "application/json") schema) ∧
    served r' (docs_Path config)
      (page (B "text/html") (ScalarHTML (docs_PageTitle config) (json_path config)
                               (docs_DarkMode config) (docs_ScalarJSURL config))).
Proof.
  unfold registerSingleDoc.
  destruct (GenerateSchema _ _ _ _ _ _) as [schema|]; [|done]. cbn [mbind option_bind]. intros [= <-].
  destruct (hidden_page_spec (json_path config) (page (B "application/json") schema) r) as [H1 S1].
  match goal with |- extends r (hidden_page ?p ?h ?r1) ∧ _ =>
    destruct (hidden_page_spec p h r1) as [H2 S2] end.
  split; [by eapply extends_trans|]. exists schema. split_and!; [done| |done].
  by eapply served_extends.
Qed.

(** What the pages of one application are, over the routes [r]. *)
Definition documented_by (n : nat) (r r' : Router St) (config : DocsConfig) : Prop :=
  ∃ schema,
    GenerateSchema types n (docs_Title config) (docs_Desc config) (doc_routes reflect config r)
      (docs_Security config) = Some schema ∧
    served r' (json_path config) (page (B "application/json") schema) ∧
    served r' (docs_Path config)
      (page (B "text/html") (ScalarHTML (docs_PageTitle config) (json_path config)
                               (docs_DarkMode config) (docs_ScalarJSURL config))).

Lemma docs_loop_spec n i configs (r0 r r' : Router St) :
  extends r0 r → routes_valid r0 →
  loop (λ _ config r, registerSingleDoc types reflect n config r) i configs r = Some r' →
  extends r r' ∧ ∀ config, In config configs → documented_by n r0 r' config.
Proof.
  intros H0 Hv. revert i r H0. induction configs as [|c configs IH]; intros i r H0; simpl.
  { intros [= <-]. split; [apply extends_refl|done]. }
  destruct (registerSingleDoc types reflect n c r) as [r1|] eqn:E; [|done]. intros Hl.
  apply registerSingleDoc_spec in E as (H1 & schema & Hs & S1 & S2).
  destruct (IH (S i) r1) as [H2 Hrest]; [by eapply extends_trans|done|].
  split; [by eapply extends_trans|]. intros config [<-|Hin]; [|by apply Hrest].
  exists schema. rewrite (doc_routes_extends c _ _ H0) in Hs by done.
  split_and!; [done|by eapply served_extends..].
Qed.

Lemma registerFavicon_extends (a : @App F St R) :
  extends (app_Router a) (app_Router (registerFavicon a)).
Proof.
  unfold registerFavicon.
  match goal with |- context [GET _ (Some ?h) [] _] =>
    change (extends (app_Router a) (hidden_page (B "/favicon.ico") h (app_Router a))) end.
  apply hidden_page_spec.
Qed.
Lemma all_docs_favicon (a : @App F St R) : all_docs (registerFavicon a) = all_docs a.
Proof. reflexivity. Qed.

(** [prepare] adds hidden pages and builds the table. *)
Lemma prepare_spec n (a a' : @App F St R) :
  routes_valid (app_Router a) → prepare types reflect n a = Some (inr a') →
  built (app_Router a) = false →
  ∃ r', extends (app_Router a) r' ∧ app_Router a' = build r' ∧
        ∀ config, In config (all_docs a) → documented_by n (app_Router a) r' config.
Proof.
  intros Hv Hprep Hb. unfold prepare in Hprep. destruct (ValidateConfig a); [|done].
  unfold registerAllDocs in Hprep. rewrite all_docs_favicon in Hprep.
  destruct (loop _ 0 (all_docs a) _) as [r'|] eqn:El; [|done]. injection Hprep as <-.
  pose proof (registerFavicon_extends a) as Hfav.
  apply (docs_loop_spec n 0 _ (app_Router a)) in El as [Hext Hall]; [|done|done].
  pose proof (extends_trans _ _ _ Hfav Hext) as Hfull. exists r'. split_and!; [done| |done].
  cbn [app_Router set_Router]. unfold Build. by rewrite (ext_built _ _ Hfull), Hb.
Qed.

(** *** Where the pages are *)

Lemma hidden_page_entry path h (r : Router St) :
  ∃ e, entries (hidden_page path h r) = entries r ++ [e] ∧ e_method e = B "GET" ∧
       e_path e = slashed path ∧ e_handler e = Some h ∧ e_mws e = [] ∧
       info_NoAuth (hidden_page path h r) (e_info e) = true.
Proof.
  exists (mkEntry (B "GET") (slashed path) (Some h) [] (length (infos r))).
  split_and!; try done. unfold info_NoAuth, hidden_page, GET, addRoute, Route_NoAuth, Route_HideDoc, upd_info, set_infos.
  cbn [infos e_info]. rewrite list_lookup_alter_eq, list_lookup_alter_eq.
  rewrite lookup_app_r, Nat.sub_diag by lia. done.
Qed.

Lemma info_NoAuth_extends (r r' : Router St) p :
  extends r r' → info_NoAuth r p = true → info_NoAuth r' p = true.
Proof.
  intros [_ (js & Hj & _) _ _ _ _ _]. unfold info_NoAuth. destruct (infos r !! p) as [i|] eqn:E; [|done].
  intros Hi. by rewrite Hj, (lookup_app_l_Some _ _ _ _ E).
Qed.

(** The two entries of a page, in the order of registration. *)
Lemma registerSingleDoc_entries n config (r r' : Router St) schema :
  GenerateSchema types n (docs_Title config) (docs_Desc config) (doc_routes reflect config r)
    (docs_Security config) = Some schema →
  registerSingleDoc types reflect n config r = Some r' →
  ∃ e1 e2, entries r' = entries r ++ [e1; e2] ∧ e_path e2 = slashed (docs_Path config) ∧
    e_method e1 = B "GET" ∧ e_path e1 = slashed (json_path config) ∧
    e_handler e1 = Some (page (B "application/json") schema) ∧ e_mws e1 = [] ∧
    info_NoAuth r' (e_info e1) = true.
Proof.
  intros Hg. unfold registerSingleDoc. rewrite Hg. cbn [mbind option_bind]. intros [= <-].
  set (r1 := hidden_page (json_path config) _ r).
  destruct (hidden_page_entry (json_path config) (page (B "application/json") schema) r)
    as (e1 & He1 & Hm1 & Hp1 & Hh1 & Hw1 & Hn1). fold r1 in He1, Hn1.
  match goal with |- context [hidden_page (docs_Path config) ?h r1] =>
    destruct (hidden_page_entry (docs_Path config) h r1) as (e2 & He2 & _ & Hp2 & _);
    destruct (hidden_page_spec (docs_Path config) h r1) as [Hext _] end.
  exists e1, e2. split_and!; try done; [|by eapply info_NoAuth_extends].
  by rewrite He2, He1, <- app_assoc.
Qed.

(** The paths a list of pages takes. *)
Definition page_paths (configs : list DocsConfig) : list bytes :=
  mjoin ((λ c, [json_path c; docs_Path c]) <$> configs).

Lemma docs_loop_entries n i configs (r r' : Router St) :
  loop (λ _ config r, registerSingleDoc types reflect n config r) i configs r = Some r' →
  ∃ es, entries r' = entries r ++ es ∧ ∀ e, e ∈ es → ∃ path, path ∈ page_paths configs ∧ e_path e = slashed path.
Proof.
  revert i r. induction configs as [|c configs IH]; intros i r; simpl.
  { intros [= <-]. exists []. rewrite app_nil_r. split; [done|by intros ? ?%not_elem_of_nil]. }
  destruct (registerSingleDoc types reflect n c r) as [r1|] eqn:E; [|done]. intros Hl.
  destruct (IH (S i) r1 Hl) as (es & He & Hes).
  pose proof E as E'. apply registerSingleDoc_spec in E' as (_ & schema & Hg & _).
  destruct (registerSingleDoc_entries n c r r1 schema Hg E) as (e1 & e2 & He1 & Hp2 & _ & Hp1 & _).
  exists (e1 :: e2 :: es). rewrite He, He1, <- app_assoc. split; [done|].
  unfold page_paths. cbn [fmap list_fmap mjoin list_join app].
  intros e [->|[->|Hin]%elem_of_cons]%elem_of_cons.
  - exists (json_path c). split; [by left|done].
  - exists (docs_Path c). split; [right; by left|done].
  - destruct (Hes e Hin) as (path & Hpath & ?). exists path. split; [|done]. by do 2 right.
Qed.

Lemma loop_app {X Y} (f : nat → X → Y → option Y) i l1 l2 y :
  loop f i (l1 ++ l2) y = y' ← loop f i l1 y; loop f (i + length l1) l2 y'.
Proof.
  revert i y. induction l1 as [|x l1 IH]; intros i y; simpl; [by rewrite Nat.add_0_r|].
  destruct (f i x y); [|done]. by rewrite IH, <- Nat.add_succ_comm.
Qed.

(** The JSON page of a configuration among the entries of the prepared router. *)
Lemma prepare_json_entry n (a a' : @App F St R) l1 config l2 :
  routes_valid (app_Router a) → prepare types reflect n a = Some (inr a') →
  built (app_Router a) = false → all_docs a = l1 ++ config :: l2 →
  ∃ r' schema es1 e es2,
    extends (app_Router a) r' ∧ app_Router a' = build r' ∧
    GenerateSchema types n (docs_Title config) (docs_Desc config) (doc_routes reflect config (app_Router a))
      (docs_Security config) = Some schema ∧
    entries r' = es1 ++ e :: es2 ∧ e_method e = B "GET" ∧ e_path e = slashed (json_path config) ∧
    e_handler e = Some (page (B "application/json") schema) ∧ e_mws e = [] ∧
    info_NoAuth r' (e_info e) = true ∧
    ∀ e', e' ∈ es2 → ∃ path, path ∈ docs_Path config :: page_paths l2 ∧ e_path e' = slashed path.
Proof.
  intros Hv Hprep Hb Hdocs. unfold prepare in Hprep. destruct (ValidateConfig a); [|done].
  unfold registerAllDocs in Hprep. rewrite all_docs_favicon, Hdocs, loop_app in Hprep.
  set (r0 := app_Router (registerFavicon a)) in *. cbn [loop mbind option_bind] in Hprep.
  match type of Hprep with context [loop ?f 0 l1 r0] =>
    destruct (loop f 0 l1 r0) as [r1|] eqn:E1; cbn [mbind option_bind loop] in Hprep; [|done] end.
  destruct (registerSingleDoc types reflect n config r1) as [r2|] eqn:E2; [|done].
  match type of Hprep with context [loop ?f ?i l2 r2] =>
    destruct (loop f i l2 r2) as [r3|] eqn:E3; cbn [mbind option_bind] in Hprep; [|done] end. injection Hprep as <-.
  assert (extends (app_Router a) r0) as H0 by apply registerFavicon_extends.
  apply (docs_loop_spec n 0 _ (app_Router a)) in E1 as [H1 _]; [|done|done].
  pose proof (extends_trans _ _ _ H0 H1) as H01.
  pose proof E2 as E2'. apply registerSingleDoc_spec in E2' as (H2 & schema & Hg & _).
  destruct (registerSingleDoc_entries n config r1 r2 schema Hg E2)
    as (e1 & e2 & He2 & Hp2 & Hm1 & Hp1 & Hh1 & Hw1 & Hn1).
  destruct (docs_loop_entries _ _ _ _ _ E3) as (es & He3 & Hes).
  apply (docs_loop_spec n _ _ (app_Router a)) in E3 as [H3 _]; [|by eapply extends_trans|done].
  exists r3, schema, (entries r1), e1, (e2 :: es). split_and!; try done.
  - eapply extends_trans; [exact H01|]. by eapply extends_trans.
  - cbn [app_Router set_Router]. unfold Build.
    by rewrite (ext_built _ _ H3), (ext_built _ _ H2), (ext_built _ _ H01), Hb.
  - by rewrite <- (doc_routes_extends config _ _ H01).
  - by rewrite He3, He2, <- app_assoc.
  - by eapply info_NoAuth_extends.
  - intros e' [->|Hin]%elem_of_cons; [exists (docs_Path config); split; [constructor|done]|].
    destruct (Hes e' Hin) as (path & ? & ?). exists path. split; [by constructor|done].
Qed.

(** A page answers with its own bytes, whatever ran before it. *)
Lemma page_response ctype body s :
  ctype ≠ [] →
  ∃ s', page (St := St) ctype body s = (Ret None, s') ∧
    res_ContentType (ctx_Response (c_RequestCtx s'.1)) = ctype ∧
    res_Body (ctx_Response (c_RequestCtx s'.1)) = body ∧ s'.2 = s.2.
Proof.
  intros Hc. unfold page, mod_response, mod_RequestCtx, modify, mbind, M_bind, mret, M_ret.
  eexists. split; [reflexivity|]. cbn [fst snd upd_RequestCtx on_response c_RequestCtx ctx_Response].
  split_and!; [|apply body_set|done]. by rewrite ctype_SetBody, ctype_set.
Qed.

(** When an application starts, every documentation page it has is served: two hidden
    routes exempt from authentication, next to the application's own, which are left
    alone. The JSON page answers, whatever the request, a text that denotes the OpenAPI
    document of the application's visible routes, the same whichever other pages were
    registered before; the HTML page refers to it. *)
Theorem documentation_served n (a a' : @App F St R) config :
  safe_types types → is_number (fmt_g fzero) = true →
  routes_valid (app_Router a) →
  prepare types reflect n a = Some (inr a') → built (app_Router a) = false →
  In config (all_docs a) →
  json_safe (docs_Title config) = true → json_safe (docs_Desc config) = true →
  quoted (docs_Security config) → json_safe (docs_Security config) = true →
  Forall safe_route (doc_routes reflect config (app_Router a)) →
  (∃ es, entries (app_Router a') = entries (app_Router a) ++ es) ∧
  ∃ h doc,
    served (app_Router a') (json_path config) h ∧
    document types n (docs_Title config) (docs_Desc config)
      (doc_routes reflect config (app_Router a)) (docs_Security config) = Some doc ∧
    (∀ s, ∃ s', h s = (Ret None, s') ∧
       res_ContentType (ctx_Response (c_RequestCtx s'.1)) = B "application/json" ∧
       parse_json (res_Body (ctx_Response (c_RequestCtx s'.1))) = Some doc) ∧
    served (app_Router a') (docs_Path config)
      (page (B "text/html") (ScalarHTML (docs_PageTitle config) (json_path config)
                               (docs_DarkMode config) (docs_ScalarJSURL config))).
Proof.
  intros Ht Hz Hv Hprep Hb Hin Htitle Hdesc Hq Hs Hr.
  destruct (prepare_spec n a a' Hv Hprep Hb) as (r' & Hext & -> & Hall).
  destruct (Hall config Hin) as (schema & Hg & S1 & S2). split; [apply (ext_entries _ _ Hext)|].
  pose proof (GenerateSchema_denotes types Ht Hz n (docs_Title config) (docs_Desc config)
    (doc_routes reflect config (app_Router a)) (docs_Security config) Htitle Hdesc Hq Hs Hr) as Hd.
  rewrite Hg in Hd. destruct (document _ _ _ _ _ _) as [doc|] eqn:Edoc; [|done].
  injection Hd as Hd. exists (page (B "application/json") schema), doc. split_and!; [done|done| |done].
  intros s. destruct (page_response (B "application/json") schema s) as (s' & E & Hc & Hbody & _); [done|].
  exists s'. split_and!; [done|done|]. by rewrite Hbody.
Qed.
End docs_props.

(** ** Witness *)

Section witnesses.
Import Simple.
Local Existing Instances simple_http simple_laws.
Local Instance lib : JWTLib := SimpleJWT.lib [].
Local Instance world_clock : Clock Z := id.

(** [VOpaque 1] is the model of [Demo.user]. *)
Definition reflect (v : any) : model :=
  match v with VOpaque 1 => Some (3, Demo.user) | _ => None end.
Definition documented : @Config simple_http Z :=
  mkConfig (mkServerConfig (B "Seireitei") false 0 None [] false 0 0 0 0 [] [])
    (mkRoutingConfig false false) (mkDocsConfig true [] [] [] [] false [] [] None)
    (mkJWTConfig [] [] None) SecurityBearer.
Definition with_user : @App simple_http Z unit :=
  let a := mkApp (NewRouter false false)
             (mkConfig (Server_SetDefaults (Server documented)) (Routing documented)
                (docs_defaults (B "Seireitei") true (Docs documented)) (cfg_JWT documented)
                (cfg_Security documented)) [] [] [] None ∅ [] [] in
  let '(r, p) := GET (B "/users/:id") None [] (app_Router a) in
  set_Router (Route_ResponseModel (VOpaque 1) p r) a.
Definition main_doc : DocsConfig :=
  mkDocsConfig false (B "/docs") (B "Seireitei API Reference") [] (B "Seireitei API Reference")
    false [] SecurityBearer None.
Definition ready : @App simple_http Z unit :=
  match prepare Demo.types reflect 10 with_user with
  | Some (inr a) => a
  | _ => with_user
  end.

Lemma ready_prepared : prepare Demo.types reflect 10 with_user = Some (inr ready).
Proof.
  assert (match prepare Demo.types reflect 10 with_user with
          | Some (inr _) => true | _ => false end = true) as Hok by (vm_compute; reflexivity).
  unfold ready. by destruct (prepare _ _ _ _) as [[e|a]|].
Qed.

Lemma documentation_served_witness :
  ∃ h doc, served (app_Router ready) (B "/docs/openapi.json") h ∧
    (∀ s, ∃ s', h s = (Ret None, s') ∧
       parse_json (res_Body (ctx_Response (c_RequestCtx s'.1))) = Some doc).
Proof.
  destruct (documentation_served Demo.types reflect 10 with_user ready main_doc)
    as (_ & h & doc & H1 & _ & H2 & _).
  - exact Demo.types_safe.
  - reflexivity.
  - repeat constructor.
  - exact ready_prepared.
  - reflexivity.
  - by left.
  - reflexivity.
  - reflexivity.
  - reflexivity.
  - reflexivity.
  - repeat constructor.
  - exists h, doc. split; [exact H1|]. intros s. destruct (H2 s) as (s' & E & _ & Hp). by exists s'.
Defined.
End witnesses.
