(* ===== verification/Mount.v ===== *)
(** * Protocol servers on the application's port

    How the calls made on an application act on its router, whatever their order, and what
    a request gets that reaches a server mounted on it ([app.go], [protocol_middleware.go]
    and [router.go] together). *)

From S2P Require Import Prelude GoStrings Fold Node Pattern RouteTable Effects FastHTTP Core Router RouterTheory Literal Middleware Jwt Protocol Mcp Mqtt WebSocket GraphQL Grpc App AppProps OpenApi Quote Docs DocsProps.

(** ** How a router grows *)

Section growth.
Context `{F : FastHTTP} {St : Type}.
Implicit Types r : Router St.

(** [r'] is [r] with more routes: its flags are the same and it is as built as [r]. *)
Record grows r r' : Prop := mkGrows {
  gr_entries : ∃ es, entries r' = entries r ++ es;
  gr_flags : StrictSlash r' = StrictSlash r ∧ CaseSensitive r' = CaseSensitive r;
  gr_built : built r' = built r;
  gr_valid : routes_valid r → routes_valid r';
}.

Lemma grows_refl r : grows r r.
Proof. split; [exists []; by rewrite app_nil_r|done..]. Qed.
Lemma grows_trans r1 r2 r3 : grows r1 r2 → grows r2 r3 → grows r1 r3.
Proof.
  intros [[e1 E1] [S1 C1] B1 V1] [[e2 E2] [S2 C2] B2 V2].
  split; [|split; congruence|congruence|by auto]. exists (e1 ++ e2). by rewrite E2, E1, app_assoc.
Qed.
Lemma grows_same r r' :
  entries r' = entries r → StrictSlash r' = StrictSlash r → CaseSensitive r' = CaseSensitive r →
  built r' = built r → Routes r' = Routes r → length (infos r') = length (infos r) → grows r r'.
Proof.
  intros He Hs Hc Hb Hr Hi. split; [exists []; by rewrite app_nil_r|done|done|].
  unfold routes_valid. by rewrite Hr, Hi.
Qed.
Lemma grows_addRoute method path h m r : grows r (addRoute method path h m r).1.
Proof.
  split; [by eexists|done|done|]. unfold routes_valid, addRoute. cbn [fst Routes infos].
  intros Hv. rewrite length_app. simpl. apply Forall_app. split; [|repeat constructor; lia].
  eapply Forall_impl; [exact Hv|]. simpl. intros. lia.
Qed.
Lemma grows_upd_info f p r : grows r (upd_info f p r).
Proof. apply grows_same; try done. unfold upd_info, set_infos. simpl. apply length_alter. Qed.
Lemma grows_Routes_HideDoc ps r : grows r (Routes_HideDoc ps r).
Proof.
  unfold Routes_HideDoc, Routes_each. revert r. induction ps as [|p ps IH]; intros r; [apply grows_refl|].
  simpl. eapply grows_trans; [apply grows_upd_info|apply IH].
Qed.

Lemma add_methods_cons x ms path h m r :
  (add_methods (x :: ms) path h m r).1 = (add_methods ms path h m (addRoute x path h m r).1).1.
Proof.
  cbn [add_methods]. destruct (addRoute x path h m r) as [r1 p]. cbn [fst].
  by destruct (add_methods ms path h m r1).
Qed.

(** The entries [ANY] adds. *)
Lemma add_methods_spec ms path h m r :
  let r' := (add_methods ms path h m r).1 in
  grows r r' ∧ middlewares r' = middlewares r ∧
  ∃ es, entries r' = entries r ++ es ∧ e_method <$> es = ms ∧
    ∀ e, e ∈ es → e_path e = slashed path ∧ e_handler e = h ∧ e_mws e = m.
Proof.
  cbn zeta. revert r. induction ms as [|x ms IH]; intros r.
  { split_and!; [apply grows_refl|done|]. exists []. rewrite app_nil_r.
    split_and!; [done..|by intros ? ?%not_elem_of_nil]. }
  rewrite add_methods_cons. destruct (IH (addRoute x path h m r).1) as (Hg & Hm & es & He & Hms & Hes).
  split_and!; [by eapply grows_trans; [apply grows_addRoute|]|done|].
  exists (mkEntry x (slashed path) h m (length (infos r)) :: es). split_and!.
  - rewrite He. unfold addRoute. cbn [fst entries]. by rewrite <- app_assoc.
  - cbn [fmap list_fmap e_method]. by rewrite <- Hms.
  - intros e [->|He']%elem_of_cons; [done|by apply Hes].
Qed.

Lemma mount_at_spec h path r :
  grows r (mount_at h r path) ∧ middlewares (mount_at h r path) = middlewares r ∧
  ∃ es, entries (mount_at h r path) = entries r ++ es ∧ e_method <$> es = anyMethods ∧
    ∀ e, e ∈ es → e_path e = slashed path ∧ e_handler e = Some (lift h) ∧ e_mws e = [].
Proof.
  unfold mount_at, ANY. generalize anyMethods as ms. intros ms.
  destruct (add_methods_spec ms path (Some (lift h)) [] r) as (Hg & Hm & es & He & Hes).
  set (r1 := add_methods _ _ _ _ r) in *.
  assert (entries (Routes_HideDoc r1.2 r1.1) = entries r1.1) as Hsame
    by (unfold Routes_HideDoc, Routes_each; by apply (fold_left_same entries)).
  split_and!.
  - eapply grows_trans; [exact Hg|apply grows_Routes_HideDoc].
  - rewrite <- Hm. unfold Routes_HideDoc, Routes_each. by apply (fold_left_same middlewares).
  - exists es. by rewrite Hsame.
Qed.

Lemma lit_slashed path : lit path → lit (slashed path).
Proof.
  intros Hl. unfold slashed. destruct path as [|c q].
  - apply lit_cons. split; [done|apply lit_nil].
  - destruct (Ascii.eqb c "/"); [done|]. apply lit_cons. by split.
Qed.

(** What mounting a handler adds: entries that run it, one per path and method. *)
Lemma mounts_spec h paths r :
  grows r (fold_left (mount_at h) paths r) ∧
  middlewares (fold_left (mount_at h) paths r) = middlewares r ∧
  ∃ es, entries (fold_left (mount_at h) paths r) = entries r ++ es ∧
    (∀ e, e ∈ es → e_handler e = Some (lift h) ∧ e_mws e = [] ∧
       ∃ path, path ∈ paths ∧ e_path e = slashed path) ∧
    (∀ path m, path ∈ paths → m ∈ anyMethods → ∃ e, e ∈ es ∧ e_path e = slashed path ∧ e_method e = m).
Proof.
  generalize (mount_at_spec h) as Hat. generalize (mount_at h) as f. intros f Hat.
  revert r. induction paths as [|path paths IH]; intros r; cbn [fold_left].
  { split_and!; [apply grows_refl|done|]. exists []. rewrite app_nil_r.
    split_and!; [done|by intros ? ?%not_elem_of_nil|by intros ? ? ?%not_elem_of_nil]. }
  destruct (Hat path r) as (Hg1 & Hm1 & es1 & He1 & Hms1 & Hes1).
  destruct (IH (f r path)) as (Hg2 & Hm2 & es2 & He2 & Hall2 & Hex2).
  split_and!; [by eapply grows_trans|congruence|].
  exists (es1 ++ es2). rewrite He2, He1, app_assoc. split_and!; [done|..].
  - intros e [He|He]%elem_of_app.
    + destruct (Hes1 e He) as (? & ? & ?). split_and!; [done..|]. exists path. split; [constructor|done].
    + destruct (Hall2 e He) as (? & ? & path' & ? & ?). split_and!; [done..|].
      exists path'. split; [by constructor|done].
  - intros path' m [->|Hp]%elem_of_cons Hm.
    + rewrite <- Hms1 in Hm. apply list_elem_of_fmap in Hm as (e & -> & He).
      exists e. split_and!; [apply elem_of_app; by left|by apply Hes1|done].
    + destruct (Hex2 path' m Hp Hm) as (e & He & ?). exists e. split; [|done].
      apply elem_of_app. by right.
Qed.

(** The last element of a list that has a property. *)
Lemma last_such {A} (P : A → Prop) `{!∀ x, Decision (P x)} (l : list A) x :
  x ∈ l → P x → ∃ l1 y l2, l = l1 ++ y :: l2 ∧ P y ∧ ∀ z, z ∈ l2 → ¬ P z.
Proof.
  induction l as [|z l IH] using rev_ind; [by intros ?%not_elem_of_nil|]. intros Hin Hx.
  destruct (decide (P z)) as [Hz|Hz].
  { exists l, z, []. split_and!; [done..|by intros ? ?%not_elem_of_nil]. }
  apply elem_of_app in Hin as [Hin| ->%list_elem_of_singleton]; [|done].
  destruct (IH Hin Hx) as (l1 & y & l2 & -> & Hy & Hl2). exists l1, y, (l2 ++ [z]).
  split_and!; [by rewrite <- app_assoc|done|].
  intros w [Hw| ->%list_elem_of_singleton]%elem_of_app; [by apply Hl2|done].
Qed.
End growth.

(** ** How an application grows *)

Section app_growth.
Context `{F : FastHTTP} `{L : JWTLib} `{Cf : CaseFold} {St : Type} `{!Clock St}.
Context {Schema R Hd : Type} `{Lib : MQTTLib Hd}.
Local Abbreviation handler := (@handler Schema R Hd Lib).
Context `{!Has (list handler) St}.
Context (Upgrade : (RequestCtx → bool) → M (RequestCtx * St) bool)
        (executor : Schema → option Z → bool → RequestHandler St)
        (playground : bytes → RequestHandler St)
        (adapt : handler_ptr → RequestHandler St).
Local Abbreviation App := (@App F St R).
Local Abbreviation app_run := (app_run Upgrade executor playground adapt).
Local Abbreviation app_apply := (app_apply Upgrade executor playground adapt).
Local Abbreviation RegisterProtocol := (RegisterProtocol Upgrade executor playground adapt).
Local Abbreviation app_call := (@app_call F St R).

(** The middleware a call adds to every route, and to every protocol server. *)
Definition route_uses (c : app_call) : list (Middleware St) :=
  match c with CallUse m | CallUseAll m => m | _ => [] end.
Definition protocol_uses (c : app_call) : list (@ProtocolMiddleware F St) :=
  match c with
  | CallUseAll m => MiddlewareAsProtocol <$> m
  | CallUseProtocol m => m
  | CallUseUnified m => ToHTTP <$> m
  | _ => []
  end.

Lemma UseAll_middlewares m (a : App) :
  grows (app_Router a) (app_Router (UseAll m a)) ∧
  middlewares (app_Router (UseAll m a)) = middlewares (app_Router a) ++ m ∧
  protocolMiddlewares (UseAll m a) = protocolMiddlewares a ++ (MiddlewareAsProtocol <$> m) ∧
  app_Config (UseAll m a) = app_Config a.
Proof.
  unfold UseAll. change (middlewares (app_Router a) ++ m) with (middlewares (app_Router (app_Use m a))).
  change (protocolMiddlewares a) with (protocolMiddlewares (app_Use m a)).
  change (app_Config a) with (app_Config (app_Use m a)).
  assert (grows (app_Router a) (app_Router (app_Use m a))) as Hg by by apply grows_same.
  revert Hg. generalize (app_Use m a). clear.
  induction m as [|mw m IH]; intros b Hg; [by rewrite app_nil_r|]. cbn [fold_left fmap list_fmap].
  destruct (IH (UseProtocol [MiddlewareAsProtocol mw] b)) as (? & -> & -> & ->); [done|].
  split_and!; [done|done| |done]. simpl. by rewrite <- app_assoc.
Qed.

Lemma UseUnified_middlewares m (a : App) :
  app_Router (UseUnified m a) = app_Router a ∧ app_Config (UseUnified m a) = app_Config a ∧
  protocolMiddlewares (UseUnified m a) = protocolMiddlewares a ++ (ToHTTP <$> m).
Proof.
  unfold UseUnified. revert a. induction m as [|um m IH]; intros a; [by rewrite app_nil_r|].
  cbn [fold_left fmap list_fmap]. destruct (IH (UseGRPCStream [ToGRPCStream um] (UseGRPCUnary [ToGRPCUnary um]
    (UseProtocol [ToHTTP um] a)))) as (-> & -> & ->). simpl. by rewrite <- app_assoc.
Qed.

(** What registering a server does to the router. *)
Lemma Register_router p (a : App) st :
  app_Router (Register (Schema := Schema) (Lib := Lib) p a st) = app_Router a ∧
  protocolMiddlewares (Register (Schema := Schema) (Lib := Lib) p a st) = protocolMiddlewares a ∧
  app_Config (Register (Schema := Schema) (Lib := Lib) p a st) = app_Config a ∧
  jwtConfig (Register (Schema := Schema) (Lib := Lib) p a st) = jwtConfig a.
Proof. unfold Register. by destruct (deref p st). Qed.

Lemma RegisterProtocol_router p (a : App) st :
  let a' := (RegisterProtocol p a st).1 in
  grows (app_Router a) (app_Router a') ∧ middlewares (app_Router a') = middlewares (app_Router a) ∧
  protocolMiddlewares a' = protocolMiddlewares a ∧ app_Config a' = app_Config a.
Proof.
  unfold RegisterProtocol, registerProtocolHooks.
  destruct (Register_router p a st) as (Hr & Hp & Hc & _).
  match goal with |- context [deref p ?s] => destruct (deref p s) as [h|]; cbn [fst] end.
  2: { rewrite Hr, Hp, Hc. split_and!; try done. apply grows_refl. }
  destruct (EnablePortMultiplexing _); cbn [fst].
  2: { rewrite Hr, Hp, Hc. split_and!; try done. apply grows_refl. }
  destruct (mounted _ _ _ _ _ _ _) as [rh|]; cbn [set_Router app_Router protocolMiddlewares app_Config].
  2: { rewrite Hr, Hp, Hc. split_and!; try done. apply grows_refl. }
  rewrite Hr, Hp, Hc. unfold mount.
  destruct (mounts_spec rh (match GetPaths h with [] => [B "/*path"] | _ => GetPaths h end) (app_Router a))
    as (Hg & Hm & _).
  split_and!; [exact Hg|exact Hm|reflexivity..].
Qed.

Lemma SetJWTAuth_router cfg (a : App) (st : St) :
  grows (app_Router a) (app_Router (SetJWTAuth (Schema := Schema) (Lib := Lib) cfg a st).1) ∧
  middlewares (app_Router (SetJWTAuth (Schema := Schema) (Lib := Lib) cfg a st).1) = middlewares (app_Router a) ∧
  protocolMiddlewares (SetJWTAuth (Schema := Schema) (Lib := Lib) cfg a st).1 = protocolMiddlewares a ∧
  app_Config (SetJWTAuth (Schema := Schema) (Lib := Lib) cfg a st).1 = app_Config a.
Proof. unfold SetJWTAuth. cbn. split_and!; try done. by apply grows_same. Qed.

Lemma app_apply_router c x :
  grows (app_Router x.1) (app_Router (app_apply c x).1) ∧
  middlewares (app_Router (app_apply c x).1) = middlewares (app_Router x.1) ++ route_uses c ∧
  protocolMiddlewares (app_apply c x).1 = protocolMiddlewares x.1 ++ protocol_uses c ∧
  app_Config (app_apply c x).1 = app_Config x.1.
Proof.
  destruct c as [m|m|m|cfg|p|d|path|f|method path h m|f ptr|eh|m|i|i]; cbn [app_apply route_uses protocol_uses fst];
    rewrite ?app_nil_r.
  - split_and!; try done. by apply grows_same.
  - apply UseAll_middlewares.
  - split_and!; try done. apply grows_refl.
  - apply SetJWTAuth_router.
  - apply RegisterProtocol_router.
  - split_and!; try done. apply grows_refl.
  - unfold EnableHealthCheck, GET.
    match goal with |- context [addRoute ?m ?p ?h ?ms ?r] =>
      pose proof (grows_addRoute m p h ms r) as Hg; destruct (addRoute m p h ms r) as [r1 q] eqn:E end.
    unfold addRoute in E. injection E as <- <-. split_and!; try done.
    cbn [set_Router app_Router]. eapply grows_trans; [exact Hg|].
    eapply grows_trans; [apply grows_upd_info|apply grows_upd_info].
  - split_and!; try done. apply grows_refl.
  - split_and!; try done. apply (grows_addRoute method path h m).
  - split_and!; try done. apply grows_upd_info.
  - split_and!; try done. by apply grows_same.
  - destruct (UseUnified_middlewares m x.1) as (-> & -> & ->). split_and!; try done. apply grows_refl.
  - split_and!; try done. apply grows_refl.
  - split_and!; try done. apply grows_refl.
Qed.

Lemma app_run_router cs x :
  grows (app_Router x.1) (app_Router (app_run cs x).1) ∧
  middlewares (app_Router (app_run cs x).1) = middlewares (app_Router x.1) ++ mjoin (route_uses <$> cs) ∧
  protocolMiddlewares (app_run cs x).1 = protocolMiddlewares x.1 ++ mjoin (protocol_uses <$> cs) ∧
  app_Config (app_run cs x).1 = app_Config x.1.
Proof.
  revert x. induction cs as [|c cs IH]; intros x.
  { simpl. rewrite !app_nil_r. split_and!; try done. apply grows_refl. }
  destruct (app_apply_router c x) as (Hg & Hm & Hp & Hc).
  destruct (IH (app_apply c x)) as (Hg' & Hm' & Hp' & Hc').
  cbn [fmap list_fmap]. change (app_run (c :: cs) x) with (app_run cs (app_apply c x)).
  rewrite Hm', Hp', Hc', Hm, Hp, Hc, <- !app_assoc. split_and!; try done. by eapply grows_trans.
Qed.

Lemma New_router config (st : St) :
  let a := (New (Schema := Schema) (Lib := Lib) config st).1 in
  middlewares (app_Router a) = [Recover; SecurityHeaders] ∧
  protocolMiddlewares a = [MiddlewareAsProtocol Recover; MiddlewareAsProtocol SecurityHeaders] ∧
  built (app_Router a) = false ∧ routes_valid (app_Router a) ∧ entries (app_Router a) = [] ∧
  EnablePortMultiplexing (Server (app_Config a)) = EnablePortMultiplexing (Server config).
Proof.
  unfold New. cbn zeta. destruct (Secret _); split_and!; try done; by constructor.
Qed.


(** ** From the calls to the answer *)

Context `{U : Unicode} `{Fl : GoFloat} (types : tid → rtype) (reflect : any → model).
Local Abbreviation New := (New (Schema := Schema) (Lib := Lib)).

(** A prepared application serves its compiled table. *)
Lemma prepared_main_handler n (a a' : App) :
  routes_valid (app_Router a) → built (app_Router a) = false →
  prepare types reflect n a = Some (inr a') →
  ∃ r', extends (app_Router a) r' ∧ app_Router a' = build r' ∧
        ∀ s, main_handler a' s = panicGuard (dispatch (build r')) s.
Proof.
  intros Hv Hb Hp. destruct (prepare_spec types reflect n a a' Hv Hp Hb) as (r' & Hext & Hr & _).
  exists r'. split_and!; [done..|]. intros s. unfold main_handler. by rewrite Hr.
Qed.

(** The calls of an application's start: [cs1], the registration of the server at [p], then
    [cs2], and [prepare]. *)
Context (config : @Config F St) (st : St) (cs1 : list app_call) (p : handler_ptr) (cs2 : list app_call).
Let x1 := app_run cs1 (New config st).
Let x2 := RegisterProtocol p x1.1 x1.2.
Let x := app_run cs2 x2.

Lemma started_router :
  built (app_Router x.1) = false ∧ routes_valid (app_Router x.1) ∧
  middlewares (app_Router x.1) =
    [Recover; SecurityHeaders] ++ mjoin (route_uses <$> cs1) ++ mjoin (route_uses <$> cs2) ∧
  authMiddleware (app_Router x.1) = JWT <$> last_jwt (cs1 ++ CallRegister p :: cs2) (initial_jwt config) ∧
  grows (app_Router x2.1) (app_Router x.1).
Proof.
  destruct (New_router config st) as (Hm0 & _ & Hb0 & Hv0 & _).
  destruct (app_run_router cs1 (New config st)) as (Hg1 & Hm1 & _).
  destruct (RegisterProtocol_router p x1.1 x1.2) as (Hg2 & Hm2 & _).
  destruct (app_run_router cs2 x2) as (Hg3 & Hm3 & _). fold x1 in Hg1, Hm1. fold x2 in Hg2, Hm2. fold x in Hg3, Hm3.
  split_and!.
  - by rewrite (gr_built _ _ Hg3), (gr_built _ _ Hg2), (gr_built _ _ Hg1).
  - by apply (gr_valid _ _ Hg3), (gr_valid _ _ Hg2), (gr_valid _ _ Hg1).
  - by rewrite Hm3, Hm2, Hm1, Hm0.
  - pose proof (configured_run Upgrade executor playground adapt (cs1 ++ CallRegister p :: cs2) _ _
      (New_configured (Schema := Schema) (Lib := Lib) config st)) as (_ & Ha & _).
    rewrite <- Ha. unfold AppProps.app_run. by rewrite fold_left_app.
  - done.
Qed.

(** The paths a server is mounted at. *)
Definition mount_paths (h : handler) : list bytes :=
  match GetPaths h with [] => [B "/*path"] | _ => GetPaths h end.

(** The server as its handler is taken: with the credentials of the moment. *)
Definition credited : St :=
  match jwtConfig x1.1 with
  | Some cfg => update p (apply_auth (Secret cfg) (TokenLookup cfg)) x1.2
  | None => x1.2
  end.

(** The entries of a mounted server. *)
Lemma registered_entries h rh :
  EnablePortMultiplexing (Server config) = true → deref p credited = Some h →
  mounted Upgrade executor playground adapt p (Register (Schema := Schema) (Lib := Lib) p x1.1 x1.2) h = Some rh →
  ∃ es, entries (app_Router x2.1) = entries (app_Router x1.1) ++ es ∧
    (∀ e, e ∈ es → e_handler e = Some (lift rh) ∧ e_mws e = [] ∧
       ∃ path, path ∈ mount_paths h ∧ e_path e = slashed path) ∧
    (∀ path m, path ∈ mount_paths h → m ∈ anyMethods → ∃ e, e ∈ es ∧ e_path e = slashed path ∧ e_method e = m).
Proof.
  intros Hmux Hp Hmt. unfold x2, RegisterProtocol, registerProtocolHooks. unfold credited in Hp.
  destruct (Register_router p x1.1 x1.2) as (Hr & _ & Hc & Hj). rewrite Hj, Hp, Hc.
  destruct (app_run_router cs1 (New config st)) as (_ & _ & _ & Hcfg). fold x1 in Hcfg. rewrite Hcfg.
  destruct (New_router config st) as (_ & _ & _ & _ & _ & ->). rewrite Hmux, Hmt. cbn [fst set_Router app_Router].
  rewrite Hr. unfold mount.
  destruct (mounts_spec rh (mount_paths h) (app_Router x1.1)) as (_ & _ & Hes). exact Hes.
Qed.

(** A mounted handler behind the application's middleware. *)
Definition mounted_chain (rh : RequestHandler St) : Handler St :=
  apply_chain (middlewares (app_Router x.1))
    (apply_chain (match last_jwt (cs1 ++ CallRegister p :: cs2) (initial_jwt config) with
                  | Some cfg => [JWT cfg] | None => [] end)
       (Some (lift rh))).

Lemma mounted_chain_some rh : ∃ hd, mounted_chain rh = Some hd.
Proof.
  unfold mounted_chain. destruct started_router as (_ & _ & -> & _). by eexists.
Qed.

(** The routes of a prepared application: those registered before the server, the server's,
    those registered after. *)
Lemma mounted_entries n (a' : App) h rh :
  EnablePortMultiplexing (Server config) = true → deref p credited = Some h →
  mounted Upgrade executor playground adapt p (Register (Schema := Schema) (Lib := Lib) p x1.1 x1.2) h = Some rh →
  prepare types reflect n x.1 = Some (inr a') →
  ∃ r' es es',
    app_Router a' = build r' ∧ (∀ s, main_handler a' s = panicGuard (dispatch (build r')) s) ∧
    entries r' = entries (app_Router x1.1) ++ es ++ es' ∧
    entries (app_Router x2.1) = entries (app_Router x1.1) ++ es ∧
    (∀ path m, path ∈ mount_paths h → m ∈ anyMethods → ∃ e, e ∈ es ∧ e_path e = slashed path ∧ e_method e = m) ∧
    ∀ e, e ∈ es → (∃ path, path ∈ mount_paths h ∧ e_path e = slashed path) ∧
      (info_NoAuth r' (e_info e) = false → compiled r' e = mounted_chain rh).
Proof.
  intros Hmux Hp Hmt Hprep.
  destruct started_router as (Hb & Hv & Hmw & Hau & Hg).
  destruct (prepared_main_handler n x.1 a' Hv Hb Hprep) as (r' & Hext & Hr' & Hmain).
  destruct (registered_entries h rh Hmux Hp Hmt) as (es & He & Hall & Hex).
  destruct (gr_entries _ _ Hg) as [es2 He2]. destruct (ext_entries _ _ Hext) as [es3 He3].
  exists r', es, (es2 ++ es3). split_and!; try done.
  { by rewrite He3, He2, He, <- !app_assoc. }
  intros e Hin. destruct (Hall e Hin) as (Hh & Hws & Hpath). split; [done|]. intros Hna.
  unfold compiled, entry_chain, mounted_chain.
  rewrite (ext_middlewares _ _ Hext), (ext_auth _ _ Hext), Hau, Hws, Hh, app_nil_r, Hna.
  destruct (last_jwt _ _); simpl; [|done]. unfold apply_chain. by rewrite fold_right_app.
Qed.

(** What a prepared application answers on a path of a mounted server, when no route was
    registered on that path later: the handler of the server behind the application's
    middleware. *)
Lemma mounted_reply n (a' : App) h rh path :
  EnablePortMultiplexing (Server config) = true → deref p credited = Some h →
  mounted Upgrade executor playground adapt p (Register (Schema := Schema) (Lib := Lib) p x1.1 x1.2) h = Some rh →
  Forall lit (GetPaths h) → path ∈ GetPaths h →
  prepare types reflect n x.1 = Some (inr a') →
  (∀ e, e ∈ drop (length (entries (app_Router x2.1))) (entries (app_Router a')) →
        route_key (app_Router a') (e_path e) ≠ route_key (app_Router a') (slashed path)) →
  (∀ e, e ∈ entries (app_Router a') → route_key (app_Router a') (e_path e) = route_key (app_Router a') (slashed path) →
        info_NoAuth (app_Router a') (e_info e) = false) →
  ∀ s, ctx_Method s.1 ∈ anyMethods →
    route_key (app_Router a') (ctx_Path s.1) = route_key (app_Router a') (slashed path) →
    main_handler a' s = panicGuard (run (app_Router a') (mounted_chain rh) None []) s.
Proof.
  intros Hmux Hp Hmt Hlit Hpath Hprep Hlater Hexempt s Hm Hs.
  destruct (mounted_entries n a' h rh Hmux Hp Hmt Hprep) as (r' & es & es' & Hr' & Hmain & Her & He2 & Hex & Hall).
  assert (mount_paths h = GetPaths h) as Hmp
    by (unfold mount_paths; destruct (GetPaths h); [by apply not_elem_of_nil in Hpath|done]).
  rewrite Hmp in Hall, Hex. rewrite Hr' in *. change (entries (build r')) with (entries r') in *.
  change (route_key (build r')) with (route_key r') in *.
  change (info_NoAuth (build r')) with (info_NoAuth r') in *.
  rewrite He2, Her, app_assoc, drop_app_length in Hlater. rewrite Her in Hexempt.
  destruct (Hex path (ctx_Method s.1) Hpath Hm) as (e0 & He0 & Hp0 & Hm0).
  destruct (last_such (λ e, e_method e = ctx_Method s.1 ∧ route_key r' (e_path e) = route_key r' (slashed path))
              es e0 He0) as (l1 & e & l2 & Hes & [Hme Hke] & Hl2); [split; congruence|].
  assert (e ∈ es) as Hin by (rewrite Hes; apply elem_of_app; right; constructor).
  destruct (Hall e Hin) as ((path' & Hpath' & Hpe) & Hcomp).
  rewrite Hexempt in Hcomp by (done || (apply elem_of_app; right; apply elem_of_app; by left)).
  rewrite Hmain. unfold panicGuard, recovering. destruct (mounted_chain_some rh) as [hd Hhd].
  rewrite (literal_dispatch r' (entries (app_Router x1.1) ++ l1) e (l2 ++ es') s hd).
  - by rewrite Hhd.
  - by rewrite Her, Hes, <- !app_assoc.
  - rewrite Hpe. rewrite Forall_forall in Hlit. by apply lit_slashed, Hlit.
  - intros e' [He'|He']%elem_of_app Hme'; [|rewrite Hke; by apply Hlater].
    intros Hk. apply (Hl2 e' He'). split; congruence.
  - done.
  - congruence.
  - rewrite <- Hhd. by apply Hcomp.
Qed.

(** The route of a server without paths of its own. *)
Lemma catch_all_pattern (r : Router St) e : e_path e = B "/*path" → route_pattern r e = [TCatch (B "path")].
Proof.
  intros He. unfold route_pattern, matchPath. rewrite He. cbn [last length Nat.ltb]. rewrite andb_false_r.
  reflexivity.
Qed.

(** Such a server is behind everything: it answers the requests no other route does, the
    root path apart. *)
Lemma mounted_fallback n (a' : App) h rh :
  EnablePortMultiplexing (Server config) = true → deref p credited = Some h →
  mounted Upgrade executor playground adapt p (Register (Schema := Schema) (Lib := Lib) p x1.1 x1.2) h = Some rh →
  GetPaths h = [] → prepare types reflect n x.1 = Some (inr a') →
  (∀ e, e ∈ entries (app_Router a') → e_path e = B "/*path" → info_NoAuth (app_Router a') (e_info e) = false) →
  ∀ s, ctx_Method s.1 ∈ anyMethods → request_path (app_Router a') s ≠ B "/" →
    (∀ e, e ∈ take (length (entries (app_Router x1.1))) (entries (app_Router a')) ++
              drop (length (entries (app_Router x2.1))) (entries (app_Router a')) →
       e_method e = ctx_Method s.1 →
       path_match (app_Router a') (route_pattern (app_Router a') e) (request_path (app_Router a') s) = None) →
    ∃ ps, main_handler a' s = panicGuard (run (app_Router a') (mounted_chain rh) ps []) s.
Proof.
  intros Hmux Hp Hmt Hnone Hprep Hexempt s Hm Hroot Hothers.
  destruct (mounted_entries n a' h rh Hmux Hp Hmt Hprep) as (r' & es & es' & Hr' & Hmain & Her & He2 & Hex & Hall).
  assert (mount_paths h = [B "/*path"]) as Hmp by (unfold mount_paths; by rewrite Hnone).
  rewrite Hmp in Hall, Hex. rewrite Hr' in *. change (entries (build r')) with (entries r') in *.
  change (info_NoAuth (build r')) with (info_NoAuth r') in *.
  change (request_path (build r')) with (request_path r') in *.
  change (route_pattern (build r')) with (route_pattern r') in *.
  change (path_match (build r')) with (path_match r') in *.
  rewrite He2, Her, take_app_length, app_assoc, drop_app_length in Hothers. rewrite Her in Hexempt.
  assert (∀ e, e ∈ es → route_pattern r' e = [TCatch (B "path")]) as Hpat.
  { intros e Hin. apply catch_all_pattern.
    destruct (Hall e Hin) as ((path & ->%list_elem_of_singleton & ->) & _). reflexivity. }
  destruct (Hex (B "/*path") (ctx_Method s.1)) as (e0 & He0 & _ & Hm0); [constructor|done|].
  destruct (last_such (λ e, e_method e = ctx_Method s.1) es e0 He0 Hm0) as (l1 & e & l2 & Hes & Hme & Hl2).
  assert (e ∈ es) as Hin by (rewrite Hes; apply elem_of_app; right; constructor).
  destruct (Hall e Hin) as ((path & ->%list_elem_of_singleton & Hpe) & Hcomp).
  rewrite Hexempt in Hcomp by (done || (apply elem_of_app; right; apply elem_of_app; by left)).
  destruct (mounted_chain_some rh) as [hd Hhd].
  assert (path_match r' [TCatch (B "path")] (request_path r' s) ≠ None) as Hmatch
    by (unfold path_match; by rewrite (proj2 (beqb_neq _ _) Hroot)).
  destruct (sole_dispatch r' (entries (app_Router x1.1) ++ l1) e (l2 ++ es') hd s) as [ps Hdisp].
  - by rewrite Her, Hes, <- !app_assoc.
  - rewrite <- Hhd. by apply Hcomp.
  - done.
  - by rewrite Hpat.
  - intros e' [He'|He']%elem_of_app Hme'; [by destruct (Hl2 e' He'); congruence|].
    rewrite (Hpat e) by done. intros Hn.
    assert (path_match r' (route_pattern r' e') (request_path r' s) = None) as Hno.
    { apply Hothers; [apply elem_of_app; by right|congruence]. }
    revert Hno. by eapply path_match_norm; [symmetry; exact Hn|].
  - intros e' He' Hme' Hm'. rewrite Her in He'.
    apply elem_of_app in He' as [He'|[He'|He']%elem_of_app].
    + destruct Hm'. apply Hothers; [apply elem_of_app; by left|congruence].
    + by rewrite !Hpat.
    + destruct Hm'. apply Hothers; [apply elem_of_app; by right|congruence].
  - exists ps. rewrite Hmain. unfold panicGuard, recovering. by rewrite Hdisp, Hhd.
Qed.
End app_growth.
