(* ===== verification/MountProps.v ===== *)
(** * Properties of the application's port

    What a client gets that connects to the port of an application: from the calls that
    configured it, through [prepare] and the router, to the answer of a mounted server or
    of a documentation page; and what the servers with a port of their own serve. *)

From S2P Require Import Prelude GoStrings Fold Node Pattern RouteTable Effects FastHTTP Core Router RouterTheory Literal Middleware Jwt Protocol Mcp Mqtt WebSocket GraphQL Grpc App AppProps Quote Json OpenApi OpenApiTheory OpenApiDoc OpenApiProps Docs DocsProps Mount.

Section mounted.
Context `{F : FastHTTP} `{!FastHTTPLaws F} `{L : JWTLib} `{!JWTLaws L} `{Cf : CaseFold} {St : Type} `{!Clock St}.
Context {Schema R Hd : Type} `{Lib : MQTTLib Hd}.
Local Abbreviation handler := (@handler Schema R Hd Lib).
Context `{!Has (list handler) St}.
Context (Upgrade : (RequestCtx → bool) → M (RequestCtx * St) bool)
        (executor : Schema → option Z → bool → RequestHandler St)
        (playground : bytes → RequestHandler St)
        (adapt : handler_ptr → RequestHandler St).
Context `{U : Unicode} `{Fl : GoFloat} (types : tid → rtype) (reflect : any → model).
Local Abbreviation app_run := (app_run Upgrade executor playground adapt).
Local Abbreviation RegisterProtocol := (RegisterProtocol Upgrade executor playground adapt).
Local Abbreviation New := (New (Schema := Schema) (Lib := Lib)).

(** A request as the application's own middleware hands it on. *)
Definition secured_request (s : RequestCtx * St) : RequestCtx * St :=
  (on_response (λ r, fold_left (λ r kv, res_Set kv.1 kv.2 r) security_headers r) s.1, s.2).

Lemma secured_request_token t l k (s : RequestCtx * St) :
  carries_token t l k (secured_request s).1 ↔ carries_token t l k s.1.
Proof.
  unfold carries_token.
  by rewrite (ExtractToken_request (fresh_ctx (secured_request s).1) (fresh_ctx s.1)) by done.
Qed.

(** The chain in front of a mounted handler lets a request with a token through. *)
Lemma guarded_lift (cfg : JWTConfig St) (r : Router St) (rh : RequestHandler St) ps s s' :
  carries_token (now s.2) (jwt_lookup cfg) (Secret cfg) s.1 →
  rh (secured_request s) = (Ret tt, s') →
  run r (apply_chain [Recover; SecurityHeaders; JWT cfg] (Some (lift rh))) ps [] s = (Ret tt, s').
Proof.
  intros Hc Hrh.
  destruct (guarded_admit cfg r (Some (lift rh)) ps s
    (λ c, (upd_RequestCtx (λ _, s'.1) (SetJWT (Some c) (secured (mkCtx _ s.1 ps None None None, s.2)).1), s'.2)) Hc)
    as [c ->]; [|by destruct s'].
  intros c. cbn [call]. unfold lift. cbn [fst snd].
  change (c_RequestCtx (SetJWT (Some c) (secured (mkCtx _ s.1 ps None None None, s.2)).1), s.2)
    with (secured_request s).
  rewrite Hrh. by destruct s'.
Qed.

Lemma jwt_lookup_colon (cfg : JWTConfig St) :
  Contains (TokenLookup cfg) (B ":") = true → jwt_lookup cfg = TokenLookup cfg.
Proof.
  intros Hc. unfold jwt_lookup. destruct (TokenLookup cfg) as [|x l] eqn:E; [done|]. by rewrite Hc.
Qed.

Lemma panicGuard_ret (next : RequestHandler St) s s' : next s = (Ret tt, s') → panicGuard next s = (Ret tt, s').
Proof. intros Hn. unfold panicGuard, recovering. by rewrite Hn. Qed.

(** A WebSocket server mounted and not started: what its handler does to a request with a
    token, and to one without. *)
Lemma mounted_ws_full live_ws (w : WebSocketServer) (s : RequestCtx * St) :
  live_ws s.2 = w → ws_isRunning w = false → checkAuth (now s.2) w s.1 = true →
  (ws_MaxConnections (ws_config w) ≤ Z.of_nat (size (connections w)))%Z →
  (ws_handleRequest Upgrade live_ws;; mret tt) s =
  (Ret tt, (on_response (res_Error (B "Too Many Connections") 503) s.1, s.2)).
Proof.
  intros Hw Hr Ha Hf. unfold ws_handleRequest, gets, mbind, M_bind. cbn [fst snd]. rewrite Hw, Hr, Ha.
  unfold atCapacity. cbn [andb negb]. by rewrite (proj2 (Z.leb_le _ _) Hf).
Qed.
Lemma mounted_ws_upgrade live_ws (w : WebSocketServer) (s : RequestCtx * St) b s' :
  live_ws s.2 = w → ws_isRunning w = false → checkAuth (now s.2) w s.1 = true →
  (Z.of_nat (size (connections w)) < ws_MaxConnections (ws_config w))%Z →
  Upgrade (checkOrigin w) s = (Ret b, s') →
  (ws_handleRequest Upgrade live_ws;; mret tt) s = (Ret tt, s').
Proof.
  intros Hw Hr Ha Hf Hu. unfold ws_handleRequest, gets, mbind, M_bind. cbn [fst snd]. rewrite Hw, Hr, Ha.
  unfold atCapacity. cbn [andb negb]. rewrite (proj2 (Z.leb_gt _ _) Hf), Hu. done.
Qed.

Context (config : @Config F St) (st : St) (cs1 : list (@app_call F St R)) (p : handler_ptr)
        (cs2 : list (@app_call F St R)).
Let x1 := app_run cs1 (New config st).
Let x2 := RegisterProtocol p x1.1 x1.2.
Let x := app_run cs2 x2.
Let calls := cs1 ++ CallRegister p :: cs2.

(** The server at [p] still carries what the application was configured with last. *)
Lemma mounted_credentials cfg name h :
  last_jwt calls (initial_jwt config) = Some cfg →
  Registry x.1 !! name = Some p → deref p x.2 = Some h → carries (Secret cfg) (TokenLookup cfg) h.
Proof.
  intros Hj Hreg Hw.
  pose proof (configured_run Upgrade executor playground adapt calls _ _
    (New_configured (Schema := Schema) (Lib := Lib) config st)) as (_ & _ & Hc).
  assert (AppProps.app_run Upgrade executor playground adapt calls (New config st) = x) as Hx
    by (unfold calls, AppProps.app_run; by rewrite fold_left_app).
  rewrite Hx in Hc. destruct (Hc _ _ _ Hreg Hw) as [_ Hcar]. by apply Hcar.
Qed.

(** The chain of an application that added no middleware of its own. *)
Lemma plain_chain cfg rh :
  mjoin (route_uses <$> cs1) = [] → mjoin (route_uses <$> cs2) = [] →
  last_jwt calls (initial_jwt config) = Some cfg →
  mounted_chain (Lib := Lib) Upgrade executor playground adapt config st cs1 p cs2 rh =
  apply_chain [Recover; SecurityHeaders; JWT cfg] (Some (lift rh)).
Proof.
  intros Hu1 Hu2 Hj. unfold mounted_chain.
  destruct (started_router Upgrade executor playground adapt config st cs1 p cs2) as (_ & _ & Hmw & _).
  rewrite Hmw, Hu1, Hu2. fold calls. by rewrite Hj.
Qed.

(** A request the authentication refuses never reaches the handler behind it. *)
Lemma guarded_refused cfg (r : Router St) rh ps s :
  jwt_ErrorHandler cfg = None → ¬ carries_token (now s.2) (jwt_lookup cfg) (Secret cfg) s.1 →
  let out := panicGuard (run r (apply_chain [Recover; SecurityHeaders; JWT cfg] (Some (lift rh))) ps []) s in
  out.1 = Ret tt ∧ out.2.2 = s.2 ∧ res_StatusCode (ctx_Response out.2.1) = 401%Z.
Proof.
  intros Heh Hno out.
  destruct (guarded_reject cfg r ps s Heh Hno) as (reply & Hr & H1 & H2 & H3 & _).
  assert (reply = (Ret tt, reply.2)) as Hre by (destruct reply; simpl in *; by subst).
  unfold out. by rewrite (panicGuard_ret _ s reply.2) by (by rewrite Hr, <- Hre).
Qed.

(** C7 A WebSocket handshake through the port of a protected application with port
    multiplexing: from the calls that configured the application, in any order around the
    registration of the server, to the answer. The application adds no middleware of its own
    to its routes, keeps the default [ErrorHandler] and has a colon in its [TokenLookup]; the
    server was not registered before and is not started on a port of its own as well, and its
    path is literal, not marked [NoAuth], and not taken by a route or a page registered after
    it. Without a token the last secret vouches
    for (signed under it, not expired, its [nbf] date come), the handshake is refused by the
    router with 401, the shared state untouched; with one, it gets 503 when the server is
    full and is otherwise handed to the upgrader, with the security headers set and the
    server's own origin check, and the upgrader's answer is the application's. *)
Theorem mounted_websocket n a' cfg w w0 conns s :
  EnablePortMultiplexing (Server config) = true →
  deref p x1.2 = Some (HWebSocket w) → ws_outerMW w = false → lit (ws_Path (ws_config w)) →
  mjoin (route_uses <$> cs1) = [] → mjoin (route_uses <$> cs2) = [] →
  last_jwt calls (initial_jwt config) = Some cfg → Secret cfg ≠ [] →
  jwt_ErrorHandler cfg = None → Contains (TokenLookup cfg) (B ":") = true →
  prepare types reflect n x.1 = Some (inr a') →
  (∀ e, e ∈ drop (length (entries (app_Router x2.1))) (entries (app_Router a')) →
        route_key (app_Router a') (e_path e) ≠ route_key (app_Router a') (slashed (ws_Path (ws_config w)))) →
  (∀ e, e ∈ entries (app_Router a') →
        route_key (app_Router a') (e_path e) = route_key (app_Router a') (slashed (ws_Path (ws_config w))) →
        info_NoAuth (app_Router a') (e_info e) = false) →
  Registry x.1 !! B "websocket" = Some p → deref p x.2 = Some (HWebSocket w0) → ws_isRunning w0 = false →
  ctx_Method s.1 ∈ anyMethods →
  route_key (app_Router a') (ctx_Path s.1) = route_key (app_Router a') (slashed (ws_Path (ws_config w))) →
  deref p s.2 = Some (HWebSocket (set_connections conns w0)) →
  let out := main_handler a' s in
  let vouched := carries_token (now s.2) (TokenLookup cfg) (Secret cfg) s.1 in
  let full := (ws_MaxConnections (ws_config w0) ≤ Z.of_nat (size conns))%Z in
  (¬ vouched → out.1 = Ret tt ∧ out.2.2 = s.2 ∧ res_StatusCode (ctx_Response out.2.1) = 401%Z) ∧
  (vouched → full → out.1 = Ret tt ∧ out.2.2 = s.2 ∧ res_StatusCode (ctx_Response out.2.1) = 503%Z) ∧
  (vouched → ¬ full → ∀ b s', Upgrade (checkOrigin w0) (secured_request s) = (Ret b, s') → out = (Ret tt, s')).
Proof.
  intros Hmux Hp1 Ho Hlit Hu1 Hu2 Hj Hsec Heh Hcol Hprep Hlater Hexempt Hreg Hw0 Hrun Hm Hs Hlive out vouched full.
  destruct (mounted_credentials cfg _ _ Hj Hreg Hw0) as [Hsw Hlw]. simpl in Hsw, Hlw.
  set (rh := (ws_handleRequest Upgrade (live_ws (Schema := Schema) (R := R) (Lib := Lib) p);; mret tt) : RequestHandler St).
  assert (∃ w1, deref p (match jwtConfig x1.1 with
             | Some cfg => update p (apply_auth (Secret cfg) (TokenLookup cfg)) x1.2
             | None => x1.2 end) = Some (HWebSocket w1) ∧
           ws_outerMW w1 = false ∧ ws_Path (ws_config w1) = ws_Path (ws_config w)) as (w1 & Hp2 & Ho1 & Hpath1).
  { destruct (jwtConfig x1.1) as [c|]; [|by exists w]. rewrite deref_update, decide_True, Hp1 by done.
    by eexists. }
  assert (out = panicGuard (run (app_Router a') (apply_chain [Recover; SecurityHeaders; JWT cfg] (Some (lift rh))) None []) s)
    as Hout.
  { unfold out. rewrite (mounted_reply Upgrade executor playground adapt types reflect config st cs1 p cs2
      n a' (HWebSocket w1) rh (ws_Path (ws_config w))); try done.
    - by rewrite (plain_chain cfg).
    - simpl. unfold ws_Handler. by rewrite Ho1.
    - simpl. unfold ws_GetPaths. rewrite Hpath1. by apply Forall_singleton.
    - simpl. unfold ws_GetPaths. rewrite Hpath1. constructor. }
  rewrite Hout. clear Hout out. rewrite <- (jwt_lookup_colon cfg Hcol) in Hlw.
  assert (vouched ↔ carries_token (now s.2) (jwt_lookup cfg) (Secret cfg) s.1) as Hv
    by (unfold vouched; by rewrite (jwt_lookup_colon cfg Hcol)).
  assert (live_ws (Schema := Schema) (R := R) (Lib := Lib) p (secured_request s).2 = set_connections conns w0) as Hl
    by (unfold live_ws; cbn [snd secured_request]; by rewrite Hlive).
  assert (vouched → checkAuth (now (secured_request s).2) (set_connections conns w0) (secured_request s).1 = true) as Hca.
  { intros Hvc. apply checkAuth_spec. right. simpl. rewrite Hsw, Hlw. split; [done|].
    apply (secured_request_token _ _ _ s). by apply Hv. }
  split_and!.
  - intros Hno. apply guarded_refused; [done|by rewrite <- Hv].
  - intros Hvc Hfull. rewrite (panicGuard_ret _ s (on_response (res_Error (B "Too Many Connections") 503) (secured_request s).1, s.2)).
    + split_and!; [done|done|]. simpl. by rewrite status_Error.
    + apply guarded_lift; [by apply Hv|].
      exact (mounted_ws_full _ (set_connections conns w0) (secured_request s) Hl Hrun (Hca Hvc) Hfull).
  - intros Hvc Hnf b s' Hup. apply panicGuard_ret, guarded_lift; [by apply Hv|].
    apply (mounted_ws_upgrade _ (set_connections conns w0) _ b s' Hl Hrun (Hca Hvc)); [|done].
    simpl. unfold full in Hnf. lia.
Qed.

(** The verdict of a ConnectRPC server is that of the default lookup. *)
Lemma connect_admits_carries t (c : ConnectServer) ctx :
  cs_secret c ≠ [] →
  connect_admits t (req_Peek (ctx_Request ctx) (B "Authorization")) c = true ↔
  carries_token t default_lookup (cs_secret c) ctx.
Proof.
  intros Hs. rewrite connect_admits_spec. unfold carries_token. setoid_rewrite <- ValidateJWT_inl.
  change (ExtractToken (fresh_ctx ctx) default_lookup)
    with (TrimSpace (TrimPrefix (req_Peek (ctx_Request ctx) (B "Authorization")) (B "Bearer "))).
  naive_solver.
Qed.

(** C8 A ConnectRPC server on the port of a protected application with port multiplexing is
    behind every other route. The application adds no middleware of its own to its routes,
    keeps the default [ErrorHandler] and exempts no route on ["/*path"] from authentication.
    The server then answers each request, of any method a route can have and on any path but
    the root, that no other route matches. Its services see a request exactly when it
    carries a valid token (signed under the last secret, not expired, its [nbf] date come)
    both where [TokenLookup] says and in the [Authorization] header, which is all the server
    itself looks at; every other request gets 401 and changes nothing. *)
Theorem mounted_connect n a' cfg c c0 s :
  EnablePortMultiplexing (Server config) = true → deref p x1.2 = Some (HConnect c) →
  mjoin (route_uses <$> cs1) = [] → mjoin (route_uses <$> cs2) = [] →
  last_jwt calls (initial_jwt config) = Some cfg → Secret cfg ≠ [] → jwt_ErrorHandler cfg = None →
  prepare types reflect n x.1 = Some (inr a') →
  (∀ e, e ∈ entries (app_Router a') → e_path e = B "/*path" → info_NoAuth (app_Router a') (e_info e) = false) →
  Registry x.1 !! B "connect" = Some p → deref p x.2 = Some (HConnect c0) →
  ctx_Method s.1 ∈ anyMethods → request_path (app_Router a') s ≠ B "/" →
  (∀ e, e ∈ take (length (entries (app_Router x1.1))) (entries (app_Router a')) ++
            drop (length (entries (app_Router x2.1))) (entries (app_Router a')) →
     e_method e = ctx_Method s.1 →
     path_match (app_Router a') (route_pattern (app_Router a') e) (request_path (app_Router a') s) = None) →
  deref p s.2 = Some (HConnect c0) →
  let out := main_handler a' s in
  let vouched := carries_token (now s.2) (jwt_lookup cfg) (Secret cfg) s.1 ∧
                 carries_token (now s.2) default_lookup (Secret cfg) s.1 in
  (¬ vouched → out.1 = Ret tt ∧ out.2.2 = s.2 ∧ res_StatusCode (ctx_Response out.2.1) = 401%Z) ∧
  (vouched → ∀ s', adapt p (secured_request s) = (Ret tt, s') → out = (Ret tt, s')).
Proof.
  intros Hmux Hp1 Hu1 Hu2 Hj Hsec Heh Hprep Hexempt Hreg Hc0 Hm Hroot Hothers Hlive out vouched.
  destruct (mounted_credentials cfg _ _ Hj Hreg Hc0) as [Hsc _]. simpl in Hsc.
  set (rh := cs_HTTPHandler (live_connect (Schema := Schema) (R := R) (Lib := Lib) p) (adapt p)).
  assert (∃ c1, deref p (credited (Lib := Lib) Upgrade executor playground adapt config st cs1 p) = Some (HConnect c1))
    as [c1 Hp2].
  { unfold credited. fold x1. destruct (jwtConfig x1.1) as [j|]; [|by exists c].
    rewrite deref_update, decide_True, Hp1 by done. by eexists. }
  destruct (mounted_fallback Upgrade executor playground adapt types reflect config st cs1 p cs2
    n a' (HConnect c1) rh Hmux Hp2 eq_refl eq_refl Hprep Hexempt s Hm Hroot Hothers) as [ps Hout].
  rewrite (plain_chain cfg rh Hu1 Hu2 Hj) in Hout. fold out in Hout. rewrite Hout.
  assert (∀ t, rh t = if connect_admits (now t.2) (req_Peek (ctx_Request t.1) (B "Authorization"))
                           (live_connect (Schema := Schema) (R := R) (Lib := Lib) p t.2)
                      then adapt p t else http_Error (Q "{'error':'unauthorized'}") 401 t) as Hrh
    by (intros t; apply cs_HTTPHandler_spec).
  specialize (Hrh (secured_request s)).
  assert (live_connect (Schema := Schema) (R := R) (Lib := Lib) p (secured_request s).2 = c0) as Hl
    by (unfold live_connect; cbn [snd secured_request]; by rewrite Hlive).
  rewrite Hl in Hrh. rewrite <- Hsc in Hsec.
  pose proof (connect_admits_carries (now s.2) c0 s.1 Hsec) as Hadm. rewrite Hsc in Hadm.
  change (now (secured_request s).2) with (now s.2) in Hrh.
  change (ctx_Request (secured_request s).1) with (ctx_Request s.1) in Hrh.
  clearbody rh. clear Hout. split.
  - intros Hno.
    destruct (decide (carries_token (now s.2) (jwt_lookup cfg) (Secret cfg) s.1)) as [Hc|Hc]; [|by apply guarded_refused].
    destruct (connect_admits _ _ _); [destruct Hno; split; [done|by apply Hadm]|].
    erewrite (panicGuard_ret _ s); [|by apply guarded_lift; [|exact Hrh]].
    split_and!; [done|done|]. unfold http_Error. simpl.
    by rewrite status_SetBody, status_set.
  - intros [Hc Hdef] s' Hs'. apply panicGuard_ret, guarded_lift; [done|].
    rewrite Hrh, (proj2 Hadm Hdef). exact Hs'.
Qed.
End mounted.

(** ** Servers with a port of their own *)

Section standalone.
Context `{F : FastHTTP} `{L : JWTLib} `{Cf : CaseFold} {St : Type} `{!Clock St}.
Context {Schema R Hd : Type} `{Lib : MQTTLib Hd}.
Local Abbreviation handler := (@handler Schema R Hd Lib).
Context `{!Has (list handler) St}.
Context (Upgrade : (RequestCtx → bool) → M (RequestCtx * St) bool)
        (executor : Schema → option Z → bool → RequestHandler St)
        (playground : bytes → RequestHandler St)
        (adapt : handler_ptr → RequestHandler St).
Local Abbreviation app_run := (app_run Upgrade executor playground adapt).
Local Abbreviation New := (New (Schema := Schema) (Lib := Lib)).

(** Behind [Recover], a protocol server answers every request, unless a goroutine that the
    handler started ended the process. *)
Lemma recovered_answers next (s : RequestCtx * St) :
  (∃ s', MiddlewareAsProtocol Recover next s = (Ret tt, s')) ∨
  (∃ v s', next s = (Crash v, s') ∧ MiddlewareAsProtocol Recover next s = (Crash v, s')).
Proof.
  unfold MiddlewareAsProtocol, on_fresh. cbn [Recover call].
  unfold recovering, JSON, WriteJSONError, Status, mod_response, mod_RequestCtx, modify, mbind, M_bind, mret, M_ret.
  cbn [fst snd]. unfold lift_kept. cbn [fresh_ctx c_outer fst snd]. unfold lift.
  destruct s as [x0 st0]. cbn [fst snd]. change (c_RequestCtx (fresh_ctx x0)) with x0.
  destruct (next (x0, st0)) as [[[]|v|v] [c st]]; cbn [fst snd no_error].
  - left. by eexists.
  - left. destruct (json_Encode _); [by eexists|]. destruct (json_Marshal _); by eexists.
  - right. by exists v, (c, st).
Qed.

(** C9 A WebSocket or GraphQL server that listens on a port of its own runs every request
    through the application's protocol middleware: [Recover], the security headers, and
    then what [UseProtocol], [UseAll] and [UseUnified] were given, in the order of the
    calls, whether before the server was registered or after. No panic on the goroutine of
    a request leaves the handler: it returns, whatever the server and the middleware do,
    unless a goroutine that one of them started, as [Timeout] does, panics and ends the
    process. What runs on a connection after it was upgraded is not part of the request. *)
Theorem standalone_servers config st cs name p ln cert l served :
  let x := app_run cs (New config st) in
  let chain := chainProtocolFastHTTP
    ([MiddlewareAsProtocol Recover; MiddlewareAsProtocol SecurityHeaders] ++ mjoin (protocol_uses <$> cs)) in
  let behind := chainProtocolFastHTTP ([MiddlewareAsProtocol SecurityHeaders] ++ mjoin (protocol_uses <$> cs)) in
  let answers rh := ∀ s, (∃ s', served s = (Ret tt, s')) ∨
                         (∃ v s', behind rh s = (Crash v, s') ∧ served s = (Crash v, s')) in
  Registry x.1 !! name = Some p →
  match deref p x.2 with
  | Some (HWebSocket w) =>
      (ws_Start Upgrade (live_ws (Schema := Schema) (R := R) (Lib := Lib) p) (wrapProtocolFastHTTP x.1) ln cert w).1
        = (None, Some (l, served)) →
      let rh := ws_handleRequest Upgrade (live_ws (Schema := Schema) (R := R) (Lib := Lib) p);; mret tt in
      served = chain rh ∧ answers rh
  | Some (HGraphQL g) =>
      (gql_Start Schema executor playground (wrapProtocolFastHTTP x.1)
         (live_gql (Schema := Schema) (R := R) (Lib := Lib) p) ln cert g).1 = (None, Some (l, served)) →
      let rh := gql_router Schema executor playground (live_gql (Schema := Schema) (R := R) (Lib := Lib) p) g in
      served = chain rh ∧ answers rh
  | _ => True
  end.
Proof.
  intros x chain behind answers Hreg.
  pose proof (hooked_run Upgrade executor playground adapt cs _ (New_hooked config st) name p) as Hhook.
  assert (∀ next, wrapProtocolFastHTTP x.1 next = chain next) as Hwrap.
  { intros next. unfold wrapProtocolFastHTTP, x.
    destruct (app_run_router Upgrade executor playground adapt cs (New config st)) as (_ & _ & -> & _).
    destruct (New_router (Schema := Schema) (Lib := Lib) config st) as (_ & -> & _). done. }
  assert (∀ rh, served = chain rh → answers rh) as Htotal
    by (intros rh -> s; apply (recovered_answers (behind rh) s)).
  fold x in Hhook. destruct (deref p x.2) as [h|]; [|done]. specialize (Hhook h Hreg eq_refl).
  destruct h as [| |w|g| | |]; try done; simpl in Hhook.
  - unfold ws_Start. rewrite Hhook, Hwrap. repeat case_match; intros [= <- Hs]; by split; [|apply Htotal].
  - unfold gql_Start. rewrite Hhook, Hwrap. repeat case_match; intros [= <- Hs]; by split; [|apply Htotal].
Qed.
End standalone.

(** ** Documentation *)

Section documentation.
Context `{F : FastHTTP} `{!FastHTTPLaws F} `{L : JWTLib} `{Cf : CaseFold} {St : Type} `{!Clock St}.
Context {Schema R Hd : Type} `{Lib : MQTTLib Hd}.
Local Abbreviation handler := (@handler Schema R Hd Lib).
Context `{!Has (list handler) St}.
Context (Upgrade : (RequestCtx → bool) → M (RequestCtx * St) bool)
        (executor : Schema → option Z → bool → RequestHandler St)
        (playground : bytes → RequestHandler St)
        (adapt : handler_ptr → RequestHandler St).
Context `{U : Unicode} `{Fl : GoFloat} (types : tid → rtype) (reflect : any → model).
Local Abbreviation app_run := (app_run Upgrade executor playground adapt).
Local Abbreviation New := (New (Schema := Schema) (Lib := Lib)).

(** What the application's own middleware makes of a page. *)
Lemma run_page ctype body (r : Router St) (s : RequestCtx * St) :
  run r (apply_chain [Recover; SecurityHeaders] (Some (page ctype body))) None [] s =
  (Ret tt, (on_response (λ x, res_SetBody body (res_SetContentType ctype x)) (secured_request s).1, s.2)).
Proof. reflexivity. Qed.

Lemma secured_status (s : RequestCtx * St) :
  res_StatusCode (ctx_Response (secured_request s).1) = res_StatusCode (ctx_Response s.1).
Proof. simpl. by rewrite !status_Set by reflexivity. Qed.

(** C31 The documentation of an application is what a client gets: for any application
    configured by any calls that add no middleware of their own, once it is prepared, a
    GET for the JSON page of one of its documentation sites, with or without a token, is
    answered with a text that denotes the OpenAPI document of the application's visible
    routes, as JSON and with the status it had. The routes of the application are still
    there, in order. The path of the page must be literal and no later page take it; the
    title, the description, the security scheme and the routes must be text the generator
    can write as JSON, and models likewise, as in [GenerateSchema_document]. *)
Theorem documentation_answered config st cs n a' l1 site l2 s :
  let x := app_run cs (New config st) in
  safe_types types → is_number (fmt_g fzero) = true →
  mjoin (route_uses <$> cs) = [] →
  prepare types reflect n x.1 = Some (inr a') → all_docs x.1 = l1 ++ site :: l2 →
  json_safe (docs_Title site) = true → json_safe (docs_Desc site) = true →
  quoted (docs_Security site) → json_safe (docs_Security site) = true →
  Forall safe_route (doc_routes reflect site (app_Router x.1)) →
  lit (json_path site) →
  (∀ path, path ∈ docs_Path site :: page_paths l2 →
     route_key (app_Router a') (slashed path) ≠ route_key (app_Router a') (slashed (json_path site))) →
  ctx_Method s.1 = B "GET" →
  route_key (app_Router a') (ctx_Path s.1) = route_key (app_Router a') (slashed (json_path site)) →
  (∃ es, entries (app_Router a') = entries (app_Router x.1) ++ es) ∧
  ∃ doc s',
    document types n (docs_Title site) (docs_Desc site) (doc_routes reflect site (app_Router x.1))
      (docs_Security site) = Some doc ∧
    main_handler a' s = (Ret tt, s') ∧ s'.2 = s.2 ∧
    res_StatusCode (ctx_Response s'.1) = res_StatusCode (ctx_Response s.1) ∧
    res_ContentType (ctx_Response s'.1) = B "application/json" ∧
    parse_json (res_Body (ctx_Response s'.1)) = Some doc.
Proof.
  intros x Ht Hz Hu Hprep Hdocs Htitle Hdesc Hq Hs Hr Hlit Hlater Hm Hk.
  destruct (app_run_router Upgrade executor playground adapt cs (New config st)) as (Hg & Hmw & _). fold x in Hg, Hmw.
  destruct (New_router (Schema := Schema) (Lib := Lib) config st) as (Hm0 & _ & Hb0 & Hv0 & _).
  rewrite Hm0, Hu, app_nil_r in Hmw.
  assert (routes_valid (app_Router x.1)) as Hv by by apply (gr_valid _ _ Hg).
  assert (built (app_Router x.1) = false) as Hb by by rewrite (gr_built _ _ Hg).
  destruct (prepare_json_entry types reflect n x.1 a' l1 site l2 Hv Hprep Hb Hdocs)
    as (r' & schema & es1 & e & es2 & Hext & Hr' & Hgen & He & Hme & Hpe & Hhe & Hwe & Hne & Hlast).
  rewrite Hr' in *. split; [apply (ext_entries _ _ Hext)|].
  pose proof (GenerateSchema_denotes types Ht Hz n (docs_Title site) (docs_Desc site)
    (doc_routes reflect site (app_Router x.1)) (docs_Security site) Htitle Hdesc Hq Hs Hr) as Hdoc.
  rewrite Hgen in Hdoc. destruct (document _ _ _ _ _ _) as [doc|]; [|done]. injection Hdoc as Hdoc.
  assert (compiled r' e = apply_chain [Recover; SecurityHeaders] (Some (page (B "application/json") schema))) as Hc.
  { unfold compiled, entry_chain. rewrite (ext_middlewares _ _ Hext), Hmw, Hwe, Hhe, Hne.
    by destruct (authMiddleware r'). }
  eexists doc, _. split; [done|]. split.
  { unfold main_handler. apply panicGuard_ret. rewrite Hr'. unfold HandleRequest. cbn [snd].
    change (Build (build r')) with (build r').
    erewrite (literal_dispatch r' es1 e es2 s); try done.
    - apply (run_page (B "application/json") schema r' s).
    - rewrite Hpe. by apply lit_slashed.
    - intros e' Hin _. destruct (Hlast e' Hin) as (path & Hpath & ->). rewrite Hpe. by apply Hlater.
    - congruence.
    - by rewrite Hpe. }
  cbn [fst snd ctx_Response on_response]. split_and!; [done| | |].
  - rewrite status_SetBody, status_SetContentType. apply secured_status.
  - by rewrite ctype_SetBody, ctype_set.
  - by rewrite body_set.
Qed.
End documentation.

(** ** Witnesses *)

Section witnesses.
Local Existing Instances SimpleMQTT.simple_mqtt.
Import Simple.
Local Existing Instances simple_http simple_laws.
Definition tok_claims : claims := {[B "exp" := VInt 100]}.
Local Existing Instance SimpleFold.ascii_fold.
Local Instance lib : JWTLib := SimpleJWT.lib [(B "tok", (B "key", tok_claims))].
Local Instance lib_laws : JWTLaws lib := SimpleJWT.lib_laws _.

Definition heap : Type := list (@handler unit bytes nat SimpleMQTT.simple_mqtt).
Definition world : Type := heap * Z.
Local Instance world_heap : Has heap world.
Proof. by refine {| view := fst; over f x := (f x.1, x.2) |}. Defined.
Local Instance world_clock : Clock world := snd.

Definition upgrade (chk : RequestCtx → bool) : M (RequestCtx * world) bool := λ s, (Ret (chk s.1), s).
Definition exec (x : unit) (c : option Z) (i : bool) : RequestHandler world := mret tt.
Definition no_page (path : bytes) : RequestHandler world := mret tt.
Definition no_adapter (p : handler_ptr) : RequestHandler world := mret tt.
Local Abbreviation run_calls := (app_run (R := bytes) upgrade exec no_page no_adapter).
Local Abbreviation new_app := (New (Schema := unit) (R := bytes) (Lib := SimpleMQTT.simple_mqtt)).
Local Abbreviation prepared := (prepare (R := bytes) Demo.types reflect 10).

Definition shop (mux docs : bool) (secret : bytes) : @Config simple_http world :=
  mkConfig (mkServerConfig (B "Shop") false 0 None [] mux 0 0 0 0 [] []) (mkRoutingConfig false false)
    (mkDocsConfig docs [] [] [] [] false [] [] None) (mkJWTConfig secret [] None) SecurityBearer.
Definition chat : WebSocketServer :=
  NewWebSocketServer (mkWebSocketConfig (mkProtocolConfig true 0 [] [] []) [] 1 0 0 0 0 0 [] false)
    (mkCallbacks true true true).
Definition start_world : world := ([HWebSocket chat], 5%Z).
Definition users_route : list (@app_call simple_http world bytes) :=
  [CallRoute (B "GET") (B "/users/:id") None []; CallRouteInfo (WithResponse (VOpaque 1)) 0].
Definition client (path : bytes) (hs : headers) : @RequestCtx simple_http :=
  mkRequestCtx simple_http (mkRequest (B "GET") path (B "example.com") [] hs [])
    (mkResponse 200 [] [] []) (B "192.0.2.1") false.

Definition no_op : RequestHandler world := mret tt.

(** A documented application, prepared. *)
Definition documented_app := run_calls users_route (new_app (shop false true []) start_world).
Definition documented_ready : @App simple_http world bytes :=
  match prepared documented_app.1 with Some (inr a) => a | _ => documented_app.1 end.
Lemma documented_prepared : prepared documented_app.1 = Some (inr documented_ready).
Proof.
  assert (match prepared documented_app.1 with Some (inr _) => true | _ => false end = true) as Hok
    by (vm_compute; reflexivity).
  unfold documented_ready. by destruct (prepared documented_app.1) as [[e|a]|].
Qed.
Definition shop_doc : DocsConfig :=
  mkDocsConfig false (B "/docs") (B "Shop API Reference") [] (B "Shop API Reference") false [] SecurityBearer None.

Lemma documentation_answered_witness :
  ∃ doc s', main_handler documented_ready (client (B "/docs/openapi.json") [], start_world) = (Ret tt, s') ∧
    parse_json (res_Body (ctx_Response s'.1)) = Some doc.
Proof.
  destruct (documentation_answered upgrade exec no_page no_adapter Demo.types reflect
    (shop false true []) start_world users_route 10 documented_ready [] shop_doc []
    (client (B "/docs/openapi.json") [], start_world)) as (_ & doc & s' & _ & Hm & _ & _ & _ & Hp).
  - exact Demo.types_safe.
  - reflexivity.
  - reflexivity.
  - exact documented_prepared.
  - reflexivity.
  - reflexivity.
  - reflexivity.
  - reflexivity.
  - reflexivity.
  - by apply Forall_singleton.
  - by apply litb_lit.
  - intros path ->%list_elem_of_singleton Hk. vm_compute in Hk. discriminate.
  - reflexivity.
  - reflexivity.
  - exists doc, s'. split; [exact Hm|exact Hp].
Defined.

(** A protected application with a chat server on its port. *)
Definition chat_app := run_calls users_route
  (RegisterProtocol upgrade exec no_page no_adapter 0 (new_app (shop true false (B "key")) start_world).1 start_world).
Definition chat_ready : @App simple_http world bytes :=
  match prepared chat_app.1 with Some (inr a) => a | _ => chat_app.1 end.
Lemma chat_prepared : prepared chat_app.1 = Some (inr chat_ready).
Proof.
  assert (match prepared chat_app.1 with Some (inr _) => true | _ => false end = true) as Hok
    by (vm_compute; reflexivity).
  unfold chat_ready. by destruct (prepared chat_app.1) as [[e|a]|].
Qed.
Definition registered_chat : WebSocketServer := ws_SetFastHTTPOuterMiddleware (set_auth (B "key") default_lookup chat).
Definition handshake : @RequestCtx simple_http * world :=
  (client (B "/ws") [(B "Authorization", B "Bearer tok")], ([HWebSocket registered_chat], 5%Z)).

Definition chat_key : bytes := route_key (app_Router chat_ready) (slashed (ws_Path (ws_config chat))).

Lemma mounted_websocket_witness :
  main_handler chat_ready handshake = (Ret tt, secured_request handshake).
Proof.
  destruct (mounted_websocket upgrade exec no_page no_adapter Demo.types reflect
    (shop true false (B "key")) start_world [] 0 users_route 10 chat_ready
    (effective (mkJWTConfig (B "key") [] None)) chat registered_chat ∅ handshake) as (_ & _ & Hup).
  - reflexivity.
  - reflexivity.
  - reflexivity.
  - by apply litb_lit.
  - reflexivity.
  - reflexivity.
  - reflexivity.
  - discriminate.
  - reflexivity.
  - reflexivity.
  - exact chat_prepared.
  - intros e He Hk. assert (forallb (λ e, negb (beqb (route_key (app_Router chat_ready) (e_path e)) chat_key))
      (drop 7 (entries (app_Router chat_ready))) = true) as Hall by (vm_compute; reflexivity).
    apply (forallb_elem _ _ e Hall), negb_true_iff, beqb_neq in He. exact (He Hk).
  - intros e He Hk. assert (forallb (λ e, negb (beqb (route_key (app_Router chat_ready) (e_path e)) chat_key)
        || negb (info_NoAuth (app_Router chat_ready) (e_info e)))
      (entries (app_Router chat_ready)) = true) as Hall by (vm_compute; reflexivity).
    apply (forallb_elem _ _ e Hall), orb_true_iff in He as [He|He].
    + apply negb_true_iff, beqb_neq in He. exact (False_ind _ (He Hk)).
    + apply negb_true_iff in He. exact He.
  - reflexivity.
  - reflexivity.
  - reflexivity.
  - by left.
  - reflexivity.
  - reflexivity.
  - apply (Hup) with (b := true); [|vm_compute; intros Hle; by apply Hle|reflexivity].
    exists tok_claims. apply ValidateJWT_inl. vm_compute. reflexivity.
Defined.

(** A protected application with ConnectRPC services on its port, behind [GET /users/:id]. *)
Definition services (p : handler_ptr) : RequestHandler world := rh_response (res_SetBody (B "rpc")).
Definition rpc : ConnectServer := NewConnectServer (mkGRPCConfig (mkProtocolConfig true 0 [] [] []) 0 0 0 0).
Definition rpc_app := app_run (R := bytes) upgrade exec no_page services users_route
  (RegisterProtocol upgrade exec no_page services 0 (new_app (shop true false (B "key")) ([HConnect rpc], 5%Z)).1
     ([HConnect rpc], 5%Z)).
Definition rpc_ready : @App simple_http world bytes :=
  match prepared rpc_app.1 with Some (inr a) => a | _ => rpc_app.1 end.
Lemma rpc_prepared : prepared rpc_app.1 = Some (inr rpc_ready).
Proof.
  assert (match prepared rpc_app.1 with Some (inr _) => true | _ => false end = true) as Hok
    by (vm_compute; reflexivity).
  unfold rpc_ready. by destruct (prepared rpc_app.1) as [[e|a]|].
Qed.
Definition registered_rpc : ConnectServer := set_auth (B "key") default_lookup rpc.
Definition rpc_call : @RequestCtx simple_http * world :=
  (client (B "/shop.Cart/Add") [(B "Authorization", B "Bearer tok")], ([HConnect registered_rpc], 5%Z)).

Lemma mounted_connect_witness :
  main_handler rpc_ready rpc_call = (Ret tt, (services 0 (secured_request rpc_call)).2).
Proof.
  destruct (mounted_connect upgrade exec no_page services Demo.types reflect
    (shop true false (B "key")) ([HConnect rpc], 5%Z) [] 0 users_route 10 rpc_ready
    (effective (mkJWTConfig (B "key") [] None)) rpc registered_rpc rpc_call) as (_ & Hok).
  - reflexivity.
  - reflexivity.
  - reflexivity.
  - reflexivity.
  - reflexivity.
  - discriminate.
  - reflexivity.
  - exact rpc_prepared.
  - intros e He Hp. assert (forallb (λ e, negb (beqb (e_path e) (B "/*path"))
        || negb (info_NoAuth (app_Router rpc_ready) (e_info e)))
      (entries (app_Router rpc_ready)) = true) as Hall by (vm_compute; reflexivity).
    apply (forallb_elem _ _ e Hall), orb_true_iff in He as [He|He].
    + apply negb_true_iff, beqb_neq in He. exact (False_ind _ (He Hp)).
    + apply negb_true_iff in He. exact He.
  - reflexivity.
  - reflexivity.
  - by left.
  - vm_compute. discriminate.
  - intros e He Hme. assert (forallb (λ e,
        match path_match (app_Router rpc_ready) (route_pattern (app_Router rpc_ready) e)
                (request_path (app_Router rpc_ready) rpc_call) with None => true | Some _ => false end)
      (take 0 (entries (app_Router rpc_ready)) ++ drop 7 (entries (app_Router rpc_ready))) = true) as Hall
      by (vm_compute; reflexivity).
    apply (forallb_elem _ _ e Hall) in He. revert He.
    generalize (path_match (app_Router rpc_ready) (route_pattern (app_Router rpc_ready) e)
                  (request_path (app_Router rpc_ready) rpc_call)). intros [l|] He; [discriminate He|reflexivity].
  - reflexivity.
  - apply Hok; [|reflexivity]. split; exists tok_claims; apply ValidateJWT_inl; vm_compute; reflexivity.
Defined.

Definition crashed {A} (o : outcome A) : bool := match o with Crash _ => true | _ => false end.

(** The chat server on a port of its own, with one more middleware. *)
Definition noting (next : RequestHandler world) : RequestHandler world :=
  rh_response (res_AppendBody (B "note ")) ;; next.
Definition own_port := run_calls [CallRegister 0; CallUseProtocol [noting]] (new_app (shop false false []) start_world).
Lemma standalone_servers_witness :
  ∃ s', chainProtocolFastHTTP [MiddlewareAsProtocol Recover; MiddlewareAsProtocol SecurityHeaders; noting]
     (ws_handleRequest upgrade (live_ws (Schema := unit) (R := bytes) (Lib := SimpleMQTT.simple_mqtt) 0);; mret tt)
     handshake = (Ret tt, s').
Proof.
  pose proof (standalone_servers (Schema := unit) (Lib := SimpleMQTT.simple_mqtt) upgrade exec no_page no_adapter
    (shop false false []) start_world [CallRegister 0; CallUseProtocol [noting]] (B "websocket") 0 (inl 1) None 1) as Hs.
  cbv zeta in Hs. fold own_port in Hs.
  assert (deref 0 own_port.2 = Some (HWebSocket (ws_SetFastHTTPOuterMiddleware chat))) as Hd by reflexivity.
  rewrite Hd in Hs. destruct (Hs _ ltac:(reflexivity) eq_refl) as [-> Hans].
  destruct (Hans handshake) as [Hret|(v & s' & Hcr & _)]; [exact Hret|].
  apply (f_equal (λ x, crashed x.1)) in Hcr. vm_compute in Hcr. discriminate Hcr.
Defined.

(** ** What the model showed *)

(** A lookup without a colon is replaced by the default in the HTTP middleware, but reaches
    the protocol servers as it is: the same token opens the routes and no server. *)
Example bare_lookup_closes_servers :
  let cfg : JWTConfig world := mkJWTConfig (B "key") (B "Authorization") None in
  let s := ((client (B "/ws") [(B "Authorization", B "Bearer tok")], start_world) : RequestCtx * world) in
  (call (JWT cfg (Some (lift no_op))) (fresh_ctx s.1, s.2)).1 = Ret None ∧
  res_StatusCode (ctx_Response (c_RequestCtx (call (JWT cfg (Some (lift no_op))) (fresh_ctx s.1, s.2)).2.1)) = 200%Z ∧
  checkAuth 5 (set_auth (Secret cfg) (TokenLookup cfg) chat) s.1 = false.
Proof. split_and!; vm_compute; reflexivity. Qed.

(** A protocol server behind [Timeout] answers into the context of the connection, and what
    [Timeout] then publishes, the response of its empty copy, replaces the answer. *)
Example timeout_empties_protocol_response :
  let answer : RequestHandler world := rh_response (res_SetBody (B "hello")) in
  let s := ((client (B "/ws") [], start_world) : RequestCtx * world) in
  let behind := MiddlewareAsProtocol (Timeout (mkResponse 200 [] [] []) (λ _, true) id) answer in
  res_Body (ctx_Response (answer s).2.1) = B "hello" ∧ res_Body (ctx_Response (behind s).2.1) = [].
Proof. split; vm_compute; reflexivity. Qed.

(** A ConnectRPC server ignores the lookup it was given: the token the application asks
    for is not the one its services ask for. *)
Example connect_ignores_lookup :
  let c := set_auth (B "key") (B "header:X-Token") rpc in
  let s := ((client (B "/shop.Cart/Add") [(B "X-Token", B "tok")], ([HConnect c], 5%Z)) : RequestCtx * world) in
  let out := cs_HTTPHandler (live_connect (Schema := unit) (R := bytes) (Lib := SimpleMQTT.simple_mqtt) 0) (services 0) s in
  ExtractToken (fresh_ctx s.1) (cs_lookup c) = B "tok" ∧ res_StatusCode (ctx_Response out.2.1) = 401%Z.
Proof. split; vm_compute; reflexivity. Qed.
End witnesses.
