(* ===== verification/Serve.v ===== *)
(** * Running the application ([app.go], [app_unix.go], [app_windows.go], [protocol.go])

    [Listen] and [ListenGraceful] from the configuration to the return of the server,
    and the master process that supervises children. The operating system's answers
    are arguments: the outcome of binding, what ended the server, the pids of started
    processes and the results of [wait4]. What a goroutine does is sequenced before the
    event that ends the server. *)

From S2P Require Import Prelude GoStrings Fold Node Effects FastHTTP Core Router Quote Json OpenApi Middleware Jwt Protocol Mcp Mqtt WebSocket GraphQL Grpc App Docs.

(** ** The process model *)

(** [app_unix.go], [app_windows.go] *)
Inductive platform := Unix | Windows.
Definition multiprocessSupported (os : platform) : bool :=
  match os with Unix => true | Windows => false end.

(** Whether [getListenConfig] sets [SO_REUSEPORT] on the socket. *)
Definition getListenConfig (os : platform) (multiprocess : bool) : bool :=
  match os with Unix => multiprocess | Windows => false end.

(** [cmd.Start()] *)
Inductive spawn_result := Spawned (pid : Z) | SpawnFailed (e : error).
(** [syscall.Wait4(-1, ..)] *)
Inductive wait_result := Reaped (pid : Z) | Interrupted | WaitFailed.

Abbreviation children := (gmap Z bytes).
Definition active : bytes := B "active".

(** The loop that starts the children: [i] have been started, [num] are left, the call
    of [spawn] number [i] answers [spawns i]. The error leaves the ones already started. *)
Fixpoint start_children (num i : nat) (spawns : nat → spawn_result) (cs : children)
  : option error * children :=
  match num with
  | 0 => (None, cs)
  | S num' =>
      match spawns i with
      | Spawned pid => start_children num' (S i) spawns (<[pid := active]> cs)
      | SpawnFailed e =>
          (Some (Err (B "failed to start child process " ++ format_int (Z.of_nat (S i)) ++ B " of " ++
                      format_int (Z.of_nat (i + num)) ++ B ": " ++ err_Error e)), cs)
      end
  end.

(** [restartChild] *)
Definition restart_child (s : spawn_result) (cs : children) : children :=
  match s with Spawned pid => <[pid := active]> cs | SpawnFailed _ => cs end.

(** One turn of [startMonitor]'s loop on Unix, [None] when it returns; [s] is what
    starting a process answers if one is started. *)
Definition monitor_step (w : wait_result) (s : spawn_result) (cs : children) : option children :=
  match w with
  | Reaped pid =>
      match cs !! pid with
      | Some _ => Some (restart_child s (delete pid cs))
      | None => Some cs
      end
  | Interrupted => Some cs
  | WaitFailed => None
  end.

(** The monitor over what [wait4] answers; on Windows it does nothing. *)
Fixpoint monitor (events : list (wait_result * spawn_result)) (cs : children) : children :=
  match events with
  | [] => cs
  | (w, s) :: events =>
      match monitor_step w s cs with Some cs => monitor events cs | None => cs end
  end.
Definition startMonitor (os : platform) (events : list (wait_result * spawn_result)) (cs : children)
  : children := match os with Unix => monitor events cs | Windows => cs end.

(** [superviseChildren] until the master is signalled. *)
Definition num_children (configured numCPU : Z) : nat :=
  Z.to_nat (if (configured <=? 0)%Z then numCPU else configured).
Definition superviseChildren (os : platform) (configured numCPU : Z) (spawns : nat → spawn_result)
    (events : list (wait_result * spawn_result)) : option error * children :=
  match start_children (num_children configured numCPU) 0 spawns ∅ with
  | (Some e, cs) => (Some e, cs)
  | (None, cs) => (None, startMonitor os events cs)
  end.

(** ** Port multiplexing

    The matchers in the order they are tried: gRPC by its HTTP/2 headers, MQTT by the
    first byte of a CONNECT, HTTP for the rest, connections that end early included. *)
Inductive mux_target := ToGrpc | ToMqtt | ToHttp.
Definition mux_route (grpc_headers : bytes → bool) (first : bytes) : mux_target :=
  if grpc_headers first then ToGrpc
  else match first with
       | c :: _ => if (nat_of_ascii c =? 16) then ToMqtt else ToHttp
       | [] => ToHttp
       end.

Section serve.
Context `{F : FastHTTP} `{L : JWTLib} `{Cf : CaseFold} {St : Type} `{!Clock St}.
Context {Schema R Hd : Type} `{Lib : MQTTLib Hd}.
Context `{!Has (list (@handler Schema R Hd Lib)) St}.
Context `{U : Unicode} `{Fl : GoFloat} (types : tid → rtype) (reflect : any → model).
(** [Start] and [Stop] of the servers, and the order Go visits the registry in. *)
Context (start stop : handler_ptr → St → option error * St)
        (order : gmap bytes handler_ptr → list (bytes * handler_ptr)).
Local Abbreviation handler := (@handler Schema R Hd Lib).
Local Abbreviation App := (@App F St R).

(** [checkMultiprocess] *)
Definition checkMultiprocess (os : platform) (a : App) : option error :=
  if EnablePortMultiplexing (Server (app_Config a)) then
    Some (Err (B "server.multiprocess cannot be combined with server.enablePortMultiplexing: each child would demultiplex its own connections and run its own protocol servers, so broker subscriptions and sessions would be split across processes"))
  else if negb (multiprocessSupported os) then
    Some (Err (B "server.multiprocess requires SO_REUSEPORT, which windows does not provide: run a single process, or put several instances behind a load balancer"))
  else None.

(** [h.SetListener(ln)] *)
Definition set_listener (ln : nat) (h : handler) : handler :=
  match h with
  | HMcp h => HMcp (Mcp.SetListener ln h)
  | HMqtt h => HMqtt (mqtt_SetListener ln h)
  | HWebSocket h => HWebSocket (ws_SetListener ln h)
  | HGraphQL h => HGraphQL (gs_SetListener _ ln h)
  | HGrpc h => HGrpc (gr_SetListener ln h)
  | HConnect h => HConnect (cs_SetListener ln h)
  | HOther _ _ => h
  end.
(** The loop over [GetAll()]: only gRPC and MQTT are given a listener. *)
Definition inject (grpcLn mqttLn : nat) (a : App) (st : St) : St :=
  fold_left (λ st np,
    match deref (Schema := Schema) (R := R) (Lib := Lib) np.2 st with
    | Some h =>
        if beqb (GetName h) (B "grpc") then update np.2 (set_listener grpcLn) st
        else if beqb (GetName h) (B "mqtt") then update np.2 (set_listener mqttLn) st
        else st
    | None => st
    end) (order (GetAll (Registry a))) st.

(** What the function does outside the process's memory, in order. *)
Inductive action :=
  | Bind (addr : bytes) (reuseport : bool)
  | StartProtocols
  | ServeHTTP (keypair : option (bytes * bytes))
  | ServeMux
  | CloseMux
  | StopProtocols
  | Shutdown
  | RunHooks.

(** What ends a server: [serve] returned, or the process was signalled. *)
Inductive ending := ServeEnded (e : option error) | Signalled.

(** The operating system's part: the error of binding, the listeners cmux makes, the
    end, and what [ShutdownWithContext] answers. *)
Record host := mkHost {
  bind_error : option error;
  ln_grpc : nat;
  ln_mqtt : nat;
  ends : ending;
  shutdown_error : option error;
}.
Definition outcome_of_run : Type := option error * list action * St.

Definition config_error (errs : list bytes) : error :=
  Err (B "configuration validation failed: [" ++ Join errs (B " ") ++ B "]").
Definition bind_failed (e : error) : error := Err (B "failed to listen: " ++ err_Error e).

(** The shutdown after a signal: protocols, then the HTTP server, then the hooks. *)
Definition shut_down (os_answer : option error) (mux : bool) (acts : list action) (a : App) (st : St)
  : outcome_of_run :=
  let st := (StopAll (Schema := Schema) (R := R) (Lib := Lib) stop (order (Registry a)) st).2 in
  (os_answer,
   acts ++ (if mux then [CloseMux] else []) ++ [StopProtocols; Shutdown; RunHooks],
   runShutdownHooks a st).

(** From a prepared application to the return of the server. *)
Definition run_server (h : host) (addr : bytes) (reuseport : bool) (mux_end : option error) (a : App)
    (st : St) : outcome_of_run :=
  match bind_error h with
  | Some e => (Some (bind_failed e), [Bind addr reuseport], st)
  | None =>
      let server := Server (app_Config a) in
      let mux := EnablePortMultiplexing server in
      let st := if mux then inject (ln_grpc h) (ln_mqtt h) a st else st in
      let st := (StartAllProtocols (Schema := Schema) (R := R) (Lib := Lib) start
                   (order (Registry a)) a st).2 in
      let acts := [Bind addr reuseport; StartProtocols; ServeHTTP (serve_mode a)] ++
                  (if mux then [ServeMux] else []) in
      match mux_end with
      | Some e => (Some (Err (B "cmux serve error: " ++ err_Error e)), acts, st)
      | None =>
          match ends h with
          | ServeEnded e => (e, acts, st)
          | Signalled => shut_down (shutdown_error h) mux acts a st
          end
      end
  end.

(** [Listen(addr)]; [mux_end] is an error of the multiplexer, when that comes first. *)
Definition Listen (n : nat) (h : host) (addr : bytes) (mux_end : option error)
    (a : App) (st : St) : option outcome_of_run :=
  x ← prepare types reflect n a;
  match x with
  | inl errs => Some (Some (config_error errs), [], st)
  | inr a =>
      Some (run_server h addr false
              (if EnablePortMultiplexing (Server (app_Config a)) then mux_end else None) a st)
  end.

(** [ListenGraceful(addr)]; [child] is [os.Getenv("GOICHI_CHILD") == "1"], [master] what
    [superviseChildren] returns. The multiplexer's error is not reported. *)
Definition ListenGraceful (n : nat) (os : platform) (child : bool)
    (master : option error) (h : host) (addr : bytes) (a : App) (st : St) : option outcome_of_run :=
  let single :=
    x ← prepare types reflect n a;
    match x with
    | inl errs => Some (Some (config_error errs), [], st)
    | inr a => Some (run_server h addr (getListenConfig os (Multiprocess (Server (app_Config a)))) None a st)
    end in
  if Multiprocess (Server (app_Config a)) then
    match checkMultiprocess os a with
    | Some e => Some (Some e, [], st)
    | None => if child then single else Some (master, [], st)
    end
  else single.

(** [StartProtocols(ctx, names...)] *)
Fixpoint StartProtocols_names (names : list bytes) (a : App) (st : St) : option error * St :=
  match names with
  | [] => (None, st)
  | name :: names =>
      match Registry a !! name with
      | None => (Some (Err (B "protocol not found: " ++ name)), st)
      | Some p =>
          match start p st with
          | (Some e, st) => (Some e, st)
          | (None, st) => StartProtocols_names names a st
          end
      end
  end.
End serve.
