(* ===== verification/ServeProps.v ===== *)
(** * Properties of the process model and of starting and stopping *)

From S2P Require Import Prelude GoStrings Fold Node Effects FastHTTP Core Router Quote Json OpenApi Middleware Jwt Protocol Mcp Mqtt WebSocket GraphQL Grpc App AppProps Docs Serve.

(** ** The supervisor *)

(** The operating system's side: [procs] are the children the master started for itself and
    that are not reaped yet. [wait4] may reap one of them or any other child of the process,
    whose pid none of them has then; a new process gets a pid none of them has; [wait4]
    fails only when there is no child left. *)
Definition os_step (e : wait_result * spawn_result) (procs : gset Z) : gset Z :=
  match e with
  | (Reaped pid, s) =>
      if decide (pid ∈ procs) then
        match s with Spawned p => {[p]} ∪ procs ∖ {[pid]} | SpawnFailed _ => procs ∖ {[pid]} end
      else procs
  | _ => procs
  end.
Fixpoint os_run (events : list (wait_result * spawn_result)) (procs : gset Z) : gset Z :=
  match events with
  | [] => procs
  | (WaitFailed, _) :: _ => procs
  | e :: events => os_run events (os_step e procs)
  end.
Fixpoint os_allows (events : list (wait_result * spawn_result)) (procs : gset Z) : Prop :=
  match events with
  | [] => True
  | (WaitFailed, _) :: _ => procs = ∅
  | (w, s) :: events =>
      match w, s with
      | Reaped pid, Spawned p => pid ∈ procs → p ∉ procs ∖ {[pid]}
      | _, _ => True
      end ∧ os_allows events (os_step (w, s) procs)
  end.
(** Restarts that failed, until the monitor returns. *)
Fixpoint failed_restarts (events : list (wait_result * spawn_result)) (procs : gset Z) : nat :=
  match events with
  | [] => 0
  | (WaitFailed, _) :: _ => 0
  | e :: events =>
      match e with
      | (Reaped pid, SpawnFailed _) => if decide (pid ∈ procs) then 1 else 0
      | _ => 0
      end + failed_restarts events (os_step e procs)
  end.

Lemma monitor_population events (cs : children) :
  os_allows events (dom cs) →
  dom (monitor events cs) = os_run events (dom cs) ∧
  size (monitor events cs) + failed_restarts events (dom cs) = size cs.
Proof.
  revert cs. induction events as [|[w s] events IH]; intros cs Hos;
    [by rewrite Nat.add_0_r|].
  destruct w as [pid| |]; cbn [monitor monitor_step os_run os_allows failed_restarts os_step] in *;
    [|by apply IH; destruct Hos|by rewrite Nat.add_0_r].
  destruct Hos as [Hfresh Hos]. destruct (cs !! pid) as [a|] eqn:Ha.
  2: { apply not_elem_of_dom in Ha. rewrite decide_False in Hos |- * by done.
       rewrite decide_False by done. destruct s; by apply IH. }
  assert (pid ∈ dom cs) as Hpid by by apply elem_of_dom. rewrite !decide_True in Hos |- * by done.
  assert (size cs = S (size (delete pid cs))) as Hsize.
  { rewrite <- (insert_delete_id cs pid a Ha) at 1. rewrite map_size_insert_None; [done|].
    apply lookup_delete_eq. }
  destruct s as [p|e]; cbn [restart_child] in *.
  - destruct (IH (<[p := active]> (delete pid cs))) as [H1 H2].
    { by rewrite dom_insert_L, dom_delete_L. }
    rewrite dom_insert_L, dom_delete_L in H1, H2. split; [done|].
    rewrite Nat.add_0_l, H2, Hsize, map_size_insert_None; [done|]. apply not_elem_of_dom.
    rewrite dom_delete_L. by apply Hfresh.
  - destruct (IH (delete pid cs)) as [H1 H2]; [by rewrite dom_delete_L|].
    rewrite dom_delete_L in H1, H2. rewrite (decide_True (P := pid ∈ dom cs)) by done.
    split; [done|]. lia.
Qed.

(** The pids of the first children. *)
Definition started (spawns : nat → spawn_result) (k : nat) : gset Z :=
  list_to_set (omap (λ i, match spawns i with Spawned p => Some p | SpawnFailed _ => None end) (seq 0 k)).
(** Processes alive at the same time have different pids. *)
Definition distinct_pids (spawns : nat → spawn_result) (k : nat) : Prop :=
  ∀ i p, i < k → spawns i = Spawned p → p ∉ started spawns i.

Lemma started_S spawns k :
  started spawns (S k) = started spawns k ∪ match spawns k with Spawned p => {[p]} | _ => ∅ end.
Proof.
  unfold started. rewrite seq_S, omap_app, list_to_set_app_L. f_equal. cbn [omap list_omap Nat.add].
  destruct (spawns k); [by rewrite list_to_set_singleton_L || set_solver|done].
Qed.

Lemma start_children_population num i spawns cs cs' :
  distinct_pids spawns (i + num) → dom cs = started spawns i → size cs = i →
  start_children num i spawns cs = (None, cs') →
  dom cs' = started spawns (i + num) ∧ size cs' = i + num.
Proof.
  revert i cs. induction num as [|num IH]; intros i cs Hd Hdom Hsize; cbn [start_children].
  { intros [= <-]. by rewrite Nat.add_0_r. }
  destruct (spawns i) as [p|e] eqn:E; [|done]. intros Hs.
  assert (p ∉ started spawns i) as Hp by (apply (Hd i p); [lia|done]).
  rewrite <- Nat.add_succ_comm in *. apply (IH (S i)) in Hs; [done|done| |].
  - rewrite dom_insert_L, Hdom, started_S, E. set_solver.
  - rewrite map_size_insert_None; [lia|]. apply not_elem_of_dom. by rewrite Hdom.
Qed.

(** C32 Whatever the children do, whichever pids they get and whichever other children of
    the process [wait4] reaps, the master's table is exactly the set of the processes it
    started that are not reaped yet: none is forgotten, none is restarted twice, and nothing
    is started for a process that was not one of them. Their number is the one configured,
    less the restarts that failed. *)
Theorem supervisor_population configured numCPU spawns events cs :
  let num := num_children configured numCPU in
  distinct_pids spawns num → os_allows events (started spawns num) →
  superviseChildren Unix configured numCPU spawns events = (None, cs) →
  dom cs = os_run events (started spawns num) ∧ size cs + failed_restarts events (started spawns num) = num.
Proof.
  intros num Hd Hos. unfold superviseChildren. fold num.
  destruct (start_children num 0 spawns ∅) as [[e|] cs0] eqn:E; [done|]. intros [= <-].
  apply start_children_population in E as [Hdom Hsize]; [|done|by rewrite dom_empty_L|by rewrite map_size_empty].
  cbn [Nat.add] in *. rewrite <- Hdom in Hos. destruct (monitor_population _ _ Hos) as [H1 H2].
  by rewrite Hdom, Hsize in *.
Qed.

(** Starting the children either starts them all or fails with the first that does not
    start, and then the ones before it are left running. *)
Lemma start_children_total num i spawns cs :
  (start_children num i spawns cs).1 = None ↔ ∀ j, i ≤ j < i + num → ∃ p, spawns j = Spawned p.
Proof.
  revert i cs. induction num as [|num IH]; intros i cs; cbn [start_children].
  { split; [intros _ j Hj; lia|done]. }
  destruct (spawns i) as [p|e] eqn:E.
  - rewrite IH. split; intros Hj j Hr.
    + destruct (decide (j = i)) as [->|]; [by exists p|]. apply Hj. lia.
    + apply Hj. lia.
  - split; [done|]. intros Hj. destruct (Hj i) as [p Hp]; [lia|]. congruence.
Qed.

(** ** Starting and stopping *)

Section lifecycle.
Context `{F : FastHTTP} `{L : JWTLib} `{Cf : CaseFold} {St : Type} `{!Clock St}.
Context {Schema R Hd : Type} `{Lib : MQTTLib Hd}.
Context `{!Has (list (@handler Schema R Hd Lib)) St}.
Context `{U : Unicode} `{Fl : GoFloat} (types : tid → rtype) (reflect : any → model).
Context (start stop : handler_ptr → St → option error * St)
        (order : gmap bytes handler_ptr → list (bytes * handler_ptr)).
Local Abbreviation handler := (@handler Schema R Hd Lib).
Local Abbreviation App := (@App F St R).
Local Abbreviation Listen := (Listen (Schema := Schema) (R := R) (Lib := Lib) types reflect start stop order).
Local Abbreviation ListenGraceful :=
  (ListenGraceful (Schema := Schema) (R := R) (Lib := Lib) types reflect start stop order).

(** Nothing is bound or started on an invalid configuration. *)
Lemma Listen_fails_fast n h addr mux_end (a : App) st :
  ValidateConfig a ≠ [] →
  Listen n h addr mux_end a st = Some (Some (config_error (ValidateConfig a)), [], st).
Proof.
  intros Hv. unfold Serve.Listen, prepare. destruct (ValidateConfig a); [done|]. reflexivity.
Qed.

(** The shutdown hooks run exactly when a signal ended a server that was bound, after
    the protocols and the HTTP server were stopped. *)
Lemma hooks_run_on_signal_only h addr reuse mux_end (a : App) st e acts st' :
  run_server (Schema := Schema) (R := R) (Lib := Lib) start stop order h addr reuse mux_end a st
    = (e, acts, st') →
  (In RunHooks acts ↔ bind_error h = None ∧ mux_end = None ∧ ends h = Signalled) ∧
  (In RunHooks acts → ∃ pre, acts = pre ++ [StopProtocols; Shutdown; RunHooks] ∧ ¬ In RunHooks pre).
Proof.
  unfold run_server. destruct (bind_error h) as [be|].
  { intros H. inversion H; subst. simpl. split; naive_solver. }
  set (mux := EnablePortMultiplexing (Server (app_Config a))).
  assert (∀ pre, pre = [Bind addr reuse; StartProtocols; ServeHTTP (serve_mode a)] ++
            (if mux then [ServeMux] else []) → ¬ In RunHooks pre ∧
            ¬ In RunHooks (pre ++ if mux then [CloseMux] else [])) as Hpre.
  { intros pre ->. destruct mux; simpl; naive_solver. }
  destruct (Hpre _ eq_refl) as [H1 H2].
  destruct mux_end as [me|]; [|destruct (ends h) as [se|] eqn:Ee].
  - intros H. apply (f_equal (λ x, x.1.2)) in H. cbn [fst snd] in H. subst acts. split; [|by intros ?%H1].
    split; [by intros ?%H1|by intros (_ & ? & _)].
  - intros H. apply (f_equal (λ x, x.1.2)) in H. cbn [fst snd] in H. subst acts. split; [|by intros ?%H1].
    split; [by intros ?%H1|by intros (_ & _ & ?)].
  - unfold shut_down. fold mux. intros H. apply (f_equal (λ x, x.1.2)) in H. cbn [fst snd] in H. subst acts.
    assert (In RunHooks
      ((([Bind addr reuse; StartProtocols; ServeHTTP (serve_mode a)] ++
         (if mux then [ServeMux] else [])) ++ (if mux then [CloseMux] else [])) ++
         [StopProtocols; Shutdown; RunHooks])) as Hi.
    { rewrite in_app_iff. simpl. auto 10. }
    rewrite !app_assoc in *. split; [by split|]. intros _. by eexists.
Qed.


(** *** Listeners of a multiplexed port *)

(** The server as it is once the listener for it has been set. *)
Definition muxed (grpcLn mqttLn : nat) (h : handler) : handler :=
  if beqb (GetName h) (B "grpc") then set_listener grpcLn h
  else if beqb (GetName h) (B "mqtt") then set_listener mqttLn h else h.

Lemma set_listener_name ln (h : handler) : GetName (set_listener ln h) = GetName h.
Proof. by destruct h. Qed.
Lemma muxed_name g m (h : handler) : GetName (muxed g m h) = GetName h.
Proof. unfold muxed. repeat case_match; by rewrite ?set_listener_name. Qed.
Lemma muxed_idemp g m (h : handler) : muxed g m (muxed g m h) = muxed g m h.
Proof.
  unfold muxed at 1. rewrite muxed_name. unfold muxed. repeat case_match; by destruct h.
Qed.

Lemma deref_inject_step g m (np : bytes * handler_ptr) q (st : St) :
  deref q (match deref (Schema := Schema) (R := R) (Lib := Lib) np.2 st with
           | Some h =>
               if beqb (GetName h) (B "grpc") then update np.2 (set_listener g) st
               else if beqb (GetName h) (B "mqtt") then update np.2 (set_listener m) st
               else st
           | None => st
           end)
  = (if decide (np.2 = q) then muxed g m <$> deref q st else (deref q st : option handler)).
Proof.
  destruct (decide (np.2 = q)) as [<-|Hne].
  - destruct (deref np.2 st) as [h|] eqn:Hq; [|by rewrite Hq].
    cbn [fmap option_fmap option_map]. unfold muxed. case_match; [|case_match];
      rewrite ?deref_update, ?(decide_True (P := np.2 = np.2)) by done; by rewrite Hq.
  - repeat case_match; rewrite ?deref_update, ?decide_False by done; done.
Qed.

(** After the multiplexer was set up every server of the registry has the listener of
    its protocol, whatever order the registry was visited in; the others are untouched. *)
Lemma inject_listeners g m (a : App) (st : St) q :
  (∀ r : gmap bytes handler_ptr, order r ≡ₚ map_to_list r) →
  deref q (inject (Schema := Schema) (R := R) (Lib := Lib) order g m a st)
  = (if bool_decide (q ∈ (map_to_list (Registry a)).*2) then muxed g m <$> deref q st
     else (deref q st : option handler)).
Proof.
  intros Ho. rewrite (bool_decide_ext _ (q ∈ (order (Registry a)).*2)) by (by rewrite Ho).
  unfold inject, GetAll. generalize (order (Registry a)) as ps. clear Ho. intros ps. revert st.
  induction ps as [|np ps IH]; intros st; [done|]. cbn [fold_left fmap list_fmap].
  rewrite IH, deref_inject_step. clear IH.
  destruct (decide (np.2 = q)) as [->|Hne].
  - rewrite (bool_decide_eq_true_2 (q ∈ q :: _)) by set_solver.
    case_bool_decide; [|done]. destruct (deref q st); simpl; [|done]. by rewrite muxed_idemp.
  - by rewrite (bool_decide_ext (q ∈ np.2 :: ps.*2) (q ∈ ps.*2)) by set_solver.
Qed.
End lifecycle.

(** ** Concrete runs *)

Module Run.
Definition spawns (i : nat) : spawn_result := Spawned (10 + Z.of_nat i)%Z.
Definition events : list (wait_result * spawn_result) :=
  [(Reaped 10, Spawned 12); (Reaped 77, Spawned 13); (Interrupted, Spawned 0); (Reaped 11, SpawnFailed (Err (B "no memory")))]%Z.
End Run.

Lemma supervisor_population_witness :
  dom (superviseChildren Unix 2 8 Run.spawns Run.events).2 = {[12%Z]}.
Proof.
  destruct (supervisor_population 2 8 Run.spawns Run.events
    (superviseChildren Unix 2 8 Run.spawns Run.events).2) as [H _].
  - intros i p Hi Hp. unfold Run.spawns in Hp. assert (i = 0 ∨ i = 1) as [-> | ->]
      by (vm_compute in Hi; lia); injection Hp as <-; vm_compute; set_solver.
  - vm_compute. repeat split; set_solver.
  - vm_compute. reflexivity.
  - rewrite H. vm_compute. reflexivity.
Defined.

(** A child that cannot be started again is given up: nothing retries it. *)
Example failed_restart_is_final :
  dom (monitor [(Reaped 10%Z, SpawnFailed (Err [])); (Interrupted, Spawned 11%Z); (Interrupted, Spawned 12%Z)]
         {[10%Z := active]}) = ∅.
Proof. vm_compute. reflexivity. Qed.
(** When the second child cannot be started the first is left behind. *)
Example failed_start_leaves_children :
  dom (superviseChildren Unix 2 8 (λ i, if (i =? 0) then Spawned 10%Z else SpawnFailed (Err [])) []).2 = {[10%Z]}.
Proof. vm_compute. reflexivity. Qed.
(** A negative number of children is the default for the master, which does not
    validate the configuration. *)
Example negative_children_start : num_children (-3) 4 = 4.
Proof. reflexivity. Qed.
